(** * Importal: the import-job pipeline, embedded and verified

    A shallow embedding of the backend of the importal repository:
    - [app/utils/validator.py] and [app/services/validation_service.py]
      (the field validators),
    - [app/api/v1/imports.py] (single-cell edit, diff-based save, legacy
      bulk save, promotion),
    - [app/workers/api_worker.py] and [app/services/import_service.py]
      (schema resolution, valid/error row separation for webhooks),
    - [app/schemas/importer.py] (conversion of legacy field objects) and
      the status and conflict re-validation endpoints of
      [app/api/v1/imports.py].

    Python dictionaries that are iterated (column mappings, row records)
    are association lists in insertion order; dictionaries and sets that
    are only looked up are [gmap]/[gset].  Exceptions are explicit: a
    Python function that can raise returns an [outcome]. *)

From stdpp Require Import gmap strings list pretty.
From Stdlib Require Import ZArith.
From Stdlib Require Ascii String.

Open Scope Z_scope.

(** ** Python-level base: exceptions, values, dictionaries *)

Module Py.

Inductive exn :=
| KeyError | TypeError | ValueError | NameError | AttributeError | ReError
| FileNotFoundError.

Inductive outcome (A : Type) : Type :=
| Ok (a : A)
| Raise (e : exn).
Arguments Ok {A} a.
Arguments Raise {A} e.

(** Sequencing: an exception in [m] skips [k]. *)
Definition bind {A B} (m : outcome A) (k : A -> outcome B) : outcome B :=
  match m with Ok a => k a | Raise e => Raise e end.

Notation "'do' x <- m ;; k" := (bind m (fun x => k))
  (at level 10, x name, m at level 99, k at level 200, only parsing).

(** [try: c except Exception: h] *)
Definition try_except {A} (c : outcome A) (h : exn -> outcome A) : outcome A :=
  match c with Ok a => Ok a | Raise e => h e end.

(** A spreadsheet cell as it arrives in a request body ([List[List[Any]]]):
    a JSON scalar.  Values read from files are always [CStr]. *)
Inductive cell :=
| CStr (s : string)
| CInt (z : Z)
| CBool (b : bool)
| CNull.

#[global] Instance cell_eq_dec : EqDecision cell.
Proof. solve_decision. Defined.

(** [str(value)] *)
Definition py_str (c : cell) : string :=
  match c with
  | CStr s => s
  | CInt z => pretty z
  | CBool true => "True"
  | CBool false => "False"
  | CNull => "None"
  end.

(** JSON values stored in configuration objects. *)
#[warnings="-register-all"]
Inductive pyval :=
| PNone
| PBool (b : bool)
| PInt (z : Z)
| PStr (s : string)
| PList (l : list pyval)
| PDict (d : list (string * pyval)).

(** A JSON object, i.e. a Python [dict] with string keys, in insertion order. *)
Abbreviation jobj := (list (string * pyval)).

(** [d.get(k)] on an insertion-ordered dictionary. *)
Fixpoint dict_get {V} (d : list (string * V)) (k : string) : option V :=
  match d with
  | [] => None
  | (k', v) :: d' => if decide (k' = k) then Some v else dict_get d' k
  end.

(** [d[k] = v]: overwrite in place when the key exists, append otherwise. *)
Fixpoint dict_set {V} (d : list (string * V)) (k : string) (v : V)
  : list (string * V) :=
  match d with
  | [] => [(k, v)]
  | (k', v') :: d' =>
      if decide (k' = k) then (k', v) :: d' else (k', v') :: dict_set d' k v
  end.

Definition dict_keys {V} (d : list (string * V)) : list string := d.*1.

(** Python truthiness of a JSON value. *)
Definition truthy (v : pyval) : bool :=
  match v with
  | PNone => false
  | PBool b => b
  | PInt z => negb (Z.eqb z 0)
  | PStr s => negb (String.eqb s "")
  | PList l => match l with [] => false | _ => true end
  | PDict d => match d with [] => false | _ => true end
  end.

Definition truthy_str (s : string) : bool := negb (String.eqb s "").

(** [enumerate(l)] *)
Definition enumerate {A} (l : list A) : list (nat * A) :=
  imap (fun i x => (i, x)) l.

End Py.
Export Py.

(** ** Strings: the [str] methods and the fixed patterns of the validators

    A Python [str] is represented by its UTF-8 bytes.  Equality,
    concatenation, and the search for an ASCII character or prefix are the
    same on the bytes as on the characters.  What depends on the Unicode
    character database ([strip], [lower], [upper], [len], the iteration over
    a string, the classes [\d] and [\s] of [re], [float], [strptime]) is
    taken from the library, [PyLib.pylib].  This module defines these
    functions for ASCII text, [isascii]: the library agrees with them
    there. *)

Module PyStr.
Import Stdlib.Strings.Ascii.

Definition chars (s : string) : list ascii := String.list_ascii_of_string s.
Definition text (l : list ascii) : string := String.string_of_list_ascii l.
Definition code (c : ascii) : N := N_of_ascii c.

(** [s.isascii()] *)
Definition isascii (s : string) : bool :=
  forallb (fun c => (code c <? 128)%N) (chars s).

Definition between (lo hi : ascii) (c : ascii) : bool :=
  ((code lo <=? code c) && (code c <=? code hi))%N.

Definition is_char (x : ascii) (c : ascii) : bool := Ascii.eqb x c.

(** [c.isspace()] for an ASCII character, which is also the class [\s] of
    [re] there: tab to carriage return, the separators 28 to 31, and the
    space. *)
Definition is_space (c : ascii) : bool :=
  (((9 <=? code c) && (code c <=? 13)) || ((28 <=? code c) && (code c <=? 32)))%N.

(** The class [\d], among ASCII characters. *)
Definition is_digit (c : ascii) : bool := between "0" "9" c.

Definition digit_val (c : ascii) : Z := Z.of_N (code c) - 48.

(** [int(s)] on a string of digits. *)
Definition int_of_digits (l : list ascii) : Z :=
  fold_left (fun acc c => acc * 10 + digit_val c) l 0.

Definition lower_char (c : ascii) : ascii :=
  if between "A" "Z" c then ascii_of_N (code c + 32) else c.

Definition upper_char (c : ascii) : ascii :=
  if between "a" "z" c then ascii_of_N (code c - 32) else c.

Definition lower (s : string) : string := text (lower_char <$> chars s).
Definition upper (s : string) : string := text (upper_char <$> chars s).

Fixpoint lstrip_chars (l : list ascii) : list ascii :=
  match l with
  | c :: l' => if is_space c then lstrip_chars l' else l
  | [] => []
  end.

Definition strip_chars (l : list ascii) : list ascii :=
  rev (lstrip_chars (rev (lstrip_chars l))).

(** [s.strip()], [s.lower()] and [s.upper()] above, and [len(s)] below, are
    those of ASCII text. *)
Definition strip (s : string) : string := text (strip_chars (chars s)).

(** [s.startswith(p)] *)
Definition startswith (p s : string) : bool := String.prefix p s.

(** [c in s] for a single character. *)
Definition contains_char (c : ascii) (s : string) : bool :=
  existsb (Ascii.eqb c) (chars s).

(** [len(s)] *)
Definition len (s : string) : Z := Z.of_nat (String.length s).

(** [s.replace(a, b)] for single characters. *)
Definition replace_char (a b : ascii) (s : string) : string :=
  text ((fun c => if Ascii.eqb c a then b else c) <$> chars s).

(** [s.split(c)] for a single character. *)
Fixpoint split_chars (sep : ascii) (l cur : list ascii) : list (list ascii) :=
  match l with
  | [] => [rev cur]
  | c :: l' =>
      if Ascii.eqb c sep then rev cur :: split_chars sep l' []
      else split_chars sep l' (c :: cur)
  end.

Definition split (sep : ascii) (s : string) : list string :=
  text <$> split_chars sep (chars s) [].

(** [sep.join(l)] *)
Definition join (sep : string) (l : list string) : string := String.concat sep l.

(** The end of a pattern, [$]: the end of the string, or just before a
    newline that ends it. *)
Definition at_end (l : list ascii) : bool :=
  match l with
  | [] => true
  | [c] => is_char "010" c
  | _ => false
  end.

(** The longest prefix of at most [n] digits, and the rest. *)
Fixpoint span_digits (n : nat) (l : list ascii) : list ascii * list ascii :=
  match n, l with
  | S n', c :: l' =>
      if is_digit c
      then let r := span_digits n' l' in (c :: r.1, r.2)
      else ([], l)
  | _, _ => ([], l)
  end.

(** The delimiter class [[-/\.]] of the date patterns. *)
Definition is_date_delimiter (c : ascii) : bool :=
  is_char "-" c || is_char "/" c || is_char "." c.

(** [re.match(r'^(\d{1,2})[-/\.](\d{1,2})[-/\.](\d{4})$', value)]: the
    three groups of a match.  The delimiters are not digits, so a match, if
    there is one, takes the longest run of digits for each group. *)
Definition match_short_short_year (value : string)
  : option (string * string * string) :=
  let g1 := span_digits 2 (chars value) in
  match g1.1, g1.2 with
  | _ :: _, d1 :: r1 =>
      let g2 := span_digits 2 r1 in
      match g2.1, g2.2 with
      | _ :: _, d2 :: r2 =>
          let g3 := span_digits 4 r2 in
          if is_date_delimiter d1 && is_date_delimiter d2
             && (length g3.1 =? 4)%nat && at_end g3.2
          then Some (text g1.1, text g2.1, text g3.1)
          else None
      | _, _ => None
      end
  | _, _ => None
  end.

(** [re.match(r'^(\d{4})[-/\.](\d{1,2})[-/\.](\d{1,2})$', value)] *)
Definition match_year_short_short (value : string)
  : option (string * string * string) :=
  let g1 := span_digits 4 (chars value) in
  match g1.2 with
  | d1 :: r1 =>
      let g2 := span_digits 2 r1 in
      match g2.1, g2.2 with
      | _ :: _, d2 :: r2 =>
          let g3 := span_digits 2 r2 in
          match g3.1 with
          | _ :: _ =>
              if (length g1.1 =? 4)%nat && is_date_delimiter d1
                 && is_date_delimiter d2 && at_end g3.2
              then Some (text g1.1, text g2.1, text g3.1)
              else None
          | [] => None
          end
      | _, _ => None
      end
  | [] => None
  end.

(** [re.match(r'^\d+$', value)] *)
Definition match_digits (value : string) : bool :=
  match chars value with
  | [] => false
  | c :: l =>
      is_digit c &&
      (forallb is_digit l
       || match rev l with
          | nl :: l' => is_char "010" nl && forallb is_digit l'
          | [] => false
          end)
  end.

(** The class [[^\s@]]. *)
Definition is_email_char (c : ascii) : bool := negb (is_space c) && negb (is_char "@" c).

(** Whether [[^\s@]+\.[^\s@]+$] matches the whole of [l]: a dot with a
    character before it and one after it, and no other kind of character. *)
Fixpoint has_inner_dot (l : list ascii) : bool :=
  match l with
  | a :: ((b :: c :: _) as l') => (is_char "." b) || has_inner_dot l'
  | _ => false
  end.

Definition match_domain (l : list ascii) : bool :=
  let body :=
    match rev l with
    | nl :: l' => if is_char "010" nl then rev l' else l
    | [] => l
    end in
  forallb is_email_char body && has_inner_dot body.

Fixpoint match_email_chars (l : list ascii) (seen : bool) : bool :=
  match l with
  | [] => false
  | c :: l' =>
      if is_char "@" c then seen && match_domain l'
      else if is_space c then false
      else match_email_chars l' true
  end.

(** [re.match(r'^[^\s@]+@[^\s@]+\.[^\s@]+$', value)] *)
Definition match_email (value : string) : bool :=
  match_email_chars (chars value) false.

(** The class [[\d\s\-\(\)]]. *)
Definition is_phone_char (c : ascii) : bool :=
  is_digit c || is_space c || is_char "-" c || is_char "(" c || is_char ")" c.

(** [re.match(r'^[\+]?[\d\s\-\(\)]{7,15}$', value)] *)
Definition match_phone (value : string) : bool :=
  let l := chars value in
  let body := match l with c :: l' => if is_char "+" c then l' else l | [] => l end in
  forallb is_phone_char body
  && ((7 <=? length body)%nat && (length body <=? 15)%nat
      || match rev body with
         | nl :: _ =>
             is_char "010" nl && (8 <=? length body)%nat && (length body <=? 16)%nat
         | [] => false
         end).

End PyStr.

(** ** [float(s)] and the comparisons of a float *)

Module PyFloat.
Import Stdlib.Strings.Ascii PyStr.

(** A double: not a number, an infinity, or the finite value [m * 2^e]. *)
Inductive pyfloat :=
| FNan
| FInf (negative : bool)
| FFin (m e : Z).

(** The white space [float] strips: the C locale's, without the
    separators 28 to 31. *)
Definition is_c_space (c : ascii) : bool :=
  (((9 <=? code c) && (code c <=? 13)) || (code c =? 32))%N.

Fixpoint drop_while_space (l : list ascii) : list ascii :=
  match l with
  | c :: l' => if is_c_space c then drop_while_space l' else l
  | [] => []
  end.

(** Digits with single underscores between them: [digit (_? digit)*]. *)
Fixpoint digit_run (l : list ascii) (acc : list ascii) (fuel : nat)
  : list ascii * list ascii :=
  match fuel, l with
  | S fuel', c :: l' =>
      if is_digit c then
        match l' with
        | u :: ((d :: _) as l'') =>
            if is_char "_" u && is_digit d
            then digit_run l'' (c :: acc) fuel'
            else digit_run l' (c :: acc) fuel'
        | _ => digit_run l' (c :: acc) fuel'
        end
      else (rev acc, l)
  | _, _ => (rev acc, l)
  end.

Definition digits (l : list ascii) : list ascii * list ascii :=
  digit_run l [] (length l).

(** The exponent part [[eE][+-]?digits], if any. *)
Definition exponent (l : list ascii) : option (Z * list ascii) :=
  match l with
  | e :: l' =>
      if is_char "e" e || is_char "E" e then
        let '(neg, l'') :=
          match l' with
          | s :: r => if is_char "-" s then (true, r)
                      else if is_char "+" s then (false, r) else (false, l')
          | [] => (false, l')
          end in
        match digits l'' with
        | ([], _) => None
        | (ds, rest) =>
            Some (if neg then - int_of_digits ds else int_of_digits ds, rest)
        end
      else Some (0, l)
  | [] => Some (0, [])
  end.

(** A decimal literal: the digits of its mantissa and its power of ten. *)
Definition decimal (l : list ascii) : option (list ascii * Z) :=
  let '(ip, r1) := digits l in
  let frac :=
    match r1 with
    | dot :: r2 =>
        if is_char "." dot then
          let '(fp, r3) := digits r2 in
          match ip, fp, r2 with
          | [], [], _ => None
          | _, [], u :: _ => if is_char "_" u then None else Some (fp, r3)
          | _, _, _ => Some (fp, r3)
          end
        else match ip with [] => None | _ => Some ([], r1) end
    | [] => match ip with [] => None | _ => Some ([], r1) end
    end in
  match frac with
  | None => None
  | Some (fp, r) =>
      match exponent r with
      | Some (e, []) => Some (ip ++ fp, e - Z.of_nat (length fp))
      | _ => None
      end
  end.

Definition round_half_even (n d : Z) : Z :=
  let q := n / d in
  let r := n mod d in
  if 2 * r <? d then q
  else if d <? 2 * r then q + 1
  else if Z.even q then q else q + 1.

(** The double nearest to [M * 10^E] for [M > 0] (ties to even). *)
Definition nearest_double (negative : bool) (M E : Z) : pyfloat :=
  let num := if 0 <=? E then M * 10 ^ E else M in
  let den := if 0 <=? E then 1 else 10 ^ (- E) in
  let t := Z.log2 num - Z.log2 den in
  let above :=
    if 0 <=? t then den * 2 ^ t <=? num else den <=? num * 2 ^ (- t) in
  let ex := Z.max ((if above then t else t - 1) - 52) (-1074) in
  let q :=
    if 0 <=? ex then round_half_even num (den * 2 ^ ex)
    else round_half_even (num * 2 ^ (- ex)) den in
  if (971 <? ex) || ((ex =? 971) && (2 ^ 53 <=? q))
  then FInf negative
  else FFin (if negative then - q else q) ex.

(** [float(s)]; [None] is a [ValueError]. *)
Definition float_of_string (s : string) : option pyfloat :=
  let l := rev (drop_while_space (rev (drop_while_space (chars s)))) in
  let '(negative, body) :=
    match l with
    | c :: r => if is_char "-" c then (true, r)
                else if is_char "+" c then (false, r) else (false, l)
    | [] => (false, l)
    end in
  let word := text (lower_char <$> body) in
  if String.eqb word "inf" || String.eqb word "infinity" then Some (FInf negative)
  else if String.eqb word "nan" then Some FNan
  else
    match decimal body with
    | None => None
    | Some (ds, E) =>
        let M := int_of_digits ds in
        Some (if M =? 0 then FFin 0 0 else nearest_double negative M E)
    end.

(** [math.isnan(x)] *)
Definition isnan (x : pyfloat) : bool :=
  match x with FNan => true | _ => false end.

(** [x.is_integer()] *)
Definition is_integer (x : pyfloat) : bool :=
  match x with
  | FFin m e => if 0 <=? e then true else m mod 2 ^ (- e) =? 0
  | _ => false
  end.

(** [x < z] and [x > z] for an integer [z] *)
Definition lt_int (x : pyfloat) (z : Z) : bool :=
  match x with
  | FNan => false
  | FInf negative => negative
  | FFin m e => if 0 <=? e then m * 2 ^ e <? z else m <? z * 2 ^ (- e)
  end.

Definition gt_int (x : pyfloat) (z : Z) : bool :=
  match x with
  | FNan => false
  | FInf negative => negb negative
  | FFin m e => if 0 <=? e then z <? m * 2 ^ e else z * 2 ^ (- e) <? m
  end.

(** [x <= 0] and [x >= 0] *)
Definition le_zero (x : pyfloat) : bool :=
  match x with FNan => false | _ => negb (gt_int x 0) end.

Definition ge_zero (x : pyfloat) : bool :=
  match x with FNan => false | _ => negb (lt_int x 0) end.

End PyFloat.

(** ** [datetime.strptime] for the formats of the validators

    [strptime] turns the format into a regular expression, one group of
    ordered alternatives per directive, takes the first match the
    backtracking search finds, and refuses data that the match leaves
    over; the fields it read must then form a date. *)

Module Strptime.
Import Stdlib.Strings.Ascii PyStr.

Inductive directive :=
| DY | Dm | Dd | DH | DM | DS   (* %Y %m %d %H %M %S *)
| Lit (c : ascii)
| Spaces.                        (* white space in a format: \s+ *)

(** The alternatives of a directive, each a sequence of character classes. *)
Definition alternatives (d : directive) : list (list (ascii -> bool)) :=
  match d with
  | DY => [[is_digit; is_digit; is_digit; is_digit]]
  | Dm => [[is_char "1"; between "0" "2"]; [is_char "0"; between "1" "9"];
           [between "1" "9"]]
  | Dd => [[is_char "3"; between "0" "1"]; [between "1" "2"; is_digit];
           [is_char "0"; between "1" "9"]; [between "1" "9"];
           [is_char " "; between "1" "9"]]
  | DH => [[is_char "2"; between "0" "3"]; [between "0" "1"; is_digit];
           [is_digit]]
  | DM => [[between "0" "5"; is_digit]; [is_digit]]
  | DS => [[is_char "6"; between "0" "1"]; [between "0" "5"; is_digit];
           [is_digit]]
  | Lit c => [[is_char c]]
  | Spaces => []
  end.

Record fields := mkFields {
  year : Z; month : Z; day : Z; hour : Z; minute : Z; second : Z
}.

(** The defaults of [strptime]: 1900-01-01 00:00:00. *)
Definition no_fields : fields := mkFields 1900 1 1 0 0 0.

(** [int(found)] stored into the field of the directive. *)
Definition store (d : directive) (found : list ascii) (f : fields) : fields :=
  let n := int_of_digits (filter (fun c => is_digit c = true) found) in
  match d with
  | DY => mkFields n (month f) (day f) (hour f) (minute f) (second f)
  | Dm => mkFields (year f) n (day f) (hour f) (minute f) (second f)
  | Dd => mkFields (year f) (month f) n (hour f) (minute f) (second f)
  | DH => mkFields (year f) (month f) (day f) n (minute f) (second f)
  | DM => mkFields (year f) (month f) (day f) (hour f) n (second f)
  | DS => mkFields (year f) (month f) (day f) (hour f) (minute f) n
  | Lit _ | Spaces => f
  end.

(** One alternative against the head of the data. *)
Fixpoint take (alt : list (ascii -> bool)) (s : list ascii)
  : option (list ascii * list ascii) :=
  match alt, s with
  | [], _ => Some ([], s)
  | p :: alt', c :: s' =>
      if p c then
        match take alt' s' with
        | Some r => Some (c :: r.1, r.2)
        | None => None
        end
      else None
  | _ :: _, [] => None
  end.

(** What may follow a run of white space, the longest run first. *)
Fixpoint after_spaces (s : list ascii) : list (list ascii) :=
  match s with
  | c :: s' => if is_space c then after_spaces s' ++ [s'] else []
  | [] => []
  end.

(** The first match of the format, in the order of the backtracking
    search, with what it leaves over. *)
Fixpoint run (fmt : list directive) (s : list ascii) (acc : fields)
  : option (fields * list ascii) :=
  match fmt with
  | [] => Some (acc, s)
  | Spaces :: fmt' =>
      (fix try (rests : list (list ascii)) :=
         match rests with
         | [] => None
         | r :: rests' =>
             match run fmt' r acc with
             | Some found => Some found
             | None => try rests'
             end
         end) (after_spaces s)
  | d :: fmt' =>
      (fix try (alts : list (list (ascii -> bool))) :=
         match alts with
         | [] => None
         | alt :: alts' =>
             match take alt s with
             | Some r =>
                 match run fmt' r.2 (store d r.1 acc) with
                 | Some found => Some found
                 | None => try alts'
                 end
             | None => try alts'
             end
         end) (alternatives d)
  end.

Definition is_leap (y : Z) : bool :=
  (y mod 4 =? 0) && (negb (y mod 100 =? 0) || (y mod 400 =? 0)).

Definition days_in_month (y m : Z) : Z :=
  if m =? 2 then (if is_leap y then 29 else 28)
  else if (m =? 4) || (m =? 6) || (m =? 9) || (m =? 11) then 30
  else 31.

(** The fields form a [datetime]. *)
Definition is_datetime (f : fields) : bool :=
  (1 <=? year f) && (year f <=? 9999)
  && (1 <=? month f) && (month f <=? 12)
  && (1 <=? day f) && (day f <=? days_in_month (year f) (month f))
  && (0 <=? hour f) && (hour f <=? 23)
  && (0 <=? minute f) && (minute f <=? 59)
  && (0 <=? second f) && (second f <=? 59).

(** [datetime.strptime(data, fmt)] returns: [false] is a [ValueError]. *)
Definition strptime (data : string) (fmt : list directive) : bool :=
  match run fmt (chars data) no_fields with
  | Some (f, []) => is_datetime f
  | _ => false
  end.

(** The formats of the validators. *)
Definition fmt_mdY := [Dm; Lit "/"; Dd; Lit "/"; DY].     (* %m/%d/%Y *)
Definition fmt_dmY := [Dd; Lit "/"; Dm; Lit "/"; DY].     (* %d/%m/%Y *)
Definition fmt_Ymd_slash := [DY; Lit "/"; Dm; Lit "/"; Dd].  (* %Y/%m/%d *)
Definition fmt_Ymd_dash := [DY; Lit "-"; Dm; Lit "-"; Dd].   (* %Y-%m-%d *)
Definition fmt_Ymd_dot := [DY; Lit "."; Dm; Lit "."; Dd].    (* %Y.%m.%d *)
Definition fmt_Ymd := [DY; Dm; Dd].                        (* %Y%m%d *)
Definition fmt_Ymd_HMS :=                                  (* %Y-%m-%d %H:%M:%S *)
  [DY; Lit "-"; Dm; Lit "-"; Dd; Spaces; DH; Lit ":"; DM; Lit ":"; DS].

End Strptime.

(** ** What the code takes from the Python library and runtime *)

Module PyLib.
Import Stdlib.Strings.Ascii PyStr PyFloat.

(** A format of [strptime] written in ASCII characters. *)
Definition ascii_format (fmt : list Strptime.directive) : bool :=
  forallb (fun d => match d with
                    | Strptime.Lit c => (code c <? 128)%N
                    | _ => true
                    end) fmt.

(** The library functions whose behaviour the repository does not fix.
    First those without a model here: regular expressions given by the
    user, ISO-8601 parsing, URL parsing.  Then those that read the Unicode
    character database: on ASCII text they are the functions of [PyStr],
    [PyFloat] and [Strptime], on other text nothing is assumed of them.
    Last the order in which a loop draws the elements of a [set], which
    depends on the hash seed of the process: it may be any order. *)
Record pylib := mkLib {
  (** [re.match(pattern, value)] finds a match; [Raise ReError] for a
      pattern that does not compile. *)
  re_match : string -> string -> outcome bool;
  (** [datetime.fromisoformat(s)] returns (it raises [ValueError] otherwise). *)
  fromisoformat : string -> bool;
  (** [urlparse(s)]: the scheme and the network location. *)
  urlparse : string -> outcome (string * string);
  (** [s.strip()], [s.lower()], [s.upper()], [len(s)], [list(s)] *)
  py_strip : string -> string;
  py_lower : string -> string;
  py_upper : string -> string;
  py_len : string -> Z;
  py_chars : string -> list string;
  (** [float(s)]; [None] is a [ValueError]. *)
  py_float : string -> option pyfloat;
  (** [re.match] finds a match of [^[^\s@]+@[^\s@]+\.[^\s@]+$], of
      [^[\+]?[\d\s\-\(\)]{7,15}$], of [^\d+$]. *)
  re_email : string -> bool;
  re_phone : string -> bool;
  re_digits : string -> bool;
  (** The groups of a match of [^(\d{1,2})[-/\.](\d{1,2})[-/\.](\d{4})$] and
      of [^(\d{4})[-/\.](\d{1,2})[-/\.](\d{1,2})$]. *)
  re_short_short_year : string -> option (string * string * string);
  re_year_short_short : string -> option (string * string * string);
  (** [datetime.strptime(data, fmt)] returns: [false] is a [ValueError]. *)
  py_strptime : string -> list Strptime.directive -> bool;
  (** The elements of a set, in the order a loop draws them. *)
  set_iter : list string -> list string;
  (** [str(e)] for the exception that ends a run; the model keeps the kind
      of an exception only. *)
  exception_text : exn -> string;
  (** On ASCII text. *)
  py_strip_ascii : forall s, isascii s = true -> py_strip s = strip s;
  py_lower_ascii : forall s, isascii s = true -> py_lower s = lower s;
  py_upper_ascii : forall s, isascii s = true -> py_upper s = upper s;
  py_len_ascii : forall s, isascii s = true -> py_len s = len s;
  py_chars_ascii :
    forall s, isascii s = true -> py_chars s = (fun c => text [c]) <$> chars s;
  py_float_ascii : forall s, isascii s = true -> py_float s = float_of_string s;
  re_email_ascii : forall s, isascii s = true -> re_email s = match_email s;
  re_phone_ascii : forall s, isascii s = true -> re_phone s = match_phone s;
  re_digits_ascii : forall s, isascii s = true -> re_digits s = match_digits s;
  re_short_short_year_ascii :
    forall s, isascii s = true ->
      re_short_short_year s = match_short_short_year s;
  re_year_short_short_ascii :
    forall s, isascii s = true ->
      re_year_short_short s = match_year_short_short s;
  py_strptime_ascii :
    forall data fmt, isascii data = true -> ascii_format fmt = true ->
      py_strptime data fmt = Strptime.strptime data fmt;
  (** A loop over a set draws each element once. *)
  set_iter_perm : forall l, set_iter l ≡ₚ l
}.

(** [repr(v)], for strings without quotes, backslashes or control
    characters in them. *)
Fixpoint py_repr (v : pyval) : string :=
  match v with
  | PNone => "None"
  | PBool true => "True"
  | PBool false => "False"
  | PInt z => pretty z
  | PStr s => "'" +:+ s +:+ "'"
  | PList l => "[" +:+ join ", " (py_repr <$> l) +:+ "]"
  | PDict d =>
      "{" +:+ join ", " ((fun p => "'" +:+ p.1 +:+ "': " +:+ py_repr p.2) <$> d)
      +:+ "}"
  end.

(** [str(v)], as an f-string formats it. *)
Definition py_format (v : pyval) : string :=
  match v with
  | PStr s => s
  | _ => py_repr v
  end.

(** [d.get(k)] *)
Definition dget (d : jobj) (k : string) : pyval := default PNone (dict_get d k).

(** [a or b] *)
Definition py_or (a b : pyval) : pyval := if truthy a then a else b.

(** [v == s] for a string literal [s] *)
Definition is_str (v : pyval) (s : string) : bool :=
  match v with
  | PStr t => String.eqb t s
  | _ => false
  end.

(** The integer a number is compared as; comparing a number with anything
    else is a [TypeError]. *)
Definition as_int (v : pyval) : outcome Z :=
  match v with
  | PInt z => Ok z
  | PBool b => Ok (if b then 1 else 0)
  | _ => Raise TypeError
  end.

(** [v.get(k)] on a value that should be a [dict]. *)
Definition obj_get (v : pyval) (k : string) : outcome (option pyval) :=
  match v with
  | PDict d => Ok (dict_get d k)
  | _ => Raise AttributeError
  end.

(** [', '.join(options)]: every element must be a [str]. *)
Fixpoint strings_of (l : list pyval) : outcome (list string) :=
  match l with
  | [] => Ok []
  | PStr s :: l' => do r <- strings_of l';; Ok (s :: r)
  | _ :: _ => Raise TypeError
  end.

(** [value.replace('Z', '+00:00')] *)
Definition replace_Z (s : string) : string :=
  text (concat ((fun c => if is_char "Z" c then chars "+00:00" else [c])
                  <$> chars s)).

(** The outcome of a date check against a declared format. *)
Inductive date_verdict := DateValid | WrongShape | NotADate.

Definition common_formats : list (list Strptime.directive) :=
  [Strptime.fmt_Ymd_dash; Strptime.fmt_Ymd_slash; Strptime.fmt_Ymd_dot;
   Strptime.fmt_mdY; Strptime.fmt_dmY; Strptime.fmt_Ymd_HMS].

Section WithLibrary.

Variable lib : pylib.

(** [v.lower()], [v.upper()], [v.strip()]: only a [str] has them. *)
Definition str_lower (v : pyval) : outcome string :=
  match v with PStr s => Ok (py_lower lib s) | _ => Raise AttributeError end.

Definition str_upper (v : pyval) : outcome string :=
  match v with PStr s => Ok (py_upper lib s) | _ => Raise AttributeError end.

Definition str_strip (v : pyval) : outcome string :=
  match v with PStr s => Ok (py_strip lib s) | _ => Raise AttributeError end.

(** The elements a [for] loop draws from [v]. *)
Definition iterate (v : pyval) : outcome (list pyval) :=
  match v with
  | PList l => Ok l
  | PStr s => Ok (PStr <$> py_chars lib s)
  | PDict d => Ok (PStr <$> dict_keys d)
  | _ => Raise TypeError
  end.

(** [[opt.lower() for opt in options]] *)
Fixpoint lower_all (l : list pyval) : outcome (list string) :=
  match l with
  | [] => Ok []
  | v :: l' =>
      do s <- str_lower v;;
      do r <- lower_all l';;
      Ok (s :: r)
  end.

(** The four declared formats, as both validators check them: the pattern
    first, then [strptime] on the groups put back together.  [None] when
    the format is not one of the four. *)
Definition declared_date (fmt_upper value : string) : option date_verdict :=
  if String.eqb fmt_upper "MM/DD/YYYY" then
    Some match re_short_short_year lib value with
         | None => WrongShape
         | Some (month, day, year) =>
             if py_strptime lib (month +:+ "/" +:+ day +:+ "/" +:+ year)
                  Strptime.fmt_mdY
             then DateValid else NotADate
         end
  else if String.eqb fmt_upper "DD/MM/YYYY" then
    Some match re_short_short_year lib value with
         | None => WrongShape
         | Some (day, month, year) =>
             if py_strptime lib (day +:+ "/" +:+ month +:+ "/" +:+ year)
                  Strptime.fmt_dmY
             then DateValid else NotADate
         end
  else if String.eqb fmt_upper "YYYY/MM/DD" then
    Some match re_year_short_short lib value with
         | None => WrongShape
         | Some (year, month, day) =>
             if py_strptime lib (year +:+ "/" +:+ month +:+ "/" +:+ day)
                  Strptime.fmt_Ymd_slash
             then DateValid else NotADate
         end
  else if String.eqb fmt_upper "YYYY-MM-DD" then
    Some match re_year_short_short lib value with
         | None => WrongShape
         | Some (year, month, day) =>
             if py_strptime lib (year +:+ "-" +:+ month +:+ "-" +:+ day)
                  Strptime.fmt_Ymd_dash
             then DateValid else NotADate
         end
  else None.

(** The compact dates accepted when no format is declared: eight digits
    as [%Y%m%d], six digits as [%Y%m] with day 01. *)
Definition compact_date (value : string) : bool :=
  ((py_len lib value =? 8) && py_strptime lib value Strptime.fmt_Ymd)
  || ((py_len lib value =? 6)
      && py_strptime lib (value +:+ "01") Strptime.fmt_Ymd).

(** The generic fallback: ISO-8601, then the common formats in turn. *)
Definition generic_date (value : string) : bool :=
  fromisoformat lib (replace_Z value)
  || existsb (py_strptime lib value) common_formats.

End WithLibrary.

(** The allowed values of a boolean template. *)
Definition boolean_values (template : string) : list string :=
  if String.eqb template "any" then
    ["true"; "false"; "yes"; "no"; "1"; "0"; "on"; "off"; "t"; "f"; "y"; "n"]
  else if String.eqb template "true/false" then ["true"; "false"; "t"; "f"]
  else if String.eqb template "yes/no" then ["yes"; "no"; "y"; "n"]
  else if String.eqb template "1/0" then ["1"; "0"]
  else if String.eqb template "on/off" then ["on"; "off"]
  else [].

(** The normalization of a template: separators and case. *)
Definition normalize_template (template_lower : string) : string :=
  if String.eqb template_lower "true/false" || String.eqb template_lower "true_false"
  then "true/false"
  else if String.eqb template_lower "yes/no" || String.eqb template_lower "yes_no"
  then "yes/no"
  else if String.eqb template_lower "1/0" || String.eqb template_lower "1_0"
  then "1/0"
  else if String.eqb template_lower "on/off" || String.eqb template_lower "on_off"
  then "on/off"
  else "any".

Definition display_template (template : string) : string :=
  if String.eqb template "any"
  then "any of: true/false, yes/no, 1/0, on/off"
  else replace_char "_" "/" template.

Definition mem_string (s : string) (l : list string) : bool :=
  existsb (String.eqb s) l.

End PyLib.
Export PyLib.

(** ** The field validator of the worker: [app/utils/validator.py] *)

Module Validator.
Import Stdlib.Strings.Ascii PyStr PyFloat.

(** What [validate_field] is called with: a scalar; the [Series] that
    [row[field_name]] is when several columns of the frame carry the name;
    or any other object, given by its truth value and by its [str]. *)
Inductive value :=
| Scalar (c : cell)
| Series (cells : list cell)
| Object (truth : bool) (text : string).

Section WithLibrary.

Variable lib : pylib.

Definition validate_number (value : string) (rules : jobj)
    (field_type : string) : outcome (option string) :=
  if contains_char "@" value then
    Ok (Some "Value appears to contain an email address but should be a number")
  else if startswith "http://" value || startswith "https://" value then
    Ok (Some "Value appears to contain a URL but should be a number")
  else
    match py_float lib value with
    | None => Ok (Some "Must be a valid number")
    | Some num_value =>
        if isnan num_value then Ok (Some "Must be a valid number")
        else if (String.eqb field_type "integer"
                 || is_str (dget rules "subtype") "integer")
                && negb (is_integer num_value)
        then Ok (Some "Must be a whole number")
        else
          let sign := py_or (dget rules "validation_format") (dget rules "sign") in
          if is_str sign "positive" && le_zero num_value
          then Ok (Some "Must be a positive number")
          else if is_str sign "negative" && ge_zero num_value
          then Ok (Some "Must be a negative number")
          else Ok None
    end.

Definition validate_date (value : string) (rules : jobj)
  : outcome (option string) :=
  let format_rule :=
    py_or (dget rules "validation_format")
          (default (PStr "") (dict_get rules "format")) in
  do fmt_upper <- (if truthy format_rule then str_upper lib format_rule else Ok "");;
  let any := String.eqb fmt_upper "" || String.eqb fmt_upper "ANY" in
  match (if any then None else declared_date lib fmt_upper value) with
  | Some DateValid => Ok None
  | Some WrongShape =>
      Ok (Some ("Must be in " +:+ fmt_upper +:+ " format"))
  | Some NotADate =>
      Ok (Some ("Must be a valid date in " +:+ fmt_upper +:+ " format"))
  | None =>
      if re_digits lib value then
        if any && compact_date lib value then Ok None
        else Ok (Some "Must be a valid date format (not just numbers)")
      else if any then
        if generic_date lib value then Ok None
        else Ok (Some "Must be a valid date format")
      else Ok (Some ("Must be in " +:+ py_format format_rule +:+ " format"))
  end.

Definition validate_boolean (value : string) (rules : jobj)
  : outcome (option string) :=
  let template0 :=
    py_or (py_or (dget rules "template") (dget rules "validation_format"))
          (default (PStr "any") (dict_get rules "format")) in
  do template_lower <- str_lower lib template0;;
  let template := normalize_template template_lower in
  let val := py_lower lib value in
  if mem_string val (boolean_values template) then Ok None
  else Ok (Some ("Must be a valid boolean value ("
                 +:+ display_template template +:+ ")")).

Definition validate_email (value : string) (rules : jobj)
  : outcome (option string) :=
  if re_email lib value then Ok None
  else Ok (Some "Must be a valid email address").

(** The pattern of [validate_phone], [^[\+]?[ -\d\s\-\(\)]{7,15}$], has the
    range [ -\d] in its class, which [re.compile] refuses: the call raises
    [re.error] before looking at the value. *)
Definition validate_phone (value : string) (rules : jobj)
  : outcome (option string) :=
  Raise ReError.

Definition validate_url (value : string) (rules : jobj)
  : outcome (option string) :=
  match urlparse lib value with
  | Ok (scheme, netloc) =>
      if truthy_str scheme && truthy_str netloc then Ok None
      else Ok (Some "Must be a valid URL")
  | Raise _ => Ok (Some "Must be a valid URL")
  end.

Definition validate_string (value : string) (rules : jobj)
  : outcome (option string) :=
  let max_length := dget rules "max_length" in
  let min_length := dget rules "min_length" in
  do too_long <-
    (if truthy max_length
     then do n <- as_int max_length;; Ok (n <? py_len lib value)
     else Ok false);;
  if too_long then
    Ok (Some ("Exceeds maximum length of " +:+ py_format max_length
              +:+ " characters"))
  else
    do too_short <-
      (if truthy min_length
       then do n <- as_int min_length;; Ok (py_len lib value <? n)
       else Ok false);;
    if too_short then
      Ok (Some ("Must be at least " +:+ py_format min_length +:+ " characters"))
    else Ok None.

Definition validate_enum (value : string) (rules : jobj)
  : outcome (option string) :=
  let options := default (PList []) (dict_get rules "options") in
  if truthy options then
    do opts <- iterate lib options;;
    do options_lower <- lower_all lib opts;;
    if mem_string (py_lower lib value) options_lower then Ok None
    else
      do names <- strings_of opts;;
      Ok (Some ("Must be one of: " +:+ join ", " names))
  else Ok None.

(** The table [validators]: the validator of a field type.  Only the
    number validator reads the field type it is called with. *)
Definition validators (field_type : string)
  : option (string -> jobj -> string -> outcome (option string)) :=
  if String.eqb field_type "number" || String.eqb field_type "integer"
  then Some validate_number
  else if String.eqb field_type "date" || String.eqb field_type "datetime"
  then Some (fun v r _ => validate_date v r)
  else if String.eqb field_type "email" then Some (fun v r _ => validate_email v r)
  else if String.eqb field_type "phone" then Some (fun v r _ => validate_phone v r)
  else if String.eqb field_type "url" then Some (fun v r _ => validate_url v r)
  else if String.eqb field_type "boolean"
  then Some (fun v r _ => validate_boolean v r)
  else if String.eqb field_type "string" then Some (fun v r _ => validate_string v r)
  else if String.eqb field_type "select" || String.eqb field_type "enum"
  then Some (fun v r _ => validate_enum v r)
  else None.

(** [not value or str(value).strip() == ''], for a scalar *)
Definition is_blank (value : cell) : bool :=
  match value with
  | CNull => true
  | CStr s => String.eqb s "" || String.eqb (py_strip lib s) ""
  | CInt z => Z.eqb z 0
  | CBool b => negb b
  end.

(** [validation_rules.update(d)] *)
Definition dict_update (rules d : jobj) : jobj :=
  foldl (fun r p => dict_set r p.1 p.2) rules d.

(** The rules of a field, merged from [extra_rules] and the legacy
    [validation] object. *)
Definition merged_rules (field_config : jobj) : jobj :=
  let top_extra := dget field_config "extra_rules" in
  let rules1 :=
    match top_extra with
    | PDict d => dict_update [] d
    | _ => []
    end in
  match py_or (dget field_config "validation") (PDict []) with
  | PDict legacy =>
      let rules2 :=
        match dict_get legacy "extra_rules" with
        | Some (PDict nested) => dict_update rules1 nested
        | _ => rules1
        end in
      foldl (fun r p =>
               if String.eqb p.1 "extra_rules" then r
               else match dict_get r p.1 with
                    | Some _ => r
                    | None => dict_set r p.1 p.2
                    end)
            rules2 legacy
  | _ => rules1
  end.

(** [validators.get(field_type)]: the key must be hashable. *)
Definition lookup_validator (field_type : pyval)
  : outcome (option (string -> jobj -> string -> outcome (option string))) :=
  match field_type with
  | PStr t => Ok (validators t)
  | PList _ | PDict _ => Raise TypeError
  | _ => Ok None
  end.

(** [not value or str(value).strip() == ''] and [str(value)], for a value
    that has a truth value. *)
Definition blank (value : value) : bool :=
  match value with
  | Scalar c => is_blank c
  | Object truth text => negb truth || String.eqb (py_strip lib text) ""
  | Series _ => false
  end.

Definition text_of (value : value) : string :=
  match value with
  | Scalar c => py_str c
  | Object _ text => text
  | Series _ => ""
  end.

(** [validate_field] once [not value] is known. *)
Definition validate_checked (blank : bool) (text : string)
    (field_config : jobj) : outcome (option string) :=
  let field_name := default (PStr "Field") (dict_get field_config "name") in
  let field_type := dget field_config "type" in
  if truthy (dget field_config "required") && blank then
    Ok (Some (py_format field_name +:+ " is required"))
  else if blank then Ok None
  else
    do validator_fn <- lookup_validator field_type;;
    match validator_fn with
    | None => Ok None
    | Some fn =>
        let validation_rules := merged_rules field_config in
        match fn (py_strip lib text) validation_rules
                 (match field_type with PStr t => t | _ => "" end) with
        | Ok result => Ok result
        | Raise _ => Ok (Some "Validation failed due to internal error")
        end
    end.

(** [validate_field].  The truth value of a [Series] is a [ValueError]:
    [not value] raises it, in the required check or, when the field is not
    required, in the check that follows it; both are outside the [try]. *)
Definition validate_field (value : value) (field_config : jobj)
  : outcome (option string) :=
  match value with
  | Series _ => Raise ValueError
  | _ => validate_checked (blank value) (text_of value) field_config
  end.

(** [validate_pattern(value, pattern)] *)
Definition validate_pattern (value : string) (pattern : option string)
  : outcome (option string) :=
  match pattern with
  | None => Ok None
  | Some p =>
      if truthy_str p then
        match re_match lib p value with
        | Ok true => Ok None
        | Ok false => Ok (Some "Does not match required pattern")
        | Raise ReError => Ok (Some "Invalid pattern")
        | Raise e => Raise e
        end
      else Ok None
  end.

End WithLibrary.

End Validator.

Coercion Validator.Scalar : cell >-> Validator.value.

(** ** The field validator of the portal: [app/services/validation_service.py] *)

Module ValidationService.
Import Stdlib.Strings.Ascii PyStr PyFloat.

(** [value == "" or value is None] *)
Definition is_empty (value : cell) : bool :=
  match value with
  | CNull => true
  | CStr s => String.eqb s ""
  | _ => false
  end.

Section WithLibrary.

Variable lib : pylib.

Definition validate_required (value : cell) (field_name : pyval)
  : option string :=
  match value with
  | CNull => Some (py_format field_name +:+ " is required")
  | _ =>
      if String.eqb (py_strip lib (py_str value)) ""
      then Some (py_format field_name +:+ " is required")
      else None
  end.

(** [x is not None and c(x)], for a comparison [c] with a number. *)
Definition bound_violated (bound : pyval) (c : Z -> bool) : outcome bool :=
  match bound with
  | PNone => Ok false
  | _ => do n <- as_int bound;; Ok (c n)
  end.

Definition validate_string_length (value : string) (field_name : pyval)
    (min_length max_length : pyval) : outcome (option string) :=
  let length := py_len lib value in
  do too_short <- bound_violated min_length (fun n => length <? n);;
  if too_short then
    Ok (Some (py_format field_name +:+ " must be at least "
              +:+ py_format min_length +:+ " characters"))
  else
    do too_long <- bound_violated max_length (fun n => n <? length);;
    if too_long then
      Ok (Some (py_format field_name +:+ " exceeds maximum length of "
                +:+ py_format max_length +:+ " characters"))
    else Ok None.

(** The sign rule of [extra_rules], when there is one. *)
Definition sign_rule (extra_rules : pyval) : outcome (option string) :=
  if truthy extra_rules then
    do sign <- obj_get extra_rules "sign";;
    match sign with
    | Some v => if truthy v then do s <- str_lower lib v;; Ok (Some s) else Ok None
    | None => Ok None
    end
  else Ok None.

Definition validate_number (value : cell) (field_name : pyval)
    (field_type : string) (min_value max_value : pyval) (extra_rules : pyval)
  : outcome (option string) :=
  if is_empty value then Ok None else
  let str_value := py_strip lib (py_str value) in
  let name := py_format field_name in
  if contains_char "@" str_value then
    Ok (Some (name +:+ " appears to contain an email address but should be a number"))
  else if startswith "http://" str_value || startswith "https://" str_value then
    Ok (Some (name +:+ " appears to contain a URL but should be a number"))
  else
    match py_float lib str_value with
    | None => Ok (Some (name +:+ " must be a valid number"))
    | Some num_value =>
        if isnan num_value then Ok (Some (name +:+ " must be a valid number"))
        else if String.eqb field_type "integer" && negb (is_integer num_value)
        then Ok (Some (name +:+ " must be a whole number"))
        else
          do below <- bound_violated min_value (lt_int num_value);;
          if below then
            Ok (Some (name +:+ " must be at least " +:+ py_format min_value))
          else
            do above <- bound_violated max_value (gt_int num_value);;
            if above then
              Ok (Some (name +:+ " must be at most " +:+ py_format max_value))
            else
              do sign <- sign_rule extra_rules;;
              match sign with
              | Some s =>
                  if String.eqb s "positive" && le_zero num_value
                  then Ok (Some (name +:+ " must be a positive number"))
                  else if String.eqb s "negative" && ge_zero num_value
                  then Ok (Some (name +:+ " must be a negative number"))
                  else Ok None
              | None => Ok None
              end
    end.

Definition validate_email (value : cell) (field_name : pyval)
  : option string :=
  if is_empty value then None
  else if re_email lib (py_strip lib (py_str value)) then None
  else Some (py_format field_name +:+ " must be a valid email address").

Definition validate_phone (value : cell) (field_name : pyval)
  : option string :=
  if is_empty value then None
  else if re_phone lib (py_strip lib (py_str value)) then None
  else Some (py_format field_name +:+ " must be a valid phone number").

Definition validate_url (value : cell) (field_name : pyval) : option string :=
  if is_empty value then None else
  match urlparse lib (py_strip lib (py_str value)) with
  | Ok (scheme, netloc) =>
      if truthy_str scheme && truthy_str netloc then None
      else Some (py_format field_name +:+ " must be a valid URL")
  | Raise _ => Some (py_format field_name +:+ " must be a valid URL")
  end.

Definition validate_date (value : cell) (field_name : pyval)
    (date_format : pyval) : outcome (option string) :=
  if is_empty value then Ok None else
  let str_value := py_strip lib (py_str value) in
  let name := py_format field_name in
  do fmt <- str_strip lib (py_or date_format (PStr ""));;
  let fmt_upper := py_upper lib fmt in
  let any := String.eqb fmt_upper "" || String.eqb fmt_upper "ANY" in
  match (if any then None else declared_date lib fmt_upper str_value) with
  | Some DateValid => Ok None
  | Some WrongShape =>
      Ok (Some (name +:+ " must be in " +:+ fmt_upper +:+ " format"))
  | Some NotADate =>
      Ok (Some (name +:+ " must be a valid date in " +:+ fmt_upper +:+ " format"))
  | None =>
      if re_digits lib str_value then
        if any && compact_date lib str_value then Ok None
        else Ok (Some (name +:+ " must be a valid date format (not just numbers)"))
      else if any then
        if generic_date lib str_value then Ok None
        else Ok (Some (name +:+ " must be a valid date format"))
      else Ok (Some (name +:+ " must be in " +:+ fmt +:+ " format"))
  end.

(** The table of [validate_boolean] also lists the underscore variants. *)
Definition boolean_values_of (template : string) : list string :=
  boolean_values (if mem_string template
                       ["true_false"; "yes_no"; "1_0"; "on_off"]
                  then replace_char "_" "/" template else template).

Definition validate_boolean (value : cell) (field_name : pyval)
    (template : string) : option string :=
  if is_empty value then None else
  let str_value := py_lower lib (py_strip lib (py_str value)) in
  let valid_values :=
    match boolean_values_of template with
    | [] => boolean_values "any"
    | vs => vs
    end in
  if mem_string str_value valid_values then None
  else Some (py_format field_name +:+ " must be a valid boolean value ("
             +:+ display_template template +:+ ")").

Definition validate_select (value : cell) (field_name : pyval)
    (options : pyval) : outcome (option string) :=
  if is_empty value then Ok None else
  let str_value := py_strip lib (py_str value) in
  do opts <- iterate lib options;;
  do options_lower <- lower_all lib opts;;
  if mem_string (py_lower lib str_value) options_lower then Ok None
  else
    do names <- strings_of opts;;
    Ok (Some (py_format field_name +:+ " must be one of: " +:+ join ", " names)).

Definition validate_pattern (value : cell) (field_name : pyval)
    (pattern : pyval) : outcome (option string) :=
  if is_empty value then Ok None else
  let str_value := py_strip lib (py_str value) in
  match pattern with
  | PStr p =>
      match re_match lib p str_value with
      | Ok true => Ok None
      | Ok false =>
          Ok (Some (py_format field_name +:+ " does not match required pattern"))
      | Raise ReError => Ok None
      | Raise e => Raise e
      end
  | _ => Raise TypeError
  end.

(** The rules built from the legacy keys when [extra_rules] is empty. *)
Definition legacy_rules (field_type : string) (field_config : jobj) : jobj :=
  let vf := dget field_config "validation_format" in
  let r1 :=
    if truthy vf then
      if mem_string field_type ["number"; "numeric"; "integer"]
      then [("sign", vf)]
      else if mem_string field_type ["date"; "datetime"] then [("format", vf)]
      else if String.eqb field_type "custom_regex" then [("pattern", vf)]
      else if String.eqb field_type "select" then [("options", vf)]
      else []
    else [] in
  let tpl := dget field_config "template" in
  if truthy tpl && mem_string field_type ["boolean"; "bool"]
  then dict_set r1 "template" tpl
  else r1.

(** The options of a select field: a comma-separated string or a list. *)
Definition select_options (options_str : pyval) : pyval :=
  match options_str with
  | PStr s =>
      PList (PStr <$> filter (fun o => truthy_str o = true)
                        (py_strip lib <$> split "," s))
  | PList l => PList l
  | _ => PList []
  end.

Definition validate_field (value : cell) (field_config : jobj)
  : outcome (option string) :=
  let field_name := default (PStr "Field") (dict_get field_config "name") in
  do field_type <- str_lower lib (default (PStr "") (dict_get field_config "type"));;
  let required := truthy (default (PBool false) (dict_get field_config "required")) in
  match (if required then validate_required value field_name else None) with
  | Some error => Ok (Some error)
  | None =>
      if negb required && is_empty value then Ok None else
      let extra0 := default (PDict []) (dict_get field_config "extra_rules") in
      let extra_rules :=
        if truthy extra0 then extra0
        else PDict (legacy_rules field_type field_config) in
      if mem_string field_type ["number"; "numeric"; "integer"] then
        validate_number value field_name field_type
          (dget field_config "min_value") (dget field_config "max_value")
          extra_rules
      else if String.eqb field_type "email" then
        Ok (validate_email value field_name)
      else if String.eqb field_type "phone" then
        Ok (validate_phone value field_name)
      else if String.eqb field_type "url" then
        Ok (validate_url value field_name)
      else if mem_string field_type ["date"; "datetime"] then
        do fmt <- obj_get extra_rules "format";;
        validate_date value field_name
          (py_or (default PNone fmt) (dget field_config "validation_format"))
      else if mem_string field_type ["boolean"; "bool"] then
        do tpl <- obj_get extra_rules "template";;
        do template_lower <- str_lower lib (default (PStr "any") tpl);;
        Ok (validate_boolean value field_name (normalize_template template_lower))
      else
        do select_result <-
          (if mem_string field_type ["select"; "enum"] then
             do opts <- obj_get extra_rules "options";;
             let options0 := select_options (default (PStr "") opts) in
             let options :=
               if truthy options0 then options0
               else default (PList []) (dict_get field_config "options") in
             if truthy options
             then do r <- validate_select value field_name options;; Ok (Some r)
             else Ok None
           else Ok None);;
        match select_result with
        | Some r => Ok r
        | None =>
            if mem_string field_type ["text"; "string"; ""] then
              validate_string_length
                (match value with CNull => "" | _ => py_str value end)
                field_name (dget field_config "min_length")
                (dget field_config "max_length")
            else
              let pattern := dget field_config "pattern" in
              if truthy pattern
              then validate_pattern value field_name pattern
              else Ok None
        end
  end.

End WithLibrary.

End ValidationService.

(** ** The data model: [app/models/import_job.py] *)

Module Model.

Inductive ImportStatus :=
| PENDING_VALIDATION | PENDING | PROCESSING | PROMOTING | SAVING
| VALIDATING | VALIDATED | IMPORTING | COMPLETED | UNCOMPLETED | FAILED.

#[global] Instance ImportStatus_eq_dec : EqDecision ImportStatus.
Proof. solve_decision. Defined.

Inductive ImportSource := API | PORTAL.

(** The [row] of a conflict: a 1-based row number, or the marker ["Header"]. *)
Inductive row_ref := RowHeader | RowNum (n : Z).

#[global] Instance row_ref_eq_dec : EqDecision row_ref.
Proof. solve_decision. Defined.

(** One entry of [job.errors].  The writers of the repository use the keys
    [row], [field], [column], [value], [error] and [message]; a key that a
    writer leaves out is [None]. *)
Record Conflict := mkConflict {
  c_row : option row_ref;
  c_field : option string;
  c_column : option string;
  c_value : option cell;
  c_error : option string;
  c_message : option string
}.

(** A row record: column name to value, in column order. *)
Abbreviation row_dict := (list (string * cell)).

(** [job.processed_data]: a JSON object with the key [data] and possibly
    other keys ([last_edited], [first_edit]). *)
Record pdata := mkPdata {
  pd_data : option (list row_dict);
  pd_other : list string
}.

(** [bool(job.processed_data)]: [None] and the empty object are falsy. *)
Definition pd_truthy (p : option pdata) : bool :=
  match p with
  | None => false
  | Some d =>
      match pd_data d, pd_other d with
      | None, [] => false
      | _, _ => true
      end
  end.

Record ImportJob := mkJob {
  status : ImportStatus;
  import_source : ImportSource;
  file_path : string;
  row_count : Z;
  processed_rows : Z;
  error_count : Z;
  errors : option (list Conflict);
  column_mapping : option (list (string * string));
  file_metadata : option (list string);
  processed_data : option pdata;
  error_message : option string
}.

Definition set_status (s : ImportStatus) (j : ImportJob) : ImportJob :=
  mkJob s (import_source j) (file_path j) (row_count j) (processed_rows j)
    (error_count j) (errors j) (column_mapping j) (file_metadata j)
    (processed_data j) (error_message j).

Definition set_error_message (m : string) (j : ImportJob) : ImportJob :=
  mkJob (status j) (import_source j) (file_path j) (row_count j)
    (processed_rows j) (error_count j) (errors j) (column_mapping j)
    (file_metadata j) (processed_data j) (Some m).

Definition set_errors (es : list Conflict) (n : Z) (j : ImportJob) : ImportJob :=
  mkJob (status j) (import_source j) (file_path j) (row_count j)
    (processed_rows j) n (Some es) (column_mapping j) (file_metadata j)
    (processed_data j) (error_message j).

Definition set_processed_data (p : pdata) (j : ImportJob) : ImportJob :=
  mkJob (status j) (import_source j) (file_path j) (row_count j)
    (processed_rows j) (error_count j) (errors j) (column_mapping j)
    (file_metadata j) (Some p) (error_message j).

Definition set_processed_rows (n : Z) (j : ImportJob) : ImportJob :=
  mkJob (status j) (import_source j) (file_path j) (row_count j)
    n (error_count j) (errors j) (column_mapping j)
    (file_metadata j) (processed_data j) (error_message j).

Definition set_row_count (n : Z) (j : ImportJob) : ImportJob :=
  mkJob (status j) (import_source j) (file_path j) n
    (processed_rows j) (error_count j) (errors j) (column_mapping j)
    (file_metadata j) (processed_data j) (error_message j).

Definition set_file_metadata (headers : list string) (j : ImportJob)
  : ImportJob :=
  mkJob (status j) (import_source j) (file_path j) (row_count j)
    (processed_rows j) (error_count j) (errors j) (column_mapping j)
    (Some headers) (processed_data j) (error_message j).

Definition set_column_mapping (m : list (string * string)) (j : ImportJob)
  : ImportJob :=
  mkJob (status j) (import_source j) (file_path j) (row_count j)
    (processed_rows j) (error_count j) (errors j) (Some m)
    (file_metadata j) (processed_data j) (error_message j).

(** The importer configuration, as far as the pipeline reads it. *)
Record Importer := mkImporter {
  fields : list jobj;
  webhook_enabled : bool;
  webhook_url : string;
  include_data_in_webhook : bool;
  truncate_data : bool;
  webhook_data_sample_size : Z
}.

(** [error.get('field', error.get('column', ''))] *)
Definition err_field (e : Conflict) : string :=
  match c_field e with
  | Some f => f
  | None => default "" (c_column e)
  end.

(** [e.get('field') or e.get('column')] *)
Definition field_or_column (e : Conflict) : option string :=
  match c_field e with
  | Some f => if truthy_str f then Some f else c_column e
  | None => c_column e
  end.

(** The key of a conflict: its row and its field. *)
Definition conflict_key (e : Conflict) : option row_ref * string :=
  (c_row e, err_field e).

(** The invariant of the data model: at most one conflict per key. *)
Definition conflicts_unique (es : list Conflict) : Prop :=
  NoDup (conflict_key <$> es).

End Model.
Export Model.

(** ** The conflict tracker: [app/api/v1/imports.py] *)

Module Imports.

(** The request body of [PATCH /{import_job_id}/cell]. *)
Record UpdateCellRequest := mkCellRequest {
  row_index : Z;
  column_key : string;
  new_value : string
}.

(** What a request leaves behind: the HTTP status it answers with, the
    job as committed to the database, and whether it started a background
    task. *)
Record handled := mkHandled {
  http_status : Z;
  job_after : ImportJob;
  task_started : bool
}.

(** What [optimized_save_and_validate] returns to its caller. *)
Record save_summary := mkSummary {
  validated_cells : nat;
  total_errors : nat;
  new_errors : nat;
  preserved_errors : nat
}.

(** A changed cell: [(row_idx, col_idx, column_header, cell_value)]. *)
Abbreviation changed_cell := (nat * nat * string * cell)%type.

(** The reverse mapping [csv_column -> field_name], skipping the special
    keys that start with an underscore and the empty columns. *)
Definition csv_column_to_field (column_mapping : list (string * string))
  : gmap string string :=
  foldl (fun m '(field_name, csv_column) =>
           if truthy_str csv_column && negb (String.prefix "_" field_name)
           then <[csv_column := field_name]> m
           else m)
        ∅ column_mapping.

(** [field['name']]: a field without a name raises [KeyError].  Every
    stored importer field carries a string name ([ImporterField.name : str]
    in [schemas/importer.py]); a name of another type is outside the data
    model and is reported as [TypeError]. *)
Definition field_name_of (f : jobj) : outcome string :=
  match dict_get f "name" with
  | None => Raise KeyError
  | Some (PStr n) => Ok n
  | Some _ => Raise TypeError
  end.

(** [{f['name']: f for f in importer.fields}] *)
Fixpoint field_configs_from (fs : list jobj) (acc : gmap string jobj)
  : outcome (gmap string jobj) :=
  match fs with
  | [] => Ok acc
  | f :: fs' =>
      do n <- field_name_of f;;
      field_configs_from fs' (<[n := f]> acc)
  end.

Definition field_configs_by_name (fs : list jobj) : outcome (gmap string jobj) :=
  field_configs_from fs ∅.

(** The record written for a cell that fails validation. *)
Definition cell_conflict (row_idx : nat) (field_name column_header : string)
    (cell_value : cell) (error_message : string) : Conflict :=
  mkConflict (Some (RowNum (Z.of_nat row_idx + 1))) (Some field_name)
    (Some column_header) (Some cell_value) (Some error_message) None.

(** One row of the stored data, rebuilt from the submitted values: every
    header gets a key, missing values are padded with the empty string. *)
Definition row_to_dict (headers : list string) (row_values : list cell)
  : row_dict :=
  foldl (fun d '(idx, column_header) =>
           dict_set d column_header (default (CStr "") (row_values !! idx)))
        [] (enumerate headers).

Definition store_data (rows : list row_dict) (p : option pdata) : pdata :=
  match p with
  | Some d => mkPdata (Some rows) (pd_other d)
  | None => mkPdata (Some rows) []
  end.

(** [error.get('row', 0) - 1]; the marker ["Header"] minus one is a
    [TypeError]. *)
Definition error_row_index (e : Conflict) : outcome Z :=
  match c_row e with
  | None => Ok (0 - 1)
  | Some (RowNum n) => Ok (n - 1)
  | Some RowHeader => Raise TypeError
  end.

Section ConflictTracker.

(** [validation_service.validate_field]: [Ok None] when the value is valid,
    [Ok (Some message)] when it is not; it may raise. *)
Variable validate_field : cell -> jobj -> outcome (option string).

(** *** [optimized_save_and_validate] *)

Definition changed_in_row (headers : list string) (c2f : gmap string string)
    (existing_row : option row_dict) (row_idx : nat) (new_row : list cell)
  : list changed_cell :=
  omap (fun '(col_idx, cell_value) =>
          match headers !! col_idx with
          | None => None
          | Some column_header =>
              if decide (is_Some (c2f !! column_header)) then
                match existing_row with
                | None => Some (row_idx, col_idx, column_header, cell_value)
                | Some er =>
                    let existing_value :=
                      default (CStr "") (dict_get er column_header) in
                    if decide (py_str cell_value = py_str existing_value)
                    then None
                    else Some (row_idx, col_idx, column_header, cell_value)
                end
              else None
          end)
       (enumerate new_row).

Definition find_changed_cells (headers : list string)
    (c2f : gmap string string) (existing_data : list row_dict)
    (new_data : list (list cell)) : list changed_cell :=
  concat (imap (fun row_idx new_row =>
                  changed_in_row headers c2f (existing_data !! row_idx)
                    row_idx new_row)
               new_data).

(** Validation of the changed cells, with the count of validated cells. *)
Fixpoint validate_changed (c2f : gmap string string) (cfgs : gmap string jobj)
    (cells : list changed_cell) : outcome (list Conflict * nat) :=
  match cells with
  | [] => Ok ([], 0%nat)
  | (row_idx, col_idx, column_header, cell_value) :: rest =>
      match c2f !! column_header with
      | None => Raise KeyError
      | Some field_name =>
          match cfgs !! field_name with
          | None => validate_changed c2f cfgs rest
          | Some field_config =>
              do error_message <- validate_field cell_value field_config;;
              do r <- validate_changed c2f cfgs rest;;
              Ok (match error_message with
                  | Some m =>
                      if truthy_str m
                      then cell_conflict row_idx field_name column_header
                             cell_value m :: r.1
                      else r.1
                  | None => r.1
                  end, S r.2)
          end
      end
  end.

Definition changed_positions (c2f : gmap string string)
    (cells : list changed_cell) : gset (Z * string) :=
  list_to_set
    ((fun c : changed_cell =>
        let '(row_idx, _, col_header, _) := c in
        (Z.of_nat row_idx, default col_header (c2f !! col_header)))
       <$> cells).

(** The prior errors whose position was not changed. *)
Fixpoint unchanged_errors (positions : gset (Z * string))
    (existing_errors : list Conflict) : outcome (list Conflict) :=
  match existing_errors with
  | [] => Ok []
  | error :: rest =>
      do r <- error_row_index error;;
      do kept <- unchanged_errors positions rest;;
      Ok (if decide ((r, err_field error) ∈ positions)
          then kept else error :: kept)
  end.

Definition status_for (all_errors : list Conflict) : ImportStatus :=
  if decide (length all_errors = 0%nat) then COMPLETED else UNCOMPLETED.

(** [import_job.processed_data.get('data', []) if import_job.processed_data
    else []] *)
Definition stored_data (import_job : ImportJob) : list row_dict :=
  if pd_truthy (processed_data import_job)
  then default [] (processed_data import_job ≫= pd_data)
  else [].

(** The headers of the request, else the keys of the first stored record. *)
Definition effective_headers (existing_data : list row_dict)
    (headers : option (list string)) : list string :=
  match default [] headers, existing_data with
  | [], first :: _ => dict_keys first
  | hs, _ => hs
  end.

Definition optimized_save_and_validate (import_job : ImportJob)
    (importer : option Importer) (new_data : list (list cell))
    (headers : option (list string)) : outcome (ImportJob * save_summary) :=
  let existing_data := stored_data import_job in
  match importer with
  | None => Raise ValueError
  | Some imp =>
      let all_column_headers := effective_headers existing_data headers in
      let column_mapping := default [] (column_mapping import_job) in
      do field_configs <- field_configs_by_name (fields imp);;
      let c2f := csv_column_to_field column_mapping in
      let changed_cells :=
        find_changed_cells all_column_headers c2f existing_data new_data in
      do validated <- validate_changed c2f field_configs changed_cells;;
      let existing_errors := default [] (errors import_job) in
      do unchanged <-
        unchanged_errors (changed_positions c2f changed_cells) existing_errors;;
      let all_errors := unchanged ++ validated.1 in
      let updated_data_as_dicts := row_to_dict all_column_headers <$> new_data in
      let job1 :=
        set_processed_data
          (store_data updated_data_as_dicts (processed_data import_job))
          import_job in
      let job2 := set_errors all_errors (Z.of_nat (length all_errors)) job1 in
      Ok (set_status (status_for all_errors) job2,
          mkSummary validated.2 (length all_errors) (length validated.1)
            (length unchanged))
  end.

(** *** [revalidate_and_save_job], the legacy bulk save *)

(** Validation of one row against all headers. *)
Fixpoint validate_row (c2f : gmap string string) (cfgs : gmap string jobj)
    (row_idx : nat) (row_values : list cell) (cols : list (nat * string))
  : outcome (list Conflict) :=
  match cols with
  | [] => Ok []
  | (col_idx, column_header) :: rest =>
      match row_values !! col_idx with
      | None => validate_row c2f cfgs row_idx row_values rest
      | Some cell_value =>
          match c2f !! column_header with
          | None => validate_row c2f cfgs row_idx row_values rest
          | Some field_name =>
              match cfgs !! field_name with
              | None => validate_row c2f cfgs row_idx row_values rest
              | Some field_config =>
                  do error_message <- validate_field cell_value field_config;;
                  do r <- validate_row c2f cfgs row_idx row_values rest;;
                  Ok (match error_message with
                      | Some m =>
                          if truthy_str m
                          then cell_conflict row_idx field_name column_header
                                 cell_value m :: r
                          else r
                      | None => r
                      end)
              end
          end
      end
  end.

Fixpoint validate_rows (c2f : gmap string string) (cfgs : gmap string jobj)
    (headers : list string) (rows : list (nat * list cell))
  : outcome (list Conflict) :=
  match rows with
  | [] => Ok []
  | (row_idx, row_values) :: rest =>
      do here <- validate_row c2f cfgs row_idx row_values (enumerate headers);;
      do later <- validate_rows c2f cfgs headers rest;;
      Ok (here ++ later)
  end.

(** Full validation of every mapped cell of [rows]. *)
Definition validate_all (c2f : gmap string string) (cfgs : gmap string jobj)
    (headers : list string) (rows : list (list cell))
  : outcome (list Conflict) :=
  validate_rows c2f cfgs headers (enumerate rows).

(** The column structure the legacy save works with: the keys of the first
    stored record, else the headers of the file metadata, else the headers
    of the request, else generic names. *)
Definition legacy_headers (job : ImportJob)
    (updated_data_rows : list (list cell))
    (provided_headers : option (list string)) : list string :=
  let from_data :=
    match processed_data job ≫= pd_data with
    | Some (first_record :: _) =>
        if pd_truthy (processed_data job) then dict_keys first_record else []
    | _ => []
    end in
  let from_metadata :=
    match from_data with
    | [] => default [] (file_metadata job)
    | hs => hs
    end in
  let from_request :=
    match from_metadata with
    | [] => default [] provided_headers
    | hs => hs
    end in
  match from_request, updated_data_rows with
  | [], first :: _ =>
      (fun i => "Column_" +:+ pretty (Z.of_nat i)) <$> seq 0 (length first)
  | hs, _ => hs
  end.

Definition fail_job (message : string) (job : ImportJob) : ImportJob :=
  set_error_message message (set_status FAILED job).

Definition revalidate_body (job : ImportJob) (importer : option Importer)
    (updated_data_rows : list (list cell))
    (provided_headers : option (list string)) : outcome ImportJob :=
  match importer with
  | None =>
      Ok (fail_job "Importer configuration not found during re-validation." job)
  | Some imp =>
      let all_column_headers :=
        legacy_headers job updated_data_rows provided_headers in
      match all_column_headers with
      | [] => Ok (fail_job "No column structure found for revalidation." job)
      | _ =>
          let c2f := csv_column_to_field (default [] (column_mapping job)) in
          do field_configs <- field_configs_by_name (fields imp);;
          do all_new_errors <-
            validate_all c2f field_configs all_column_headers updated_data_rows;;
          let updated_data_as_dicts :=
            row_to_dict all_column_headers <$> updated_data_rows in
          let job1 :=
            set_processed_data
              (store_data updated_data_as_dicts (processed_data job)) job in
          let job2 :=
            set_errors all_new_errors (Z.of_nat (length all_new_errors)) job1 in
          Ok (set_status UNCOMPLETED job2)
      end
  end.

(** The background task; [None] stands for a job that no longer exists. *)
Definition revalidate_and_save_job (job : option ImportJob)
    (importer : option Importer) (updated_data_rows : list (list cell))
    (provided_headers : option (list string)) : option ImportJob :=
  match job with
  | None => None
  | Some j =>
      match revalidate_body j importer updated_data_rows provided_headers with
      | Ok j' => Some j'
      | Raise _ =>
          Some (fail_job "A critical error occurred while saving data." j)
      end
  end.

(** *** [save_data], [PUT /{import_job_id}/data] *)

Definition save_data (job : ImportJob) (importer : option Importer)
    (data : list (list cell)) (headers : option (list string)) : handled :=
  match optimized_save_and_validate job importer data headers with
  | Ok (job', _) => mkHandled 200 job' false
  | Raise _ => mkHandled 200 (set_status SAVING job) true
  end.

(** The save operation run to completion: the request, and the background
    task when the request fell back to it. *)
Definition save_completed (job : ImportJob) (importer : option Importer)
    (data : list (list cell)) (headers : option (list string))
  : option ImportJob :=
  let h := save_data job importer data headers in
  if task_started h
  then revalidate_and_save_job (Some (job_after h)) importer data headers
  else Some (job_after h).

(** *** [update_cell], [PATCH /{import_job_id}/cell] *)

(** The importer field an edited column belongs to: the first entry of the
    column mapping whose CSV column is the edited one, else the column key. *)
Definition resolve_field_name (mapping : option (list (string * string)))
    (column_key : string) : string :=
  match find (fun p : string * string => bool_decide (p.2 = column_key))
             (default [] mapping) with
  | Some (importer_field, _) => importer_field
  | None => column_key
  end.

(** [next((f for f in importer.fields if f.get('name') == field_name), None)] *)
Definition find_field_config (fs : list jobj) (field_name : string)
  : option jobj :=
  find (fun f : jobj =>
          match dict_get f "name" with
          | Some (PStr n) => bool_decide (n = field_name)
          | _ => false
          end) fs.

(** The validation block, which runs inside its own [try]: the field name
    if the block came to bind it, and the message when the new value is in
    error.  A missing importer raises before [field_name] is assigned; an
    exception of the validator is logged and dropped. *)
Definition validate_edit (job : ImportJob) (importer : option Importer)
    (req : UpdateCellRequest) : option string * option string :=
  match importer with
  | None => (None, None)
  | Some imp =>
      let field_name :=
        resolve_field_name (column_mapping job) (column_key req) in
      match find_field_config (fields imp) field_name with
      | None => (Some field_name, None)
      | Some field_config =>
          match validate_field (CStr (new_value req)) field_config with
          | Ok (Some m) =>
              (Some field_name, if truthy_str m then Some m else None)
          | Ok None => (Some field_name, None)
          | Raise _ => (Some field_name, None)
          end
      end
  end.

(** The comprehension that removes the old errors of the edited cell.  The
    name [field_name] is read only for an error of the edited row, and is
    a [NameError] when the validation block never bound it. *)
Fixpoint drop_cell_errors (row : Z) (field_name : option string)
    (original_errors : list Conflict) : outcome (list Conflict) :=
  match original_errors with
  | [] => Ok []
  | e :: rest =>
      do same <-
        (if decide (c_row e = Some (RowNum row)) then
           match field_name with
           | None => Raise NameError
           | Some fname => Ok (bool_decide (field_or_column e = Some fname))
           end
         else Ok false);;
      do kept <- drop_cell_errors row field_name rest;;
      Ok (if same then kept else e :: kept)
  end.

Definition edited_conflict (req : UpdateCellRequest) (field_name : string)
    (error_message : string) : Conflict :=
  mkConflict (Some (RowNum (row_index req + 1))) (Some field_name) None
    (Some (CStr (new_value req))) (Some error_message) None.

Definition touch (p : pdata) (data : list row_dict) : pdata :=
  mkPdata (Some data)
    (if bool_decide ("last_edited" ∈ pd_other p) then pd_other p
     else pd_other p ++ ["last_edited"]).

(** The edit of a job whose data is in the database. *)
Definition apply_edit (import_job : ImportJob) (importer : option Importer)
    (req : UpdateCellRequest) : handled :=
  match processed_data import_job with
  | None => mkHandled 400 import_job false
  | Some pd =>
      if negb (pd_truthy (Some pd)) then mkHandled 400 import_job false else
      let data := default [] (pd_data pd) in
      if negb (bool_decide (0 ≤ row_index req < Z.of_nat (length data)))
      then mkHandled 400 import_job false else
      match data !! Z.to_nat (row_index req) with
      | None => mkHandled 400 import_job false
      | Some record =>
          match dict_get record (column_key req) with
          | None => mkHandled 400 import_job false
          | Some old_value =>
              let record' :=
                dict_set record (column_key req) (CStr (new_value req)) in
              let data' := <[Z.to_nat (row_index req) := record']> data in
              let v := validate_edit import_job importer req in
              match drop_cell_errors (row_index req + 1) v.1
                      (default [] (errors import_job)) with
              | Raise _ => mkHandled 500 import_job false
              | Ok kept =>
                  let updated_errors :=
                    match v.1, v.2 with
                    | Some field_name, Some m =>
                        kept ++ [edited_conflict req field_name m]
                    | _, _ => kept
                    end in
                  let job1 :=
                    set_errors updated_errors
                      (Z.of_nat (length updated_errors)) import_job in
                  let job2 := set_status (status_for updated_errors) job1 in
                  mkHandled 200 (set_processed_data (touch pd data') job2) false
              end
          end
      end
  end.

(** The wait for the promotion: up to [n] refreshes of the job, [observe i]
    being the job as the database shows it at the [i]-th refresh. *)
Fixpoint poll (observe : nat -> ImportJob) (i n : nat) : option ImportJob :=
  match n with
  | O => None
  | S n' =>
      let j := observe i in
      if pd_truthy (processed_data j) && negb (bool_decide (status j = PROMOTING))
      then Some j
      else poll observe (S i) n'
  end.

(** [update_cell] on an existing job.  [task_started] tells whether the
    request scheduled the promotion task. *)
Definition update_cell (observe : nat -> ImportJob) (import_job : ImportJob)
    (importer : option Importer) (req : UpdateCellRequest) : handled :=
  if negb (pd_truthy (processed_data import_job))
     && truthy_str (file_path import_job)
  then
    if decide (status import_job = PROMOTING)
    then mkHandled 425 import_job false
    else
      match poll observe 0 30 with
      | Some promoted =>
          let h := apply_edit promoted importer req in
          mkHandled (http_status h) (job_after h) true
      | None => mkHandled 425 (observe 29%nat) true
      end
  else apply_edit import_job importer req.

(** *** The operations that edit a job *)

Inductive operation :=
| CellEdit (observe : nat -> ImportJob) (req : UpdateCellRequest)
| SaveData (data : list (list cell)) (headers : option (list string)).

(** The job an operation leaves when it completes: a cell edit that
    answers 200, a save with its background task when there is one. *)
Definition run (op : operation) (job : ImportJob) (importer : option Importer)
  : option ImportJob :=
  match op with
  | CellEdit observe req =>
      let h := update_cell observe job importer req in
      if decide (http_status h = 200) then Some (job_after h) else None
  | SaveData data headers => save_completed job importer data headers
  end.

(** Whether the operation went through the legacy bulk save. *)
Definition fell_back (op : operation) (job : ImportJob)
    (importer : option Importer) : bool :=
  match op with
  | CellEdit _ _ => false
  | SaveData data headers => task_started (save_data job importer data headers)
  end.

End ConflictTracker.

End Imports.

(** ** The worker of API imports: [app/workers/api_worker.py] *)

Module ApiWorker.
Import Stdlib.Strings.Ascii PyStr.

(** A parsed file: its column names and its rows of string values. *)
Record dataframe := mkDf {
  df_columns : list string;
  df_rows : list (list string)
}.

(** The fields of the importer are dumps of validated [ImporterField]
    models: [name] is a string and [required] a boolean. *)
Definition field_name (f : jobj) : string :=
  match dict_get f "name" with
  | Some (PStr n) => n
  | _ => ""
  end.

Definition field_required (f : jobj) : bool :=
  truthy (default (PBool false) (dict_get f "required")).

(** Python sets are lists without repeats here.  The order of the list is
    not the order of a loop over the set: that is [set_iter] of the
    library. *)
Definition set_of (l : list string) : list string := remove_dups l.

Definition set_minus (a b : list string) : list string :=
  filter (fun x => x ∉ b) a.

Definition set_inter (a b : list string) : list string :=
  filter (fun x => x ∈ b) a.

Section WithLibrary.

Variable lib : pylib.

(** [normalize_header]: case-fold, strip, and drop one trailing [s] of a
    header that has more than this character. *)
Definition normalize_header (header : string) : string :=
  let h := py_strip lib (py_lower lib header) in
  match rev (chars h) with
  | c :: (_ :: _) as r => if is_char "s" c then text (rev (tail (c :: r))) else h
  | _ => h
  end.

(** The fuzzy pass: each unmatched field, in the order of the loop over
    their set, takes the first unmatched header with the same normal form,
    in the order of the loop over the set of the headers that are left;
    that header is then no longer available. *)
Fixpoint fuzzy_matches (unmatched_fields unmatched_headers : list string)
    (smart_mapping : list (string * string)) : list (string * string) :=
  match unmatched_fields with
  | [] => smart_mapping
  | importer_field :: rest =>
      match find (fun csv_header =>
                    String.eqb (normalize_header importer_field)
                               (normalize_header csv_header))
                 (set_iter lib unmatched_headers) with
      | Some csv_header =>
          fuzzy_matches rest
            (filter (fun h => h <> csv_header) unmatched_headers)
            (dict_set smart_mapping importer_field csv_header)
      | None => fuzzy_matches rest unmatched_headers smart_mapping
      end
  end.

Definition smart_mapping (importer_field_names csv_headers : list string)
  : list (string * string) :=
  let exact_matches := set_inter csv_headers importer_field_names in
  let exact :=
    foldl (fun m f => dict_set m f f) [] (set_iter lib exact_matches) in
  fuzzy_matches (set_iter lib (set_minus importer_field_names exact_matches))
    (set_minus csv_headers exact_matches) exact.

End WithLibrary.

Definition mapping_given (job : ImportJob) : bool :=
  match column_mapping job with
  | Some (_ :: _) => true
  | _ => false
  end.

(** Step 4: the mapping the job is processed with, and whether it was
    created here. *)
Definition resolve_mapping (lib : pylib) (job : ImportJob)
    (importer_fields : list jobj) (columns : list string) : ImportJob * bool :=
  if mapping_given job then (job, false)
  else
    let importer_field_names := set_of (field_name <$> importer_fields) in
    let required_fields :=
      set_of (field_name <$> filter (fun f => field_required f = true)
                               importer_fields) in
    let csv_headers := set_of columns in
    let sm := smart_mapping lib importer_field_names csv_headers in
    let matching_headers := dict_keys sm in
    let missing_required := set_minus required_fields matching_headers in
    match missing_required, matching_headers with
    | [], _ :: _ => (set_column_mapping sm job, true)
    | _, _ => (job, false)
    end.

(** [{csv_col: importer_field for importer_field, csv_col in mapping.items()}],
    looked up: the last field mapped to the column. *)
Definition reverse_lookup (mapping : list (string * string)) (csv_col : string)
  : option string :=
  fst <$> last (filter (fun p : string * string => p.2 = csv_col) mapping).

(** [df.rename(columns=reverse_mapping)] *)
Definition renamed_columns (job : ImportJob) (columns : list string)
  : list string :=
  if mapping_given job
  then (fun c => default c (reverse_lookup (default [] (column_mapping job)) c))
         <$> columns
  else columns.

Definition header_conflict (column message : string) : Conflict :=
  mkConflict (Some RowHeader) None (Some column) None None (Some message).

(** Step 5: the final header validation.  [Some job'] is the job marked
    FAILED; [None] lets the import proceed.  The missing required fields
    are a set: the message and the conflicts list them in the order of the
    loop over it. *)
Definition header_validation (lib : pylib) (job : ImportJob)
    (auto_created_mapping : bool) (importer_fields : list jobj)
    (current_columns : list string) (row_total : Z) : option ImportJob :=
  let required_fields :=
    set_of (field_name <$> filter (fun f => field_required f = true)
                             importer_fields) in
  let importer_field_names := set_of (field_name <$> importer_fields) in
  let current_headers := set_of current_columns in
  let missing_required_fields := set_minus required_fields current_headers in
  let field_overlap := set_inter importer_field_names current_headers in
  let failure :=
    match missing_required_fields with
    | _ :: _ =>
        Some ("Required fields are missing: "
              +:+ join ", " (set_iter lib missing_required_fields))
    | [] =>
        if (length field_overlap =? 0)%nat then
          Some "No matching fields found between CSV and importer configuration."
        else if negb auto_created_mapping && negb (mapping_given job)
                && (length field_overlap <? length importer_field_names)%nat
        then
          Some ("Only " +:+ pretty (Z.of_nat (length field_overlap)) +:+ " of "
                +:+ pretty (Z.of_nat (length importer_field_names))
                +:+ " fields match. Please provide a column mapping.")
        else None
    end in
  match failure with
  | None => None
  | Some error_msg =>
      let errs :=
        match missing_required_fields with
        | [] => [header_conflict "Mapping" error_msg]
        | _ =>
            (fun f => header_conflict f
                        ("Required field '" +:+ f
                         +:+ "' is missing from the data file."))
              <$> set_iter lib missing_required_fields
        end in
      let count :=
        match missing_required_fields with
        | [] => 1
        | _ => Z.of_nat (length missing_required_fields)
        end in
      Some (set_errors errs count
              (set_processed_rows 0
                 (set_row_count row_total
                    (set_error_message error_msg (set_status FAILED job)))))
  end.

(** [row[field_name]]: the value under the column, or, for a column name
    that occurs more than once, the [Series] of the values under it. *)
Definition row_value (columns : list string) (row : list string)
    (field : string) : outcome Validator.value :=
  match filter (fun p : string * string => p.1 = field) (zip columns row) with
  | [(_, v)] => Ok (Validator.Scalar (CStr v))
  | [] => Raise KeyError
  | l => Ok (Validator.Series (CStr <$> l.*2))
  end.

(** [field_map]: the configuration of each field name, in order; a later
    field of the same name replaces an earlier one. *)
Definition field_map (importer_fields : list jobj) : list (string * jobj) :=
  foldl (fun m f => dict_set m (field_name f) f) [] importer_fields.

Definition cell_error (row_idx : nat) (field value message : string)
  : Conflict :=
  mkConflict (Some (RowNum (Z.of_nat row_idx + 1))) None (Some field)
    (Some (CStr value)) None (Some message).

Section Rows.

Variable lib : pylib.

(** The fields of one row.  [validate_field] raises on a [Series], so a
    conflict is only ever written for a value that has a [str]. *)
Fixpoint validate_fields (columns : list string) (row_idx : nat)
    (row : list string) (fm : list (string * jobj)) : outcome (list Conflict) :=
  match fm with
  | [] => Ok []
  | (name, field_config) :: rest =>
      if bool_decide (name ∈ columns) then
        do value <- row_value columns row name;;
        do error_message <- Validator.validate_field lib value field_config;;
        do later <- validate_fields columns row_idx row rest;;
        Ok (match error_message with
            | Some m =>
                if truthy_str m
                then cell_error row_idx name (Validator.text_of value) m
                       :: later
                else later
            | None => later
            end)
      else validate_fields columns row_idx row rest
  end.

Fixpoint validate_frame (columns : list string) (fm : list (string * jobj))
    (rows : list (nat * list string)) : outcome (list Conflict) :=
  match rows with
  | [] => Ok []
  | (row_idx, row) :: rest =>
      do here <- validate_fields columns row_idx row fm;;
      do later <- validate_frame columns fm rest;;
      Ok (here ++ later)
  end.

End Rows.

Definition is_header (e : Conflict) : bool :=
  bool_decide (c_row e = Some RowHeader).

(** The rows that have an error, as a list of row numbers. *)
Definition numbered_rows (errors : list Conflict) : list Z :=
  omap (fun e => match c_row e with Some (RowNum n) => Some n | _ => None end)
       errors.

(** The separation for the stored files: the loop over the errors stops
    at the first structural error. *)
Fixpoint error_row_indices (errors : list Conflict) (acc : list Z)
  : bool * list Z :=
  match errors with
  | [] => (false, acc)
  | e :: rest =>
      match c_row e with
      | Some RowHeader => (true, acc)
      | Some (RowNum n) => error_row_indices rest (acc ++ [n - 1])
      | None => error_row_indices rest acc
      end
  end.

(** [df[mask]] for the mask of the rows whose index is in [indices]. *)
Definition rows_in (indices : list Z) (keep : bool) (rows : list (list string))
  : list (list string) :=
  snd <$> filter (fun p : nat * list string =>
                    bool_decide (Z.of_nat p.1 ∈ indices) = keep)
                 (enumerate rows).

(** The data frames handed to the webhook: valid rows and invalid rows. *)
Definition webhook_frames (errors : list Conflict) (rows : list (list string))
  : list (list string) * list (list string) :=
  let indices := (error_row_indices errors []).2 in
  if existsb is_header errors then ([], rows)
  else
    match indices with
    | [] => (rows, [])
    | _ => (rows_in indices false rows, rows_in indices true rows)
    end.

(** What the worker leaves: the job, and the frames of the webhook call
    when the rows were validated. *)
Record processed := mkProcessed {
  job_done : ImportJob;
  frames : option (list string * list (list string) * list (list string))
}.

(** Step 6, and the file metadata written before the webhook is sent:
    the headers of the file as it was read. *)
Definition finalize (job : ImportJob) (errors : list Conflict) (rows : Z)
    (original_csv_headers : list string) : ImportJob :=
  let structural_errors := length (filter (fun e => is_header e = true) errors) in
  let error_rows := remove_dups (numbered_rows errors) in
  let st :=
    if (0 <? structural_errors)%nat || (0 <? length error_rows)%nat
    then UNCOMPLETED else COMPLETED in
  let count :=
    if (0 <? structural_errors)%nat then rows
    else Z.of_nat (length error_rows) in
  set_file_metadata original_csv_headers
    (set_errors errors count
       (set_processed_rows rows (set_row_count rows (set_status st job)))).

(** The [except] of the worker: the job is FAILED with the text of the
    exception. *)
Definition failed_run (lib : pylib) (e : exn) (job : ImportJob) : ImportJob :=
  set_error_message (exception_text lib e) (set_status FAILED job).

(** Steps 6 to 9 of [process_api_import]: the rows are validated field by
    field, the job is finalized, and the frames of the webhook are made. *)
Definition validate_and_finish (lib : pylib) (job : ImportJob) (imp : Importer)
    (original_csv_headers columns : list string) (rows : list (list string))
  : processed :=
  let fm := field_map (fields imp) in
  let missing_required_columns :=
    (fun p => header_conflict p.1
                ("Required column '" +:+ p.1
                 +:+ "' is missing from the CSV file."))
      <$> filter (fun p : string * jobj =>
                    (p.1 ∉ columns) /\ field_required p.2 = true) fm in
  match validate_frame lib columns fm (enumerate rows) with
  | Raise e => mkProcessed (failed_run lib e job) None
  | Ok row_errors =>
      let errors := missing_required_columns ++ row_errors in
      let w := webhook_frames errors rows in
      mkProcessed
        (finalize job errors (Z.of_nat (length rows)) original_csv_headers)
        (if webhook_enabled imp && truthy_str (webhook_url imp)
         then Some (columns, w.1, w.2) else None)
  end.

(** [process_api_import] on an existing job.  [None] for the importer is
    a configuration that is not found, [None] for the frame a file that
    could not be read: both raise [ValueError].  The fields of the importer
    are taken as [model_dump] returns them once [ImporterSchema] has
    validated the configuration. *)
Definition process_api_import (lib : pylib) (job : ImportJob)
    (importer : option Importer) (df : option dataframe) : processed :=
  let failed j := mkProcessed (failed_run lib ValueError j) None in
  match importer, df with
  | None, _ => failed job
  | Some _, None => failed (set_status PROCESSING job)
  | Some imp, Some frame =>
      let job0 := set_status PROCESSING job in
      let r := resolve_mapping lib job0 (fields imp) (df_columns frame) in
      let columns := renamed_columns r.1 (df_columns frame) in
      let total := Z.of_nat (length (df_rows frame)) in
      match header_validation lib r.1 r.2 (fields imp) columns total with
      | Some failed_job => mkProcessed failed_job None
      | None =>
          validate_and_finish lib r.1 imp (df_columns frame) columns
            (df_rows frame)
      end
  end.

End ApiWorker.

(** ** Webhook payloads: [app/services/import_service.py] *)

Module ImportService.
Import ApiWorker.

(** The part of the payload that carries rows. *)
Record payload := mkPayload {
  total_rows : Z;
  valid_rows : Z;
  error_rows : Z;
  data : list (list string);
  errors_data : list (list string)
}.

(** [l[:n]]: the first [n] elements, or, for a negative [n], all but the
    last [-n]. *)
Definition py_prefix {A} (n : Z) (l : list A) : list A :=
  if 0 <=? n then take (Z.to_nat n) l
  else take (length l - Z.to_nat (- n)) l.

(** [records[:sample_size]] when truncation applies *)
Definition sample {A} (imp : Importer) (records : list A) : list A :=
  if truncate_data imp
     && (webhook_data_sample_size imp <? Z.of_nat (length records))
  then py_prefix (webhook_data_sample_size imp) records
  else records.

(** [send_webhook_for_api_import]: the payload built from the two frames. *)
Definition api_payload (job : ImportJob) (imp : Importer)
    (valid_data failed_data : list (list string)) : payload :=
  let included := include_data_in_webhook imp in
  mkPayload (row_count job) (Z.max 0 (row_count job - error_count job))
    (error_count job)
    (if included then sample imp valid_data else [])
    (if included && bool_decide (status job = UNCOMPLETED)
     then sample imp failed_data else []).

(** The separation of [send_webhook_notification], used when a webhook is
    sent again for a job without data in the database: the valid frame and
    the failed frame made from the rows of the file. *)
Definition separate (job_errors : option (list Conflict))
    (rows : list (list string)) : list (list string) * list (list string) :=
  let error_indices := (fun n => n - 1) <$> numbered_rows (default [] job_errors) in
  match error_indices with
  | [] => (rows, [])
  | _ => (rows_in error_indices false rows, rows_in error_indices true rows)
  end.

(** [send_webhook_notification] for a job without [processed_data]:
    [None] when nothing is sent. *)
Definition resend_payload (job : ImportJob) (imp : Importer)
    (df : option dataframe) : option payload :=
  match df with
  | None => None
  | Some frame =>
      match df_rows frame with
      | [] => None
      | rows =>
          if webhook_enabled imp && truthy_str (webhook_url imp) then
            let s := separate (errors job) rows in
            Some (api_payload job imp s.1 s.2)
          else None
      end
  end.

(** The payload of [send_webhook_for_portal_import], whose rows are
    records. *)
Record record_payload := mkRecordPayload {
  r_total_rows : Z;
  r_valid_rows : Z;
  r_error_rows : Z;
  r_data : list row_dict;
  r_errors : list row_dict
}.

(** [df.empty] for the frame made of records: no record, or no column. *)
Definition frame_empty (records : list row_dict) : bool :=
  forallb (fun d : row_dict => match d with [] => true | _ => false end)
          records.

(** [pd.DataFrame(data).to_dict(orient='records')] for the records of a
    table, each over the same columns: the records themselves.  (A record
    that lacks a column of another one gets a NaN for it; such data is not
    covered here.) *)
Definition to_records (data : list row_dict) : list row_dict := data.

(** [send_webhook_for_portal_import] without a frame from a worker: the
    rows are those of [processed_data].  [clean_df] takes all of them;
    [error_df] is made empty and nothing is ever put into it, so the block
    that fills [errors] does not run.  [None] when nothing is sent. *)
Definition send_webhook_for_portal_import (job : ImportJob) (imp : Importer)
  : option record_payload :=
  if negb (webhook_enabled imp) || negb (truthy_str (webhook_url imp))
  then None
  else
    let data :=
      if pd_truthy (processed_data job)
      then default [] (processed_data job ≫= pd_data) else [] in
    let clean_df := match data with [] => [] | _ => data end in
    let error_df : list row_dict := [] in
    let included := include_data_in_webhook imp in
    Some (mkRecordPayload (row_count job)
            (Z.max 0 (row_count job - error_count job)) (error_count job)
            (if included && negb (frame_empty clean_df)
             then sample imp (to_records clean_df) else [])
            (if included && negb (frame_empty error_df)
                && bool_decide (status job = UNCOMPLETED)
             then sample imp (to_records error_df) else [])).

(** What a webhook carries: the rows of two frames, or records. *)
Inductive webhook :=
| FromFrames (w : payload)
| FromRecords (w : record_payload).

(** [send_webhook_notification] without a frame from a worker: a job with
    [processed_data] goes to the sender of the portal, any other job has
    its rows read from its file, [file] here, and separated. *)
Definition send_webhook_notification (job : ImportJob) (imp : Importer)
    (file : option dataframe) : option webhook :=
  if pd_truthy (processed_data job)
  then FromRecords <$> send_webhook_for_portal_import job imp
  else FromFrames <$> resend_payload job imp file.

End ImportService.

(** ** Promotion: [promote_api_job_for_editing] and
    [promote_api_job_to_portal_managed] in [app/api/v1/imports.py] *)

Module Promotion.
Import ApiWorker.

(** What a promotion does to the outside world: it asks the object store
    for the file of a path, whether the file is there or not, and it writes
    the rows of the job to the database. *)
Inductive io_event :=
| FileLoad (path : string)
| DataWrite (rows : list row_dict).

(** A pending edit handed to the promotion. *)
Record pending_edit := mkPending {
  pending_row_index : Z;
  pending_column_key : string;
  pending_new_value : string
}.

(** [df.rename(columns=job.column_mapping)] *)
Definition rename_by (mapping : list (string * string)) (frame : dataframe)
  : dataframe :=
  mkDf ((fun c => default c (dict_get mapping c)) <$> df_columns frame)
       (df_rows frame).

(** [df.to_dict('records')] *)
Definition records (frame : dataframe) : list row_dict :=
  (fun row => Imports.row_to_dict (df_columns frame) (CStr <$> row))
    <$> df_rows frame.

(** [any(key != value for key, value in mapping.items() if value)] *)
Definition meaningful (mapping : list (string * string)) : bool :=
  existsb (fun p : string * string =>
             truthy_str p.2 && negb (String.eqb p.1 p.2)) mapping.

(** The names of the required fields and of all the fields, as the
    promotion reads them from the stored importer. *)
Fixpoint names_of (fs : list jobj) : outcome (list string) :=
  match fs with
  | [] => Ok []
  | f :: fs' =>
      do n <- Imports.field_name_of f;;
      do r <- names_of fs';;
      Ok (n :: r)
  end.

Definition header_mismatch_message : string :=
  "CSV headers do not match the expected importer field names. Please provide a column mapping or ensure your CSV headers match the importer configuration.".

(** The header check of a promotion without a column mapping: [Some job']
    is the job marked FAILED.  The conflicts are in the order of the loop
    over the set of the missing required fields. *)
Definition check_headers (lib : pylib) (job : ImportJob) (imp : Importer)
    (frame : dataframe) : outcome (option ImportJob) :=
  do required <-
    names_of (filter (fun f => field_required f = true) (fields imp));;
  do names <- names_of (fields imp);;
  let required_fields := set_of required in
  let importer_field_names := set_of names in
  let csv_headers := set_of (df_columns frame) in
  let missing_required_fields := set_minus required_fields csv_headers in
  let field_overlap := set_inter importer_field_names csv_headers in
  if (0 <? length missing_required_fields)%nat
     || (2 * Z.of_nat (length field_overlap)
         <? Z.of_nat (length importer_field_names))
  then
    let errs :=
      (fun f => header_conflict f
                  ("Required field '" +:+ f
                   +:+ "' is missing from the CSV file."))
        <$> set_iter lib missing_required_fields in
    Ok (Some (set_processed_rows 0
                (set_errors errs (Z.of_nat (length errs))
                   (set_error_message header_mismatch_message
                      (set_status FAILED job)))))
  else Ok None.

Section Storage.

Variable lib : pylib.

(** The object store: the frame read from a path, [None] when the file is
    missing or cannot be read. *)
Variable load_file : string -> option dataframe.

(** Step 1: the records of the file, or the job marked FAILED. *)
Definition load_records (job : ImportJob) (importer : option Importer)
  : ImportJob + list row_dict :=
  let load_failed e :=
    inl (set_error_message
           ("Failed to load data for editing: " +:+ exception_text lib e)
           (set_status FAILED job)) in
  match load_file (file_path job) with
  | None => load_failed FileNotFoundError
  | Some frame =>
      let mapping := default [] (column_mapping job) in
      if ApiWorker.mapping_given job && meaningful mapping
      then inr (records (rename_by mapping frame))
      else if ApiWorker.mapping_given job then inr (records frame)
      else
        match importer with
        | None => inr (records frame)
        | Some imp =>
            match check_headers lib job imp frame with
            | Raise e => load_failed e
            | Ok (Some failed_job) => inl failed_job
            | Ok None => inr (records frame)
            end
        end
  end.

(** Step 2: the pending edit applied to the records. *)
Definition apply_pending (rows : list row_dict) (edit : pending_edit)
  : option (list row_dict) :=
  if bool_decide (0 <= pending_row_index edit < Z.of_nat (length rows)) then
    match rows !! Z.to_nat (pending_row_index edit) with
    | Some record =>
        match dict_get record (pending_column_key edit) with
        | Some _ =>
            Some (<[Z.to_nat (pending_row_index edit) :=
                      dict_set record (pending_column_key edit)
                        (CStr (pending_new_value edit))]> rows)
        | None => None
        end
    | None => None
    end
  else None.

(** [promote_api_job_for_editing] on an existing job: the job it
    commits, and the file loads and data writes it performs. *)
Definition promote_api_job_for_editing (job : ImportJob)
    (importer : option Importer) (edit : option pending_edit)
  : ImportJob * list io_event :=
  if pd_truthy (processed_data job) then (job, [])
  else if negb (truthy_str (file_path job)) then
    (set_error_message "No file path found for promotion."
       (set_status FAILED job), [])
  else
    match load_records job importer with
    | inl failed_job => (failed_job, [FileLoad (file_path job)])
    | inr rows =>
        let edited :=
          match edit with
          | None => Some rows
          | Some e => apply_pending rows e
          end in
        match edited with
        | None =>
            (set_error_message
               ("Failed to apply pending edit: "
                +:+ exception_text lib ValueError)
               (set_status FAILED job), [FileLoad (file_path job)])
        | Some rows' =>
            let pd :=
              mkPdata (Some rows')
                (match edit with Some _ => ["first_edit"] | None => [] end) in
            let job1 := set_processed_data pd job in
            (if decide (status job = COMPLETED) then job1
             else set_status UNCOMPLETED job1,
             [FileLoad (file_path job); DataWrite rows'])
        end
    end.

(** [promote_api_job_to_portal_managed] on an existing job. *)
Definition promote_api_job_to_portal_managed (job : ImportJob)
  : ImportJob * list io_event :=
  if pd_truthy (processed_data job) then (job, [])
  else
    match load_file (file_path job) with
    | None =>
        (set_error_message "Failed to prepare data for editing."
           (set_status FAILED job), [FileLoad (file_path job)])
    | Some frame =>
        let frame' :=
          if ApiWorker.mapping_given job
          then rename_by (default [] (column_mapping job)) frame
          else frame in
        (set_status UNCOMPLETED
           (set_processed_data (mkPdata (Some (records frame')) []) job),
         [FileLoad (file_path job); DataWrite (records frame')])
    end.

(** The two ways the promotion work is triggered. *)
Inductive trigger :=
| ForEditing (importer : option Importer) (edit : option pending_edit)
| ToPortalManaged.

Definition promote (t : trigger) (job : ImportJob)
  : ImportJob * list io_event :=
  match t with
  | ForEditing importer edit => promote_api_job_for_editing job importer edit
  | ToPortalManaged => promote_api_job_to_portal_managed job
  end.

End Storage.

(** The number of file loads and of data writes among the events. *)
Definition is_load (e : io_event) : bool :=
  match e with FileLoad _ => true | DataWrite _ => false end.

Definition is_write (e : io_event) : bool :=
  match e with DataWrite _ => true | FileLoad _ => false end.

Definition loads (evs : list io_event) : nat :=
  length (filter (fun e => is_load e = true) evs).

Definition writes (evs : list io_event) : nat :=
  length (filter (fun e => is_write e = true) evs).

End Promotion.

(** ** A small instance of the library

    The examples below run the validators on concrete values.  None of them
    reaches a user pattern, an ISO-8601 date or a URL, so they do not depend
    on this instance: it treats every user pattern as one that does not
    compile, reads only the calendar form [YYYY-MM-DD] as ISO-8601, and
    splits a URL at [://] and at the next [/], [?] or [#]. *)

Module Reference.
Import Stdlib.Strings.Ascii PyStr.

Fixpoint split_scheme (l acc : list ascii) : option (list ascii * list ascii) :=
  match l with
  | [] => None
  | c :: l' =>
      if is_char ":" c then Some (rev acc, l')
      else if between "a" "z" c || between "A" "Z" c || is_digit c
              || is_char "+" c || is_char "-" c || is_char "." c
      then split_scheme l' (c :: acc)
      else None
  end.

Fixpoint netloc_of (l : list ascii) : list ascii :=
  match l with
  | [] => []
  | c :: l' =>
      if is_char "/" c || is_char "?" c || is_char "#" c then []
      else c :: netloc_of l'
  end.

Definition basic_urlparse (s : string) : outcome (string * string) :=
  match split_scheme (chars s) [] with
  | Some (scheme, rest) =>
      match scheme, rest with
      | _ :: _, a :: b :: rest' =>
          if is_char "/" a && is_char "/" b
          then Ok (lower (text scheme), text (netloc_of rest'))
          else Ok (lower (text scheme), "")
      | _ :: _, _ => Ok (lower (text scheme), "")
      | [], _ => Ok ("", "")
      end
  | None => Ok ("", "")
  end.

(** The instance: the string functions are those of ASCII text, and a
    loop over a set runs in the order of the list. *)
Definition basic_lib : pylib :=
  mkLib (fun _ _ => Raise ReError)
        (fun s => (String.length s =? 10)%nat
                  && Strptime.strptime s Strptime.fmt_Ymd_dash)
        basic_urlparse
        strip lower upper len (fun s => (fun c => text [c]) <$> chars s)
        PyFloat.float_of_string
        match_email match_phone match_digits
        match_short_short_year match_year_short_short
        Strptime.strptime id (fun _ => "")
        (fun _ _ => eq_refl) (fun _ _ => eq_refl) (fun _ _ => eq_refl)
        (fun _ _ => eq_refl) (fun _ _ => eq_refl) (fun _ _ => eq_refl)
        (fun _ _ => eq_refl) (fun _ _ => eq_refl) (fun _ _ => eq_refl)
        (fun _ _ => eq_refl) (fun _ _ => eq_refl)
        (fun _ _ _ _ => eq_refl)
        (fun l => Permutation_refl l).

(** A library with another ISO-8601 parser and the rest unchanged. *)
Definition with_fromisoformat (f : string -> bool) (lib : pylib) : pylib :=
  mkLib (re_match lib) f (urlparse lib)
        (py_strip lib) (py_lower lib) (py_upper lib) (py_len lib) (py_chars lib)
        (py_float lib)
        (re_email lib) (re_phone lib) (re_digits lib)
        (re_short_short_year lib) (re_year_short_short lib)
        (py_strptime lib) (set_iter lib) (exception_text lib)
        (py_strip_ascii lib) (py_lower_ascii lib) (py_upper_ascii lib)
        (py_len_ascii lib) (py_chars_ascii lib) (py_float_ascii lib)
        (re_email_ascii lib) (re_phone_ascii lib) (re_digits_ascii lib)
        (re_short_short_year_ascii lib) (re_year_short_short_ascii lib)
        (py_strptime_ascii lib) (set_iter_perm lib).

(** The validator of the portal and the one of the worker, on this instance. *)
Definition validate_field := ValidationService.validate_field basic_lib.

Definition worker_validate_field := Validator.validate_field basic_lib.

End Reference.

(** ** A small importer and its jobs, for the examples *)

Module Examples.

(** A required text field, as [ImporterField.model_dump()] stores it. *)
Definition name_field : jobj :=
  [("name", PStr "name"); ("type", PStr "text"); ("required", PBool true);
   ("extra_rules", PDict [])].

Definition contacts : Importer := mkImporter [name_field] false "" false false 0.

Definition contacts_path : string := "imports/contacts.csv".

(** The conflict of an empty required [name] in the row of index [i]. *)
Definition name_required (i : nat) : Conflict :=
  Imports.cell_conflict i "name" "name" (CStr "") "name is required".

(** A job whose rows are in the database. *)
Definition promoted (rows : list row_dict) (es : list Conflict)
    (st : ImportStatus) : ImportJob :=
  mkJob st API contacts_path (Z.of_nat (length rows)) (Z.of_nat (length rows))
    (Z.of_nat (length es)) (Some es) (Some [("name", "name")]) (Some ["name"])
    (Some (mkPdata (Some rows) [])) None.

(** A job of the API whose rows are still in its file. *)
Definition file_backed (es : list Conflict) (st : ImportStatus) : ImportJob :=
  mkJob st API contacts_path 2 2 (Z.of_nat (length es)) (Some es)
    (Some [("name", "name")]) (Some ["name"]) None None.

Definition named (n : string) : row_dict := [("name", CStr n)].

(** The file of the jobs above. *)
Definition contacts_file (path : string) : option ApiWorker.dataframe :=
  if String.eqb path contacts_path
  then Some (ApiWorker.mkDf ["name"] [["Ann"]; [""]])
  else None.

(** Two stored rows, the second with an empty name and its conflict. *)
Definition two_rows : ImportJob :=
  promoted [named "Ann"; named ""] [name_required 1] UNCOMPLETED.

(** An importer of four text fields, the first one required. *)
Definition text_field (n : string) (required : bool) : jobj :=
  [("name", PStr n); ("type", PStr "text"); ("required", PBool required);
   ("extra_rules", PDict [])].

Definition accounts : Importer :=
  mkImporter [text_field "account" true; text_field "email" false;
              text_field "phone" false; text_field "city" false]
    false "" false false 0.

(** A job of the API as it is created: no mapping, nothing processed. *)
Definition unmapped : ImportJob :=
  mkJob PENDING API "imports/accounts.csv" 0 0 0 None None None None None.


(** An importer that sends its rows to a webhook. *)
Definition notifying : Importer :=
  mkImporter [name_field] true "https://example.test/hook" true false 0.

Definition missing_name : Conflict :=
  ApiWorker.header_conflict "name"
    "Required field 'name' is missing from the data file.".

(** A job whose file lacks the column its mapping names: the worker left
    it with the header conflict, and a first edit promoted it: it has its
    rows and the status UNCOMPLETED. *)
Definition recovered : ImportJob :=
  mkJob UNCOMPLETED API contacts_path 1 0 1 (Some [missing_name])
    (Some [("name", "Full Name")]) (Some ["full name"])
    (Some (mkPdata (Some [[("full name", CStr "Ann")]]) ["last_edited"])) None.

(** A phone field and fields outside the data model. *)
Definition phone_field : jobj :=
  [("name", PStr "phone"); ("type", PStr "phone"); ("required", PBool false);
   ("extra_rules", PDict [])].

(** An importer of one phone field, a file for it, and the job of the API
    created on that file. *)
Definition phonebook : Importer :=
  mkImporter [phone_field] false "" false false 0.

Definition phonebook_path : string := "imports/phones.csv".

Definition phonebook_frame : ApiWorker.dataframe :=
  ApiWorker.mkDf ["phone"] [["555 0100"]].

Definition phonebook_file (path : string) : option ApiWorker.dataframe :=
  if String.eqb path phonebook_path then Some phonebook_frame else None.

Definition fresh_phonebook : ImportJob :=
  mkJob PENDING API phonebook_path 0 0 0 None None None None None.

Definition list_typed_field : jobj :=
  [("name", PStr "amount"); ("type", PList [PStr "number"])].

Definition loose_email_field : jobj :=
  [("name", PStr "email"); ("type", PStr "email"); ("extra_rules", PStr "strict")].

Definition barcode_field : jobj :=
  [("name", PStr "code"); ("type", PStr "barcode"); ("required", PBool true)].

End Examples.

(** ** The properties stated of the pipeline *)

Module Properties.
Import Imports.

(** A Python [dict] has one value per key. *)
Definition wf_dict {V} (d : list (string * V)) : Prop := NoDup d.*1.

(** The key a changed cell is validated and recorded under. *)
Definition cell_key (c2f : gmap string string) (c : changed_cell)
  : option row_ref * string :=
  let '(row_idx, _, col_header, _) := c in
  (Some (RowNum (Z.of_nat row_idx + 1)), default col_header (c2f !! col_header)).

(** What the tracker compares: row, field and message of a conflict. *)
Definition triple (e : Conflict) : option row_ref * string * option string :=
  (c_row e, err_field e, c_error e).

(** The key of the conflict a column of a row can give rise to. *)
Definition row_key (c2f : gmap string string) (i : nat) (row : list cell)
    (p : nat * string) : option (option row_ref * string) :=
  match row !! p.1 with
  | Some _ => (fun f => (Some (RowNum (Z.of_nat i + 1)), f)) <$> c2f !! p.2
  | None => None
  end.

(** The stored data laid out under the headers, as the diff reads it: a
    record without the column counts as the empty string. *)
Definition stored_rows (headers : list string) (D : list row_dict)
  : list (list cell) :=
  (fun d => (fun h => default (CStr "") (dict_get d h)) <$> headers) <$> D.

(** A cell that holds a string. *)
Definition is_text (c : cell) : Prop := exists s, c = CStr s.

(** The stored rows are the records of one table: each of them has the
    same columns, at least one, and each column once. *)
Definition table (D : list row_dict) : Prop :=
  exists columns, columns <> [] /\ NoDup columns /\
    Forall (fun d : row_dict => dict_keys d = columns) D.

(** Two error lists hold the same (row, field, error) records. *)
Definition same_conflicts (es fs : list Conflict) : Prop :=
  forall t, t ∈ triple <$> es <-> t ∈ triple <$> fs.

(** What the uniqueness of the conflicts needs from an operation: unique
    conflicts before it; for an edit, a field name that is not empty; for a
    save, a column mapping with one entry per field and column names
    without repeats. *)
Definition well_formed (op : operation) (job : ImportJob) : Prop :=
  match op with
  | CellEdit observe req =>
      forall j, j = job \/ (exists k, j = observe k) ->
        conflicts_unique (default [] (errors j)) /\
        resolve_field_name (column_mapping j) (column_key req) <> ""
  | SaveData data headers =>
      conflicts_unique (default [] (errors job)) /\
      wf_dict (default [] (column_mapping job)) /\
      NoDup (effective_headers (stored_data job) headers) /\
      NoDup (legacy_headers job data headers)
  end.

Section Validation.

Variable validate_field : cell -> jobj -> outcome (option string).

(** The conflict a cell gives rise to: its column is mapped to a field
    with a configuration, and the validator returns a message for it. *)
Definition cell_error (c2f : gmap string string) (cfgs : gmap string jobj)
    (c : changed_cell) (e : Conflict) : Prop :=
  exists f cfg m,
    c2f !! c.1.2 = Some f /\ cfgs !! f = Some cfg /\
    validate_field c.2 cfg = Ok (Some m) /\ truthy_str m = true /\
    e = cell_conflict c.1.1.1 f c.1.2 c.2 m.

End Validation.

(** The two saves of the same request complete, the diff-based one with
    the conflicts [diff] and the full revalidation with the conflicts
    [full], and these are not the same (row, field, error) records. *)
Definition saves_leave (validate_field : cell -> jobj -> outcome (option string))
    (job : ImportJob) (imp : Importer) (data : list (list cell))
    (headers : option (list string)) (diff full : list Conflict) : Prop :=
  (exists job' s,
     optimized_save_and_validate validate_field job (Some imp) data headers
       = Ok (job', s) /\
     errors job' = Some diff) /\
  (exists job_full,
     revalidate_and_save_job validate_field (Some job) (Some imp) data headers
       = Some job_full /\
     status job_full = UNCOMPLETED /\ errors job_full = Some full) /\
  ~ same_conflicts diff full.

(** *** The header validation of the worker *)

(** The names of the required fields and of all fields of an importer. *)
Definition required_names (imp : Importer) : list string :=
  ApiWorker.set_of
    (ApiWorker.field_name
       <$> filter (fun f => ApiWorker.field_required f = true) (fields imp)).

Definition all_names (imp : Importer) : list string :=
  ApiWorker.set_of (ApiWorker.field_name <$> fields imp).




(** *** The rows of a webhook *)

(** The 0-based indices of the rows that have a conflict. *)
Definition error_indices (errors : list Conflict) : list Z :=
  (fun n => n - 1) <$> ApiWorker.numbered_rows errors.

(** *** Numbers *)

Section Numbers.
Import Stdlib.Strings.Ascii PyStr PyFloat.

(** [x > 0] and [x < 0] *)
Definition positive (x : pyfloat) : Prop :=
  match x with
  | FNan => False
  | FInf negative => negative = false
  | FFin m _ => 0 < m
  end.

Definition negative (x : pyfloat) : Prop :=
  match x with
  | FNan => False
  | FInf negative => negative = true
  | FFin m _ => m < 0
  end.

(** What a number field takes. *)
Definition admissible (lib : pylib) (v : string) (whole : bool) (sign : pyval)
  : Prop :=
  contains_char "@" v = false /\
  startswith "http://" v = false /\
  startswith "https://" v = false /\
  exists x, py_float lib v = Some x /\ x <> FNan /\
    (whole = true -> is_integer x = true) /\
    (sign = PStr "positive" -> positive x) /\
    (sign = PStr "negative" -> negative x).

(** The sign rule the portal reads, as the worker reads its own. *)
Definition portal_sign (sign : option string) : pyval :=
  match sign with
  | Some s => PStr s
  | None => PNone
  end.

End Numbers.

(** *** The field validator of the worker *)

(** A value that can be the key of a table lookup: not a list, not a dict. *)
Definition hashable (v : pyval) : Prop :=
  match v with
  | PList _ | PDict _ => False
  | _ => True
  end.

Definition internal_error : string := "Validation failed due to internal error".

(** *** Dates under a declared format *)

Section Dates.
Import Stdlib.Strings.Ascii PyStr.

(** A run of digits, of one or two, or of four. *)
Definition digits (l : list ascii) : Prop :=
  Forall (fun c => is_digit c = true) l.

Definition short (l : list ascii) : Prop :=
  digits l /\ (1 <= length l <= 2)%nat.

Definition four (l : list ascii) : Prop := digits l /\ length l = 4%nat.

(** The number a run of digits reads as. *)
Definition number (l : list ascii) : Z := int_of_digits l.

(** The Gregorian calendar. *)
Definition leap_year (y : Z) : Prop :=
  y mod 4 = 0 /\ (y mod 100 <> 0 \/ y mod 400 = 0).

#[global] Instance leap_year_dec y : Decision (leap_year y).
Proof. unfold leap_year. apply _. Defined.

Definition month_length (y m : Z) : Z :=
  match m with
  | 2 => if decide (leap_year y) then 29 else 28
  | 4 | 6 | 9 | 11 => 30
  | _ => 31
  end.

(** A date of the calendar, years 1 to 9999. *)
Definition real_date (y m d : Z) : Prop :=
  1 <= y <= 9999 /\ 1 <= m <= 12 /\ 1 <= d <= month_length y m.

(** The value is three parts with a delimiter after the first and the
    second; a newline may end it. *)
Definition three_parts (value : string) (a b c : list ascii) : Prop :=
  exists d1 d2 tail,
    chars value = a ++ d1 :: b ++ d2 :: c ++ tail /\
    is_date_delimiter d1 = true /\ is_date_delimiter d2 = true /\
    at_end tail = true.

(** The order of the parts in a declared format. *)
Inductive date_order := MonthDayYear | DayMonthYear | YearMonthDay.

(** The value has the parts of the format and they are a date. *)
Definition conforms (o : date_order) (value : string) : Prop :=
  exists a b c, three_parts value a b c /\
    match o with
    | MonthDayYear =>
        short a /\ short b /\ four c /\
        real_date (number c) (number a) (number b)
    | DayMonthYear =>
        short a /\ short b /\ four c /\
        real_date (number c) (number b) (number a)
    | YearMonthDay =>
        four a /\ short b /\ short c /\
        real_date (number a) (number b) (number c)
    end.

(** The four declared formats. *)
Definition order_of (fmt : string) : option date_order :=
  if String.eqb fmt "MM/DD/YYYY" then Some MonthDayYear
  else if String.eqb fmt "DD/MM/YYYY" then Some DayMonthYear
  else if String.eqb fmt "YYYY/MM/DD" then Some YearMonthDay
  else if String.eqb fmt "YYYY-MM-DD" then Some YearMonthDay
  else None.

(** The pattern of a declared format, the separator its groups are put
    back together with, and the format [strptime] reads them in. *)
Definition declared_pattern (lib : pylib) (o : date_order)
  : string -> option (string * string * string) :=
  match o with
  | YearMonthDay => re_year_short_short lib
  | MonthDayYear | DayMonthYear => re_short_short_year lib
  end.

Definition declared_separator (fmt : string) : string :=
  if String.eqb fmt "YYYY-MM-DD" then "-" else "/".

Definition declared_directives (fmt : string) : list Strptime.directive :=
  if String.eqb fmt "MM/DD/YYYY" then Strptime.fmt_mdY
  else if String.eqb fmt "DD/MM/YYYY" then Strptime.fmt_dmY
  else if String.eqb fmt "YYYY/MM/DD" then Strptime.fmt_Ymd_slash
  else Strptime.fmt_Ymd_dash.

(** The value matches the three-part pattern of the format, and [strptime]
    reads the three groups as a date. *)
Definition matches_and_parses (lib : pylib) (fmt : string) (o : date_order)
    (value : string) : Prop :=
  exists a b c,
    declared_pattern lib o value = Some (a, b, c) /\
    py_strptime lib
      (a +:+ declared_separator fmt +:+ b +:+ declared_separator fmt +:+ c)
      (declared_directives fmt) = true.

(** Two libraries with the same [strip], the same matches of the two date
    patterns and the same [strptime]; they may differ in everything else,
    [fromisoformat], [len] and the pattern [^\d+$] of the fallback among
    it. *)
Definition same_date_rule (lib lib' : pylib) : Prop :=
  (forall s, py_strip lib' s = py_strip lib s) /\
  (forall s, re_short_short_year lib' s = re_short_short_year lib s) /\
  (forall s, re_year_short_short lib' s = re_year_short_short lib s) /\
  (forall s fmt, py_strptime lib' s fmt = py_strptime lib s fmt).

End Dates.

End Properties.

(** ** More files for the examples *)

Module Samples.

(** A file of two contacts, the second without a name. *)
Definition contacts_frame : ApiWorker.dataframe :=
  ApiWorker.mkDf ["name"] [["Ann"]; [""]].

(** An importer that sends a sample of one row to its webhook. *)
Definition sampling : Importer :=
  mkImporter [Examples.name_field] true "https://example.test/hook" true true 1.

(** A job of the API on the file of contacts, as it is created. *)
Definition fresh_contacts : ImportJob :=
  mkJob PENDING API Examples.contacts_path 0 0 0 None None None None None.

(** Fields as the importer stores them. *)
Definition email_field : jobj :=
  [("name", PStr "email"); ("type", PStr "email"); ("required", PBool false);
   ("extra_rules", PDict [])].

Definition active_field : jobj :=
  [("name", PStr "active"); ("type", PStr "boolean"); ("required", PBool false);
   ("extra_rules", PDict [("template", PStr "yes/no")])].

Definition colour_field : jobj :=
  [("name", PStr "colour"); ("type", PStr "select"); ("required", PBool false);
   ("extra_rules", PDict [("options", PList [PStr "Red"; PStr "Green"])])].

Definition size_field : jobj :=
  [("name", PStr "size"); ("type", PStr "select"); ("required", PBool false);
   ("extra_rules", PDict [("options", PStr "small, large")])].

(** A number field in the legacy form, before the conversion. *)
Definition legacy_amount : jobj :=
  [("name", PStr "amount"); ("type", PStr "number");
   ("validation_format", PStr "positive")].

(** A field with rules at the three places the worker reads them from. *)
Definition layered_field : jobj :=
  [("name", PStr "amount"); ("type", PStr "number");
   ("extra_rules", PDict [("sign", PStr "positive")]);
   ("validation",
    PDict [("sign", PStr "any"); ("subtype", PStr "integer");
           ("extra_rules", PDict [("sign", PStr "negative")])])].

End Samples.

(** ** What a finished import looks like *)

Module Finished.

(** A conflict of a row of the file: its row is a number from 1 to the
    number of rows. *)
Definition row_conflict (total : nat) (e : Conflict) : Prop :=
  exists n, c_row e = Some (RowNum n) /\ 1 <= n <= Z.of_nat total.

(** The number of distinct rows the conflicts are on. *)
Definition rows_in_error (es : list Conflict) : Z :=
  Z.of_nat (length (remove_dups (ApiWorker.numbered_rows es))).

End Finished.

(** ** The cells of a job *)

Module Stored.

(** The value stored for a row and a column of a job, when the job has it. *)
Definition cell_at (job : ImportJob) (row : Z) (column : string) : option cell :=
  if bool_decide (0 <= row) then
    Imports.stored_data job !! Z.to_nat row
      ≫= fun record => dict_get record column
  else None.

(** The conflicts of a job that are conflicts of the cell of a row (from 0)
    and a field. *)
Definition on_cell (row : Z) (field : string) (e : Conflict) : Prop :=
  c_row e = Some (RowNum (row + 1)) /\ field_or_column e = Some field.

(** A job is ready for an edit when it has its data and is not being
    promoted. *)
Definition ready (j : ImportJob) : bool :=
  pd_truthy (processed_data j) && negb (bool_decide (status j = PROMOTING)).

End Stored.

(** ** The values the validators take *)

Module Shapes.
Import Stdlib.Strings.Ascii PyStr.

(** A run of at least one character, none of them white space or [@]. *)
Definition plain (l : list ascii) : Prop :=
  l <> [] /\ Forall (fun c => is_email_char c = true) l.

(** [local@a.b], with a newline allowed at the very end. *)
Definition email_shape (value : string) : Prop :=
  exists local a b tail : list ascii,
    chars value = local ++ "@"%char :: a ++ "."%char :: b ++ tail /\
    plain local /\ plain a /\ plain b /\ at_end tail = true.

(** The object a configuration value stands for: itself when it is an
    object, the empty object otherwise. *)
Definition as_dict (v : pyval) : jobj :=
  match v with
  | PDict d => d
  | _ => []
  end.

(** A field as the importer stores it: a type, its rules in [extra_rules],
    and no legacy [validation] object. *)
Definition stored_field (field_config : jobj) (type : string) (rules : jobj)
  : Prop :=
  dict_get field_config "type" = Some (PStr type) /\
  dict_get field_config "extra_rules" = Some (PDict rules) /\
  dict_get field_config "validation" = None /\
  Properties.wf_dict rules.

(** The rule a legacy key of a field of a type stands for. *)
Definition legacy_rule (field_type : pyval) (vf tpl : pyval) (k : string)
  : option pyval :=
  if truthy vf && (is_str field_type "number" && String.eqb k "sign"
                   || is_str field_type "date" && String.eqb k "format"
                   || is_str field_type "custom_regex" && String.eqb k "pattern")
  then Some vf
  else if truthy tpl && (is_str field_type "boolean" && String.eqb k "template"
                         || is_str field_type "select" && String.eqb k "options")
  then Some tpl
  else None.

(** The options a comma-separated string lists. *)
Definition listed (lib : pylib) (s : string) : list string :=
  filter (fun o => truthy_str o = true) (py_strip lib <$> split "," s).

End Shapes.

(** ** The schema of an importer field: [app/schemas/importer.py] *)

Module Schema.

(** [d.pop(k, None)] *)
Definition dict_pop {V} (d : list (string * V)) (k : string)
  : list (string * V) :=
  filter (fun p => p.1 <> k) d.

(** [k in d] *)
Definition has_key {V} (d : list (string * V)) (k : string) : bool :=
  bool_decide (is_Some (dict_get d k)).

(** The values of [FieldType]. *)
Definition allowed_types : list string :=
  ["text"; "number"; "date"; "email"; "phone"; "boolean"; "select";
   "custom_regex"].

(** [validate_field_type]: the type of a field is one of the allowed ones. *)
Definition validate_field_type (v : string) : outcome string :=
  if bool_decide (v ∈ allowed_types) then Ok v else Raise ValueError.

(** The body of [convert_legacy_fields] on the raw object of a field: the
    legacy keys [validation_format] and [template] move into [extra_rules],
    under a key that depends on the type of the field. *)
Definition converted_fields (data : jobj) : jobj :=
  let extra0 := py_or (dget data "extra_rules") (PDict []) in
  let extra :=
    match extra0 with
    | PDict e => e
    | _ => []
    end in
  let vf := dget data "validation_format" in
  let field_type := default (PStr "") (dict_get data "type") in
  let extra1 :=
    if truthy vf then
      if is_str field_type "number" && negb (has_key extra "sign")
      then dict_set extra "sign" vf
      else if is_str field_type "date" && negb (has_key extra "format")
      then dict_set extra "format" vf
      else if is_str field_type "custom_regex" && negb (has_key extra "pattern")
      then dict_set extra "pattern" vf
      else extra
    else extra in
  let tpl := dget data "template" in
  let extra2 :=
    if truthy tpl then
      if is_str field_type "boolean" && negb (has_key extra1 "template")
      then dict_set extra1 "template" tpl
      else if is_str field_type "select" && negb (has_key extra1 "options")
      then dict_set extra1 "options" tpl
      else extra1
    else extra1 in
  dict_pop
    (dict_pop (dict_set data "extra_rules" (PDict extra2)) "validation_format")
    "template".

(** [convert_legacy_fields]: input that is not an object is returned as
    it is. *)
Definition convert_legacy_fields (data : pyval) : pyval :=
  match data with
  | PDict d => PDict (converted_fields d)
  | _ => data
  end.

End Schema.

(** ** Two more endpoints of [app/api/v1/imports.py]: the status of an
    import and the re-validation of its conflicts *)

Module Endpoints.
Import Imports.

(** *** [get_import_status], [GET /{import_id}] *)

(** The three answers: still processing; the results of a COMPLETED job
    (total, valid and error rows, the errors, and whether [status_details]
    is added); the status and the error of any other job, with the header
    warning of its column mapping when there is one. *)
Inductive status_answer :=
| Processing
| Results (total_rows valid_rows error_rows : Z) (errors : list Conflict)
    (status_details : bool)
| Failure (status : ImportStatus) (error : string)
    (header_warning : option string).

Definition get_import_status (import_job : ImportJob) : status_answer :=
  if bool_decide (status import_job ∈ [PENDING; PROCESSING; VALIDATING])
  then Processing
  else if decide (status import_job = COMPLETED) then
    let structural_errors :=
      filter (fun e => ApiWorker.is_header e = true)
             (default [] (errors import_job)) in
    Results (row_count import_job)
      (row_count import_job - error_count import_job)
      (error_count import_job)
      (default [] (errors import_job))
      (match structural_errors with [] => false | _ => true end)
  else
    Failure (status import_job)
      (match error_message import_job with
       | Some m => if truthy_str m then m else "Import failed."
       | None => "Import failed."
       end)
      (column_mapping import_job ≫= fun m => dict_get m "_header_warning").

(** *** [resend_webhook], [POST /view/{import_id}/resend-webhook] *)

(** The HTTP status and the webhook that is sent: 400 for a job that is
    neither COMPLETED nor UNCOMPLETED and for an importer without a
    webhook. *)
Definition resend_webhook (job : ImportJob) (importer_config : option Importer)
    (file : option ApiWorker.dataframe) : Z * option ImportService.webhook :=
  if negb (bool_decide (status job ∈ [COMPLETED; UNCOMPLETED]))
  then (400, None)
  else
    match importer_config with
    | None => (400, None)
    | Some imp =>
        if negb (webhook_enabled imp) || negb (truthy_str (webhook_url imp))
        then (400, None)
        else (200, ImportService.send_webhook_notification job imp file)
    end.

(** *** [validate_conflicts], [POST /{import_job_id}/validate-conflicts] *)

(** What the endpoint answers: the conflicts that remain and, when the job
    had conflicts, the number of those that do not. *)
Record remaining := mkRemaining {
  conflicts : list Conflict;
  resolved_count : option Z
}.

Inductive answer :=
| Answer (body : remaining)
| NotFound
| ServerError.

(** [l[i]] for a list: a negative index counts from the end; [None] is
    an [IndexError]. *)
Definition py_index {A} (l : list A) (i : Z) : option A :=
  if bool_decide (0 <= i) then l !! Z.to_nat i
  else if bool_decide (0 <= i + Z.of_nat (length l))
       then l !! Z.to_nat (i + Z.of_nat (length l))
       else None.

(** [l.index(x)] for an element of the list. *)
Definition index_of (x : string) (l : list string) : nat :=
  default 0%nat (fst <$> list_find (fun y => y = x) l).

(** The conflict with the value and the message of the re-validation. *)
Definition revalidated (error : Conflict) (new_value : cell)
    (error_message : string) : Conflict :=
  mkConflict (c_row error) (c_field error) (c_column error) (Some new_value)
    (Some error_message) (c_message error).

Section Revalidation.

Variable validate_field : cell -> jobj -> outcome (option string).

(** One turn of the loop over the original errors: [None] is an exception
    that the endpoint does not catch ([TypeError] for the row ["Header"]
    minus one, [AttributeError] for a job without file metadata,
    [IndexError] for a row index below minus the number of rows, an
    exception of the validator); [Some None] an error that is skipped or
    resolved; [Some (Some e)] a conflict that remains. *)
Definition revalidate_conflict (job : ImportJob) (cfgs : gmap string jobj)
    (data : list (list cell)) (error : Conflict) : option (option Conflict) :=
  match c_row error, c_field error with
  | Some row, Some field_key =>
      match row with
      | RowHeader => None
      | RowNum n =>
          let row_idx := n - 1 in
          let column_mapping := default [] (column_mapping job) in
          let csv_header :=
            fst <$> find (fun p : string * string =>
                            bool_decide (p.2 = field_key)) column_mapping in
          match file_metadata job with
          | None => None
          | Some original_headers =>
              match csv_header with
              | Some h =>
                  if truthy_str h && bool_decide (h ∈ original_headers) then
                    let col_idx := index_of h original_headers in
                    if bool_decide (row_idx < Z.of_nat (length data)) then
                      match py_index data row_idx with
                      | None => None
                      | Some row_values =>
                          match row_values !! col_idx with
                          | None => Some None
                          | Some new_value =>
                              match cfgs !! field_key with
                              | Some ((_ :: _) as field_config) =>
                                  match validate_field new_value field_config with
                                  | Raise _ => None
                                  | Ok (Some m) =>
                                      if truthy_str m
                                      then Some (Some (revalidated error
                                                         new_value m))
                                      else Some None
                                  | Ok None => Some None
                                  end
                              | _ => Some None
                              end
                          end
                      end
                    else Some None
                  else Some None
              | None => Some None
              end
          end
      end
  | _, _ => Some (None)
  end.

Fixpoint remaining_conflicts (job : ImportJob) (cfgs : gmap string jobj)
    (data : list (list cell)) (original_errors : list Conflict)
  : option (list Conflict) :=
  match original_errors with
  | [] => Some []
  | error :: rest =>
      match revalidate_conflict job cfgs data error with
      | None => None
      | Some r =>
          match remaining_conflicts job cfgs data rest with
          | None => None
          | Some later => Some (match r with Some e => e :: later | None => later end)
          end
      end
  end.

(** The endpoint; [None] for the job or the importer is one that does not
    exist. *)
Definition validate_conflicts (job : option ImportJob)
    (importer : option Importer) (data : list (list cell)) : answer :=
  match job with
  | None => NotFound
  | Some j =>
      match default [] (errors j) with
      | [] => Answer (mkRemaining [] None)
      | original_errors =>
          match importer with
          | None => NotFound
          | Some imp =>
              match field_configs_by_name (fields imp) with
              | Raise _ => ServerError
              | Ok field_configs_by_key =>
                  match remaining_conflicts j field_configs_by_key data
                          original_errors with
                  | None => ServerError
                  | Some remaining_conflicts =>
                      Answer
                        (mkRemaining remaining_conflicts
                           (Some (Z.of_nat (length original_errors)
                                  - Z.of_nat (length remaining_conflicts))))
                  end
              end
          end
      end
  end.

End Revalidation.

End Endpoints.

(** * Theorems *)

(** ** Facts about the Python-level base *)

Module PyFacts.

Lemma bind_Ok {A B} (m : outcome A) (k : A -> outcome B) (b : B) :
  bind m k = Ok b -> exists a, m = Ok a /\ k a = Ok b.
Proof. destruct m as [a|e]; simpl; [eauto | discriminate]. Qed.

Lemma dict_get_Some_elem {V} (d : list (string * V)) k v :
  dict_get d k = Some v -> (k, v) ∈ d.
Proof.
  induction d as [|[k' v'] d IH]; simpl; [discriminate|].
  destruct (decide (k' = k)) as [->|Hne]; intros Hget.
  - inversion Hget; subst. left.
  - right. auto.
Qed.

Lemma NoDup_fst_functional {A B} (l : list (A * B)) x y1 y2 :
  NoDup l.*1 -> (x, y1) ∈ l -> (x, y2) ∈ l -> y1 = y2.
Proof.
  induction l as [|[a b] l IH]; simpl; intros Hnd H1 H2.
  - inversion H1.
  - apply NoDup_cons in Hnd as [Hnotin Hnd].
    apply elem_of_cons in H1 as [H1|H1]; apply elem_of_cons in H2 as [H2|H2].
    + congruence.
    + inversion H1; subst. exfalso. apply Hnotin.
      apply list_elem_of_fmap. exists (a, y2). auto.
    + inversion H2; subst. exfalso. apply Hnotin.
      apply list_elem_of_fmap. exists (a, y1). auto.
    + auto.
Qed.

Lemma enumerate_lookup {A} (l : list A) i x :
  (i, x) ∈ enumerate l <-> l !! i = Some x.
Proof.
  unfold enumerate. rewrite list_elem_of_lookup. split.
  - intros [k Hk]. rewrite list_lookup_imap in Hk.
    destruct (l !! k) eqn:E; simpl in Hk; inversion Hk; subst. done.
  - intros H. exists i. rewrite list_lookup_imap, H. done.
Qed.

Lemma enumerate_snoc {A} (l : list A) x :
  enumerate (l ++ [x]) = enumerate l ++ [(length l, x)].
Proof.
  unfold enumerate. rewrite imap_app. simpl.
  by rewrite Nat.add_0_r.
Qed.

(** A list built by filtering an enumeration has no repeats as soon as an
    element determines the index it comes from. *)
Lemma NoDup_omap_enumerate {A B} (F : nat * A -> option B) (l : list A) :
  (forall j1 j2 x1 x2 b,
      l !! j1 = Some x1 -> l !! j2 = Some x2 ->
      F (j1, x1) = Some b -> F (j2, x2) = Some b -> j1 = j2) ->
  NoDup (omap F (enumerate l)).
Proof.
  induction l as [|x l IH] using rev_ind; intros Hinj.
  - constructor.
  - rewrite enumerate_snoc, omap_app. apply NoDup_app. split; [|split].
    + apply IH. intros j1 j2 x1 x2 b H1 H2.
      apply Hinj; by apply lookup_app_l_Some.
    + intros b Hb Hb'. simpl in Hb'.
      destruct (F (length l, x)) as [b'|] eqn:EF; [|inversion Hb'].
      apply list_elem_of_singleton in Hb' as ->.
      apply list_elem_of_omap in Hb as [[j y] [Hjy HF]].
      apply enumerate_lookup in Hjy.
      assert (j = length l) as ->.
      { eapply Hinj; [by apply lookup_app_l_Some| |exact HF|exact EF].
        by rewrite lookup_app_r, Nat.sub_diag. }
      apply lookup_lt_Some in Hjy. lia.
    + simpl. destruct (F (length l, x)); repeat constructor.
      inversion 1.
Qed.

Lemma elem_of_concat {A} (x : A) (ls : list (list A)) :
  x ∈ concat ls <-> exists l, x ∈ l /\ l ∈ ls.
Proof.
  rewrite list_elem_of_In, in_concat. split.
  - intros (l & Hl & Hx). exists l. by rewrite !list_elem_of_In.
  - intros (l & Hx & Hl). exists l. by rewrite <- !list_elem_of_In.
Qed.

Lemma NoDup_concat_imap {A B} (G : nat -> A -> list B) (l : list A) :
  (forall i x, l !! i = Some x -> NoDup (G i x)) ->
  (forall i1 i2 x1 x2 b,
      l !! i1 = Some x1 -> l !! i2 = Some x2 ->
      b ∈ G i1 x1 -> b ∈ G i2 x2 -> i1 = i2) ->
  NoDup (concat (imap G l)).
Proof.
  induction l as [|x l IH] using rev_ind; intros Hnd Hinj.
  - constructor.
  - rewrite imap_app, concat_app. simpl. rewrite app_nil_r, Nat.add_0_r.
    apply NoDup_app. split; [|split].
    + apply IH.
      * intros i y Hy. apply Hnd. by apply lookup_app_l_Some.
      * intros i1 i2 x1 x2 b H1 H2.
        apply Hinj; by apply lookup_app_l_Some.
    + intros b Hb Hb'.
      apply elem_of_concat in Hb as [bs [Hb Hbs]].
      apply list_elem_of_lookup in Hbs as [i Hi].
      rewrite list_lookup_imap in Hi.
      destruct (l !! i) as [y|] eqn:Ey; simpl in Hi; [|discriminate].
      inversion Hi; subst bs.
      assert (i = length l) as ->.
      { eapply Hinj; [by apply lookup_app_l_Some| |exact Hb|exact Hb'].
        by rewrite lookup_app_r, Nat.sub_diag. }
      apply lookup_lt_Some in Ey. lia.
    + apply Hnd. by rewrite lookup_app_r, Nat.sub_diag.
Qed.

Lemma elem_of_concat_imap {A B} (G : nat -> A -> list B) (l : list A) b :
  b ∈ concat (imap G l) <-> exists i x, l !! i = Some x /\ b ∈ G i x.
Proof.
  rewrite elem_of_concat. split.
  - intros [bs [Hb Hbs]].
    apply list_elem_of_lookup in Hbs as [i Hi].
    rewrite list_lookup_imap in Hi.
    destruct (l !! i) as [y|] eqn:Ey; simpl in Hi; [|discriminate].
    inversion Hi; subst bs. eauto.
  - intros (i & x & Hx & Hb). exists (G i x). split; [done|].
    apply list_elem_of_lookup. exists i.
    by rewrite list_lookup_imap, Hx.
Qed.

(** Setting a key that the dictionary does not have appends it. *)
Lemma dict_set_fresh {V} (d : list (string * V)) k v :
  k ∉ d.*1 -> dict_set d k v = d ++ [(k, v)].
Proof.
  induction d as [|[k' v'] d IH]; intros Hk; simpl; [done|].
  simpl in Hk. apply not_elem_of_cons in Hk as [Hne Hk].
  destruct (decide (k' = k)); [congruence|]. by rewrite IH.
Qed.

Lemma filter_nil_iff {A} (P : A -> Prop) `{Hdec : !forall x, Decision (P x)}
    (l : list A) :
  filter P l = [] <-> forall x, x ∈ l -> ~ P x.
Proof.
  split.
  - intros Hnil x Hx HP.
    assert (x ∈ filter P l) as Hin by (apply list_elem_of_filter; done).
    rewrite Hnil in Hin. by apply elem_of_nil in Hin.
  - intros Hall. induction l as [|a l IH]; [done|].
    rewrite filter_cons. destruct (decide (P a)) as [HP|_].
    + exfalso. apply (Hall a); [left|done].
    + apply IH. intros x Hx. apply Hall. by right.
Qed.

Lemma filter_all {A} (P : A -> Prop) `{Hdec : !forall x, Decision (P x)}
    (l : list A) :
  (forall x, x ∈ l -> P x) -> filter P l = l.
Proof.
  induction l as [|a l IH]; intros Hall; [done|].
  rewrite filter_cons. destruct (decide (P a)) as [_|Hn].
  - f_equal. apply IH. intros x Hx. apply Hall. by right.
  - exfalso. apply Hn, Hall. left.
Qed.

Lemma enumerate_values {A} (l : list A) : (enumerate l).*2 = l.
Proof.
  unfold enumerate.
  assert (forall g : nat -> nat, (imap (fun i x => (g i, x)) l).*2 = l) as Hgen.
  { induction l as [|a l IH]; intros g; [done|].
    simpl. f_equal. apply (IH (g ∘ S)). }
  apply (Hgen id).
Qed.

End PyFacts.

(** ** Facts about the library *)

Module LibFacts.
Import Stdlib.Strings.Ascii PyStr.

Lemma set_iter_elem lib l x : x ∈ set_iter lib l <-> x ∈ l.
Proof. by rewrite (set_iter_perm lib l). Qed.

Lemma set_iter_NoDup lib l : NoDup (set_iter lib l) <-> NoDup l.
Proof. by rewrite (set_iter_perm lib l). Qed.

Lemma set_iter_length lib l : length (set_iter lib l) = length l.
Proof. by rewrite (set_iter_perm lib l). Qed.


Lemma chars_app s t : chars (s +:+ t) = chars s ++ chars t.
Proof. induction s as [|c s IH]; simpl; [done|]. by rewrite <- IH. Qed.

Lemma chars_text l : chars (text l) = l.
Proof. apply String.list_ascii_of_string_of_list_ascii. Qed.

Lemma text_chars s : text (chars s) = s.
Proof. apply String.string_of_list_ascii_of_string. Qed.

(** *** ASCII text *)

Lemma isascii_Forall s :
  isascii s = true <-> Forall (fun c => (code c < 128)%N) (chars s).
Proof.
  unfold isascii. rewrite forallb_forall, Forall_forall.
  split; intros H c Hc.
  - apply N.ltb_lt, H. by apply list_elem_of_In.
  - apply N.ltb_lt, H. by apply list_elem_of_In.
Qed.

Lemma isascii_text l :
  Forall (fun c => (code c < 128)%N) l -> isascii (text l) = true.
Proof. intros H. apply isascii_Forall. by rewrite chars_text. Qed.

Lemma isascii_app s t :
  isascii s = true -> isascii t = true -> isascii (s +:+ t) = true.
Proof.
  rewrite !isascii_Forall, chars_app. intros Hs Ht. by apply Forall_app.
Qed.

Lemma digit_is_ascii c : is_digit c = true -> (code c < 128)%N.
Proof.
  unfold is_digit, between. rewrite andb_true_iff, !N.leb_le.
  change (code "9") with 57%N. lia.
Qed.

Lemma isascii_digits l :
  Forall (fun c => is_digit c = true) l -> isascii (text l) = true.
Proof.
  intros H. apply isascii_text. eapply Forall_impl; [exact H|].
  intros c. apply digit_is_ascii.
Qed.

Lemma lstrip_chars_Forall (P : ascii -> Prop) l :
  Forall P l -> Forall P (lstrip_chars l).
Proof.
  induction 1 as [|c l Hc Hl IH]; simpl; [constructor|].
  destruct (is_space c); [done|by constructor].
Qed.

Lemma rev_Forall {A} (P : A -> Prop) (l : list A) :
  Forall P l -> Forall P (rev l).
Proof.
  rewrite !Forall_forall. intros H x Hx. apply H.
  apply list_elem_of_In, in_rev. by apply list_elem_of_In in Hx.
Qed.

Lemma isascii_strip s : isascii s = true -> isascii (strip s) = true.
Proof.
  intros H. apply isascii_text. unfold strip_chars.
  apply rev_Forall, lstrip_chars_Forall, rev_Forall, lstrip_chars_Forall.
  by apply isascii_Forall.
Qed.

Lemma lower_char_ascii c : (code c < 128)%N -> (code (lower_char c) < 128)%N.
Proof.
  destruct c as [[] [] [] [] [] [] [] []]; vm_compute; done.
Qed.

Lemma upper_char_ascii c : (code c < 128)%N -> (code (upper_char c) < 128)%N.
Proof.
  destruct c as [[] [] [] [] [] [] [] []]; vm_compute; done.
Qed.

Lemma isascii_lower s : isascii s = true -> isascii (lower s) = true.
Proof.
  intros H. apply isascii_text. apply isascii_Forall in H.
  apply Forall_fmap. eapply Forall_impl; [exact H|].
  intros c. apply lower_char_ascii.
Qed.

Lemma isascii_upper s : isascii s = true -> isascii (upper s) = true.
Proof.
  intros H. apply isascii_text. apply isascii_Forall in H.
  apply Forall_fmap. eapply Forall_impl; [exact H|].
  intros c. apply upper_char_ascii.
Qed.

End LibFacts.

(** ** Facts about the conflict tracker *)

Module ImportsFacts.
Import PyFacts Imports Properties.

Lemma csv_column_to_field_elem m c f :
  csv_column_to_field m !! c = Some f -> (f, c) ∈ m.
Proof.
  unfold csv_column_to_field.
  assert (forall acc : gmap string string,
             foldl (fun m '(field_name, csv_column) =>
                      if truthy_str csv_column
                         && negb (String.prefix "_" field_name)
                      then <[csv_column := field_name]> m else m) acc m !! c
             = Some f -> acc !! c = Some f \/ (f, c) ∈ m) as Hgen.
  { induction m as [|[f' c'] m IH]; intros acc; simpl; [auto|].
    intros H. apply IH in H as [H|H]; [|right; by right].
    destruct (truthy_str c' && negb (String.prefix "_" f')); [|auto].
    destruct (decide (c' = c)) as [->|Hne].
    - rewrite lookup_insert_eq in H. inversion H; subst. right. left.
    - rewrite lookup_insert_ne in H by done. auto. }
  intros H. apply Hgen in H as [H|H]; [|done].
  by rewrite lookup_empty in H.
Qed.

(** Two columns are never mapped to the same field. *)
Lemma csv_column_to_field_inj m c1 c2 f :
  wf_dict m ->
  csv_column_to_field m !! c1 = Some f ->
  csv_column_to_field m !! c2 = Some f -> c1 = c2.
Proof.
  intros Hwf H1 H2.
  apply csv_column_to_field_elem in H1, H2.
  eapply NoDup_fst_functional; eauto.
Qed.

Lemma unchanged_errors_spec positions es u :
  unchanged_errors positions es = Ok u ->
  u `sublist_of` es /\
  (forall e, e ∈ u <->
     e ∈ es /\ exists r, error_row_index e = Ok r /\ (r, err_field e) ∉ positions) /\
  (forall e, e ∈ es -> exists r, error_row_index e = Ok r).
Proof.
  revert u. induction es as [|e es IH]; simpl; intros u H.
  - inversion H; subst. split; [done|]. split.
    + intros e. split; [inversion 1|intros [He _]; inversion He].
    + intros e He. inversion He.
  - apply bind_Ok in H as (r & Hr & H).
    apply bind_Ok in H as (kept & Hkept & H).
    destruct (IH _ Hkept) as (Hsub & Hmem & Hrows).
    inversion H; subst u; clear H. split; [|split].
    + case_decide; [by apply sublist_cons|by apply sublist_skip].
    + intros e'. case_decide as Hin.
      * rewrite Hmem. split.
        -- intros [He' Hr']. split; [by right|done].
        -- intros [He' (r' & Hr' & Hnot)]. split; [|eauto].
           apply elem_of_cons in He' as [->|He']; [|done].
           rewrite Hr in Hr'. inversion Hr'; subst. done.
      * rewrite elem_of_cons, Hmem. split.
        -- intros [->|[He' Hr']]; [split; [left|eauto]|split; [by right|done]].
        -- intros [He' Hr']. apply elem_of_cons in He' as [->|He']; auto.
    + intros e' He'. apply elem_of_cons in He' as [->|He']; eauto.
Qed.

Lemma drop_cell_errors_spec row fname es kept :
  drop_cell_errors row (Some fname) es = Ok kept ->
  kept `sublist_of` es /\
  (forall e, e ∈ kept ->
     ~ (c_row e = Some (RowNum row) /\ field_or_column e = Some fname)).
Proof.
  revert kept. induction es as [|e es IH]; simpl; intros kept H.
  - inversion H; subst. split; [done|]. inversion 1.
  - apply bind_Ok in H as (same & Hsame & H).
    apply bind_Ok in H as (kept' & Hkept & H).
    destruct (IH _ Hkept) as (Hsub & Hmem).
    inversion H; subst kept; clear H.
    destruct same.
    + split; [by apply sublist_cons|done].
    + split; [by apply sublist_skip|].
      intros e' He'. apply elem_of_cons in He' as [->|He']; [|auto].
      intros [Hrow Hf]. case_decide; [|done].
      injection Hsame as Hb.
      apply bool_decide_eq_false in Hb. done.
Qed.

(** Without a bound field name the comprehension succeeds only when no
    error belongs to the edited row, and then keeps every error. *)
Lemma drop_cell_errors_unbound row es kept :
  drop_cell_errors row None es = Ok kept -> kept = es.
Proof.
  revert kept. induction es as [|e es IH]; simpl; intros kept H.
  - by inversion H.
  - apply bind_Ok in H as (same & Hsame & H).
    apply bind_Ok in H as (kept' & Hkept & H).
    case_decide; [discriminate|].
    inversion Hsame; subst. inversion H; subst.
    f_equal. auto.
Qed.

(** A changed cell is a cell of the new data under a mapped header, in a
    new row or with a stringified value that differs from the stored one. *)
Lemma changed_in_row_elem headers c2f ex i row c :
  c ∈ changed_in_row headers c2f ex i row <->
  exists j v h,
    c = (i, j, h, v) /\ row !! j = Some v /\ headers !! j = Some h /\
    is_Some (c2f !! h) /\
    (ex = None \/
     exists er, ex = Some er /\
       py_str v <> py_str (default (CStr "") (dict_get er h))).
Proof.
  unfold changed_in_row. rewrite list_elem_of_omap. split.
  - intros [[j v] [Hin Hc]]. apply enumerate_lookup in Hin.
    destruct (headers !! j) as [h|] eqn:Eh; [|discriminate].
    case_decide as Hmapped; [|discriminate].
    exists j, v, h. destruct ex as [er|].
    + case_decide as Hstr; [discriminate|]. inversion Hc; subst.
      repeat split; try done. right. eauto.
    + inversion Hc; subst. repeat split; try done. by left.
  - intros (j & v & h & -> & Hv & Hh & Hmapped & Hex).
    exists (j, v). split; [by apply enumerate_lookup|].
    rewrite Hh. rewrite decide_True by done.
    destruct Hex as [->|(er & -> & Hne)]; [done|].
    by rewrite decide_False.
Qed.

Lemma find_changed_cells_elem headers c2f D R c :
  c ∈ find_changed_cells headers c2f D R <->
  exists i row, R !! i = Some row /\
    c ∈ changed_in_row headers c2f (D !! i) i row.
Proof. unfold find_changed_cells. apply elem_of_concat_imap. Qed.

Lemma find_changed_cells_NoDup headers c2f D R :
  NoDup (find_changed_cells headers c2f D R).
Proof.
  unfold find_changed_cells. apply NoDup_concat_imap.
  - intros i row _. unfold changed_in_row. apply NoDup_omap_enumerate.
    intros j1 j2 x1 x2 b _ _ H1 H2.
    destruct (headers !! j1) as [h1|]; [|discriminate].
    destruct (headers !! j2) as [h2|]; [|discriminate].
    repeat case_decide; try discriminate;
      destruct (D !! i); repeat case_decide; try discriminate;
      inversion H1; subst; by inversion H2.
  - intros i1 i2 x1 x2 b _ _ H1 H2.
    apply changed_in_row_elem in H1 as (?&?&?&->&_).
    apply changed_in_row_elem in H2 as (?&?&?&Heq&_).
    by inversion Heq.
Qed.

(** With distinct headers and a well-formed mapping, no two changed cells
    share a key. *)
Lemma changed_keys_NoDup headers m D R :
  NoDup headers -> wf_dict m ->
  NoDup (cell_key (csv_column_to_field m)
           <$> find_changed_cells headers (csv_column_to_field m) D R).
Proof.
  intros Hh Hm. apply NoDup_fmap_2_strong; [|apply find_changed_cells_NoDup].
  intros c1 c2 H1 H2 Hkey.
  apply find_changed_cells_elem in H1 as (i1 & row1 & Hr1 & H1).
  apply find_changed_cells_elem in H2 as (i2 & row2 & Hr2 & H2).
  apply changed_in_row_elem in H1 as (j1&v1&h1&->&Hv1&Hh1&[f1 Hf1]&_).
  apply changed_in_row_elem in H2 as (j2&v2&h2&->&Hv2&Hh2&[f2 Hf2]&_).
  simpl in Hkey. rewrite Hf1, Hf2 in Hkey. simpl in Hkey.
  inversion Hkey as [[Hi Hf]]. assert (i1 = i2) as -> by lia. subst f2.
  assert (h1 = h2) as -> by (eapply csv_column_to_field_inj; eauto).
  assert (j1 = j2) as ->
    by (eapply (NoDup_lookup headers); [exact Hh|exact Hh1|exact Hh2]).
  rewrite Hr1 in Hr2. inversion Hr2; subst.
  rewrite Hv1 in Hv2. by inversion Hv2.
Qed.

Section Tracker.

Variable validate_field : cell -> jobj -> outcome (option string).

Local Abbreviation cell_error := (Properties.cell_error validate_field).

Lemma validate_changed_keys c2f cfgs cells es n :
  validate_changed validate_field c2f cfgs cells = Ok (es, n) ->
  (conflict_key <$> es) `sublist_of` (cell_key c2f <$> cells).
Proof.
  revert es n. induction cells as [|[[[i j] h] v] cells IH]; simpl; intros es n H.
  - by inversion H.
  - destruct (c2f !! h) as [f|] eqn:Ef; [|discriminate]. simpl.
    destruct (cfgs !! f) as [cfg|] eqn:Ecfg.
    + apply bind_Ok in H as (msg & Hmsg & H).
      apply bind_Ok in H as ([es' n'] & Hrest & H).
      inversion H; subst; clear H. simpl.
      specialize (IH _ _ Hrest).
      destruct msg as [m|]; [destruct (truthy_str m)|]; simpl.
      * by apply sublist_skip.
      * by apply sublist_cons.
      * by apply sublist_cons.
    + apply sublist_cons. eauto.
Qed.

Lemma validate_changed_elem c2f cfgs cells es n e :
  validate_changed validate_field c2f cfgs cells = Ok (es, n) ->
  (e ∈ es <-> exists c, c ∈ cells /\ cell_error c2f cfgs c e).
Proof.
  revert es n. induction cells as [|[[[i j] h] v] cells IH]; simpl; intros es n H.
  - inversion H; subst. split; [inversion 1|].
    intros (c & Hin & _). inversion Hin.
  - destruct (c2f !! h) as [f|] eqn:Ef; [|discriminate].
    assert (forall es' : list Conflict,
               (e ∈ es' <-> exists c, c ∈ cells /\ cell_error c2f cfgs c e) ->
               ~ cell_error c2f cfgs (i, j, h, v) e ->
               (e ∈ es' <->
                exists c, c ∈ (i, j, h, v) :: cells /\ cell_error c2f cfgs c e))
      as Hskip.
    { intros es' Hes' Hno. rewrite Hes'. split.
      - intros (c & Hin & Hc). exists c. split; [by right|done].
      - intros (c & Hin & Hc).
        apply elem_of_cons in Hin as [->|Hin]; [done|eauto]. }
    destruct (cfgs !! f) as [cfg|] eqn:Ecfg.
    + apply bind_Ok in H as (msg & Hmsg & H).
      apply bind_Ok in H as ([es' n'] & Hrest & H).
      inversion H; subst; clear H. simpl.
      specialize (IH _ _ Hrest).
      destruct msg as [m|]; [destruct (truthy_str m) eqn:Et|].
      * rewrite elem_of_cons, IH. split.
        -- intros [->|(c & Hin & Hc)].
           ++ exists (i, j, h, v). split; [left|].
              exists f, cfg, m. done.
           ++ exists c. split; [by right|done].
        -- intros (c & Hin & Hc).
           apply elem_of_cons in Hin as [->|Hin]; [|eauto].
           destruct Hc as (f0 & cfg0 & m0 & Hf & Hcfg & Hv & Ht & He).
           simpl in *. rewrite Ef in Hf. inversion Hf; subst.
           rewrite Ecfg in Hcfg. inversion Hcfg; subst.
           rewrite Hmsg in Hv. inversion Hv; subst. by left.
      * apply Hskip; [done|].
        intros (f0 & cfg0 & m0 & Hf & Hcfg & Hv & Ht & He).
        simpl in *. rewrite Ef in Hf. inversion Hf; subst.
        rewrite Ecfg in Hcfg. inversion Hcfg; subst.
        rewrite Hmsg in Hv. inversion Hv; subst. congruence.
      * apply Hskip; [done|].
        intros (f0 & cfg0 & m0 & Hf & Hcfg & Hv & Ht & He).
        simpl in *. rewrite Ef in Hf. inversion Hf; subst.
        rewrite Ecfg in Hcfg. inversion Hcfg; subst.
        rewrite Hmsg in Hv. discriminate.
    + apply Hskip; [eauto|].
      intros (f0 & cfg0 & m0 & Hf & Hcfg & _).
      simpl in *. rewrite Ef in Hf. inversion Hf; subst. congruence.
Qed.

Lemma changed_positions_elem c2f cells r f :
  (r, f) ∈ changed_positions c2f cells <->
  exists c, c ∈ cells /\ cell_key c2f c = (Some (RowNum (r + 1)), f).
Proof.
  unfold changed_positions. rewrite elem_of_list_to_set, list_elem_of_fmap.
  split.
  - intros [[[[i j] h] v] [Heq Hin]]. inversion Heq; subst.
    exists (i, j, h, v). done.
  - intros [[[[i j] h] v] [Hin Hkey]]. exists (i, j, h, v). split; [|done].
    simpl in Hkey. inversion Hkey. f_equal. lia.
Qed.

(** What a successful diff-based save leaves in the job. *)
Lemma optimized_save_inv job importer R headers job' s :
  optimized_save_and_validate validate_field job importer R headers
    = Ok (job', s) ->
  let c2f := csv_column_to_field (default [] (column_mapping job)) in
  let cells :=
    find_changed_cells (effective_headers (stored_data job) headers) c2f
      (stored_data job) R in
  exists imp cfgs new n unchanged,
    importer = Some imp /\
    field_configs_by_name (fields imp) = Ok cfgs /\
    validate_changed validate_field c2f cfgs cells = Ok (new, n) /\
    unchanged_errors (changed_positions c2f cells) (default [] (errors job))
      = Ok unchanged /\
    errors job' = Some (unchanged ++ new) /\
    error_count job' = Z.of_nat (length (unchanged ++ new)) /\
    status job' = status_for (unchanged ++ new).
Proof.
  unfold optimized_save_and_validate. intros H.
  destruct importer as [imp|]; [|discriminate].
  apply bind_Ok in H as (cfgs & Hcfgs & H).
  apply bind_Ok in H as ([new n] & Hnew & H).
  apply bind_Ok in H as (unchanged & Hun & H).
  inversion H; subst; clear H. simpl.
  exists imp, cfgs, new, n, unchanged. done.
Qed.

(** The diff-based save keeps the conflicts unique, when the columns it
    works with are distinct. *)
Lemma optimized_save_unique job importer R headers job' s :
  conflicts_unique (default [] (errors job)) ->
  NoDup (effective_headers (stored_data job) headers) ->
  wf_dict (default [] (column_mapping job)) ->
  optimized_save_and_validate validate_field job importer R headers
    = Ok (job', s) ->
  conflicts_unique (default [] (errors job')).
Proof.
  intros Hprior Hheaders Hmap H.
  apply optimized_save_inv in H
    as (imp & cfgs & new & n & unchanged & _ & _ & Hnew & Hun & He & _).
  rewrite He. simpl. unfold conflicts_unique in *.
  apply unchanged_errors_spec in Hun as (Hsub & Hmem & _).
  pose proof (validate_changed_keys _ _ _ _ _ Hnew) as Hkeys.
  rewrite fmap_app. apply NoDup_app. split; [|split].
  - eapply sublist_NoDup; [exact Hprior|by apply fmap_sublist].
  - intros k Hk Hk'.
    apply list_elem_of_fmap in Hk as (e & -> & He').
    apply Hmem in He' as (_ & r & Hr & Hnot).
    eapply sublist_subseteq in Hk'; [|exact Hkeys].
    apply list_elem_of_fmap in Hk' as (c & Hkey & Hc).
    apply Hnot. apply changed_positions_elem. exists c. split; [done|].
    destruct c as [[[i j] h] v]. unfold conflict_key in Hkey.
    simpl in Hkey. injection Hkey as Hrow Hf.
    unfold error_row_index in Hr. rewrite Hrow in Hr. injection Hr as <-.
    simpl. rewrite Hf. do 3 f_equal. lia.
  - eapply sublist_NoDup; [|exact Hkeys]. by apply changed_keys_NoDup.
Qed.

(** The single-cell edit keeps the conflicts unique. *)
Lemma apply_edit_unique job importer req :
  conflicts_unique (default [] (errors job)) ->
  resolve_field_name (column_mapping job) (column_key req) <> "" ->
  conflicts_unique
    (default [] (errors (job_after (apply_edit validate_field job importer req)))).
Proof.
  intros Hprior Hname. unfold apply_edit.
  destruct (processed_data job) as [pd|]; [|done].
  destruct (negb (pd_truthy (Some pd))); [done|].
  destruct (negb (bool_decide _)); [done|].
  destruct (_ !! _) as [record|]; [|done].
  destruct (dict_get record _); [|done].
  destruct (drop_cell_errors _ _ _) as [kept|] eqn:Hdrop; [|done].
  simpl. unfold validate_edit in *.
  destruct importer as [imp|]; simpl in *.
  - set (fname := resolve_field_name (column_mapping job) (column_key req)) in *.
    assert (exists o, (match find_field_config (fields imp) fname with
                       | Some field_config =>
                           match validate_field (CStr (new_value req)) field_config with
                           | Ok (Some m) =>
                               (Some fname, if truthy_str m then Some m else None)
                           | Ok None => (Some fname, None)
                           | Raise _ => (Some fname, None)
                           end
                       | None => (Some fname, None)
                       end) = (Some fname, o)) as [o Ho].
    { destruct (find_field_config _ _); [|eauto].
      destruct (validate_field _ _) as [[m|]|]; eauto. }
    rewrite Ho in *. simpl in *.
    apply drop_cell_errors_spec in Hdrop as (Hsub & Hmem).
    assert (NoDup (conflict_key <$> kept)) as Hkept.
    { eapply sublist_NoDup; [exact Hprior|by apply fmap_sublist]. }
    destruct o as [m|]; [|done].
    unfold conflicts_unique. rewrite fmap_app. apply NoDup_app.
    split; [done|]. split; [|repeat constructor; inversion 1].
    intros k Hk Hk'. simpl in Hk'. apply list_elem_of_singleton in Hk'.
    apply list_elem_of_fmap in Hk as (e & Hke & He).
    apply (Hmem e He). rewrite Hke in Hk'. unfold conflict_key in Hk'.
    simpl in Hk'. injection Hk' as Hrow Hf. split; [done|].
    unfold err_field in Hf. simpl in Hf. unfold field_or_column.
    destruct (c_field e) as [f|].
    + subst f. unfold truthy_str.
      destruct (String.eqb fname "") eqn:E; [|reflexivity].
      apply String.eqb_eq in E. done.
    + destruct (c_column e) as [col|]; simpl in Hf; congruence.
  - apply drop_cell_errors_unbound in Hdrop. by subst.
Qed.

(** *** The full validation of the legacy save *)

Lemma validate_row_keys c2f cfgs i row cols es :
  validate_row validate_field c2f cfgs i row cols = Ok es ->
  (conflict_key <$> es) `sublist_of` omap (row_key c2f i row) cols.
Proof.
  revert es. induction cols as [|[j h] cols IH]; simpl; intros es H.
  - by inversion H.
  - unfold row_key at 1. simpl.
    destruct (row !! j) as [v|]; [|eauto].
    destruct (c2f !! h) as [f|]; simpl; [|eauto].
    destruct (cfgs !! f) as [cfg|]; [|apply sublist_cons; eauto].
    apply bind_Ok in H as (msg & Hmsg & H).
    apply bind_Ok in H as (es' & Hrest & H).
    inversion H; subst; clear H. specialize (IH _ Hrest).
    destruct msg as [m|]; [destruct (truthy_str m)|]; simpl.
    + by apply sublist_skip.
    + by apply sublist_cons.
    + by apply sublist_cons.
Qed.

Lemma validate_row_elem c2f cfgs i row cols es e :
  validate_row validate_field c2f cfgs i row cols = Ok es ->
  (e ∈ es <->
   exists j h v, (j, h) ∈ cols /\ row !! j = Some v /\
     cell_error c2f cfgs (i, j, h, v) e).
Proof.
  revert es. induction cols as [|[j h] cols IH]; simpl; intros es H.
  - inversion H; subst. split; [inversion 1|].
    intros (?&?&?&Hin&_). inversion Hin.
  - assert (forall es' : list Conflict,
               (e ∈ es' <->
                exists j0 h0 v0, (j0, h0) ∈ cols /\ row !! j0 = Some v0 /\
                  cell_error c2f cfgs (i, j0, h0, v0) e) ->
               (forall v, row !! j = Some v ->
                  ~ cell_error c2f cfgs (i, j, h, v) e) ->
               (e ∈ es' <->
                exists j0 h0 v0, (j0, h0) ∈ (j, h) :: cols /\
                  row !! j0 = Some v0 /\
                  cell_error c2f cfgs (i, j0, h0, v0) e)) as Hskip.
    { intros es' Hes' Hno. rewrite Hes'. split.
      - intros (j0&h0&v0&Hin&Hrest). exists j0, h0, v0.
        split; [by right|done].
      - intros (j0&h0&v0&Hin&Hv&Hc).
        apply elem_of_cons in Hin as [Heq|Hin]; [|eauto 10].
        inversion Heq; subst. exfalso. eapply Hno; eauto. }
    destruct (row !! j) as [v|] eqn:Ev;
      [|apply Hskip; [eauto|intros; discriminate]].
    destruct (c2f !! h) as [f|] eqn:Ef.
    2:{ apply Hskip; [eauto|]. intros v0 _ (f0&?&?&Hf&_).
        simpl in Hf. congruence. }
    destruct (cfgs !! f) as [cfg|] eqn:Ecfg.
    2:{ apply Hskip; [eauto|]. intros v0 _ (f0&?&?&Hf&Hcfg&_).
        simpl in Hf. rewrite Ef in Hf. inversion Hf; subst. congruence. }
    apply bind_Ok in H as (msg & Hmsg & H).
    apply bind_Ok in H as (es' & Hrest & H).
    inversion H; subst; clear H. specialize (IH _ Hrest).
    assert (forall v0 m0, Some v = Some v0 ->
               cell_error c2f cfgs (i, j, h, v0) e ->
               msg = Some m0 -> truthy_str m0 = true ->
               e = cell_conflict i f h v m0) as Hthis.
    { intros v0 m0 Hv0 (f0&cfg0&m1&Hf&Hcfg&Hv&Ht&He) Hm0 Ht0.
      inversion Hv0; subst v0. simpl in *.
      rewrite Ef in Hf. inversion Hf; subst.
      rewrite Ecfg in Hcfg. inversion Hcfg; subst.
      rewrite Hmsg in Hv. by inversion Hv; subst. }
    assert (forall v0, Some v = Some v0 ->
               cell_error c2f cfgs (i, j, h, v0) e ->
               exists m0, msg = Some m0 /\ truthy_str m0 = true) as Hsome.
    { intros v0 Hv0 (f0&cfg0&m1&Hf&Hcfg&Hv&Ht&He).
      inversion Hv0; subst v0. simpl in *.
      rewrite Ef in Hf. inversion Hf; subst.
      rewrite Ecfg in Hcfg. inversion Hcfg; subst.
      rewrite Hmsg in Hv. inversion Hv; subst. eauto. }
    destruct msg as [m|]; [destruct (truthy_str m) eqn:Et|].
    + rewrite elem_of_cons, IH. split.
      * intros [->|(j0&h0&v0&Hin&Hrest')].
        -- exists j, h, v. split; [left|]. split; [done|].
           exists f, cfg, m. done.
        -- exists j0, h0, v0. split; [by right|done].
      * intros (j0&h0&v0&Hin&Hv&Hc).
        apply elem_of_cons in Hin as [Heq|Hin]; [|right; eauto 10].
        inversion Heq; subst. left. rewrite Ev in Hv. eapply Hthis; eauto.
    + apply Hskip; [done|]. intros v0 Hv0 Hc.
      destruct (Hsome v0 Hv0 Hc) as (m0 & Hm0 & Ht0).
      inversion Hm0; subst. congruence.
    + apply Hskip; [done|]. intros v0 Hv0 Hc.
      destruct (Hsome v0 Hv0 Hc) as (m0 & Hm0 & _). discriminate.
Qed.

Lemma validate_rows_elem c2f cfgs headers rows es e :
  validate_rows validate_field c2f cfgs headers rows = Ok es ->
  (e ∈ es <->
   exists i row j h v, (i, row) ∈ rows /\ headers !! j = Some h /\
     row !! j = Some v /\ cell_error c2f cfgs (i, j, h, v) e).
Proof.
  revert es. induction rows as [|[i row] rows IH]; simpl; intros es H.
  - inversion H; subst. split; [inversion 1|].
    intros (?&?&?&?&?&Hin&_). inversion Hin.
  - apply bind_Ok in H as (here & Hhere & H).
    apply bind_Ok in H as (later & Hlater & H).
    inversion H; subst; clear H.
    rewrite elem_of_app, (IH _ Hlater),
      (validate_row_elem _ _ _ _ _ _ e Hhere). split.
    + intros [(j&h&v&Hin&Hv&Hc)|(i0&row0&j&h&v&Hin&Hrest)].
      * apply enumerate_lookup in Hin.
        exists i, row, j, h, v. split; [left|done].
      * exists i0, row0, j, h, v. split; [by right|done].
    + intros (i0&row0&j&h&v&Hin&Hh&Hv&Hc).
      apply elem_of_cons in Hin as [Heq|Hin].
      * inversion Heq; subst. left. exists j, h, v.
        split; [by apply enumerate_lookup|done].
      * right. exists i0, row0, j, h, v. done.
Qed.

(** Every conflict of the full validation belongs to a cell of the data. *)
Lemma validate_all_elem c2f cfgs headers R es e :
  validate_all validate_field c2f cfgs headers R = Ok es ->
  (e ∈ es <->
   exists i row j h v, R !! i = Some row /\ headers !! j = Some h /\
     row !! j = Some v /\ cell_error c2f cfgs (i, j, h, v) e).
Proof.
  intros H. unfold validate_all in H.
  rewrite (validate_rows_elem _ _ _ _ _ e H). split.
  - intros (i&row&j&h&v&Hin&Hrest). apply enumerate_lookup in Hin. eauto 10.
  - intros (i&row&j&h&v&Hin&Hrest). exists i, row, j, h, v.
    split; [by apply enumerate_lookup|done].
Qed.

Lemma validate_rows_unique m cfgs headers rows es :
  NoDup headers -> wf_dict m -> NoDup rows.*1 ->
  validate_rows validate_field (csv_column_to_field m) cfgs headers rows
    = Ok es ->
  conflicts_unique es.
Proof.
  intros Hh Hm. revert es.
  induction rows as [|[i row] rows IH]; simpl; intros es Hnd H.
  - inversion H. constructor.
  - apply NoDup_cons in Hnd as [Hi Hnd].
    apply bind_Ok in H as (here & Hhere & H).
    apply bind_Ok in H as (later & Hlater & H).
    inversion H; subst; clear H.
    unfold conflicts_unique. rewrite fmap_app. apply NoDup_app.
    split; [|split].
    + eapply sublist_NoDup; [|by eapply validate_row_keys].
      apply NoDup_omap_enumerate.
      intros j1 j2 h1 h2 b Hh1 Hh2 H1 H2. unfold row_key in H1, H2.
      simpl in H1, H2.
      destruct (row !! j1); [|discriminate].
      destruct (row !! j2); [|discriminate].
      destruct (csv_column_to_field m !! h1) as [f1|] eqn:E1; [|discriminate].
      destruct (csv_column_to_field m !! h2) as [f2|] eqn:E2; [|discriminate].
      simpl in H1, H2. inversion H1; subst b. inversion H2; subst f2.
      assert (h1 = h2) as -> by (eapply csv_column_to_field_inj; eauto).
      eapply (NoDup_lookup headers); [exact Hh|exact Hh1|exact Hh2].
    + intros k Hk Hk'.
      apply list_elem_of_fmap in Hk as (e1 & -> & He1).
      apply list_elem_of_fmap in Hk' as (e2 & Hkey & He2).
      apply (validate_row_elem _ _ _ _ _ _ e1 Hhere) in He1
        as (j1&h1&v1&_&_&(f1&?&m1&_&_&_&_&->)).
      apply (validate_rows_elem _ _ _ _ _ e2 Hlater) in He2
        as (i2&row2&j2&h2&v2&Hin&_&_&(f2&?&m2&_&_&_&_&->)).
      unfold conflict_key in Hkey. simpl in Hkey.
      injection Hkey as Hrow _. assert (i = i2) as -> by lia.
      apply Hi. apply list_elem_of_fmap. exists (i2, row2). done.
    + by apply IH.
Qed.

(** The legacy save leaves unique conflicts, when its columns are distinct. *)
Lemma revalidate_unique job importer R headers job' :
  NoDup (legacy_headers job R headers) ->
  wf_dict (default [] (column_mapping job)) ->
  conflicts_unique (default [] (errors job)) ->
  revalidate_and_save_job validate_field (Some job) importer R headers
    = Some job' ->
  conflicts_unique (default [] (errors job')).
Proof.
  intros Hh Hm Hprior H. unfold revalidate_and_save_job in H.
  destruct (revalidate_body _ _ _ _ _) as [j|] eqn:Hbody;
    inversion H; subst; clear H; [|done].
  unfold revalidate_body in Hbody.
  destruct importer as [imp|]; [|by inversion Hbody].
  destruct (legacy_headers job R headers) as [|h0 hs] eqn:Eh;
    [by inversion Hbody|].
  apply bind_Ok in Hbody as (cfgs & _ & Hbody).
  apply bind_Ok in Hbody as (es & Hes & Hbody).
  inversion Hbody; subst; clear Hbody. simpl.
  eapply validate_rows_unique; [exact Hh|exact Hm| |exact Hes].
  unfold enumerate. clear.
  assert (forall k, NoDup (imap (fun i x => (k + i, x)%nat) R).*1) as Hgen.
  { induction R as [|x R IH]; intros k; simpl; [constructor|].
    apply NoDup_cons. split.
    - rewrite list_elem_of_fmap. intros [[i y] [Heq Hin]].
      simpl in Heq. apply list_elem_of_lookup in Hin as [n Hn].
      rewrite list_lookup_imap in Hn.
      destruct (R !! n); simpl in Hn; inversion Hn; subst. lia.
    - erewrite imap_ext; [apply (IH (S k))|].
      intros i y _. simpl. f_equal. lia. }
  apply (Hgen 0%nat).
Qed.

(** *** The diff-based save against the full validation *)

Lemma validate_row_cell_ok c2f cfgs i row cols es j h v f cfg :
  validate_row validate_field c2f cfgs i row cols = Ok es ->
  (j, h) ∈ cols -> row !! j = Some v -> c2f !! h = Some f ->
  cfgs !! f = Some cfg ->
  exists r, validate_field v cfg = Ok r.
Proof.
  revert es. induction cols as [|[j0 h0] cols IH]; simpl;
    intros es H Hin Hv Hf Hcfg; [inversion Hin|].
  apply elem_of_cons in Hin as [Heq|Hin].
  - inversion Heq; subst. rewrite Hv, Hf, Hcfg in H.
    apply bind_Ok in H as (r & Hr & _). eauto.
  - destruct (row !! j0); [|eauto].
    destruct (c2f !! h0) as [f0|]; [|eauto].
    destruct (cfgs !! f0); [|eauto].
    apply bind_Ok in H as (? & _ & H).
    apply bind_Ok in H as (? & H & _). eauto.
Qed.

Lemma validate_all_cell_ok c2f cfgs headers R es i row j h v f cfg :
  validate_all validate_field c2f cfgs headers R = Ok es ->
  R !! i = Some row -> headers !! j = Some h -> row !! j = Some v ->
  c2f !! h = Some f -> cfgs !! f = Some cfg ->
  exists r, validate_field v cfg = Ok r.
Proof.
  unfold validate_all. intros H Hrow. apply enumerate_lookup in Hrow.
  revert es H Hrow. generalize (enumerate R) as rows.
  induction rows as [|[i0 row0] rows IH]; simpl;
    intros es H Hin Hh Hv Hf Hcfg; [inversion Hin|].
  apply bind_Ok in H as (here & Hhere & H).
  apply bind_Ok in H as (later & Hlater & _).
  apply elem_of_cons in Hin as [Heq|Hin]; [|eauto].
  inversion Heq; subst.
  eapply validate_row_cell_ok; eauto. by apply enumerate_lookup.
Qed.

Lemma validate_changed_total c2f cfgs cells :
  (forall c, c ∈ cells ->
     exists f, c2f !! c.1.2 = Some f /\
       forall cfg, cfgs !! f = Some cfg ->
         exists r, validate_field c.2 cfg = Ok r) ->
  exists new n, validate_changed validate_field c2f cfgs cells = Ok (new, n).
Proof.
  induction cells as [|[[[i j] h] v] cells IH]; simpl; intros Hall; [eauto|].
  destruct IH as (new & n & IH); [intros c Hc; apply Hall; by right|].
  destruct (Hall (i, j, h, v)) as (f & Hf & Hok); [left|]. simpl in *.
  rewrite Hf. destruct (cfgs !! f) as [cfg|]; [|eauto].
  destruct (Hok cfg eq_refl) as [r Hr]. rewrite Hr, IH. simpl. eauto.
Qed.

Lemma unchanged_errors_total positions es :
  (forall e, e ∈ es -> exists r, error_row_index e = Ok r) ->
  exists u, unchanged_errors positions es = Ok u.
Proof.
  induction es as [|e es IH]; simpl; intros Hall; [eauto|].
  destruct IH as (u & IH); [intros e' He'; apply Hall; by right|].
  destruct (Hall e) as (r & Hr); [left|].
  rewrite Hr, IH. simpl. eauto.
Qed.

Lemma stored_rows_lookup headers D i j d h :
  D !! i = Some d -> headers !! j = Some h ->
  exists row, stored_rows headers D !! i = Some row /\
    row !! j = Some (default (CStr "") (dict_get d h)).
Proof.
  intros Hd Hh.
  exists ((fun h => default (CStr "") (dict_get d h)) <$> headers). split.
  - unfold stored_rows. apply list_lookup_fmap_Some. by exists d.
  - apply list_lookup_fmap_Some. by exists h.
Qed.

Lemma stored_value_text (d : row_dict) h :
  Forall is_text d.*2 -> is_text (default (CStr "") (dict_get d h)).
Proof.
  intros Hd. destruct (dict_get d h) as [v|] eqn:E; simpl; [|by eexists].
  apply dict_get_Some_elem in E. rewrite Forall_forall in Hd. apply Hd.
  apply list_elem_of_fmap. exists (h, v). done.
Qed.

Lemma text_str_inj v w : is_text v -> is_text w -> py_str v = py_str w -> v = w.
Proof. intros [s ->] [t ->]. simpl. congruence. Qed.

Lemma cell_error_triple c2f cfgs i j h v e :
  cell_error c2f cfgs (i, j, h, v) e ->
  exists f m, c2f !! h = Some f /\
    triple e = (Some (RowNum (Z.of_nat i + 1)), f, Some m).
Proof.
  intros (f & cfg & m & Hf & _ & _ & _ & ->). simpl in *. eauto.
Qed.

(** The conflict of a cell does not depend on where the cell is read. *)
Lemma cell_error_value c2f cfgs i j h v e :
  cell_error c2f cfgs (i, j, h, v) e ->
  forall j', cell_error c2f cfgs (i, j', h, v) e.
Proof.
  intros (f & cfg & m & Hf & Hcfg & Hv & Ht & ->) j'.
  exists f, cfg, m. done.
Qed.

Lemma diff_save_matches_full job imp cfgs R headers E0 F :
  let D := stored_data job in
  let hs := effective_headers D headers in
  let c2f := csv_column_to_field (default [] (column_mapping job)) in
  field_configs_by_name (fields imp) = Ok cfgs ->
  (D <> [] -> NoDup hs) ->
  wf_dict (default [] (column_mapping job)) ->
  Forall (fun d : row_dict => Forall is_text d.*2) D ->
  Forall (Forall is_text) R ->
  (forall i d, D !! i = Some d ->
     exists row, R !! i = Some row /\ (length hs <= length row)%nat) ->
  validate_all validate_field c2f cfgs hs (stored_rows hs D) = Ok E0 ->
  same_conflicts (default [] (errors job)) E0 ->
  validate_all validate_field c2f cfgs hs R = Ok F ->
  exists job' s,
    optimized_save_and_validate validate_field job (Some imp) R headers
      = Ok (job', s) /\
    same_conflicts (default [] (errors job')) F.
Proof.
  intros D hs c2f Hcfgs HndH Hwf HtextD HtextR Hshape HE0 Hsame HF.
  set (cells := find_changed_cells hs c2f D R).
  assert (forall i j h v,
             (i, j, h, v) ∈ cells <->
             exists row, R !! i = Some row /\ row !! j = Some v /\
               hs !! j = Some h /\ is_Some (c2f !! h) /\
               (D !! i = None \/
                exists er, D !! i = Some er /\
                  py_str v <> py_str (default (CStr "") (dict_get er h))))
    as Hcells.
  { intros i j h v. unfold cells. rewrite find_changed_cells_elem. split.
    - intros (i0 & row & Hrow & Hc).
      apply changed_in_row_elem in Hc as (j0&v0&h0&Heq&Hv&Hh&Hm&Hex).
      inversion Heq; subst. eauto 10.
    - intros (row & Hrow & Hv & Hh & Hm & Hex). exists i, row.
      split; [done|]. apply changed_in_row_elem. eauto 10. }
  assert (forall i row j v, R !! i = Some row -> row !! j = Some v -> is_text v)
    as HtR.
  { intros i row j v Hrow Hv.
    eapply Forall_lookup_1 in HtextR; [|exact Hrow].
    eapply Forall_lookup_1 in HtextR; [|exact Hv]. done. }
  assert (forall i d h, D !! i = Some d ->
             is_text (default (CStr "") (dict_get d h))) as HtD.
  { intros i d h Hd. apply stored_value_text.
    eapply Forall_lookup_1 in HtextD; [|exact Hd]. done. }
  (* the prior errors, read through the full validation of the stored data *)
  assert (forall e, e ∈ default [] (errors job) ->
             exists i d j h f m,
               D !! i = Some d /\ hs !! j = Some h /\
               cell_error c2f cfgs
                 (i, j, h, default (CStr "") (dict_get d h))
                 (cell_conflict i f h (default (CStr "") (dict_get d h)) m) /\
               c2f !! h = Some f /\
               triple e = (Some (RowNum (Z.of_nat i + 1)), f, Some m))
    as Hprior.
  { intros e He.
    assert (triple e ∈ triple <$> E0) as Ht
      by (apply Hsame, list_elem_of_fmap; eauto).
    apply list_elem_of_fmap in Ht as (e0 & Heq & He0).
    apply (validate_all_elem _ _ _ _ _ e0 HE0) in He0
      as (i & row0 & j & h & v0 & Hrow0 & Hh & Hv0 & Hc).
    unfold stored_rows in Hrow0.
    apply list_lookup_fmap_Some in Hrow0 as (d & -> & Hd).
    apply list_lookup_fmap_Some in Hv0 as (h' & -> & Hh').
    rewrite Hh in Hh'. inversion Hh'; subst h'.
    pose proof Hc as (f & cfg & m & Hf & Hcfg & Hv & Htr & ->).
    simpl in *. exists i, d, j, h, f, m. repeat split; done. }
  destruct (validate_changed_total c2f cfgs cells) as (new & n & Hnew).
  { intros [[[i j] h] v] Hc. apply Hcells in Hc
      as (row & Hrow & Hv & Hh & [f Hf] & _).
    exists f. split; [done|]. intros cfg Hcfg. simpl.
    eapply validate_all_cell_ok; eauto. }
  destruct (unchanged_errors_total (changed_positions c2f cells)
              (default [] (errors job))) as (u & Hu).
  { intros e He. apply Hprior in He as (i&d&j&h&f&m&_&_&_&_&Ht).
    unfold triple in Ht. injection Ht as Hrow _ _.
    unfold error_row_index. rewrite Hrow. eauto. }
  assert (optimized_save_and_validate validate_field job (Some imp) R headers
          = Ok (set_status (status_for (u ++ new))
                  (set_errors (u ++ new) (Z.of_nat (length (u ++ new)))
                     (set_processed_data
                        (store_data (row_to_dict hs <$> R)
                           (processed_data job)) job)),
                mkSummary n (length (u ++ new)) (length new) (length u)))
    as Hrun.
  { unfold optimized_save_and_validate. rewrite Hcfgs. simpl.
    fold D. fold hs. fold c2f. fold cells. rewrite Hnew. simpl.
    rewrite Hu. simpl. done. }
  eexists _, _. split; [exact Hrun|]. simpl.
  pose proof (unchanged_errors_spec _ _ _ Hu) as (_ & Hmem & _).
  intros t. rewrite fmap_app, elem_of_app. split.
  - intros [Ht|Ht]; apply list_elem_of_fmap in Ht as (e & -> & He).
    + apply Hmem in He as (He & r & Hr & Hnot).
      apply Hprior in He as (i&d&j&h&f&m&Hd&Hh&Hc&Hf&Ht).
      destruct (Hshape i d Hd) as (row & Hrow & Hlen).
      destruct (lookup_lt_is_Some_2 row j) as [v Hv].
      { apply lookup_lt_Some in Hh. lia. }
      assert (r = Z.of_nat i) as ->.
      { unfold triple in Ht. injection Ht as Hrow' _ _.
        unfold error_row_index in Hr. rewrite Hrow' in Hr.
        injection Hr as <-. lia. }
      assert (err_field e = f) as Hef
        by (unfold triple in Ht; by injection Ht).
      assert (v = default (CStr "") (dict_get d h)) as Hvv.
      { destruct (decide (py_str v
                          = py_str (default (CStr "") (dict_get d h))))
          as [Heq|Hne].
        - eapply text_str_inj; eauto.
        - exfalso. apply Hnot. apply changed_positions_elem.
          exists (i, j, h, v). split.
          + apply Hcells. exists row. repeat split; eauto.
          + simpl. rewrite Hf, Hef. done. }
      rewrite Ht. apply list_elem_of_fmap.
      exists (cell_conflict i f h (default (CStr "") (dict_get d h)) m).
      split; [done|].
      apply (validate_all_elem _ _ _ _ _ _ HF).
      exists i, row, j, h, (default (CStr "") (dict_get d h)).
      rewrite <- Hvv at 1. done.
    + apply (validate_changed_elem _ _ _ _ _ e Hnew) in He
        as ([[[i j] h] v] & Hc & Herr).
      apply Hcells in Hc as (row & Hrow & Hv & Hh & _).
      apply list_elem_of_fmap. exists e. split; [done|].
      apply (validate_all_elem _ _ _ _ _ _ HF). eauto 10.
  - intros Ht. apply list_elem_of_fmap in Ht as (e & -> & He).
    apply (validate_all_elem _ _ _ _ _ e HF) in He
      as (i & row & j & h & v & Hrow & Hh & Hv & Hc).
    pose proof Hc as (f & cfg & m & Hf & Hcfg & Hval & Htr & ->).
    simpl in Hf, Hcfg, Hval.
    assert ((i, j, h, v) ∈ cells ->
            triple (cell_conflict i f h v m) ∈ triple <$> u
            \/ triple (cell_conflict i f h v m) ∈ triple <$> new) as Hchanged.
    { intros Hin. right. apply list_elem_of_fmap. eexists. split; [done|].
      apply (validate_changed_elem _ _ _ _ _ _ Hnew). eauto. }
    destruct (D !! i) as [d|] eqn:Hd.
    2:{ apply Hchanged, Hcells. exists row. repeat split; eauto. }
    destruct (decide (py_str v = py_str (default (CStr "") (dict_get d h))))
      as [Heq|Hne].
    2:{ apply Hchanged, Hcells. exists row. repeat split; eauto. }
    assert (v = default (CStr "") (dict_get d h)) as Hvv
      by (eapply text_str_inj; eauto).
    left.
    assert (triple (cell_conflict i f h v m) ∈ triple <$> default [] (errors job))
      as Hin.
    { apply Hsame. apply list_elem_of_fmap. eexists. split; [done|].
      apply (validate_all_elem _ _ _ _ _ _ HE0).
      destruct (stored_rows_lookup hs D i j d h Hd Hh) as (row0 & Hrow0 & Hv0).
      exists i, row0, j, h, v. rewrite Hvv at 1. done. }
    apply list_elem_of_fmap in Hin as (e' & Heq' & He').
    apply list_elem_of_fmap. exists e'. split; [done|].
    apply Hmem. split; [done|]. exists (Z.of_nat i).
    unfold triple in Heq'. simpl in Heq'. injection Heq' as Hr' Hf' _.
    split.
    + unfold error_row_index. rewrite <- Hr'. f_equal. lia.
    + intros Hpos. apply changed_positions_elem in Hpos
        as ([[[i2 j2] h2] v2] & Hc2 & Hkey).
      apply Hcells in Hc2 as (row2 & Hrow2 & Hv2 & Hh2 & [f2 Hf2] & Hex).
      simpl in Hkey. rewrite Hf2 in Hkey. simpl in Hkey.
      injection Hkey as Hi Hff. assert (i2 = i) as -> by lia.
      rewrite <- Hf' in Hff. simpl in Hff. subst f2.
      assert (h2 = h) as -> by (eapply csv_column_to_field_inj; eauto).
      assert (j2 = j) as ->.
      { eapply (NoDup_lookup hs); [|exact Hh2|exact Hh].
        apply HndH. intros Hnil. by rewrite Hnil in Hd. }
      rewrite Hrow in Hrow2. inversion Hrow2; subst row2.
      rewrite Hv in Hv2. inversion Hv2; subst v2.
      destruct Hex as [Hnone|(er & Her & Hne)]; [congruence|].
      assert (er = d) as -> by congruence. done.
Qed.

(** *** The claims about the conflict tracker *)

(** The job the wait for the promotion returns is one the database showed,
    with its data and out of PROMOTING. *)
Lemma poll_observed observe i n j :
  poll observe i n = Some j ->
  (exists k, j = observe k) /\ pd_truthy (processed_data j) = true /\
  status j <> PROMOTING.
Proof.
  revert i. induction n as [|n IH]; intros i H; simpl in H; [done|].
  destruct (pd_truthy (processed_data (observe i))) eqn:Hp; simpl in H;
    [|by apply IH in H].
  destruct (bool_decide (status (observe i) = PROMOTING)) eqn:Hs; simpl in H;
    [by apply IH in H|].
  inversion H; subst. apply bool_decide_eq_false in Hs. eauto.
Qed.

(** An edit that answers 200 stored its conflicts, their count, and the
    status that goes with the count. *)
Lemma apply_edit_200 job importer req :
  let h := apply_edit validate_field job importer req in
  http_status h = 200 ->
  exists es, errors (job_after h) = Some es /\
    error_count (job_after h) = Z.of_nat (length es) /\
    status (job_after h) = status_for es.
Proof.
  unfold apply_edit.
  destruct (processed_data job) as [pd|]; [|done].
  destruct (negb (pd_truthy (Some pd))); [done|].
  destruct (negb (bool_decide _)); [done|].
  destruct (_ !! _) as [record|]; [|done].
  destruct (dict_get record _); [|done].
  destruct (drop_cell_errors _ _ _) as [kept|]; [|done].
  simpl. intros _. eauto.
Qed.

Lemma status_for_spec es :
  (status_for es = COMPLETED <-> Z.of_nat (length es) = 0) /\
  (status_for es = UNCOMPLETED <-> Z.of_nat (length es) <> 0).
Proof.
  unfold status_for. destruct (decide (length es = 0%nat)) as [E|E].
  - rewrite E. split; split; intros; try done.
  - split; split; intros; try done; lia.
Qed.

(** A cell edit that answers 200 applied the edit to the job of the request
    or to the promoted job it waited for. *)
Lemma update_cell_200 observe job importer req :
  let h := update_cell validate_field observe job importer req in
  http_status h = 200 ->
  exists j, (j = job \/ exists k, j = observe k) /\
    http_status (apply_edit validate_field j importer req) = 200 /\
    job_after h = job_after (apply_edit validate_field j importer req).
Proof.
  unfold update_cell.
  destruct (negb (pd_truthy (processed_data job)) && truthy_str (file_path job)).
  - destruct (decide (status job = PROMOTING)); [done|].
    destruct (poll observe 0 30) as [p|] eqn:Hp; [|done].
    apply poll_observed in Hp as ((k & ->) & _). simpl. intros H.
    exists (observe k). eauto.
  - intros H. exists job. eauto.
Qed.

(** C1: the diff-based save leaves the same conflicts, as a set of
    (row, field, error) records, as the full revalidation of the submitted
    rows by [revalidate_and_save_job], when that revalidation completes and
    - the conflicts the job carries are those the validator of the portal
      gives for its stored rows, which is not so for a promoted job that
      still carries conflicts written by the worker,
    - no stored row is dropped or cut short by the submitted data,
    - the stored rows and the submitted rows hold strings,
    - both saves work with the same columns: the headers of the request
      are the columns of the stored rows.
    Of the data model, the theorem takes that the stored rows are the
    records of one table and the column mapping a dictionary. *)
Theorem diff_save_equals_full_revalidation job imp R headers job_full :
  let D := stored_data job in
  let hs := effective_headers D headers in
  let c2f := csv_column_to_field (default [] (column_mapping job)) in
  table D ->
  wf_dict (default [] (column_mapping job)) ->
  legacy_headers job R headers = hs ->
  Forall (fun d : row_dict => Forall is_text d.*2) D ->
  Forall (Forall is_text) R ->
  (length D <= length R)%nat ->
  Forall (fun row : list cell => (length hs <= length row)%nat)
         (take (length D) R) ->
  (forall cfgs, field_configs_by_name (fields imp) = Ok cfgs ->
     exists E0,
       validate_all validate_field c2f cfgs hs (stored_rows hs D) = Ok E0 /\
       same_conflicts (default [] (errors job)) E0) ->
  revalidate_and_save_job validate_field (Some job) (Some imp) R headers
    = Some job_full ->
  status job_full <> FAILED ->
  exists job' s,
    optimized_save_and_validate validate_field job (Some imp) R headers
      = Ok (job', s) /\
    same_conflicts (default [] (errors job')) (default [] (errors job_full)).
Proof.
  intros D hs c2f Htable Hwf Hleg HD HR Hlen Hrows Hprior Hfull Hst.
  assert (D <> [] -> NoDup hs) as Hnd.
  { intros Hne. destruct Htable as (cols & Hcols & Hndc & Hkeys).
    assert (hs = cols) as ->; [|done].
    rewrite <- Hleg. unfold legacy_headers. unfold D, stored_data in *.
    destruct (pd_truthy (processed_data job)); [|done].
    destruct (processed_data job ≫= pd_data) as [[|first rest]|]; try done.
    simpl in Hkeys. apply Forall_cons in Hkeys as [Hfirst _]. rewrite Hfirst.
    by destruct cols. }
  unfold revalidate_and_save_job in Hfull.
  destruct (revalidate_body _ _ _ _ _) as [j|] eqn:Hbody;
    inversion Hfull; subst; clear Hfull; [|done].
  unfold revalidate_body in Hbody. rewrite Hleg in Hbody.
  destruct hs as [|h0 hs'] eqn:Ehs; [inversion Hbody; by subst|].
  apply bind_Ok in Hbody as (cfgs & Hcfgs & Hbody).
  apply bind_Ok in Hbody as (F & HF & Hbody).
  inversion Hbody; subst job_full; clear Hbody. simpl.
  destruct (Hprior cfgs Hcfgs) as (E0 & HE0 & Hsame).
  eapply (diff_save_matches_full job imp cfgs R headers E0 F);
    try done; fold D; fold hs; rewrite ?Ehs; try done.
  intros i d Hd.
  assert (i < length R)%nat as Hi.
  { apply lookup_lt_Some in Hd. lia. }
  destruct (lookup_lt_is_Some_2 R i Hi) as [row Hrow].
  exists row. split; [done|].
  rewrite Forall_lookup in Hrows. apply (Hrows i row).
  rewrite lookup_take_lt; [done|]. by apply lookup_lt_Some in Hd.
Qed.

(** C2: a cell edit (answered 200) and a diff-based save leave the job
    COMPLETED exactly when its error count is 0 and UNCOMPLETED exactly
    when it is not; a save that fell back to the legacy bulk save leaves
    the job UNCOMPLETED whatever the count, or FAILED. *)
Theorem status_follows_error_count op job importer job' :
  run validate_field op job importer = Some job' ->
  (fell_back validate_field op job importer = false ->
     (status job' = COMPLETED <-> error_count job' = 0) /\
     (status job' = UNCOMPLETED <-> error_count job' <> 0)) /\
  (fell_back validate_field op job importer = true ->
     status job' = UNCOMPLETED \/ status job' = FAILED).
Proof.
  destruct op as [observe req|data headers]; simpl.
  - destruct (decide _) as [H200|]; [|done]. intros [= <-].
    split; [intros _|done].
    apply update_cell_200 in H200 as (j & _ & H200 & ->).
    apply apply_edit_200 in H200 as (es & _ & -> & ->).
    apply status_for_spec.
  - unfold save_completed, save_data.
    destruct (optimized_save_and_validate _ _ _ _ _) as [[j s]|e] eqn:Hopt;
      simpl.
    + intros [= <-]. split; [intros _|done].
      apply optimized_save_inv in Hopt
        as (imp & cfgs & new & n & un & _ & _ & _ & _ & _ & -> & ->).
      apply status_for_spec.
    + intros H. split; [done|intros _].
      destruct (revalidate_body _ _ _ _ _) as [j|] eqn:Hbody;
        inversion H; subst; clear H; [|by right].
      unfold revalidate_body in Hbody.
      destruct importer as [imp|]; [|inversion Hbody; by right].
      destruct (legacy_headers _ _ _); [inversion Hbody; by right|].
      apply bind_Ok in Hbody as (cfgs & _ & Hbody).
      apply bind_Ok in Hbody as (es & _ & Hbody).
      inversion Hbody. by left.
Qed.

(** C9: a cell edit or a save that starts from conflicts that are unique
    per (row, field), with distinct column names, leaves conflicts that are
    unique per (row, field). *)
Theorem conflicts_stay_unique op job importer job' :
  well_formed op job ->
  run validate_field op job importer = Some job' ->
  conflicts_unique (default [] (errors job')).
Proof.
  destruct op as [observe req|data headers]; simpl.
  - intros Hwf. destruct (decide _) as [H200|]; [|done]. intros [= <-].
    apply update_cell_200 in H200 as (j & Hj & _ & ->).
    destruct (Hwf j Hj). by apply apply_edit_unique.
  - intros (Hprior & Hm & Hh & Hl). unfold save_completed, save_data.
    destruct (optimized_save_and_validate _ _ _ _ _) as [[j s]|e] eqn:Hopt;
      simpl.
    + intros [= <-]. eapply optimized_save_unique; eauto.
    + intros H. eapply revalidate_unique; [| | |exact H]; done.
Qed.

(** C4: an edit of a job whose rows are still in its file and whose status
    is PROMOTING is answered 425, starts no task and leaves the job as it
    was.  The file path is there for every such job: [update_cell] and
    [get_import_data] set PROMOTING only on a job that has one. *)
Theorem edit_during_promotion_rejected observe job importer req :
  pd_truthy (processed_data job) = false ->
  truthy_str (file_path job) = true ->
  status job = PROMOTING ->
  update_cell validate_field observe job importer req = mkHandled 425 job false.
Proof.
  intros Hd Hp Hs. unfold update_cell. rewrite Hd, Hp. simpl.
  by destruct (decide (status job = PROMOTING)).
Qed.

End Tracker.

Import Examples.

(** An edit that swaps which of two rows has an empty name. *)
Lemma diff_save_equals_full_revalidation_witness :
  exists job' s,
    optimized_save_and_validate Reference.validate_field two_rows
      (Some contacts) [[CStr ""]; [CStr "Bob"]] (Some ["name"]) = Ok (job', s) /\
    same_conflicts (default [] (errors job')) [name_required 0].
Proof.
  apply (diff_save_equals_full_revalidation Reference.validate_field two_rows
           contacts [[CStr ""]; [CStr "Bob"]] (Some ["name"])
           (promoted [named ""; named "Bob"] [name_required 0] UNCOMPLETED)).
  - exists ["name"]. split; [done|]. split; [|by repeat constructor].
    apply NoDup_singleton.
  - vm_compute. repeat constructor; set_solver.
  - vm_compute. reflexivity.
  - repeat constructor; by eexists.
  - repeat constructor; by eexists.
  - simpl. lia.
  - repeat constructor.
  - intros cfgs Hcfgs. exists [name_required 1]. split; [|done].
    vm_compute in Hcfgs. injection Hcfgs as <-. vm_compute. reflexivity.
  - vm_compute. reflexivity.
  - vm_compute. discriminate.
Defined.

Ltac run_saves :=
  split; [eexists _, _; vm_compute; split; reflexivity|];
  split; [eexists; vm_compute; repeat split; reflexivity|].

Ltac holds :=
  match goal with |- ?P => apply (bool_decide_unpack P); vm_compute; exact I end.

Ltac not_same t :=
  let H := fresh in
  let Hin := fresh in
  intros H;
  assert (t ∈ triple <$> []) as Hin by (apply H; holds);
  by apply elem_of_nil in Hin.

(** Where the two saves differ.
    - A job of the API with a phone number: the worker, whose phone pattern
      does not compile, writes a conflict for it; the promotion keeps the
      conflict; a save of the rows as they are carries it over, while the
      full revalidation finds the number valid.
    - A row removed by the submitted data keeps its conflict in the
      diff-based save.
    - So does a row submitted without its value.
    - A submitted [null] reads as the stored string [None] and is not
      validated by the diff; a stored [null] with its conflict reads as the
      submitted string [None] and keeps the conflict.
    - Headers other than the columns of the stored records: the diff reads
      the rows under the headers of the request, the full revalidation
      under the stored columns. *)
Lemma diff_save_differs_from_full_revalidation :
  (let worked :=
     ApiWorker.job_done
       (ApiWorker.process_api_import Reference.basic_lib fresh_phonebook
          (Some phonebook) (Some phonebook_frame)) in
   let job :=
     (Promotion.promote Reference.basic_lib phonebook_file
        Promotion.ToPortalManaged worked).1 in
   let written :=
     ApiWorker.cell_error 0 "phone" "555 0100"
       "Validation failed due to internal error" in
   status worked = UNCOMPLETED /\
   errors worked = Some [written] /\
   errors job = Some [written] /\
   stored_data job = [[("phone", CStr "555 0100")]] /\
   saves_leave Reference.validate_field job phonebook
     [[CStr "555 0100"]] (Some ["phone"]) [written] []) /\
  saves_leave Reference.validate_field two_rows contacts
    [[CStr "Ann"]] (Some ["name"]) [name_required 1] [] /\
  saves_leave Reference.validate_field two_rows contacts
    [[CStr "Ann"]; []] (Some ["name"]) [name_required 1] [] /\
  saves_leave Reference.validate_field
    (promoted [named "None"] [] COMPLETED) contacts
    [[CNull]] (Some ["name"])
    [] [cell_conflict 0 "name" "name" CNull "name is required"] /\
  saves_leave Reference.validate_field
    (promoted [[("name", CNull)]]
       [cell_conflict 0 "name" "name" CNull "name is required"] UNCOMPLETED)
    contacts [[CStr "None"]] (Some ["name"])
    [cell_conflict 0 "name" "name" CNull "name is required"] [] /\
  saves_leave Reference.validate_field two_rows contacts
    [[CStr "Ann"]; [CStr "Bob"]] (Some ["other"]) [name_required 1] [].
Proof.
  split; [|split; [|split; [|split; [|split]]]].
  - cbv zeta. split; [vm_compute; reflexivity|].
    split; [vm_compute; reflexivity|]. split; [vm_compute; reflexivity|].
    split; [vm_compute; reflexivity|]. run_saves.
    not_same (Some (RowNum 1), "phone", @None string).
  - run_saves. not_same (Some (RowNum 2), "name", Some "name is required").
  - run_saves. not_same (Some (RowNum 2), "name", Some "name is required").
  - run_saves. not_same (Some (RowNum 1), "name", Some "name is required").
  - run_saves. not_same (Some (RowNum 1), "name", Some "name is required").
  - run_saves. not_same (Some (RowNum 2), "name", Some "name is required").
Qed.

Lemma status_follows_error_count_witness :
  let job := promoted [named "Ann"] [] COMPLETED in
  let job' := promoted [named ""] [name_required 0] UNCOMPLETED in
  status job' = UNCOMPLETED /\ error_count job' = 1 /\
  ((status job' = COMPLETED <-> error_count job' = 0) /\
   (status job' = UNCOMPLETED <-> error_count job' <> 0)).
Proof.
  cbv zeta. split; [reflexivity|]. split; [reflexivity|].
  apply (status_follows_error_count Reference.validate_field
           (SaveData [[CStr ""]] (Some ["name"]))
           (promoted [named "Ann"] [] COMPLETED) (Some contacts)).
  - vm_compute. reflexivity.
  - vm_compute. reflexivity.
Defined.

(** A save on a job that carries a header conflict falls back to the legacy
    save, which leaves it UNCOMPLETED with no conflict. *)
Lemma legacy_save_stays_uncompleted :
  let save := SaveData [[CStr "Ann Lee"]] (Some ["full name"]) in
  exists job',
    run Reference.validate_field save recovered (Some contacts) = Some job' /\
    fell_back Reference.validate_field save recovered (Some contacts) = true /\
    errors job' = Some [] /\ error_count job' = 0 /\ status job' = UNCOMPLETED.
Proof. cbv zeta. eexists. vm_compute. repeat split; reflexivity. Qed.

Lemma conflicts_stay_unique_witness :
  conflicts_unique [name_required 0].
Proof.
  apply (conflicts_stay_unique Reference.validate_field
           (SaveData [[CStr ""]] (Some ["name"]))
           (promoted [named "Ann"] [] COMPLETED) (Some contacts)
           (promoted [named ""] [name_required 0] UNCOMPLETED)).
  - repeat split; vm_compute; repeat constructor; set_solver.
  - vm_compute. reflexivity.
Defined.

(** A save whose headers name a column twice records two conflicts for the
    same cell. *)
Lemma repeated_header_repeats_conflict :
  let job := promoted [named "Ann"] [] COMPLETED in
  exists job',
    run Reference.validate_field
      (SaveData [[CStr ""; CStr ""]] (Some ["name"; "name"])) job (Some contacts)
      = Some job' /\
    conflicts_unique (default [] (errors job)) /\
    conflict_key <$> default [] (errors job')
      = [(Some (RowNum 1), "name"); (Some (RowNum 1), "name")] /\
    ~ conflicts_unique (default [] (errors job')).
Proof.
  cbv zeta. eexists. split; [vm_compute; reflexivity|].
  split; [constructor|]. split; [reflexivity|].
  intros H. apply NoDup_cons in H as [H _]. apply H. simpl. left.
Qed.

Lemma edit_during_promotion_rejected_witness :
  update_cell Reference.validate_field (fun _ => file_backed [] PROMOTING)
    (file_backed [] PROMOTING) (Some contacts) (mkCellRequest 0 "name" "Bob")
  = mkHandled 425 (file_backed [] PROMOTING) false.
Proof.
  apply (edit_during_promotion_rejected Reference.validate_field);
    reflexivity.
Defined.

End ImportsFacts.

(** ** Facts about the promotion *)

Module PromotionFacts.
Import Promotion Examples.

Section Storage.

Variable lib : pylib.
Variable load_file : string -> option ApiWorker.dataframe.

(** A promotion that leaves the job with data, on a job that had none,
    loaded the file once and wrote the data once. *)
Lemma promote_materialized t job job1 evs :
  pd_truthy (processed_data job) = false ->
  promote lib load_file t job = (job1, evs) ->
  pd_truthy (processed_data job1) = true ->
  exists rows, evs = [FileLoad (file_path job); DataWrite rows].
Proof.
  intros Hno Hp Hyes. destruct t as [importer edit|]; simpl in Hp.
  - unfold promote_api_job_for_editing in Hp. rewrite Hno in Hp.
    destruct (negb (truthy_str (file_path job))).
    { inversion Hp; subst. simpl in Hyes. congruence. }
    destruct (load_records lib load_file job importer) as [failed|rows] eqn:Hl.
    { inversion Hp; subst. unfold load_records in Hl.
      destruct (load_file (file_path job)) as [frame|].
      - destruct (ApiWorker.mapping_given job && meaningful _); [done|].
        destruct (ApiWorker.mapping_given job); [done|].
        destruct importer as [imp|]; [|done].
        destruct (check_headers lib job imp frame) as [[fj|]|] eqn:Hc;
          inversion Hl; subst; simpl in Hyes; try congruence.
        unfold check_headers in Hc.
        destruct (names_of _); simpl in Hc; [|done].
        destruct (names_of _); simpl in Hc; [|done].
        destruct (_ || _); inversion Hc; subst. simpl in Hyes. congruence.
      - inversion Hl; subst. simpl in Hyes. congruence. }
    destruct edit as [e|]; [|inversion Hp; eauto].
    destruct (apply_pending rows e) as [rows'|]; inversion Hp; subst; eauto.
    simpl in Hyes. congruence.
  - unfold promote_api_job_to_portal_managed in Hp. rewrite Hno in Hp.
    destruct (load_file (file_path job)); inversion Hp; subst; eauto.
    simpl in Hyes. congruence.
Qed.

(** C3: once a promotion has given the job its data, a second trigger
    returns the job as it is, loads no file and writes no data; over the two
    calls the file is loaded once and the data written once. *)
Theorem promotion_idempotent t1 t2 job job1 evs1 :
  pd_truthy (processed_data job) = false ->
  promote lib load_file t1 job = (job1, evs1) ->
  pd_truthy (processed_data job1) = true ->
  promote lib load_file t2 job1 = (job1, []) /\
  loads (evs1 ++ (promote lib load_file t2 job1).2) = 1%nat /\
  writes (evs1 ++ (promote lib load_file t2 job1).2) = 1%nat.
Proof.
  intros Hno Hp Hyes.
  assert (promote lib load_file t2 job1 = (job1, [])) as Hsecond.
  { destruct t2; simpl; unfold promote_api_job_for_editing,
      promote_api_job_to_portal_managed; by rewrite Hyes. }
  split; [done|]. rewrite Hsecond. simpl. rewrite app_nil_r.
  destruct (promote_materialized t1 job job1 evs1 Hno Hp Hyes) as [rows ->].
  done.
Qed.

End Storage.

Lemma promotion_idempotent_witness :
  let job := file_backed [] UNCOMPLETED in
  let job1 :=
    set_processed_data
      (mkPdata (Some [named "Ann"; named "Bob"]) ["first_edit"]) job in
  promote Reference.basic_lib contacts_file ToPortalManaged job1 = (job1, []) /\
  loads ((promote Reference.basic_lib contacts_file
            (ForEditing (Some contacts) (Some (mkPending 1 "name" "Bob")))
            job).2
         ++ (promote Reference.basic_lib contacts_file ToPortalManaged job1).2) = 1%nat /\
  writes ((promote Reference.basic_lib contacts_file
             (ForEditing (Some contacts) (Some (mkPending 1 "name" "Bob")))
             job).2
          ++ (promote Reference.basic_lib contacts_file ToPortalManaged job1).2) = 1%nat.
Proof.
  cbv zeta.
  apply (promotion_idempotent Reference.basic_lib contacts_file
           (ForEditing (Some contacts) (Some (mkPending 1 "name" "Bob")))
           ToPortalManaged (file_backed [] UNCOMPLETED)).
  - reflexivity.
  - vm_compute. reflexivity.
  - reflexivity.
Defined.

End PromotionFacts.

(** ** Facts about the worker of API imports *)

Module ApiWorkerFacts.
Import PyFacts LibFacts ApiWorker Properties Examples.

(** The exact matches, as the mapping they start the smart mapping with. *)
Lemma exact_mapping acc l :
  NoDup (acc.*1 ++ l) ->
  foldl (fun (m : list (string * string)) f => dict_set m f f) acc l
  = acc ++ ((fun f => (f, f)) <$> l).
Proof.
  revert acc. induction l as [|f l IH]; intros acc Hnd; simpl.
  - by rewrite app_nil_r.
  - apply NoDup_app in Hnd as (Ha & Hdisj & Hl).
    apply NoDup_cons in Hl as [Hf Hl].
    rewrite dict_set_fresh.
    + rewrite IH; [by rewrite <- app_assoc|].
      rewrite fmap_app. simpl. rewrite <- app_assoc. simpl.
      apply NoDup_app. split; [done|]. split; [|by constructor].
      done.
    + intros Hin. apply (Hdisj f Hin). left.
Qed.

(** What the fuzzy pass keeps: keys and columns without repeats, keys
    among the fields, columns among the headers. *)
Lemma fuzzy_matches_spec lib uf uh sm :
  NoDup (sm.*1 ++ uf) -> NoDup (sm.*2 ++ uh) ->
  let sm' := fuzzy_matches lib uf uh sm in
  NoDup sm'.*1 /\ NoDup sm'.*2 /\
  (forall f, f ∈ sm'.*1 -> f ∈ sm.*1 ++ uf) /\
  (forall h, h ∈ sm'.*2 -> h ∈ sm.*2 ++ uh) /\
  (forall f, f ∈ sm.*1 -> f ∈ sm'.*1).
Proof.
  revert uh sm. induction uf as [|f uf IH]; intros uh sm Hk Hv; simpl.
  - rewrite app_nil_r in Hk. apply NoDup_app in Hv as (Hv & _ & _).
    repeat split; try done. intros f Hf. by rewrite app_nil_r.
    intros h Hh. apply elem_of_app. by left.
  - apply NoDup_app in Hk as (Hk1 & Hk2 & Hk3).
    apply NoDup_cons in Hk3 as [Hf Huf].
    assert (f ∉ sm.*1) as Hfresh.
    { intros Hin. apply (Hk2 f Hin). left. }
    destruct (find _ (set_iter lib uh)) as [h|] eqn:Hfind.
    + apply find_some in Hfind as [Hh _].
      apply list_elem_of_In, set_iter_elem, list_elem_of_In in Hh.
      rewrite dict_set_fresh by done.
      apply NoDup_app in Hv as (Hv1 & Hv2 & Hv3).
      destruct (IH (filter (fun x => x <> h) uh) (sm ++ [(f, h)]))
        as (H1 & H2 & H3 & H4 & H5).
      * rewrite fmap_app. simpl. rewrite <- app_assoc. simpl.
        apply NoDup_app. split; [done|]. split; [|by constructor]. done.
      * rewrite fmap_app. simpl. rewrite <- app_assoc. simpl.
        apply NoDup_app. split; [done|]. split.
        -- intros x Hx Hx'. apply elem_of_cons in Hx' as [->|Hx'].
           ++ apply (Hv2 h Hx). by apply list_elem_of_In.
           ++ apply list_elem_of_filter in Hx' as [_ Hx'].
              by apply (Hv2 x Hx).
        -- apply NoDup_cons. split.
           ++ rewrite list_elem_of_filter. intros [Hne _]. done.
           ++ by apply NoDup_filter.
      * repeat split; try done.
        -- intros g Hg. apply H3 in Hg. rewrite fmap_app in Hg. simpl in Hg.
           rewrite <- app_assoc in Hg. done.
        -- intros x Hx. apply H4 in Hx. rewrite fmap_app in Hx. simpl in Hx.
           rewrite <- app_assoc in Hx. simpl in Hx.
           apply elem_of_app in Hx as [Hx|Hx]; [apply elem_of_app; by left|].
           apply elem_of_app. right.
           apply elem_of_cons in Hx as [->|Hx]; [by apply list_elem_of_In|].
           by apply list_elem_of_filter in Hx as [_ Hx].
        -- intros g Hg. apply H5. rewrite fmap_app. apply elem_of_app. by left.
    + destruct (IH uh sm) as (H1 & H2 & H3 & H4 & H5).
      * apply NoDup_app. split; [done|]. split; [|done].
        intros x Hx Hx'. apply (Hk2 x Hx). by right.
      * done.
      * repeat split; try done.
        intros g Hg. apply H3 in Hg.
        apply elem_of_app in Hg as [Hg|Hg]; apply elem_of_app; [by left|].
        right. by right.
Qed.

Lemma set_minus_nil a b : set_minus a b = [] <-> forall x, x ∈ a -> x ∈ b.
Proof.
  unfold set_minus. rewrite filter_nil_iff. split; intros H x Hx.
  - destruct (decide (x ∈ b)); [done|]. exfalso. by apply (H x).
  - intros Hn. apply Hn. by apply H.
Qed.


Lemma smart_mapping_spec lib names csv :
  NoDup names -> NoDup csv ->
  let sm := smart_mapping lib names csv in
  NoDup sm.*1 /\ NoDup sm.*2 /\
  (forall f, f ∈ sm.*1 -> f ∈ names) /\
  (forall h, h ∈ sm.*2 -> h ∈ csv) /\
  (forall f, f ∈ names -> f ∈ csv -> f ∈ sm.*1).
Proof.
  intros Hn Hc. unfold smart_mapping.
  set (em := set_inter csv names).
  assert (NoDup em) as Hem by (by apply NoDup_filter).
  assert (NoDup (set_iter lib em)) as Hem' by (by apply set_iter_NoDup).
  rewrite (exact_mapping [] (set_iter lib em)) by done. simpl.
  set (exact := (fun f => (f, f)) <$> set_iter lib em).
  assert (exact.*1 = set_iter lib em) as Hk.
  { unfold exact. rewrite <- list_fmap_compose. apply list_fmap_id. }
  assert (exact.*2 = set_iter lib em) as Hv.
  { unfold exact. rewrite <- list_fmap_compose. apply list_fmap_id. }
  destruct (fuzzy_matches_spec lib (set_iter lib (set_minus names em))
              (set_minus csv em) exact)
    as (H1 & H2 & H3 & H4 & H5).
  - rewrite Hk. apply NoDup_app. split; [done|].
    split; [|by apply set_iter_NoDup, NoDup_filter].
    intros x Hx Hx'. apply set_iter_elem in Hx, Hx'.
    by apply list_elem_of_filter in Hx' as [Hx' _].
  - rewrite Hv. apply NoDup_app. split; [done|]. split; [|by apply NoDup_filter].
    intros x Hx Hx'. apply set_iter_elem in Hx.
    by apply list_elem_of_filter in Hx' as [Hx' _].
  - repeat split; try done.
    + intros f Hf. apply H3 in Hf. rewrite Hk in Hf.
      apply elem_of_app in Hf as [Hf|Hf]; apply set_iter_elem in Hf;
        apply list_elem_of_filter in Hf as [Hf Hf']; done.
    + intros h Hh. apply H4 in Hh. rewrite Hv in Hh.
      apply elem_of_app in Hh as [Hh|Hh]; [apply set_iter_elem in Hh|];
        apply list_elem_of_filter in Hh as [Hh Hh']; done.
    + intros f Hf Hf'. apply H5. rewrite Hk.
      apply set_iter_elem. by apply list_elem_of_filter.
Qed.









End ApiWorkerFacts.

(** ** Facts about the rows of a webhook *)

Module WebhookFacts.
Import PyFacts ApiWorker ImportService Properties Examples.

Lemma error_row_indices_rows errors acc :
  existsb is_header errors = false ->
  error_row_indices errors acc = (false, acc ++ error_indices errors).
Proof.
  unfold error_indices. revert acc.
  induction errors as [|e errors IH]; intros acc H; simpl.
  - by rewrite app_nil_r.
  - simpl in H. apply orb_false_iff in H as [He H].
    unfold is_header in He. apply bool_decide_eq_false in He.
    destruct (c_row e) as [[|n]|]; [done| |by apply IH].
    rewrite IH by done. simpl. by rewrite <- app_assoc.
Qed.

Lemma rows_in_nil_false rows : rows_in [] false rows = rows.
Proof.
  unfold rows_in. rewrite filter_all; [apply enumerate_values|].
  intros p _. apply bool_decide_eq_false. apply not_elem_of_nil.
Qed.

Lemma rows_in_nil_true rows : rows_in [] true rows = [].
Proof.
  unfold rows_in. rewrite (proj2 (filter_nil_iff _ _)); [done|].
  intros p _ Hp. apply bool_decide_eq_true in Hp. by apply elem_of_nil in Hp.
Qed.

(** The frames of the worker: no valid row under a structural conflict,
    else the rows with a conflict against the others. *)
Lemma worker_separation errors rows :
  webhook_frames errors rows
  = if existsb is_header errors then ([], rows)
    else (rows_in (error_indices errors) false rows,
          rows_in (error_indices errors) true rows).
Proof.
  unfold webhook_frames.
  destruct (existsb is_header errors) eqn:Hh; [done|].
  rewrite error_row_indices_rows by done. simpl.
  destruct (error_indices errors); [|done].
  by rewrite rows_in_nil_false, rows_in_nil_true.
Qed.

(** The frames of a webhook sent again: the rows with a conflict against
    the others, whatever structural conflicts there are. *)
Lemma resend_separation errs rows :
  separate errs rows
  = (rows_in (error_indices (default [] errs)) false rows,
     rows_in (error_indices (default [] errs)) true rows).
Proof.
  unfold separate. fold (error_indices (default [] errs)).
  destruct (error_indices _); [|done].
  by rewrite rows_in_nil_false, rows_in_nil_true.
Qed.

(** A row is in the frame of the error rows exactly when its 1-based index
    is the row of a conflict. *)
Lemma error_index_row errors (i : nat) :
  Z.of_nat i ∈ error_indices errors <-> Z.of_nat i + 1 ∈ numbered_rows errors.
Proof.
  unfold error_indices. rewrite list_elem_of_fmap. split.
  - intros (n & Hn & Hin). by replace (Z.of_nat i + 1) with n by lia.
  - intros Hin. exists (Z.of_nat i + 1). split; [lia|done].
Qed.

Lemma rows_in_elem indices keep rows row :
  row ∈ rows_in indices keep rows <->
  exists i : nat, rows !! i = Some row /\
    bool_decide (Z.of_nat i ∈ indices) = keep.
Proof.
  unfold rows_in. rewrite list_elem_of_fmap. split.
  - intros ([i r] & -> & Hin). apply list_elem_of_filter in Hin as [Hk Hin].
    apply list_elem_of_lookup in Hin as [n Hn]. unfold enumerate in Hn.
    rewrite list_lookup_imap in Hn.
    destruct (rows !! n) eqn:E; simpl in Hn; inversion Hn; subst. eauto.
  - intros (i & Hi & Hk). exists (i, row). split; [done|].
    apply list_elem_of_filter. split; [done|].
    apply list_elem_of_lookup. exists i. unfold enumerate.
    rewrite list_lookup_imap, Hi. done.
Qed.

(** C8: a job of the API on a file of two rows, the second without its
    required name.  The worker gives the second row a conflict and hands
    the webhook the first row as valid and the second as invalid.  Once the
    job is promoted, a webhook sent again by [resend_webhook] goes through
    [send_webhook_for_portal_import]: it carries both rows as valid data and
    no error row, while its counts still say one valid row and one error
    row. *)
Theorem resend_after_promotion_keeps_error_rows :
  let worked :=
    process_api_import Reference.basic_lib Samples.fresh_contacts
      (Some notifying) (Some Samples.contacts_frame) in
  let job :=
    (Promotion.promote Reference.basic_lib contacts_file
       Promotion.ToPortalManaged (job_done worked)).1 in
  let conflict := ApiWorker.cell_error 1 "name" "" "name is required" in
  frames worked = Some (["name"], [["Ann"]], [[""]]) /\
  status job = UNCOMPLETED /\
  errors job = Some [conflict] /\
  numbered_rows [conflict] = [2] /\
  existsb is_header [conflict] = false /\
  Imports.stored_data job = [named "Ann"; named ""] /\
  Endpoints.resend_webhook job (Some notifying) None
  = (200, Some (FromRecords
                  (mkRecordPayload 2 1 1 [named "Ann"; named ""] []))).
Proof. vm_compute. repeat split; reflexivity. Qed.

End WebhookFacts.

(** ** Facts about the number validators *)

Module NumberFacts.
Import Stdlib.Strings.Ascii PyFacts PyStr PyFloat Properties.

Lemma le_zero_positive x : x <> FNan -> le_zero x = false <-> positive x.
Proof.
  destruct x as [|neg|m e]; [done| |]; intros _; simpl.
  - by destruct neg.
  - rewrite negb_false_iff. destruct (0 <=? e) eqn:He.
    + apply Z.leb_le in He. rewrite Z.ltb_lt.
      assert (0 < 2 ^ e) by (by apply Z.pow_pos_nonneg). nia.
    + rewrite Z.ltb_lt. lia.
Qed.

Lemma ge_zero_negative x : x <> FNan -> ge_zero x = false <-> negative x.
Proof.
  destruct x as [|neg|m e]; [done| |]; intros _; simpl.
  - by destruct neg.
  - rewrite negb_false_iff. destruct (0 <=? e) eqn:He.
    + apply Z.leb_le in He. rewrite Z.ltb_lt.
      assert (0 < 2 ^ e) by (by apply Z.pow_pos_nonneg). nia.
    + rewrite Z.ltb_lt. lia.
Qed.

Lemma is_str_eq v s : is_str v s = true <-> v = PStr s.
Proof.
  destruct v; simpl; try (split; [discriminate|congruence]).
  rewrite String.eqb_eq. split; congruence.
Qed.

(** The sign rules on a parsed number that is not NaN. *)
Lemma sign_rules x (sign : pyval) :
  x <> FNan ->
  (if is_str sign "positive" && le_zero x then false
   else if is_str sign "negative" && ge_zero x then false else true) = true <->
  (sign = PStr "positive" -> positive x) /\
  (sign = PStr "negative" -> negative x).
Proof.
  intros Hx.
  pose proof (le_zero_positive x Hx) as Hp.
  pose proof (ge_zero_negative x Hx) as Hn.
  destruct (is_str sign "positive") eqn:E1.
  - apply is_str_eq in E1. subst sign. simpl.
    destruct (le_zero x); split; try done.
    + intros [H _]. specialize (H eq_refl). apply Hp in H. done.
    + intros _. split; [intros _; by apply Hp|done].
  - simpl. destruct (is_str sign "negative") eqn:E2.
    + apply is_str_eq in E2. subst sign. simpl.
      destruct (ge_zero x); split; try done.
      * intros [_ H]. specialize (H eq_refl). apply Hn in H. done.
      * intros _. split; [done|intros _; by apply Hn].
    + simpl. split; [|done]. intros _. split; intros ->; done.
Qed.

(** The worker's number validator returns, and takes a value exactly when
    it is admissible. *)
Lemma worker_number lib value rules field_type :
  (exists r, Validator.validate_number lib value rules field_type = Ok r) /\
  (Validator.validate_number lib value rules field_type = Ok None <->
   admissible lib value
     (String.eqb field_type "integer" || is_str (dget rules "subtype") "integer")
     (py_or (dget rules "validation_format") (dget rules "sign"))).
Proof.
  unfold Validator.validate_number, admissible.
  destruct (contains_char "@" value).
  { split; [eauto|]. split; [done|]. by intros (? & _). }
  destruct (startswith "http://" value).
  { split; [eauto|]. split; [done|]. by intros (_ & ? & _). }
  destruct (startswith "https://" value).
  { split; [eauto|]. split; [done|]. by intros (_ & _ & ? & _). }
  simpl. destruct (py_float lib value) as [x|].
  2:{ split; [eauto|]. split; [done|]. by intros (_ & _ & _ & x & ? & _). }
  destruct (isnan x) eqn:Hnan.
  { destruct x; try done. split; [eauto|]. split; [done|].
    intros (_ & _ & _ & y & [= <-] & ? & _). done. }
  assert (x <> FNan) as Hx by (by destruct x).
  set (whole := String.eqb field_type "integer" || _).
  set (sign := py_or _ _).
  pose proof (sign_rules x sign Hx) as Hs.
  assert ((if is_str sign "positive" && le_zero x
           then Ok (Some "Must be a positive number")
           else if is_str sign "negative" && ge_zero x
                then Ok (Some "Must be a negative number")
                else Ok None) = Ok None <->
          (sign = PStr "positive" -> positive x) /\
          (sign = PStr "negative" -> negative x)) as Hsign.
  { rewrite <- Hs.
    destruct (is_str sign "positive" && le_zero x); [done|].
    by destruct (is_str sign "negative" && ge_zero x). }
  assert (exists r,
            (if is_str sign "positive" && le_zero x
             then Ok (Some "Must be a positive number")
             else if is_str sign "negative" && ge_zero x
                  then Ok (Some "Must be a negative number")
                  else Ok None) = Ok r) as Hret.
  { destruct (is_str sign "positive" && le_zero x); [eauto|].
    destruct (is_str sign "negative" && ge_zero x); eauto. }
  destruct whole; simpl.
  - destruct (is_integer x) eqn:Hint; simpl.
    + split; [done|]. rewrite Hsign. split.
      * intros [Hp Hn]. repeat split; try done. exists x. repeat split; done.
      * by intros (_ & _ & _ & y & [= <-] & _ & _ & Hp & Hn).
    + split; [eauto|]. split; [done|].
      intros (_ & _ & _ & y & [= <-] & _ & Hw & _).
      specialize (Hw eq_refl). congruence.
  - split; [done|]. rewrite Hsign. split.
    + intros [Hp Hn]. repeat split; try done. exists x. repeat split; done.
    + by intros (_ & _ & _ & y & [= <-] & _ & _ & Hp & Hn).
Qed.

(** The portal's number validator takes the empty value; a value it takes
    otherwise is admissible once trimmed, whatever the bounds of the
    field; and for a field without bounds it takes exactly those. *)
Lemma portal_number lib value name field_type min_value max_value extra_rules :
  ValidationService.is_empty value = false ->
  let str_value := py_strip lib (py_str value) in
  (ValidationService.validate_number lib value name field_type min_value
     max_value extra_rules = Ok None ->
   exists sign,
     ValidationService.sign_rule lib extra_rules = Ok sign /\
     admissible lib str_value (String.eqb field_type "integer")
       (portal_sign sign)) /\
  (forall sign,
     ValidationService.sign_rule lib extra_rules = Ok sign ->
     min_value = PNone -> max_value = PNone ->
     (ValidationService.validate_number lib value name field_type min_value
        max_value extra_rules = Ok None <->
      admissible lib str_value (String.eqb field_type "integer")
        (portal_sign sign))).
Proof.
  intros Hne str_value.
  unfold ValidationService.validate_number, admissible. rewrite Hne.
  fold str_value.
  destruct (contains_char "@" str_value).
  { split; [done|]. intros sign _ _ _. split; [done|by intros (? & _)]. }
  destruct (startswith "http://" str_value).
  { split; [done|]. intros sign _ _ _. split; [done|by intros (_ & ? & _)]. }
  destruct (startswith "https://" str_value).
  { split; [done|]. intros sign _ _ _.
    split; [done|by intros (_ & _ & ? & _)]. }
  simpl. destruct (py_float lib str_value) as [x|].
  2:{ split; [done|]. intros sign _ _ _.
      split; [done|by intros (_ & _ & _ & x & ? & _)]. }
  destruct (isnan x) eqn:Hnan.
  { destruct x; try done. split; [done|]. intros sign _ _ _.
    split; [done|]. by intros (_ & _ & _ & y & [= <-] & ? & _). }
  assert (x <> FNan) as Hx by (by destruct x).
  destruct (String.eqb field_type "integer" && negb (is_integer x)) eqn:Hw.
  { split; [done|]. intros sign _ _ _. split; [done|].
    intros (_ & _ & _ & y & [= <-] & _ & Hi & _).
    apply andb_true_iff in Hw as [Hw1 Hw2]. specialize (Hi Hw1).
    rewrite Hi in Hw2. done. }
  assert (String.eqb field_type "integer" = true -> is_integer x = true) as Hi.
  { intros E. rewrite E in Hw. simpl in Hw. by apply negb_false_iff in Hw. }
  assert (forall sign,
            match sign with
            | Some s =>
                if String.eqb s "positive" && le_zero x
                then Ok (Some (py_format name +:+ " must be a positive number"))
                else if String.eqb s "negative" && ge_zero x
                     then Ok (Some (py_format name
                                    +:+ " must be a negative number"))
                     else Ok None
            | None => Ok None
            end = Ok None <->
            (portal_sign sign = PStr "positive" -> positive x) /\
            (portal_sign sign = PStr "negative" -> negative x)) as Hsign.
  { intros [s|]; simpl; [|split; [by intros _; split|done]].
    pose proof (sign_rules x (PStr s) Hx) as Hs. simpl in Hs.
    rewrite <- Hs.
    destruct (String.eqb s "positive" && le_zero x); [done|].
    by destruct (String.eqb s "negative" && ge_zero x). }
  split.
  - intros H.
    apply bind_Ok in H as (below & _ & H). destruct below; [done|].
    apply bind_Ok in H as (above & _ & H). destruct above; [done|].
    apply bind_Ok in H as (sign & Hsg & H).
    exists sign. split; [done|]. repeat split; try done.
    exists x. apply Hsign in H as [Hp Hn]. repeat split; done.
  - intros sign Hsg -> ->. simpl. rewrite Hsg. simpl. rewrite Hsign. split.
    + intros [Hp Hn]. repeat split; try done. exists x. repeat split; done.
    + by intros (_ & _ & _ & y & [= <-] & _ & _ & Hp & Hn).
Qed.

(** C6: the worker's number validator returns, and takes a value exactly
    when it has no [@], does not start with [http://] or [https://], is
    read by [float] as a number that is not NaN, is whole where the field
    asks for it, and is greater than 0 under the positive sign, less than 0
    under the negative sign; its sign rule is the rule [validation_format]
    when there is one, else the rule [sign].  The portal's validator takes
    the empty value; what it takes otherwise is such a value once trimmed,
    under the sign rule of the extra rules in lower case; and for a field
    without bounds it takes every such value.  An infinity is read by
    [float] and is not NaN: both take it. *)
Theorem number_acceptance lib :
  (forall value rules field_type,
     (exists r, Validator.validate_number lib value rules field_type = Ok r) /\
     (Validator.validate_number lib value rules field_type = Ok None <->
      admissible lib value
        (String.eqb field_type "integer"
         || is_str (dget rules "subtype") "integer")
        (py_or (dget rules "validation_format") (dget rules "sign")))) /\
  (forall value name field_type min_value max_value extra_rules,
     (ValidationService.is_empty value = true ->
      ValidationService.validate_number lib value name field_type min_value
        max_value extra_rules = Ok None) /\
     (ValidationService.is_empty value = false ->
      let str_value := py_strip lib (py_str value) in
      (ValidationService.validate_number lib value name field_type min_value
         max_value extra_rules = Ok None ->
       exists sign,
         ValidationService.sign_rule lib extra_rules = Ok sign /\
         admissible lib str_value (String.eqb field_type "integer")
           (portal_sign sign)) /\
      (forall sign,
         ValidationService.sign_rule lib extra_rules = Ok sign ->
         min_value = PNone -> max_value = PNone ->
         (ValidationService.validate_number lib value name field_type
            min_value max_value extra_rules = Ok None <->
          admissible lib str_value (String.eqb field_type "integer")
            (portal_sign sign))))).
Proof.
  split; [apply worker_number|].
  intros value name field_type min_value max_value extra_rules. split.
  - intros He. unfold ValidationService.validate_number. by rewrite He.
  - apply portal_number.
Qed.

(** The number 12.5 under the positive sign, in both validators. *)
Lemma number_acceptance_witness :
  admissible Reference.basic_lib "12.5" false (PStr "positive") /\
  Validator.validate_number Reference.basic_lib "12.5"
    [("sign", PStr "positive")] "number" = Ok None /\
  ValidationService.validate_number Reference.basic_lib (CStr " 12.5 ")
    (PStr "amount") "number" PNone PNone (PDict [("sign", PStr "Positive")])
  = Ok None.
Proof.
  pose proof (number_acceptance Reference.basic_lib) as [Hw Hp].
  assert (admissible Reference.basic_lib "12.5" false (PStr "positive")) as Ha.
  { apply (proj2 (Hw "12.5" [("sign", PStr "positive")] "number")).
    vm_compute. reflexivity. }
  split; [exact Ha|]. split.
  - apply (proj2 (Hw "12.5" [("sign", PStr "positive")] "number")). exact Ha.
  - destruct (Hp (CStr " 12.5 ") (PStr "amount") "number" PNone PNone
                (PDict [("sign", PStr "Positive")])) as [_ Hq].
    destruct (Hq eq_refl) as [_ Hiff].
    apply (Hiff (Some "positive")); [reflexivity|reflexivity|reflexivity|].
    exact Ha.
Defined.

(** The positive infinity, spelled out or as an overflow, passes the
    positive sign rule of both validators; and in the worker a rule
    [validation_format] overrides the rule [sign]: under it a number below
    0 passes the positive sign rule. *)
Lemma infinity_is_accepted :
  py_float Reference.basic_lib "inf" = Some (FInf false) /\
  py_float Reference.basic_lib "1e999" = Some (FInf false) /\
  Validator.validate_number Reference.basic_lib "inf"
    [("sign", PStr "positive")] "number" = Ok None /\
  Validator.validate_number Reference.basic_lib "1e999" [] "number"
    = Ok None /\
  ValidationService.validate_number Reference.basic_lib (CStr "inf")
    (PStr "amount") "number" PNone PNone (PDict [("sign", PStr "positive")])
    = Ok None /\
  ValidationService.validate_number Reference.basic_lib (CStr "-Infinity")
    (PStr "amount") "number" PNone PNone (PDict [("sign", PStr "negative")])
    = Ok None /\
  Validator.validate_number Reference.basic_lib "-5"
    [("validation_format", PStr "any"); ("sign", PStr "positive")] "number"
    = Ok None.
Proof. vm_compute. repeat split; reflexivity. Qed.

End NumberFacts.

(** ** Facts about the field validator of the worker *)

Module ValidatorFacts.
Import Validator Properties Examples.

(** C10: for a value that has a truth value (a scalar or any object other
    than a [Series]) and a field whose type is a string or another scalar,
    or is missing, [validate_field] returns for every library: [None] or a
    message.  A type without a validator gives the required check alone,
    and an exception of the validator of the type gives the fixed
    message. *)
Theorem validate_field_total lib (value : Validator.value) field_config :
  hashable (dget field_config "type") ->
  (forall cells, value <> Series cells) ->
  (exists r, validate_field lib value field_config = Ok r) /\
  (lookup_validator lib (dget field_config "type") = Ok None ->
   validate_field lib value field_config
   = Ok (if truthy (dget field_config "required") && blank lib value
         then Some (py_format (default (PStr "Field")
                                 (dict_get field_config "name"))
                    +:+ " is required")
         else None)) /\
  (forall fn e,
     lookup_validator lib (dget field_config "type") = Ok (Some fn) ->
     blank lib value = false ->
     fn (py_strip lib (text_of value)) (merged_rules field_config)
        (match dget field_config "type" with PStr t => t | _ => "" end)
       = Raise e ->
     validate_field lib value field_config = Ok (Some internal_error)).
Proof.
  intros Hh Hvalue.
  assert (validate_field lib value field_config
          = validate_checked lib (blank lib value) (text_of value) field_config)
    as ->.
  { destruct value as [c|cells|truth text]; [done| |done].
    by destruct (Hvalue cells). }
  unfold validate_checked.
  destruct (truthy (dget field_config "required") && blank lib value)
    eqn:Hreq.
  { split; [eauto|]. split; [done|]. intros fn e _ Hb.
    apply andb_true_iff in Hreq as [_ Hreq]. congruence. }
  destruct (blank lib value) eqn:Hb.
  { split; [eauto|]. split; [done|]. done. }
  destruct (lookup_validator lib (dget field_config "type")) as [[fn|]|ex] eqn:Hl;
    simpl.
  - split; [|split; [done|]].
    + destruct (fn _ _ _); eauto.
    + intros fn' e [= <-] _ Hfn. by rewrite Hfn.
  - split; [eauto|]. split; done.
  - exfalso. unfold lookup_validator in Hl.
    by destruct (dget field_config "type").
Qed.

(** The phone validator raises on every value. *)
Lemma validate_field_total_witness :
  validate_field Reference.basic_lib (CStr "555 0100") phone_field
  = Ok (Some internal_error).
Proof.
  eapply (proj2 (proj2 (validate_field_total Reference.basic_lib
                          (Scalar (CStr "555 0100")) phone_field I
                          ltac:(discriminate)))).
  - reflexivity.
  - reflexivity.
  - reflexivity.
Defined.

(** Where [validate_field] raises.  A type that is a list: [TypeError], at
    the lookup of the validator.  A value that is a [Series]: the worker
    passes one when the column mapping of the job renames a column of the
    file onto the name of another; [not value] raises [ValueError], and the
    job is FAILED.  Rules that are not an object do not make the value
    valid: they are left out and the value is still checked; a type without
    a validator still gets the required check. *)
Lemma validate_field_raises :
  validate_field Reference.basic_lib (CStr "1") list_typed_field
    = Raise TypeError /\
  (let job := set_column_mapping [("name", "Full Name")] unmapped in
   let frame := ApiWorker.mkDf ["name"; "Full Name"] [["Ann"; "Bob"]] in
   ApiWorker.renamed_columns job (ApiWorker.df_columns frame)
     = ["name"; "name"] /\
   ApiWorker.row_value ["name"; "name"] ["Ann"; "Bob"] "name"
     = Ok (Series [CStr "Ann"; CStr "Bob"]) /\
   validate_field Reference.basic_lib (Series [CStr "Ann"; CStr "Bob"])
     name_field = Raise ValueError /\
   status (ApiWorker.job_done
             (ApiWorker.process_api_import Reference.basic_lib job
                (Some contacts) (Some frame)))
     = FAILED) /\
  validate_field Reference.basic_lib (CStr "abc") loose_email_field
    = Ok (Some "Must be a valid email address") /\
  validate_field Reference.basic_lib (CStr "") barcode_field
    = Ok (Some "code is required").
Proof. vm_compute. repeat split; reflexivity. Qed.

End ValidatorFacts.

(** ** Facts about the date validators *)

Module DateFacts.
Import Stdlib.Strings.Ascii PyFacts LibFacts PyStr Strptime Properties.

(** *** [strptime] on the groups of a match *)

Lemma digit_cases c :
  is_digit c = true ->
  c ∈ ["0"; "1"; "2"; "3"; "4"; "5"; "6"; "7"; "8"; "9"]%char.
Proof.
  destruct c as [[] [] [] [] [] [] [] []]; intros H; try discriminate H;
    clear H; set_solver.
Qed.

Lemma short_cases a :
  short a ->
  (exists x, x ∈ ["0"; "1"; "2"; "3"; "4"; "5"; "6"; "7"; "8"; "9"]%char /\ a = [x]) \/
  (exists x y, x ∈ ["0"; "1"; "2"; "3"; "4"; "5"; "6"; "7"; "8"; "9"]%char /\
     y ∈ ["0"; "1"; "2"; "3"; "4"; "5"; "6"; "7"; "8"; "9"]%char /\ a = [x; y]).
Proof.
  intros [Hd Hl]. destruct a as [|x [|y [|z a]]]; simpl in Hl; try lia.
  - left. exists x. split; [|done]. apply digit_cases.
    by apply Forall_cons in Hd as [? _].
  - right. exists x, y. apply Forall_cons in Hd as [Hx Hd].
    apply Forall_cons in Hd as [Hy _]. split; [by apply digit_cases|].
    split; [by apply digit_cases|done].
Qed.

Ltac each_digit H :=
  repeat (apply elem_of_cons in H as [->|H]); [..|by apply elem_of_nil in H].

Ltac run_case fmt' :=
  cbn [run alternatives app]; generalize (run fmt'); intros k; vm_compute;
  try reflexivity; by destruct (k _ _).

Lemma run_month sep fmt' a rest acc :
  short a -> sep = "/"%char \/ sep = "-"%char ->
  run (Dm :: Lit sep :: fmt') (a ++ sep :: rest) acc
  = if (1 <=? number a) && (number a <=? 12)
    then run fmt' rest (store Dm a acc) else None.
Proof.
  intros Ha Hsep. apply short_cases in Ha as [(x & Hx & ->)|(x & y & Hx & Hy & ->)].
  - each_digit Hx; destruct Hsep as [-> | ->]; run_case fmt'.
  - each_digit Hx; each_digit Hy; destruct Hsep as [-> | ->]; run_case fmt'.
Qed.

Lemma run_day fmt' a rest acc :
  short a ->
  run (Dd :: Lit "/" :: fmt') (a ++ "/"%char :: rest) acc
  = if (1 <=? number a) && (number a <=? 31)
    then run fmt' rest (store Dd a acc) else None.
Proof.
  intros Ha. apply short_cases in Ha as [(x & Hx & ->)|(x & y & Hx & Hy & ->)].
  - each_digit Hx; run_case fmt'.
  - each_digit Hx; each_digit Hy; run_case fmt'.
Qed.

(** The day at the end of the data: what is left over makes [strptime]
    fail. *)
Lemma run_day_end a acc :
  short a ->
  match run [Dd] a acc with
  | Some (f, []) => Some f
  | _ => None
  end
  = if (1 <=? number a) && (number a <=? 31)
    then Some (store Dd a acc) else None.
Proof.
  intros Ha. apply short_cases in Ha as [(x & Hx & ->)|(x & y & Hx & Hy & ->)].
  - each_digit Hx; vm_compute; reflexivity.
  - each_digit Hx; each_digit Hy; vm_compute; reflexivity.
Qed.

Lemma four_cases c :
  four c ->
  exists w x y z, c = [w; x; y; z] /\ is_digit w = true /\ is_digit x = true /\
    is_digit y = true /\ is_digit z = true.
Proof.
  intros [Hd Hl]. destruct c as [|w [|x [|y [|z [|]]]]]; simpl in Hl; try lia.
  exists w, x, y, z. split; [done|].
  repeat (apply Forall_cons in Hd as [? Hd]). done.
Qed.

Lemma run_year sep fmt' c rest acc :
  four c ->
  run (DY :: Lit sep :: fmt') (c ++ sep :: rest) acc
  = run fmt' rest (store DY c acc).
Proof.
  intros Hc. apply four_cases in Hc as (w & x & y & z & -> & Hw & Hx & Hy & Hz).
  cbn [run alternatives app take]. rewrite Hw, Hx, Hy, Hz.
  cbn [fst snd take]. unfold is_char. rewrite Ascii.eqb_refl.
  cbn [fst snd store]. by destruct (run fmt' rest _).
Qed.

Lemma run_year_end c acc :
  four c -> run [DY] c acc = Some (store DY c acc, []).
Proof.
  intros Hc. apply four_cases in Hc as (w & x & y & z & -> & Hw & Hx & Hy & Hz).
  cbn [run alternatives app take]. rewrite Hw, Hx, Hy, Hz. reflexivity.
Qed.

Lemma filter_digits a :
  digits a -> filter (fun c => is_digit c = true) a = a.
Proof.
  intros Ha. apply filter_all. intros x Hx.
  unfold digits in Ha. rewrite Forall_forall in Ha. by apply Ha.
Qed.

Lemma store_digits d a acc :
  digits a ->
  store d a acc
  = match d with
    | DY => mkFields (number a) (month acc) (day acc) (hour acc) (minute acc)
              (second acc)
    | Dm => mkFields (year acc) (number a) (day acc) (hour acc) (minute acc)
              (second acc)
    | Dd => mkFields (year acc) (month acc) (number a) (hour acc) (minute acc)
              (second acc)
    | DH => mkFields (year acc) (month acc) (day acc) (number a) (minute acc)
              (second acc)
    | DM => mkFields (year acc) (month acc) (day acc) (hour acc) (number a)
              (second acc)
    | DS => mkFields (year acc) (month acc) (day acc) (hour acc) (minute acc)
              (number a)
    | Lit _ | Spaces => acc
    end.
Proof.
  intros Ha. unfold store, number.
  rewrite (filter_all (fun c => is_digit c = true) a); [done|].
  intros x Hx. unfold digits in Ha. rewrite Forall_forall in Ha. by apply Ha.
Qed.

Lemma is_leap_year y : is_leap y = true <-> leap_year y.
Proof.
  unfold is_leap, leap_year.
  rewrite andb_true_iff, orb_true_iff, negb_true_iff, !Z.eqb_eq, Z.eqb_neq.
  done.
Qed.

(** The month lengths of [strptime] are those of the calendar. *)
Lemma days_in_month_length y m :
  1 <= m <= 12 -> days_in_month y m = month_length y m.
Proof.
  intros Hm. unfold days_in_month, month_length.
  pose proof (is_leap_year y) as Hl.
  assert (m = 1 \/ m = 2 \/ m = 3 \/ m = 4 \/ m = 5 \/ m = 6 \/ m = 7 \/
          m = 8 \/ m = 9 \/ m = 10 \/ m = 11 \/ m = 12) as Hcases by lia.
  repeat (destruct Hcases as [->|Hcases]); try subst m; simpl; try reflexivity.
  destruct (is_leap y), (decide (leap_year y)); try reflexivity.
  - exfalso. by apply n, Hl.
  - exfalso. by apply Hl in l.
Qed.

Lemma month_length_le y m : month_length y m <= 31.
Proof.
  unfold month_length.
  destruct m as [|[[[[]|[]|]|[[]|[]|]|]|[[[]|[]|]|[[]|[]|]|]|]|]; try lia;
    destruct (decide (leap_year y)); lia.
Qed.

Lemma is_datetime_date y m d :
  is_datetime (mkFields y m d 0 0 0) = true <-> real_date y m d.
Proof.
  unfold is_datetime, real_date. simpl.
  rewrite !andb_true_iff, !Z.leb_le. split.
  - intros H. rewrite <- days_in_month_length by lia. lia.
  - intros H. rewrite days_in_month_length by lia. lia.
Qed.

Lemma number_four c : four c -> 0 <= number c.
Proof.
  intros Hc. apply four_cases in Hc as (w & x & y & z & -> & Hw & Hx & Hy & Hz).
  apply digit_cases in Hw, Hx, Hy, Hz. unfold number, int_of_digits. simpl.
  assert (forall c, c ∈ ["0"; "1"; "2"; "3"; "4"; "5"; "6"; "7"; "8"; "9"]%char ->
            0 <= digit_val c <= 9) as Hdv.
  { intros c Hc. each_digit Hc; unfold digit_val, code; simpl; lia. }
  apply Hdv in Hw, Hx, Hy, Hz. lia.
Qed.

(** [strptime] on the groups of a match, for the four declared formats. *)
Lemma strptime_mdY a b c :
  short a -> short b -> four c ->
  strptime (text a +:+ "/" +:+ text b +:+ "/" +:+ text c) fmt_mdY = true <->
  real_date (number c) (number a) (number b).
Proof.
  intros Ha Hb Hc. unfold strptime, fmt_mdY.
  rewrite !chars_app, !chars_text. change (chars "/") with ["/"%char].
  cbn [app]. rewrite run_month by (done || by left).
  destruct ((1 <=? number a) && (number a <=? 12)) eqn:Hm.
  - rewrite run_day by done.
    destruct ((1 <=? number b) && (number b <=? 31)) eqn:Hd.
    + rewrite run_year_end by done.
      rewrite !store_digits by (apply Ha || apply Hb || apply Hc).
      simpl. apply is_datetime_date.
    + split; [done|]. intros (_ & _ & H1 & H2).
      pose proof (month_length_le (number c) (number a)).
      apply andb_false_iff in Hd as [Hd|Hd];
        [apply Z.leb_gt in Hd|apply Z.leb_gt in Hd]; lia.
  - split; [done|]. intros (_ & [H1 H2] & _).
    apply andb_false_iff in Hm as [Hm|Hm]; apply Z.leb_gt in Hm; lia.
Qed.

Lemma strptime_dmY a b c :
  short a -> short b -> four c ->
  strptime (text a +:+ "/" +:+ text b +:+ "/" +:+ text c) fmt_dmY = true <->
  real_date (number c) (number b) (number a).
Proof.
  intros Ha Hb Hc. unfold strptime, fmt_dmY.
  rewrite !chars_app, !chars_text. change (chars "/") with ["/"%char].
  cbn [app]. rewrite run_day by done.
  destruct ((1 <=? number a) && (number a <=? 31)) eqn:Hd.
  - rewrite run_month by (done || by left).
    destruct ((1 <=? number b) && (number b <=? 12)) eqn:Hm.
    + rewrite run_year_end by done.
      rewrite !store_digits by (apply Ha || apply Hb || apply Hc).
      simpl. apply is_datetime_date.
    + split; [done|]. intros (_ & [H1 H2] & _).
      apply andb_false_iff in Hm as [Hm|Hm]; apply Z.leb_gt in Hm; lia.
  - split; [done|]. intros (_ & _ & H1 & H2).
    pose proof (month_length_le (number c) (number b)).
    apply andb_false_iff in Hd as [Hd|Hd]; apply Z.leb_gt in Hd; lia.
Qed.

Lemma strptime_Ymd (sep : ascii) a b c :
  sep = "/"%char \/ sep = "-"%char ->
  four a -> short b -> short c ->
  strptime (text a +:+ text [sep] +:+ text b +:+ text [sep] +:+ text c)
    [DY; Lit sep; Dm; Lit sep; Dd] = true <->
  real_date (number a) (number b) (number c).
Proof.
  intros Hsep Ha Hb Hc. unfold strptime.
  rewrite !chars_app, !chars_text. cbn [app].
  rewrite run_year by done. rewrite run_month by done.
  destruct ((1 <=? number b) && (number b <=? 12)) eqn:Hm.
  - pose proof (run_day_end c (store Dm b (store DY a no_fields)) Hc) as Hend.
    destruct ((1 <=? number c) && (number c <=? 31)) eqn:Hd.
    + destruct (run [Dd] c _) as [[f [|x l]]|]; try done.
      injection Hend as Hf. subst f.
      rewrite !filter_digits by (apply Ha || apply Hb || apply Hc).
      apply is_datetime_date.
    + split.
      * destruct (run [Dd] c _) as [[f [|x l]]|]; done.
      * intros (_ & _ & H1 & H2).
        pose proof (month_length_le (number a) (number b)).
        apply andb_false_iff in Hd as [Hd|Hd]; apply Z.leb_gt in Hd; lia.
  - split; [done|]. intros (_ & [H1 H2] & _).
    apply andb_false_iff in Hm as [Hm|Hm]; apply Z.leb_gt in Hm; lia.
Qed.

(** *** The patterns *)

Lemma span_digits_spec n l :
  l = (span_digits n l).1 ++ (span_digits n l).2 /\
  digits (span_digits n l).1 /\ (length (span_digits n l).1 <= n)%nat.
Proof.
  revert l. induction n as [|n IH]; intros l; simpl.
  - repeat split; [constructor|lia].
  - destruct l as [|c l]; simpl; [repeat split; [constructor|lia]|].
    destruct (is_digit c) eqn:Hc; simpl.
    + destruct (IH l) as (H1 & H2 & H3). repeat split.
      * by f_equal.
      * by constructor.
      * lia.
    + repeat split; [constructor|lia].
Qed.

Lemma span_digits_app n a r :
  digits a -> (length a <= n)%nat ->
  ((length a < n)%nat ->
   match r with [] => True | d :: _ => is_digit d = false end) ->
  span_digits n (a ++ r) = (a, r).
Proof.
  revert a. induction n as [|n IH]; intros a Ha Hl Hr.
  - destruct a; simpl in Hl; [|lia]. by destruct r.
  - destruct a as [|x a]; simpl.
    + destruct r as [|d r]; [done|]. rewrite Hr; [done|simpl; lia].
    + apply Forall_cons in Ha as [Hx Ha]. rewrite Hx. simpl in Hl.
      rewrite IH; [done|done|lia|]. intros Hlt. apply Hr. simpl. lia.
Qed.

Lemma delimiter_not_digit d : is_date_delimiter d = true -> is_digit d = false.
Proof.
  unfold is_date_delimiter, is_char. rewrite !orb_true_iff, !Ascii.eqb_eq.
  by intros [[<-|<-]|<-].
Qed.

Lemma at_end_not_digit tail :
  at_end tail = true ->
  match tail with [] => True | d :: _ => is_digit d = false end.
Proof.
  destruct tail as [|d [|]]; try done. unfold at_end, is_char.
  rewrite Ascii.eqb_eq. by intros <-.
Qed.

Lemma match_short_short_year_sound value s1 s2 s3 :
  match_short_short_year value = Some (s1, s2, s3) ->
  exists a b c, three_parts value a b c /\ short a /\ short b /\ four c /\
    s1 = text a /\ s2 = text b /\ s3 = text c.
Proof.
  unfold match_short_short_year. cbv zeta.
  destruct (span_digits_spec 2 (chars value)) as (E1 & D1 & L1).
  destruct (span_digits 2 (chars value)) as [a r]. cbn [fst snd] in *.
  destruct a as [|a0 a']; [done|]. destruct r as [|d1 r1]; [done|].
  destruct (span_digits_spec 2 r1) as (E2 & D2 & L2).
  destruct (span_digits 2 r1) as [b r]. cbn [fst snd] in *.
  destruct b as [|b0 b']; [done|]. destruct r as [|d2 r2]; [done|].
  destruct (span_digits_spec 4 r2) as (E3 & D3 & L3).
  destruct (span_digits 4 r2) as [c tail]. cbn [fst snd] in *.
  destruct (_ && _) eqn:Hc; [|done]. intros [= <- <- <-].
  rewrite !andb_true_iff in Hc. destruct Hc as [[[Hd1 Hd2] Hl] He].
  apply Nat.eqb_eq in Hl.
  exists (a0 :: a'), (b0 :: b'), c. repeat split; try done; simpl; try lia.
  exists d1, d2, tail. repeat split; try done.
  rewrite E1, E2, E3. done.
Qed.

Lemma match_short_short_year_complete value a b c :
  three_parts value a b c -> short a -> short b -> four c ->
  match_short_short_year value = Some (text a, text b, text c).
Proof.
  intros (d1 & d2 & tail & E & Hd1 & Hd2 & He) [Da La] [Db Lb] [Dc Lc].
  unfold match_short_short_year. cbv zeta. rewrite E.
  rewrite (span_digits_app 2 a); [|done|lia|by rewrite delimiter_not_digit].
  cbn [fst snd]. destruct a as [|a0 a']; [simpl in La; lia|].
  rewrite (span_digits_app 2 b); [|done|lia|by rewrite delimiter_not_digit].
  cbn [fst snd]. destruct b as [|b0 b']; [simpl in Lb; lia|].
  rewrite (span_digits_app 4 c); [|done|lia|lia].
  cbn [fst snd]. rewrite Hd1, Hd2, He, Lc. done.
Qed.

Lemma match_year_short_short_sound value s1 s2 s3 :
  match_year_short_short value = Some (s1, s2, s3) ->
  exists a b c, three_parts value a b c /\ four a /\ short b /\ short c /\
    s1 = text a /\ s2 = text b /\ s3 = text c.
Proof.
  unfold match_year_short_short. cbv zeta.
  destruct (span_digits_spec 4 (chars value)) as (E1 & D1 & L1).
  destruct (span_digits 4 (chars value)) as [a r]. cbn [fst snd] in *.
  destruct r as [|d1 r1]; [done|].
  destruct (span_digits_spec 2 r1) as (E2 & D2 & L2).
  destruct (span_digits 2 r1) as [b r]. cbn [fst snd] in *.
  destruct b as [|b0 b']; [done|]. destruct r as [|d2 r2]; [done|].
  destruct (span_digits_spec 2 r2) as (E3 & D3 & L3).
  destruct (span_digits 2 r2) as [c tail]. cbn [fst snd] in *.
  destruct c as [|c0 c']; [done|].
  destruct (_ && _) eqn:Hc; [|done]. intros [= <- <- <-].
  rewrite !andb_true_iff in Hc. destruct Hc as [[[Hl Hd1] Hd2] He].
  apply Nat.eqb_eq in Hl.
  exists a, (b0 :: b'), (c0 :: c'). repeat split; try done; simpl; try lia.
  exists d1, d2, tail. repeat split; try done.
  rewrite E1, E2, E3. done.
Qed.

Lemma match_year_short_short_complete value a b c :
  three_parts value a b c -> four a -> short b -> short c ->
  match_year_short_short value = Some (text a, text b, text c).
Proof.
  intros (d1 & d2 & tail & E & Hd1 & Hd2 & He) [Da La] [Db Lb] [Dc Lc].
  unfold match_year_short_short. cbv zeta. rewrite E.
  rewrite (span_digits_app 4 a); [|done|lia|lia].
  cbn [fst snd].
  rewrite (span_digits_app 2 b); [|done|lia|by rewrite delimiter_not_digit].
  cbn [fst snd]. destruct b as [|b0 b']; [simpl in Lb; lia|].
  rewrite (span_digits_app 2 c); [|done|lia|intros _; by apply at_end_not_digit].
  cbn [fst snd]. destruct c as [|c0 c']; [simpl in Lc; lia|].
  rewrite Hd1, Hd2, He, La. done.
Qed.

(** On the ASCII instance, a declared format accepts a value exactly when
    the value conforms to its order of day, month and year. *)
Lemma declared_date_valid fmt o value :
  order_of fmt = Some o ->
  exists v, PyLib.declared_date Reference.basic_lib fmt value = Some v /\
    (v = DateValid <-> conforms o value).
Proof.
  unfold order_of, PyLib.declared_date.
  cbn [re_short_short_year re_year_short_short py_strptime Reference.basic_lib].
  intros Ho.
  destruct (String.eqb fmt "MM/DD/YYYY").
  { injection Ho as <-. eexists. split; [done|].
    destruct (match_short_short_year value) as [[[s1 s2] s3]|] eqn:Hm.
    - apply match_short_short_year_sound in Hm
        as Hs; destruct Hs as (a & b & c & Hp & Ha & Hb & Hc & -> & -> & ->).
      pose proof (strptime_mdY a b c Ha Hb Hc) as Hs.
      destruct (strptime _ fmt_mdY).
      + split; [|done]. intros _. exists a, b, c. split; [done|].
        repeat split; try apply Ha; try apply Hb; try apply Hc; by apply Hs.
      + split; [done|]. intros (a' & b' & c' & Hp' & Ha' & Hb' & Hc' & Hr).
        pose proof (match_short_short_year_complete _ _ _ _ Hp' Ha' Hb' Hc')
          as Hm'.
        rewrite Hm in Hm'. injection Hm' as E1 E2 E3.
        apply (f_equal chars) in E1, E2, E3. rewrite !chars_text in E1, E2, E3.
        subst a' b' c'. apply Hs in Hr. done.
    - split; [done|]. intros (a' & b' & c' & Hp' & Ha' & Hb' & Hc' & Hr).
      by rewrite (match_short_short_year_complete _ _ _ _ Hp' Ha' Hb' Hc')
        in Hm. }
  destruct (String.eqb fmt "DD/MM/YYYY").
  { injection Ho as <-. eexists. split; [done|].
    destruct (match_short_short_year value) as [[[s1 s2] s3]|] eqn:Hm.
    - apply match_short_short_year_sound in Hm
        as Hs; destruct Hs as (a & b & c & Hp & Ha & Hb & Hc & -> & -> & ->).
      pose proof (strptime_dmY a b c Ha Hb Hc) as Hs.
      destruct (strptime _ fmt_dmY).
      + split; [|done]. intros _. exists a, b, c. split; [done|].
        repeat split; try apply Ha; try apply Hb; try apply Hc; by apply Hs.
      + split; [done|]. intros (a' & b' & c' & Hp' & Ha' & Hb' & Hc' & Hr).
        pose proof (match_short_short_year_complete _ _ _ _ Hp' Ha' Hb' Hc')
          as Hm'.
        rewrite Hm in Hm'. injection Hm' as E1 E2 E3.
        apply (f_equal chars) in E1, E2, E3. rewrite !chars_text in E1, E2, E3.
        subst a' b' c'. apply Hs in Hr. done.
    - split; [done|]. intros (a' & b' & c' & Hp' & Ha' & Hb' & Hc' & Hr).
      by rewrite (match_short_short_year_complete _ _ _ _ Hp' Ha' Hb' Hc')
        in Hm. }
  assert (forall (sep : ascii), sep = "/"%char \/ sep = "-"%char ->
    (match match_year_short_short value with
     | Some (year, month, day) =>
         if strptime (year +:+ text [sep] +:+ month +:+ text [sep] +:+ day)
              [DY; Lit sep; Dm; Lit sep; Dd]
         then DateValid else NotADate
     | None => WrongShape
     end) = DateValid <-> conforms YearMonthDay value) as Hymd.
  { intros sep Hsep.
    destruct (match_year_short_short value) as [[[s1 s2] s3]|] eqn:Hm.
    - apply match_year_short_short_sound in Hm
        as Hs; destruct Hs as (a & b & c & Hp & Ha & Hb & Hc & -> & -> & ->).
      pose proof (strptime_Ymd sep a b c Hsep Ha Hb Hc) as Hs.
      destruct (strptime _ _).
      + split; [|done]. intros _. exists a, b, c. split; [done|].
        repeat split; try apply Ha; try apply Hb; try apply Hc; by apply Hs.
      + split; [done|]. intros (a' & b' & c' & Hp' & Ha' & Hb' & Hc' & Hr).
        pose proof (match_year_short_short_complete _ _ _ _ Hp' Ha' Hb' Hc')
          as Hm'.
        rewrite Hm in Hm'. injection Hm' as E1 E2 E3.
        apply (f_equal chars) in E1, E2, E3. rewrite !chars_text in E1, E2, E3.
        subst a' b' c'. apply Hs in Hr. done.
    - split; [done|]. intros (a' & b' & c' & Hp' & Ha' & Hb' & Hc' & Hr).
      by rewrite (match_year_short_short_complete _ _ _ _ Hp' Ha' Hb' Hc')
        in Hm. }
  destruct (String.eqb fmt "YYYY/MM/DD").
  { injection Ho as <-. eexists. split; [done|].
    apply (Hymd "/"%char). by left. }
  destruct (String.eqb fmt "YYYY-MM-DD"); [|done].
  injection Ho as <-. eexists. split; [done|].
  apply (Hymd "-"%char). by right.
Qed.

Lemma groups_short_short_year_ascii s a b c :
  match_short_short_year s = Some (a, b, c) ->
  isascii a = true /\ isascii b = true /\ isascii c = true.
Proof.
  intros H. apply match_short_short_year_sound in H
    as (a' & b' & c' & _ & [Ha _] & [Hb _] & [Hc _] & -> & -> & ->).
  repeat split; by apply isascii_digits.
Qed.

Lemma groups_year_short_short_ascii s a b c :
  match_year_short_short s = Some (a, b, c) ->
  isascii a = true /\ isascii b = true /\ isascii c = true.
Proof.
  intros H. apply match_year_short_short_sound in H
    as (a' & b' & c' & _ & [Ha _] & [Hb _] & [Hc _] & -> & -> & ->).
  repeat split; by apply isascii_digits.
Qed.

(** On ASCII text every library gives the verdict of the ASCII instance. *)
Lemma declared_date_ascii lib fmt value :
  isascii value = true ->
  PyLib.declared_date lib fmt value
  = PyLib.declared_date Reference.basic_lib fmt value.
Proof.
  intros Hv. unfold PyLib.declared_date.
  rewrite !(re_short_short_year_ascii lib value Hv),
          !(re_year_short_short_ascii lib value Hv).
  cbn [re_short_short_year re_year_short_short py_strptime Reference.basic_lib].
  assert (forall a b c sep f,
            isascii a = true /\ isascii b = true /\ isascii c = true ->
            isascii sep = true -> ascii_format f = true ->
            py_strptime lib (a +:+ sep +:+ b +:+ sep +:+ c) f
            = strptime (a +:+ sep +:+ b +:+ sep +:+ c) f) as Hs.
  { intros a b c sep f (Ha & Hb & Hc) Hsep Hf.
    apply py_strptime_ascii; [|done].
    repeat apply isascii_app; done. }
  repeat match goal with
         | |- context [String.eqb fmt ?l] => destruct (String.eqb fmt l)
         end; try done; f_equal.
  - destruct (match_short_short_year value) as [[[a b] c]|] eqn:Hm; [|done].
    by rewrite Hs by (done || by eapply groups_short_short_year_ascii).
  - destruct (match_short_short_year value) as [[[a b] c]|] eqn:Hm; [|done].
    by rewrite Hs by (done || by eapply groups_short_short_year_ascii).
  - destruct (match_year_short_short value) as [[[a b] c]|] eqn:Hm; [|done].
    by rewrite Hs by (done || by eapply groups_year_short_short_ascii).
  - destruct (match_year_short_short value) as [[[a b] c]|] eqn:Hm; [|done].
    by rewrite Hs by (done || by eapply groups_year_short_short_ascii).
Qed.

(** The verdict of a declared format is [DateValid] exactly when the
    pattern matches and [strptime] reads the groups. *)
Lemma declared_date_matches lib fmt o value :
  order_of fmt = Some o ->
  exists v, PyLib.declared_date lib fmt value = Some v /\
    (v = DateValid <-> matches_and_parses lib fmt o value).
Proof.
  unfold order_of, PyLib.declared_date, matches_and_parses,
    declared_separator, declared_directives.
  intros Ho.
  destruct (String.eqb fmt "MM/DD/YYYY") eqn:E1.
  { apply String.eqb_eq in E1. subst fmt. injection Ho as <-. simpl.
    eexists. split; [done|].
    destruct (re_short_short_year lib value) as [[[a b] c]|].
    - destruct (py_strptime lib _ _) eqn:Hs.
      + split; [|done]. intros _. by exists a, b, c.
      + split; [done|]. intros (a' & b' & c' & [= <- <- <-] & Hs').
        congruence.
    - split; [done|]. by intros (a' & b' & c' & ? & _). }
  destruct (String.eqb fmt "DD/MM/YYYY") eqn:E2.
  { apply String.eqb_eq in E2. subst fmt. injection Ho as <-. simpl.
    eexists. split; [done|].
    destruct (re_short_short_year lib value) as [[[a b] c]|].
    - destruct (py_strptime lib _ _) eqn:Hs.
      + split; [|done]. intros _. by exists a, b, c.
      + split; [done|]. intros (a' & b' & c' & [= <- <- <-] & Hs').
        congruence.
    - split; [done|]. by intros (a' & b' & c' & ? & _). }
  destruct (String.eqb fmt "YYYY/MM/DD") eqn:E3.
  { apply String.eqb_eq in E3. subst fmt. injection Ho as <-. simpl.
    eexists. split; [done|].
    destruct (re_year_short_short lib value) as [[[a b] c]|].
    - destruct (py_strptime lib _ _) eqn:Hs.
      + split; [|done]. intros _. by exists a, b, c.
      + split; [done|]. intros (a' & b' & c' & [= <- <- <-] & Hs').
        congruence.
    - split; [done|]. by intros (a' & b' & c' & ? & _). }
  destruct (String.eqb fmt "YYYY-MM-DD") eqn:E4; [|done].
  apply String.eqb_eq in E4. subst fmt. injection Ho as <-. simpl.
  eexists. split; [done|].
  destruct (re_year_short_short lib value) as [[[a b] c]|].
  - destruct (py_strptime lib _ _) eqn:Hs.
    + split; [|done]. intros _. by exists a, b, c.
    + split; [done|]. intros (a' & b' & c' & [= <- <- <-] & Hs').
      congruence.
  - split; [done|]. by intros (a' & b' & c' & ? & _).
Qed.

Lemma declared_date_same_rule lib lib' fmt value :
  same_date_rule lib lib' ->
  PyLib.declared_date lib' fmt value = PyLib.declared_date lib fmt value.
Proof.
  intros (_ & H1 & H2 & H3). unfold PyLib.declared_date.
  rewrite !H1, !H2.
  repeat match goal with
         | |- context [String.eqb fmt ?l] => destruct (String.eqb fmt l)
         end; try done; f_equal;
    match goal with
    | |- context [match ?m with _ => _ end] =>
        destruct m as [[[a b] c]|]; [|done]
    end; by rewrite H3.
Qed.

Lemma declared_format_literal fmt o :
  order_of fmt = Some o ->
  upper fmt = fmt /\ strip fmt = fmt /\ isascii fmt = true /\
  String.eqb fmt "" = false /\ String.eqb fmt "ANY" = false.
Proof.
  unfold order_of.
  destruct (String.eqb fmt "MM/DD/YYYY") eqn:E1;
    [apply String.eqb_eq in E1; by subst|].
  destruct (String.eqb fmt "DD/MM/YYYY") eqn:E2;
    [apply String.eqb_eq in E2; by subst|].
  destruct (String.eqb fmt "YYYY/MM/DD") eqn:E3;
    [apply String.eqb_eq in E3; by subst|].
  destruct (String.eqb fmt "YYYY-MM-DD") eqn:E4;
    [apply String.eqb_eq in E4; by subst|done].
Qed.

(** Under a declared format the worker's validator answers with the
    verdict of that format alone. *)
Lemma worker_declared_date lib fmt o value :
  order_of fmt = Some o ->
  Validator.validate_date lib value [("format", PStr fmt)]
  = match PyLib.declared_date lib fmt value with
    | Some DateValid => Ok None
    | Some WrongShape => Ok (Some ("Must be in " +:+ fmt +:+ " format"))
    | Some NotADate =>
        Ok (Some ("Must be a valid date in " +:+ fmt +:+ " format"))
    | None => Raise ValueError
    end.
Proof.
  intros Ho.
  destruct (declared_format_literal fmt o Ho) as (Hup & Hst & Has & Hne & Hany).
  unfold Validator.validate_date. cbv zeta.
  change (py_or (dget [("format", PStr fmt)] "validation_format")
            (default (PStr "") (dict_get [("format", PStr fmt)] "format")))
    with (PStr fmt).
  assert (truthy (PStr fmt) = true) as -> by (simpl; by rewrite Hne).
  simpl. rewrite (py_upper_ascii lib fmt Has), Hup, Hne, Hany. simpl.
  destruct (declared_date_matches lib fmt o value Ho) as (v & -> & _).
  by destruct v.
Qed.

(** So does the portal's, on the trimmed value, when the value is not
    empty. *)
Lemma portal_declared_date lib fmt o value name :
  order_of fmt = Some o -> value <> "" ->
  ValidationService.validate_date lib (CStr value) name (PStr fmt)
  = match PyLib.declared_date lib fmt (py_strip lib value) with
    | Some DateValid => Ok None
    | Some WrongShape =>
        Ok (Some (py_format name +:+ " must be in " +:+ fmt +:+ " format"))
    | Some NotADate =>
        Ok (Some (py_format name +:+ " must be a valid date in "
                  +:+ fmt +:+ " format"))
    | None => Raise ValueError
    end.
Proof.
  intros Ho Hs. apply String.eqb_neq in Hs.
  destruct (declared_format_literal fmt o Ho) as (Hup & Hst & Has & Hne & Hany).
  unfold ValidationService.validate_date. simpl.
  rewrite Hs. unfold py_or.
  assert (truthy (PStr fmt) = true) as -> by (simpl; by rewrite Hne).
  simpl. rewrite (py_strip_ascii lib fmt Has), Hst.
  rewrite (py_upper_ascii lib fmt Has), Hup, Hne, Hany. simpl.
  destruct (declared_date_matches lib fmt o (py_strip lib value) Ho)
    as (v & -> & _).
  by destruct v.
Qed.

(** C5: under one of the four declared formats, the worker's date
    validator takes a value exactly when the value matches the three-part
    pattern of the format and [strptime] reads its three groups as a date;
    the portal's validator does so on the trimmed value, for every value
    that is not empty (the field validators return on an empty value before
    any date rule).  On ASCII text this is: the value has the three parts of
    the format, separated by [/], [-] or [.], and the parts are a date of
    the calendar.  The parts of the library behind the generic fallback have
    no say in the result: two libraries that trim, match the two patterns
    and read dates alike give the same answers.  The value [2024-01-05] is
    refused under [MM/DD/YYYY] by both validators, in every library. *)
Theorem declared_format_decides lib fmt o value name :
  order_of fmt = Some o ->
  (Validator.validate_date lib value [("format", PStr fmt)] = Ok None <->
   matches_and_parses lib fmt o value) /\
  (value <> "" ->
   (ValidationService.validate_date lib (CStr value) name (PStr fmt) = Ok None
    <-> matches_and_parses lib fmt o (py_strip lib value))) /\
  (isascii value = true ->
   (Validator.validate_date lib value [("format", PStr fmt)] = Ok None <->
    conforms o value) /\
   (value <> "" ->
    (ValidationService.validate_date lib (CStr value) name (PStr fmt) = Ok None
     <-> conforms o (strip value)))) /\
  (forall lib', same_date_rule lib lib' ->
     Validator.validate_date lib' value [("format", PStr fmt)]
     = Validator.validate_date lib value [("format", PStr fmt)] /\
     ValidationService.validate_date lib' (CStr value) name (PStr fmt)
     = ValidationService.validate_date lib (CStr value) name (PStr fmt)) /\
  Validator.validate_date lib "2024-01-05" [("format", PStr "MM/DD/YYYY")]
  = Ok (Some "Must be in MM/DD/YYYY format") /\
  ValidationService.validate_date lib (CStr "2024-01-05") (PStr "due")
    (PStr "MM/DD/YYYY")
  = Ok (Some "due must be in MM/DD/YYYY format").
Proof.
  intros Ho.
  split; [|split; [|split; [|split; [|split]]]].
  - rewrite (worker_declared_date lib fmt o value Ho).
    destruct (declared_date_matches lib fmt o value Ho) as (v & -> & Hv).
    rewrite <- Hv. by destruct v.
  - intros Hs. rewrite (portal_declared_date lib fmt o value name Ho Hs).
    destruct (declared_date_matches lib fmt o (py_strip lib value) Ho)
      as (v & -> & Hv).
    rewrite <- Hv. by destruct v.
  - intros Hv. split.
    + rewrite (worker_declared_date lib fmt o value Ho).
      rewrite (declared_date_ascii lib fmt value Hv).
      destruct (declared_date_valid fmt o value Ho) as (v & -> & Hc).
      rewrite <- Hc. by destruct v.
    + intros Hs. rewrite (portal_declared_date lib fmt o value name Ho Hs).
      rewrite (py_strip_ascii lib value Hv).
      rewrite (declared_date_ascii lib fmt (strip value))
        by by apply isascii_strip.
      destruct (declared_date_valid fmt o (strip value) Ho) as (v & -> & Hc).
      rewrite <- Hc. by destruct v.
  - intros lib' Hsame. split.
    + rewrite !(worker_declared_date _ fmt o value Ho).
      by rewrite (declared_date_same_rule lib lib').
    + destruct (String.eqb value "") eqn:Hs.
      * apply String.eqb_eq in Hs. by subst value.
      * apply String.eqb_neq in Hs.
        rewrite !(portal_declared_date _ fmt o value name Ho Hs).
        destruct Hsame as (Hstrip & Hrest). rewrite Hstrip.
        by rewrite (declared_date_same_rule lib lib').
  - rewrite (worker_declared_date lib "MM/DD/YYYY" MonthDayYear _ eq_refl).
    by rewrite (declared_date_ascii lib "MM/DD/YYYY" "2024-01-05" eq_refl).
  - rewrite (portal_declared_date lib "MM/DD/YYYY" MonthDayYear "2024-01-05"
               (PStr "due") eq_refl) by done.
    rewrite (py_strip_ascii lib "2024-01-05" eq_refl).
    change (strip "2024-01-05") with "2024-01-05".
    by rewrite (declared_date_ascii lib "MM/DD/YYYY" "2024-01-05" eq_refl).
Qed.

Lemma declared_format_decides_witness :
  order_of "MM/DD/YYYY" = Some MonthDayYear /\
  (Validator.validate_date Reference.basic_lib "01/05/2024"
     [("format", PStr "MM/DD/YYYY")] = Ok None /\
   conforms MonthDayYear "01/05/2024") /\
  (Validator.validate_date Reference.basic_lib "2024-01-05"
     [("format", PStr "MM/DD/YYYY")]
   = Ok (Some "Must be in MM/DD/YYYY format") /\
   ~ conforms MonthDayYear "2024-01-05") /\
  Validator.validate_date
    (Reference.with_fromisoformat (fun _ => true) Reference.basic_lib)
    "2024-01-05" [("format", PStr "MM/DD/YYYY")]
  = Ok (Some "Must be in MM/DD/YYYY format").
Proof.
  split; [reflexivity|]. split; [|split].
  - split; [reflexivity|].
    destruct (declared_format_decides Reference.basic_lib "MM/DD/YYYY"
                MonthDayYear "01/05/2024" (PStr "due") eq_refl)
      as (_ & _ & Hascii & _).
    apply (proj1 (Hascii eq_refl)). reflexivity.
  - split; [reflexivity|]. intros Hc.
    destruct (declared_format_decides Reference.basic_lib "MM/DD/YYYY"
                MonthDayYear "2024-01-05" (PStr "due") eq_refl)
      as (_ & _ & Hascii & _).
    apply (proj1 (Hascii eq_refl)) in Hc. discriminate Hc.
  - reflexivity.
Defined.

End DateFacts.

(** ** Facts about dictionaries *)

Module DictFacts.

Lemma dict_set_elem {V} (d : list (string * V)) k v p :
  p ∈ dict_set d k v -> p ∈ d \/ p = (k, v).
Proof.
  induction d as [|[k' v'] d IH]; simpl; intros Hp.
  - apply list_elem_of_singleton in Hp. auto.
  - destruct (decide (k' = k)) as [->|Hne].
    + apply elem_of_cons in Hp as [->|Hp]; [auto|]. left. by right.
    + apply elem_of_cons in Hp as [->|Hp]; [left; left|].
      apply IH in Hp as [Hp|Hp]; [left; by right|auto].
Qed.

Lemma dict_get_set_eq {V} (d : list (string * V)) k v :
  dict_get (dict_set d k v) k = Some v.
Proof.
  induction d as [|[k' v'] d IH]; simpl.
  - by destruct (decide (k = k)).
  - destruct (decide (k' = k)) as [->|Hne]; simpl.
    + by destruct (decide (k = k)).
    + by destruct (decide (k' = k)).
Qed.

Lemma dict_get_set_ne {V} (d : list (string * V)) k k' v :
  k <> k' -> dict_get (dict_set d k v) k' = dict_get d k'.
Proof.
  intros Hne. induction d as [|[k0 v0] d IH]; simpl.
  - by destruct (decide (k = k')).
  - destruct (decide (k0 = k)) as [->|Hk]; simpl.
    + by destruct (decide (k = k')).
    + destruct (decide (k0 = k')); [done|apply IH].
Qed.

Lemma dict_set_keys {V} (d : list (string * V)) k v :
  is_Some (dict_get d k) -> dict_keys (dict_set d k v) = dict_keys d.
Proof.
  unfold dict_keys. induction d as [|[k' v'] d IH]; simpl; intros [x Hx].
  - done.
  - destruct (decide (k' = k)) as [->|Hne]; simpl; [done|].
    f_equal. apply IH. eauto.
Qed.

Lemma dict_get_elem {V} (d : list (string * V)) k v :
  NoDup d.*1 -> (k, v) ∈ d -> dict_get d k = Some v.
Proof.
  induction d as [|[k' v'] d IH]; simpl; intros Hnd Hin.
  - by apply elem_of_nil in Hin.
  - apply NoDup_cons in Hnd as [Hk Hnd].
    apply elem_of_cons in Hin as [Heq|Hin].
    + injection Heq as <- <-. by destruct (decide (k = k)).
    + destruct (decide (k' = k)) as [->|_]; [|by apply IH].
      exfalso. apply Hk. apply list_elem_of_fmap. by exists (k, v).
Qed.

Lemma dict_get_None {V} (d : list (string * V)) k :
  k ∉ d.*1 -> dict_get d k = None.
Proof.
  induction d as [|[k' v'] d IH]; simpl; [done|]. intros Hk.
  apply not_elem_of_cons in Hk as [Hne Hk].
  destruct (decide (k' = k)); [congruence|auto].
Qed.

End DictFacts.

(** ** Facts about a finished import *)

Module WorkerRunFacts.
Import PyFacts ApiWorker ImportService Properties Finished Samples.

(** The entries of the field table are fields of the importer, under
    their names. *)
Lemma field_map_elem (fs : list jobj) n f :
  (n, f) ∈ field_map fs -> n = field_name f /\ f ∈ fs.
Proof.
  unfold field_map.
  assert (forall acc : list (string * jobj),
             (forall n f, (n, f) ∈ acc -> n = field_name f /\ f ∈ fs) ->
             forall l, (forall f, f ∈ l -> f ∈ fs) ->
             forall n f, (n, f) ∈ foldl (fun m f => dict_set m (field_name f) f) acc l ->
                         n = field_name f /\ f ∈ fs) as Hgen.
  { intros acc Hacc l. revert acc Hacc.
    induction l as [|g l IH]; intros acc Hacc Hl n' f' Hin; simpl in Hin.
    - by apply Hacc.
    - eapply IH; [| |exact Hin].
      + intros n1 f1 H1.
        assert (forall (d : list (string * jobj)) k v p,
                   p ∈ dict_set d k v -> p ∈ d \/ p = (k, v)) as Hset.
        { clear. induction d as [|[k' v'] d IH]; simpl; intros k v p Hp.
          - apply list_elem_of_singleton in Hp. auto.
          - destruct (decide (k' = k)) as [->|Hne].
            + apply elem_of_cons in Hp as [->|Hp]; [auto|]. left. by right.
            + apply elem_of_cons in Hp as [->|Hp]; [left; left|].
              apply IH in Hp as [Hp|Hp]; [left; by right|auto]. }
        apply Hset in H1 as [H1|H1]; [by apply Hacc|].
        inversion H1; subst. split; [done|]. apply Hl. left.
      + intros f1 Hf1. apply Hl. by right. }
  apply Hgen; [intros ? ? H; inversion H|done].
Qed.

(** Once the header validation lets the import proceed, every required
    field is a column: the worker has no missing column to report. *)
Lemma no_missing_required_columns lib job auto (fs : list jobj) columns total :
  header_validation lib job auto fs columns total = None ->
  filter (fun p : string * jobj =>
            (p.1 ∉ columns) /\ field_required p.2 = true) (field_map fs) = [].
Proof.
  intros Hv. apply filter_nil_iff. intros [n f] Hin [Hn Hreq]. simpl in *.
  apply field_map_elem in Hin as [-> Hf].
  unfold header_validation in Hv. cbv zeta in Hv.
  destruct (set_minus _ (set_of columns)) as [|a rest] eqn:Hmiss;
    [|discriminate].
  apply Hn.
  assert (field_name f ∈ set_of columns) as Hc.
  { apply (proj1 (ApiWorkerFacts.set_minus_nil _ _) Hmiss).
    unfold set_of. apply elem_of_remove_dups. apply list_elem_of_fmap.
    exists f. split; [done|]. apply list_elem_of_filter. by split. }
  unfold set_of in Hc. rewrite elem_of_remove_dups in Hc. exact Hc.
Qed.

Lemma validate_fields_rows lib columns i row fm es :
  validate_fields lib columns i row fm = Ok es ->
  Forall (fun e => c_row e = Some (RowNum (Z.of_nat i + 1)) /\ c_field e = None) es.
Proof.
  revert es. induction fm as [|[n cfg] fm IH]; simpl; intros es H.
  - inversion H. constructor.
  - destruct (bool_decide (n ∈ columns)); [|by apply IH].
    apply bind_Ok in H as (v & _ & H).
    apply bind_Ok in H as (m & _ & H).
    apply bind_Ok in H as (later & Hl & H).
    inversion H; subst. specialize (IH _ Hl).
    destruct m as [m|]; [|done].
    destruct (truthy_str m); [|done].
    constructor; done.
Qed.

Lemma validate_frame_rows lib columns fm rows es :
  validate_frame lib columns fm rows = Ok es ->
  Forall (fun e => exists i, i ∈ rows.*1 /\
                     c_row e = Some (RowNum (Z.of_nat i + 1)) /\ c_field e = None) es.
Proof.
  revert es. induction rows as [|[i row] rows IH]; simpl; intros es H.
  - inversion H. constructor.
  - apply bind_Ok in H as (here & Hh & H).
    apply bind_Ok in H as (later & Hl & H).
    inversion H; subst. apply Forall_app. split.
    + apply validate_fields_rows in Hh.
      eapply Forall_impl; [exact Hh|]. intros e [? ?]. exists i. split; [left|done].
    + eapply Forall_impl; [exact (IH _ Hl)|].
      intros e (j & Hj & He). exists j. split; [by right|done].
Qed.

Lemma enumerate_indices {A} (l : list A) i :
  i ∈ (enumerate l).*1 -> (i < length l)%nat.
Proof.
  intros H. apply list_elem_of_fmap in H as ([j x] & -> & H).
  apply enumerate_lookup in H. by apply lookup_lt_Some in H.
Qed.


Lemma enumerate_keys {A} (l : list A) : (enumerate l).*1 = seq 0 (length l).
Proof.
  unfold enumerate.
  assert (forall g : nat -> nat,
             (imap (fun i x => (g i, x)) l).*1 = g <$> seq 0 (length l)) as Hgen.
  { induction l as [|a l IH]; intros g; [done|].
    simpl. f_equal. etrans; [apply (IH (g ∘ S))|].
    by rewrite <- fmap_S_seq, <- list_fmap_compose. }
  etrans; [apply (Hgen id)|]. by rewrite list_fmap_id.
Qed.

(** The two frames split the rows. *)
Lemma rows_in_split indices rows :
  (length (rows_in indices false rows) + length (rows_in indices true rows)
   = length rows)%nat.
Proof.
  unfold rows_in. rewrite !length_fmap.
  rewrite <- (length_imap (fun i x => (i, x)) rows).
  fold (enumerate rows).
  induction (enumerate rows) as [|p l IH]; [done|].
  rewrite !filter_cons. simpl.
  destruct (bool_decide (Z.of_nat p.1 ∈ indices)); simpl.
  - destruct (decide (true = false)); [done|].
    destruct (decide (true = true)); [|done]. simpl. lia.
  - destruct (decide (false = false)); [|done].
    destruct (decide (false = true)); [done|]. simpl. lia.
Qed.

(** The frame of the error rows has one row per index, when the indices
    are rows of the file. *)
Lemma rows_in_count indices rows :
  Forall (fun z => 0 <= z < Z.of_nat (length rows)) indices ->
  length (rows_in indices true rows) = length (remove_dups indices).
Proof.
  intros Hrange. unfold rows_in. rewrite length_fmap.
  assert (forall l : list (nat * list string),
             length (filter (fun p : nat * list string =>
                               bool_decide (Z.of_nat p.1 ∈ indices) = true) l)
             = length (filter (fun i : nat => Z.of_nat i ∈ indices) l.*1)) as Hfst.
  { induction l as [|p l IH]; [done|].
    rewrite fmap_cons, !filter_cons.
    destruct (decide (Z.of_nat p.1 ∈ indices)) as [Hin|Hin].
    - rewrite bool_decide_eq_true_2 by done.
      destruct (decide (true = true)); [|done]. simpl. by rewrite IH.
    - rewrite bool_decide_eq_false_2 by done.
      destruct (decide (false = true)); [done|]. done. }
  rewrite Hfst, enumerate_keys.
  rewrite <- (length_fmap Z.of_nat).
  apply Permutation_length. apply NoDup_Permutation.
  - apply NoDup_fmap; [intros ? ? ?; lia|].
    apply NoDup_filter, NoDup_seq.
  - apply NoDup_remove_dups.
  - intros z. rewrite elem_of_remove_dups, list_elem_of_fmap. split.
    + intros (i & -> & Hi). by apply list_elem_of_filter in Hi as [? _].
    + intros Hz. pose proof (proj1 (Forall_forall _ _) Hrange z Hz) as Hr.
      simpl in Hr. exists (Z.to_nat z). split; [lia|].
      apply list_elem_of_filter. split; [by rewrite Z2Nat.id by lia|].
      apply elem_of_seq. lia.
Qed.

(** As many distinct error rows as the file has rows, at most. *)
Lemma distinct_rows_bound (total : nat) (l : list Z) :
  Forall (fun z => 1 <= z <= Z.of_nat total) l ->
  (length (remove_dups l) <= total)%nat.
Proof.
  intros Hl.
  assert (remove_dups l ⊆+ (fun i : nat => Z.of_nat i + 1) <$> seq 0 total) as Hsub.
  { apply NoDup_submseteq; [apply NoDup_remove_dups|].
    intros z Hz. rewrite elem_of_remove_dups in Hz.
    pose proof (proj1 (Forall_forall _ _) Hl z Hz) as Hr.
    simpl in Hr. apply list_elem_of_fmap. exists (Z.to_nat (z - 1)). split; [lia|].
    apply elem_of_seq. lia. }
  apply submseteq_length in Hsub. by rewrite length_fmap, length_seq in Hsub.
Qed.

Lemma numbered_rows_of total es :
  Forall (row_conflict total) es ->
  Forall (fun z => 1 <= z <= Z.of_nat total) (numbered_rows es) /\
  length (numbered_rows es) = length es /\
  existsb is_header es = false /\
  filter (fun e => is_header e = true) es = [].
Proof.
  induction 1 as [|e es (n & Hn & Hr) _ (IH1 & IH2 & IH3 & IH4)]; [done|].
  assert (is_header e = false) as Hh.
  { unfold is_header. apply bool_decide_eq_false_2. by rewrite Hn. }
  assert (numbered_rows (e :: es) = n :: numbered_rows es) as Hrows.
  { unfold numbered_rows. simpl. by rewrite Hn. }
  rewrite Hrows. repeat split.
  - by constructor.
  - simpl. by rewrite IH2.
  - simpl. by rewrite Hh.
  - rewrite filter_cons. destruct (decide (is_header e = true)); [congruence|done].
Qed.

(** What the worker does once the file is read and its headers pass: the
    conflicts are conflicts of rows, and the job is finalized with them. *)
Lemma process_finished lib job imp frame :
  let p := process_api_import lib job (Some imp) (Some frame) in
  let rows := df_rows frame in
  status (job_done p) <> FAILED \/ is_Some (frames p) ->
  exists job1 columns es,
    Forall (row_conflict (length rows)) es /\
    Forall (fun e => c_field e = None) es /\
    job_done p
    = finalize job1 es (Z.of_nat (length rows)) (df_columns frame) /\
    frames p
    = if webhook_enabled imp && truthy_str (webhook_url imp)
      then Some (columns, (webhook_frames es rows).1, (webhook_frames es rows).2)
      else None.
Proof.
  intros p rows Hp. subst p. unfold process_api_import in *. cbv zeta in *.
  set (r := resolve_mapping _ _ _ _) in *.
  set (columns := renamed_columns _ _) in *.
  destruct (header_validation lib r.1 r.2 (fields imp) columns _)
    as [failed|] eqn:Hv.
  - exfalso. destruct Hp as [Hp|[? Hp]]; [|done].
    apply Hp. unfold header_validation in Hv. cbv zeta in Hv.
    destruct (match set_minus _ _ with [] => _ | _ :: _ => _ end);
      [|discriminate].
    by inversion Hv.
  - unfold validate_and_finish in *. cbv zeta in *.
    rewrite (no_missing_required_columns _ _ _ _ _ _ Hv) in *. simpl in *.
    destruct (validate_frame lib columns _ _) as [es|e] eqn:Hf.
    + exists r.1, columns, es. simpl.
      apply validate_frame_rows in Hf.
      split; [|split; [|done]].
      * eapply Forall_impl; [exact Hf|]. intros e (i & Hi & He & _).
        apply enumerate_indices in Hi. exists (Z.of_nat i + 1).
        split; [done|]. unfold rows. lia.
      * eapply Forall_impl; [exact Hf|]. by intros e (i & _ & _ & ?).
    + exfalso. destruct Hp as [Hp|[? Hp]]; [by apply Hp|done].
Qed.


Lemma finalize_rows job es (total : nat) hs :
  Forall (row_conflict total) es ->
  let job' := finalize job es (Z.of_nat total) hs in
  errors job' = Some es /\
  row_count job' = Z.of_nat total /\
  processed_rows job' = Z.of_nat total /\
  error_count job' = rows_in_error es /\
  0 <= error_count job' <= Z.of_nat total /\
  (status job' = COMPLETED <-> es = []) /\
  (status job' = UNCOMPLETED <-> es <> []).
Proof.
  intros Hes. pose proof (numbered_rows_of _ _ Hes) as (Hr & Hlen & _ & Hh).
  unfold finalize. cbv zeta. rewrite Hh. simpl.
  pose proof (distinct_rows_bound _ _ Hr) as Hb.
  unfold rows_in_error. repeat split; try lia.
  - destruct (0 <? length (remove_dups (numbered_rows es)))%nat eqn:Hpos;
      [done|]. intros _. apply Nat.ltb_ge in Hpos.
    destruct es as [|e es]; [done|]. exfalso.
    destruct (numbered_rows (e :: es)) as [|z zs] eqn:Hz; [done|].
    simpl in Hpos. destruct (decide_rel _ z zs) as [Hin|Hin]; simpl in Hpos; [|lia].
    apply elem_of_remove_dups in Hin.
    destruct (remove_dups zs); [by apply elem_of_nil in Hin|simpl in Hpos; lia].
  - intros ->. done.
  - destruct (0 <? length (remove_dups (numbered_rows es)))%nat eqn:Hpos;
      [|done]. intros _ ->. done.
  - intros Hne. destruct es as [|e es]; [done|].
    destruct (numbered_rows (e :: es)) as [|z zs] eqn:Hz; [done|].
    assert (z ∈ remove_dups (z :: zs)) as Hin
        by (apply elem_of_remove_dups; left).
    destruct (remove_dups (z :: zs)); [by apply elem_of_nil in Hin|done].
Qed.

(** X1: a job that [process_api_import] does not mark FAILED carries only
    conflicts of rows of the file, no Header conflict; its row count is
    the number of rows of the file, its error count the number of distinct
    rows in conflict, which is at most the row count; it is COMPLETED when
    there is no conflict and UNCOMPLETED otherwise. *)
Theorem finished_import_counts lib job imp frame :
  let p := process_api_import lib job (Some imp) (Some frame) in
  let total := length (df_rows frame) in
  status (job_done p) <> FAILED ->
  exists es,
    errors (job_done p) = Some es /\
    Forall (row_conflict total) es /\
    row_count (job_done p) = Z.of_nat total /\
    processed_rows (job_done p) = Z.of_nat total /\
    error_count (job_done p) = rows_in_error es /\
    0 <= error_count (job_done p) <= row_count (job_done p) /\
    (status (job_done p) = COMPLETED <-> es = []) /\
    (status (job_done p) = UNCOMPLETED <-> es <> []).
Proof.
  intros p total Hp.
  destruct (process_finished lib job imp frame (or_introl Hp))
    as (job1 & columns & es & Hes & _ & Hjob & _).
  fold p in Hjob. rewrite Hjob.
  pose proof (finalize_rows job1 es _ (ApiWorker.df_columns frame) Hes) as (H1 & H2 & H3 & H4 & H5 & H6 & H7).
  exists es. unfold total. rewrite H2. auto 10.
Qed.

(** The frames of the webhook, for a job whose rows were validated. *)
Lemma frames_of_finished lib job imp frame columns valid invalid :
  let p := process_api_import lib job (Some imp) (Some frame) in
  frames p = Some (columns, valid, invalid) ->
  exists es,
    errors (job_done p) = Some es /\
    valid = rows_in (error_indices es) false (df_rows frame) /\
    invalid = rows_in (error_indices es) true (df_rows frame) /\
    Z.of_nat (length invalid) = error_count (job_done p) /\
    Z.of_nat (length valid) + Z.of_nat (length invalid) = row_count (job_done p) /\
    row_count (job_done p) = Z.of_nat (length (df_rows frame)) /\
    (status (job_done p) = UNCOMPLETED <-> es <> []).
Proof.
  intros p Hfr.
  destruct (process_finished lib job imp frame) as
    (job1 & cols & es & Hes & _ & Hjob & Hframes).
  { right. fold p. by rewrite Hfr. }
  fold p in Hjob, Hframes.
  pose proof (finalize_rows job1 es _ (ApiWorker.df_columns frame) Hes) as (H1 & H2 & _ & H4 & _ & _ & H7).
  rewrite <- Hjob in H1, H2, H4, H7.
  pose proof (numbered_rows_of _ _ Hes) as (Hr & _ & Hh & _).
  rewrite Hfr in Hframes.
  destruct (webhook_enabled imp && truthy_str (webhook_url imp)); [|done].
  rewrite WebhookFacts.worker_separation, Hh in Hframes.
  injection Hframes as -> -> ->.
  exists es. split; [done|]. split; [done|]. split; [done|].
  pose proof (rows_in_split (error_indices es) (df_rows frame)) as Hsplit.
  assert (length (rows_in (error_indices es) true (df_rows frame))
          = length (remove_dups (numbered_rows es))) as Hcount.
  { rewrite rows_in_count.
    - unfold error_indices.
      rewrite <- (length_fmap (fun n => n + 1)). apply Permutation_length.
      apply NoDup_Permutation.
      + apply NoDup_fmap; [intros ? ? ?; lia|apply NoDup_remove_dups].
      + apply NoDup_remove_dups.
      + intros z. rewrite list_elem_of_fmap. setoid_rewrite elem_of_remove_dups.
        setoid_rewrite list_elem_of_fmap. split.
        * intros (y & -> & n & -> & Hn). by replace (n - 1 + 1) with n by lia.
        * intros Hz. exists (z - 1). split; [lia|]. by exists z.
    - unfold error_indices. apply Forall_fmap.
      eapply Forall_impl; [exact Hr|]. intros z Hz. simpl in *. lia. }
  rewrite H2, H4. unfold rows_in_error. repeat split; try lia; apply H7.
Qed.

(** X2: the frames the worker hands to the webhook split the rows of the
    file: the rows with a conflict are the invalid frame, the others the
    valid frame, and the invalid frame has as many rows as the job's error
    count. *)
Theorem webhook_frames_split lib job imp frame columns valid invalid :
  let p := process_api_import lib job (Some imp) (Some frame) in
  let es := default [] (errors (job_done p)) in
  frames p = Some (columns, valid, invalid) ->
  valid = rows_in (error_indices es) false (df_rows frame) /\
  invalid = rows_in (error_indices es) true (df_rows frame) /\
  Z.of_nat (length invalid) = error_count (job_done p) /\
  Z.of_nat (length valid) + Z.of_nat (length invalid) = row_count (job_done p).
Proof.
  intros p es Hfr.
  destruct (frames_of_finished lib job imp frame _ _ _ Hfr)
    as (es' & He & Hv & Hi & Hn & Hsum & _).
  fold p in He, Hn, Hsum. unfold es. rewrite He. done.
Qed.

Lemma sample_take imp (records : list (list string)) :
  (truncate_data imp = true -> 0 <= webhook_data_sample_size imp) ->
  sample imp records
  = if truncate_data imp
    then take (Z.to_nat (webhook_data_sample_size imp)) records
    else records.
Proof.
  intros Hsize. unfold sample, py_prefix.
  destruct (truncate_data imp); [|done]. simpl.
  specialize (Hsize eq_refl).
  rewrite (proj2 (Z.leb_le 0 _) Hsize).
  destruct (_ <? _) eqn:Hlt; [done|]. apply Z.ltb_ge in Hlt.
  rewrite take_ge; [done|lia].
Qed.

(** X3: the payload [send_webhook_for_api_import] builds from the worker's
    frames: its counts are the number of rows of the file, of valid rows
    and of invalid rows; without [include_data_in_webhook] it carries no
    row; with it, it carries the valid and the invalid rows, cut to the
    first [webhook_data_sample_size] of each under [truncate_data]. *)
Theorem webhook_payload_counts lib job imp frame columns valid invalid :
  let p := process_api_import lib job (Some imp) (Some frame) in
  let w := api_payload (job_done p) imp valid invalid in
  let size := Z.to_nat (webhook_data_sample_size imp) in
  frames p = Some (columns, valid, invalid) ->
  (truncate_data imp = true -> 0 <= webhook_data_sample_size imp) ->
  total_rows w = Z.of_nat (length (df_rows frame)) /\
  valid_rows w = Z.of_nat (length valid) /\
  error_rows w = Z.of_nat (length invalid) /\
  data w
  = (if include_data_in_webhook imp
     then if truncate_data imp then take size valid else valid
     else []) /\
  errors_data w
  = (if include_data_in_webhook imp
     then if truncate_data imp then take size invalid else invalid
     else []).
Proof.
  intros p w size Hfr Hsize.
  destruct (frames_of_finished lib job imp frame _ _ _ Hfr)
    as (es & He & Hv & Hi & Hn & Hsum & Hrows & Hst).
  fold p in He, Hn, Hsum, Hrows, Hst.
  unfold w, api_payload. simpl. rewrite !sample_take by done.
  split; [done|]. split; [lia|]. split; [lia|]. split; [done|].
  destruct (include_data_in_webhook imp); [|done]. simpl.
  destruct (decide (status (job_done p) = UNCOMPLETED)) as [Hu|Hu].
  - by rewrite bool_decide_eq_true_2.
  - rewrite bool_decide_eq_false_2 by done.
    assert (es = []) as -> by (destruct es; [done|]; exfalso; by apply Hu, Hst).
    rewrite Hi. change (error_indices []) with (@nil Z).
    rewrite WebhookFacts.rows_in_nil_true.
    destruct (truncate_data imp); [by rewrite take_nil|done].
Qed.


Lemma finished_import_counts_witness :
  let p := process_api_import Reference.basic_lib Examples.unmapped
             (Some Examples.notifying) (Some contacts_frame) in
  exists es,
    errors (job_done p) = Some es /\
    Forall (row_conflict 2) es /\
    row_count (job_done p) = 2 /\
    processed_rows (job_done p) = 2 /\
    error_count (job_done p) = rows_in_error es /\
    0 <= error_count (job_done p) <= row_count (job_done p) /\
    (status (job_done p) = COMPLETED <-> es = []) /\
    (status (job_done p) = UNCOMPLETED <-> es <> []).
Proof.
  apply (finished_import_counts Reference.basic_lib Examples.unmapped
           Examples.notifying contacts_frame).
  vm_compute. discriminate.
Defined.

Lemma webhook_frames_split_witness :
  let p := process_api_import Reference.basic_lib Examples.unmapped
             (Some Examples.notifying) (Some contacts_frame) in
  let es := default [] (errors (job_done p)) in
  [["Ann"]] = rows_in (error_indices es) false (df_rows contacts_frame) /\
  [[""]] = rows_in (error_indices es) true (df_rows contacts_frame) /\
  1 = error_count (job_done p) /\
  1 + 1 = row_count (job_done p).
Proof.
  apply (webhook_frames_split Reference.basic_lib Examples.unmapped
           Examples.notifying contacts_frame ["name"] [["Ann"]] [[""]]).
  vm_compute. reflexivity.
Defined.

Lemma webhook_payload_counts_witness :
  let p := process_api_import Reference.basic_lib Examples.unmapped
             (Some sampling) (Some contacts_frame) in
  let w := api_payload (job_done p) sampling [["Ann"]] [[""]] in
  total_rows w = 2 /\ valid_rows w = 1 /\ error_rows w = 1 /\
  data w = [["Ann"]] /\ errors_data w = [[""]].
Proof.
  apply (webhook_payload_counts Reference.basic_lib Examples.unmapped
           sampling contacts_frame ["name"] [["Ann"]] [[""]]).
  - vm_compute. reflexivity.
  - intros _. vm_compute. discriminate.
Defined.

End WorkerRunFacts.

(** ** Facts about the column mapping the worker creates *)

Module MappingFacts.
Import PyFacts LibFacts DictFacts ApiWorker Properties ApiWorkerFacts.

(** The pairs of the fuzzy pass: those it starts from, and pairs of an
    unmatched field and an unmatched header of the same normal form. *)
Lemma fuzzy_matches_pairs lib uf uh sm p :
  p ∈ fuzzy_matches lib uf uh sm ->
  p ∈ sm \/ (p.1 ∈ uf /\ p.2 ∈ uh /\
             normalize_header lib p.1 = normalize_header lib p.2).
Proof.
  revert uh sm. induction uf as [|f uf IH]; intros uh sm Hp; simpl in Hp.
  - by left.
  - destruct (find _ (set_iter lib uh)) as [h|] eqn:Hfind.
    + apply find_some in Hfind as [Hh Heq].
      apply String.eqb_eq in Heq. apply list_elem_of_In in Hh.
      apply set_iter_elem in Hh.
      apply IH in Hp as [Hp|(H1 & H2 & H3)].
      * apply dict_set_elem in Hp as [Hp| ->]; [by left|].
        right. simpl. split; [left|done].
      * right. split; [by right|]. split; [|done].
        by apply list_elem_of_filter in H2 as [_ H2].
    + apply IH in Hp as [Hp|(H1 & H2 & H3)]; [by left|].
      right. split; [by right|done].
Qed.

(** The fuzzy pass keeps the pairs it starts from. *)
Lemma fuzzy_matches_keeps lib uf uh sm p :
  NoDup (sm.*1 ++ uf) -> p ∈ sm -> p ∈ fuzzy_matches lib uf uh sm.
Proof.
  revert uh sm. induction uf as [|f uf IH]; intros uh sm Hk Hp; simpl; [done|].
  apply NoDup_app in Hk as (Hk1 & Hk2 & Hk3).
  apply NoDup_cons in Hk3 as [Hf Huf].
  assert (f ∉ sm.*1) as Hfresh.
  { intros Hin. apply (Hk2 f Hin). left. }
  destruct (find _ (set_iter lib uh)) as [h|].
  - rewrite dict_set_fresh by done. apply IH.
    + rewrite fmap_app. simpl. rewrite <- app_assoc. simpl.
      apply NoDup_app. split; [done|]. split; [|by constructor]. done.
    + apply elem_of_app. by left.
  - apply IH; [|done].
    apply NoDup_app. split; [done|]. split; [|done].
    intros x Hx Hx'. apply (Hk2 x Hx). by right.
Qed.

(** The pairs of the smart mapping: a field and a column of the same
    normal form; a field that is itself a column is mapped to it. *)
Lemma smart_mapping_pairs lib names csv :
  NoDup names -> NoDup csv ->
  let sm := smart_mapping lib names csv in
  (forall f h, (f, h) ∈ sm ->
     normalize_header lib f = normalize_header lib h) /\
  (forall f, f ∈ names -> f ∈ csv -> (f, f) ∈ sm).
Proof.
  intros Hn Hc. unfold smart_mapping.
  set (em := set_inter csv names).
  assert (NoDup em) as Hem by (by apply NoDup_filter).
  assert (NoDup (set_iter lib em)) as Hem' by (by apply set_iter_NoDup).
  rewrite (exact_mapping [] (set_iter lib em)) by done. simpl.
  set (exact := (fun f => (f, f)) <$> set_iter lib em).
  assert (exact.*1 = set_iter lib em) as Hk.
  { unfold exact. rewrite <- list_fmap_compose. apply list_fmap_id. }
  split.
  - intros f h Hin. apply fuzzy_matches_pairs in Hin as [Hin|(_ & _ & Hin)];
      [|done].
    apply list_elem_of_fmap in Hin as (g & Hg & _). by inversion Hg.
  - intros f Hf Hf'. apply fuzzy_matches_keeps.
    + rewrite Hk. apply NoDup_app. split; [done|].
      split; [|by apply set_iter_NoDup, NoDup_filter].
      intros x Hx Hx'. apply set_iter_elem in Hx, Hx'.
      by apply list_elem_of_filter in Hx' as [Hx' _].
    + apply list_elem_of_fmap. exists f. split; [done|].
      apply set_iter_elem. by apply list_elem_of_filter.
Qed.

Lemma NoDup_set_of l : NoDup (set_of l).
Proof. apply NoDup_remove_dups. Qed.

Lemma elem_of_set_of x l : x ∈ set_of l <-> x ∈ l.
Proof. apply elem_of_remove_dups. Qed.

(** The mapping the worker creates, when it creates one. *)
Lemma resolve_mapping_created lib job (fs : list jobj) columns job' :
  resolve_mapping lib job fs columns = (job', true) ->
  let sm := smart_mapping lib (set_of (field_name <$> fs)) (set_of columns) in
  job' = set_column_mapping sm job /\ sm <> [] /\
  set_minus (set_of (field_name <$> filter (fun f => field_required f = true) fs))
            (dict_keys sm) = [].
Proof.
  unfold resolve_mapping. destruct (mapping_given job); [by inversion 1|].
  cbv zeta. intros H.
  destruct (set_minus _ _) eqn:Hmiss; [|by inversion H].
  destruct (dict_keys _) eqn:Hkeys; [by inversion H|].
  injection H as <-. split; [done|]. split; [|done].
  intros Hnil. by rewrite Hnil in Hkeys.
Qed.

(** X4: the column mapping the worker creates for a job that has none is
    one-to-one: no field and no column occurs twice, every pair is a field
    of the importer and a column of the file with the same normal form
    (case, surrounding white space and one trailing s aside), a field that
    is itself a column is mapped to that column, and every required field
    is mapped. *)
Theorem created_mapping_one_to_one lib job imp columns job' :
  resolve_mapping lib job (fields imp) columns = (job', true) ->
  exists sm,
    column_mapping job' = Some sm /\ sm <> [] /\
    NoDup sm.*1 /\ NoDup sm.*2 /\
    (forall f h, (f, h) ∈ sm ->
       f ∈ all_names imp /\ h ∈ columns /\
       normalize_header lib f = normalize_header lib h) /\
    (forall f, f ∈ all_names imp -> f ∈ columns -> (f, f) ∈ sm) /\
    (forall f, f ∈ required_names imp -> f ∈ sm.*1).
Proof.
  intros H. apply resolve_mapping_created in H as (-> & Hne & Hreq).
  fold (all_names imp) (required_names imp) in *.
  set (sm := smart_mapping lib (all_names imp) (set_of columns)) in *.
  destruct (smart_mapping_spec lib (all_names imp) (set_of columns))
    as (H1 & H2 & H3 & H4 & _); [apply NoDup_set_of..|].
  destruct (smart_mapping_pairs lib (all_names imp) (set_of columns))
    as (H5 & H6); [apply NoDup_set_of..|].
  fold sm in H1, H2, H3, H4, H5, H6.
  exists sm. repeat split; try done.
  - apply H3. apply list_elem_of_fmap. by exists (f, h).
  - apply elem_of_set_of, H4. apply list_elem_of_fmap. by exists (f, h).
  - by apply H5.
  - intros f Hf Hc. apply H6; [done|]. by apply elem_of_set_of.
  - intros f Hf. by apply (proj1 (set_minus_nil _ _) Hreq).
Qed.

Lemma reverse_lookup_Some (sm : list (string * string)) h f :
  reverse_lookup sm h = Some f -> (f, h) ∈ sm.
Proof.
  unfold reverse_lookup. intros H.
  destruct (last _) as [[f' h']|] eqn:Hlast; [|done].
  injection H as <-. apply last_Some_elem_of in Hlast.
  apply list_elem_of_filter in Hlast as [Hh Hin]. simpl in Hh. by subst h'.
Qed.

Lemma reverse_lookup_None (sm : list (string * string)) h f :
  reverse_lookup sm h = None -> (f, h) ∉ sm.
Proof.
  unfold reverse_lookup. intros H Hin.
  destruct (filter _ sm) as [|p l] eqn:Hf.
  - apply (proj1 (filter_nil_iff _ _) Hf (f, h) Hin). done.
  - destruct (last (p :: l)) eqn:Hlast; [done|].
    by apply last_None in Hlast.
Qed.

(** X5: renaming the columns by the mapping the worker creates never
    makes two columns share a name: when the columns of the file are
    distinct, so are the renamed columns the rows are validated under. *)
Theorem created_mapping_keeps_columns_distinct lib job imp columns job' :
  resolve_mapping lib job (fields imp) columns = (job', true) ->
  NoDup columns ->
  NoDup (renamed_columns job' columns).
Proof.
  intros H Hnd. apply resolve_mapping_created in H as (-> & Hne & _).
  fold (all_names imp) in *.
  set (sm := smart_mapping lib (all_names imp) (set_of columns)) in *.
  destruct (smart_mapping_spec lib (all_names imp) (set_of columns))
    as (H1 & H2 & H3 & H4 & _); [apply NoDup_set_of..|].
  destruct (smart_mapping_pairs lib (all_names imp) (set_of columns))
    as (_ & H6); [apply NoDup_set_of..|].
  fold sm in H1, H2, H3, H4, H6.
  unfold renamed_columns, mapping_given. simpl.
  destruct sm as [|p sm'] eqn:Hsm; [done|]. rewrite <- Hsm in *. clear Hsm p sm'.
  apply NoDup_fmap_2_strong; [|done].
  intros c1 c2 Hc1 Hc2 Heq.
  destruct (reverse_lookup sm c1) as [f1|] eqn:E1;
    destruct (reverse_lookup sm c2) as [f2|] eqn:E2; simpl in Heq.
  - subst f2. apply reverse_lookup_Some in E1, E2.
    eapply NoDup_fst_functional; eauto.
  - subst f1. apply reverse_lookup_Some in E1.
    assert ((c2, c2) ∈ sm) as Hself.
    { apply H6; [|by apply elem_of_set_of].
      apply H3. apply list_elem_of_fmap. by exists (c2, c1). }
    eapply NoDup_fst_functional; eauto.
  - subst f2. apply reverse_lookup_Some in E2.
    assert ((c1, c1) ∈ sm) as Hself.
    { apply H6; [|by apply elem_of_set_of].
      apply H3. apply list_elem_of_fmap. by exists (c1, c2). }
    eapply NoDup_fst_functional; eauto.
  - done.
Qed.


Lemma created_mapping_one_to_one_witness :
  exists sm,
    column_mapping (set_column_mapping [("account", "Accounts ")] Examples.unmapped)
      = Some sm /\ sm <> [] /\
    NoDup sm.*1 /\ NoDup sm.*2 /\
    (forall f h, (f, h) ∈ sm ->
       f ∈ all_names Examples.accounts /\ h ∈ ["Accounts "; "notes"] /\
       normalize_header Reference.basic_lib f
       = normalize_header Reference.basic_lib h) /\
    (forall f, f ∈ all_names Examples.accounts -> f ∈ ["Accounts "; "notes"] ->
       (f, f) ∈ sm) /\
    (forall f, f ∈ required_names Examples.accounts -> f ∈ sm.*1).
Proof.
  apply (created_mapping_one_to_one Reference.basic_lib Examples.unmapped
           Examples.accounts ["Accounts "; "notes"]).
  vm_compute. reflexivity.
Defined.

Lemma created_mapping_keeps_columns_distinct_witness :
  NoDup (renamed_columns
           (set_column_mapping [("account", "Accounts ")] Examples.unmapped)
           ["Accounts "; "notes"]).
Proof.
  apply (created_mapping_keeps_columns_distinct Reference.basic_lib
           Examples.unmapped Examples.accounts ["Accounts "; "notes"]).
  - vm_compute. reflexivity.
  - apply (bool_decide_unpack (NoDup ["Accounts "; "notes"])). vm_compute. exact I.
Defined.

End MappingFacts.

(** ** Facts about the single-cell edit and the save *)

Module EditFacts.
Import PyFacts DictFacts Imports Properties Stored ImportsFacts.

(** A record built from distinct headers has one entry per header, in
    order, with the value at the header's position or the empty string. *)
Lemma row_to_dict_entries headers (row : list cell) :
  NoDup headers ->
  row_to_dict headers row
  = (fun p : nat * string => (p.2, default (CStr "") (row !! p.1)))
      <$> enumerate headers.
Proof.
  intros Hnd. unfold row_to_dict.
  assert (forall (l : list (nat * string)) (acc : row_dict),
             NoDup (acc.*1 ++ l.*2) ->
             foldl (fun d '(idx, column_header) =>
                      dict_set d column_header (default (CStr "") (row !! idx)))
                   acc l
             = acc ++ ((fun p : nat * string =>
                          (p.2, default (CStr "") (row !! p.1))) <$> l)) as Hgen.
  { induction l as [|[i h] l IH]; intros acc Hacc; simpl.
    - by rewrite app_nil_r.
    - simpl in Hacc. apply NoDup_app in Hacc as (Ha & Hdisj & Hl).
      apply NoDup_cons in Hl as [Hh Hl].
      rewrite dict_set_fresh.
      + rewrite IH; [by rewrite <- app_assoc|].
        rewrite fmap_app. simpl. rewrite <- app_assoc. simpl.
        apply NoDup_app. split; [done|]. split; [done|by constructor].
      + intros Hin. apply (Hdisj h Hin). left. }
  rewrite Hgen; [done|]. simpl. by rewrite enumerate_values.
Qed.

Lemma row_to_dict_get headers (row : list cell) j h :
  NoDup headers -> headers !! j = Some h ->
  dict_get (row_to_dict headers row) h = Some (default (CStr "") (row !! j)).
Proof.
  intros Hnd Hj. rewrite row_to_dict_entries by done.
  apply dict_get_elem.
  - rewrite <- list_fmap_compose.
    replace ((fst ∘ _) <$> enumerate headers) with ((enumerate headers).*2);
      [by rewrite enumerate_values|done].
  - apply list_elem_of_fmap. exists (j, h). split; [done|].
    by apply enumerate_lookup.
Qed.

Section Tracker.

Variable validate_field : cell -> jobj -> outcome (option string).

Lemma drop_cell_errors_elem row fname es :
  exists kept,
    drop_cell_errors row (Some fname) es = Ok kept /\
    kept = filter (fun e => ~ (c_row e = Some (RowNum row)
                               /\ field_or_column e = Some fname)) es.
Proof.
  induction es as [|e es (kept & Hk & Hf)]; simpl; [by exists []|].
  rewrite Hk. simpl. rewrite filter_cons.
  destruct (decide (c_row e = Some (RowNum row))) as [Hrow|Hrow]; simpl.
  - destruct (decide (field_or_column e = Some fname)) as [Hfld|Hfld].
    + rewrite bool_decide_eq_true_2 by done. eexists. split; [done|].
      destruct (decide _) as [Hn|_]; [|done]. exfalso. by apply Hn.
    + rewrite bool_decide_eq_false_2 by done. eexists. split; [done|].
      destruct (decide _) as [_|Hn]; [by rewrite Hf|].
      exfalso. apply Hn. by intros [_ ?].
  - eexists. split; [done|].
    destruct (decide _) as [_|Hn]; [by rewrite Hf|].
    exfalso. apply Hn. by intros [? _].
Qed.

(** What a successful edit is made of. *)
Lemma apply_edit_ok job importer req :
  let h := apply_edit validate_field job importer req in
  http_status h = 200 ->
  exists pd record old kept,
    processed_data job = Some pd /\ pd_truthy (Some pd) = true /\
    0 <= row_index req < Z.of_nat (length (default [] (pd_data pd))) /\
    default [] (pd_data pd) !! Z.to_nat (row_index req) = Some record /\
    dict_get record (column_key req) = Some old /\
    drop_cell_errors (row_index req + 1)
      (validate_edit validate_field job importer req).1
      (default [] (errors job)) = Ok kept /\
    processed_data (job_after h)
    = Some (touch pd (<[Z.to_nat (row_index req) :=
                         dict_set record (column_key req)
                           (CStr (new_value req))]> (default [] (pd_data pd)))) /\
    errors (job_after h)
    = Some (match (validate_edit validate_field job importer req).1,
                  (validate_edit validate_field job importer req).2 with
            | Some field_name, Some m => kept ++ [edited_conflict req field_name m]
            | _, _ => kept
            end).
Proof.
  unfold apply_edit.
  destruct (processed_data job) as [pd|]; [|done].
  destruct (pd_truthy (Some pd)) eqn:Hpd; [|done]. simpl.
  destruct (bool_decide (0 ≤ row_index req < _)) eqn:Hrow; [|done]. simpl.
  apply bool_decide_eq_true in Hrow.
  destruct (_ !! Z.to_nat (row_index req)) as [record|] eqn:Hrec; [|done].
  destruct (dict_get record (column_key req)) as [old|] eqn:Hold; [|done].
  destruct (drop_cell_errors _ _ _) as [kept|] eqn:Hkept; [|done].
  simpl. intros _. exists pd, record, old, kept. done.
Qed.


Lemma stored_data_touch job pd data :
  stored_data (set_processed_data (touch pd data) job) = data.
Proof. done. Qed.

(** X6: a cell edit that answers 200 stores the new value in the cell of
    the requested row and column and leaves every other cell, and the
    number of rows, as they were. *)
Theorem edit_sets_one_cell job importer req :
  let h := apply_edit validate_field job importer req in
  http_status h = 200 ->
  cell_at (job_after h) (row_index req) (column_key req)
    = Some (CStr (new_value req)) /\
  (forall row column, (row, column) <> (row_index req, column_key req) ->
     cell_at (job_after h) row column = cell_at job row column) /\
  length (stored_data (job_after h)) = length (stored_data job).
Proof.
  intros h H200.
  destruct (apply_edit_ok job importer req H200)
    as (pd & record & old & kept & Hpd & Htruthy & Hrow & Hrec & Hold & _ & Hdata & _).
  fold h in Hdata.
  assert (stored_data job = default [] (pd_data pd)) as Hstored.
  { unfold stored_data. by rewrite Hpd, Htruthy. }
  assert (stored_data (job_after h)
          = <[Z.to_nat (row_index req) :=
                dict_set record (column_key req) (CStr (new_value req))]>
              (default [] (pd_data pd))) as Hnew.
  { unfold stored_data. by rewrite Hdata. }
  unfold cell_at. rewrite Hnew, Hstored. split; [|split].
  - rewrite bool_decide_eq_true_2 by lia.
    rewrite list_lookup_insert_eq by lia. simpl. apply dict_get_set_eq.
  - intros row column Hne. destruct (bool_decide (0 <= row)) eqn:Hpos; [|done].
    apply bool_decide_eq_true in Hpos.
    destruct (decide (row = row_index req)) as [->|Hr].
    + rewrite list_lookup_insert_eq by lia. rewrite Hrec. simpl.
      apply dict_get_set_ne. congruence.
    + rewrite list_lookup_insert_ne by lia. done.
  - by rewrite length_insert.
Qed.

(** X7: a cell edit answers 400 exactly when the job stores no cell for
    the requested row and column (no data, a row index outside the data,
    a column the record does not have), and an edit that does not answer
    200 leaves the job as it was. *)
Theorem edit_outside_data_rejected job importer req :
  let h := apply_edit validate_field job importer req in
  (http_status h = 400 <->
   cell_at job (row_index req) (column_key req) = None) /\
  (http_status h <> 200 -> job_after h = job).
Proof.
  unfold apply_edit, cell_at, stored_data.
  destruct (processed_data job) as [pd|] eqn:Hpd.
  2:{ simpl. split; [|done]. split; [|done]. intros _. by case_bool_decide. }
  destruct (pd_truthy (Some pd)) eqn:Htruthy; simpl.
  2:{ split; [|done]. split; [|done]. intros _. by case_bool_decide. }
  destruct (decide (0 <= row_index req < Z.of_nat (length (default [] (pd_data pd)))))
    as [Hrow|Hrow].
  2:{ rewrite (bool_decide_eq_false_2 _ Hrow). simpl. split; [|done].
      split; [|done]. intros _. case_bool_decide; [|done].
      rewrite lookup_ge_None_2; [done|lia]. }
  rewrite (bool_decide_eq_true_2 _ Hrow). simpl.
  rewrite bool_decide_eq_true_2 by lia.
  destruct (_ !! Z.to_nat (row_index req)) as [record|] eqn:Hrec; simpl; [|done].
  destruct (dict_get record (column_key req)) as [old|]; simpl; [|done].
  destruct (drop_cell_errors _ _ _); simpl; done.
Qed.

(** X8: after a cell edit that answers 200, the conflicts of the job are
    the conflicts it had on other cells, and, when the validator returns a
    message for the new value, one conflict for the edited cell with that
    message and the new value; the conflicts the edited cell had before
    are gone. *)
Theorem edit_replaces_cell_conflicts job imp req e :
  let h := apply_edit validate_field job (Some imp) req in
  let field := resolve_field_name (column_mapping job) (column_key req) in
  http_status h = 200 ->
  e ∈ default [] (errors (job_after h)) <->
  (e ∈ default [] (errors job) /\ ~ on_cell (row_index req) field e) \/
  (exists cfg m,
     find_field_config (fields imp) field = Some cfg /\
     validate_field (CStr (new_value req)) cfg = Ok (Some m) /\
     truthy_str m = true /\
     e = edited_conflict req field m).
Proof.
  intros h field H200.
  destruct (apply_edit_ok job (Some imp) req H200)
    as (pd & record & old & kept & _ & _ & _ & _ & _ & Hkept & _ & Herr).
  fold h in Herr. rewrite Herr. clear Herr. simpl.
  assert ((validate_edit validate_field job (Some imp) req).1 = Some field) as Hf.
  { unfold validate_edit. fold field.
    destruct (find_field_config _ _); [|done].
    by destruct (validate_field _ _) as [[m|]|]. }
  rewrite Hf in *.
  destruct (drop_cell_errors_elem (row_index req + 1) field
              (default [] (errors job))) as (kept' & Hk' & Hfilter).
  rewrite Hk' in Hkept. injection Hkept as <-.
  assert (forall x, x ∈ kept' <->
            x ∈ default [] (errors job) /\ ~ on_cell (row_index req) field x)
    as Hmem.
  { intros x. rewrite Hfilter, list_elem_of_filter. unfold on_cell. tauto. }
  unfold validate_edit. fold field.
  destruct (find_field_config (fields imp) field) as [cfg|] eqn:Hcfg; simpl.
  2:{ rewrite Hmem. split; [by left|]. intros [?|(? & ? & ? & _)]; done. }
  destruct (validate_field (CStr (new_value req)) cfg) as [[m|]|ex] eqn:Hv;
    simpl.
  - destruct (truthy_str m) eqn:Hm.
    + rewrite elem_of_app, list_elem_of_singleton, Hmem. split.
      * intros [?| ->]; [by left|]. right. by exists cfg, m.
      * intros [?|(cfg' & m' & Hc' & Hv' & _ & ->)]; [by left|].
        right. congruence.
    + rewrite Hmem. split; [by left|].
      intros [?|(cfg' & m' & Hc' & Hv' & Hm' & _)]; [done|]. congruence.
  - rewrite Hmem. split; [by left|].
    intros [?|(cfg' & m' & Hc' & Hv' & _)]; [done|]. congruence.
  - rewrite Hmem. split; [by left|].
    intros [?|(cfg' & m' & Hc' & Hv' & _)]; [done|]. congruence.
Qed.


Lemma optimized_save_data job importer R headers job' s :
  optimized_save_and_validate validate_field job importer R headers
    = Ok (job', s) ->
  stored_data job'
  = row_to_dict (effective_headers (stored_data job) headers) <$> R.
Proof.
  intros H. unfold optimized_save_and_validate in H.
  destruct importer as [imp|]; [|discriminate].
  apply bind_Ok in H as (cfgs & _ & H).
  apply bind_Ok in H as ([new n] & _ & H).
  apply bind_Ok in H as (unchanged & _ & H).
  injection H as H _.
  assert (processed_data job'
          = Some (store_data
                    (row_to_dict (effective_headers (stored_data job) headers)
                       <$> R)
                    (processed_data job))) as Hpd.
  { rewrite <- H. reflexivity. }
  unfold stored_data at 1. rewrite Hpd.
  by destruct (processed_data job).
Qed.

(** X9: what the diff-based save stores is what was submitted: one record
    per submitted row, and under each header the value at the header's
    position in the row, or the empty string when the row is shorter. *)
Theorem save_stores_submitted_rows job importer R headers job' s :
  let hs := effective_headers (stored_data job) headers in
  optimized_save_and_validate validate_field job importer R headers
    = Ok (job', s) ->
  NoDup hs ->
  length (stored_data job') = length R /\
  forall (i j : nat) row h,
    R !! i = Some row -> hs !! j = Some h ->
    cell_at job' (Z.of_nat i) h = Some (default (CStr "") (row !! j)).
Proof.
  intros hs H Hnd. apply optimized_save_data in H. fold hs in H.
  unfold cell_at. rewrite H. split; [by rewrite length_fmap|].
  intros i j row h Hi Hj. rewrite bool_decide_eq_true_2 by lia.
  rewrite Nat2Z.id, list_lookup_fmap, Hi. simpl.
  by apply row_to_dict_get.
Qed.

Lemma stored_rows_unchanged headers c2f (D : list row_dict) :
  find_changed_cells headers c2f D (stored_rows headers D) = [].
Proof.
  apply elem_of_nil_inv. intros c Hc.
  apply find_changed_cells_elem in Hc as (i & row & Hi & Hc).
  apply changed_in_row_elem in Hc as (j & v & h & _ & Hv & Hh & _ & Hex).
  unfold stored_rows in Hi. rewrite list_lookup_fmap in Hi.
  destruct (D !! i) as [d|] eqn:Hd; [|done]. simpl in Hi. injection Hi as <-.
  rewrite list_lookup_fmap, Hh in Hv. simpl in Hv. injection Hv as <-.
  destruct Hex as [?|(er & Her & Hne)]; [done|].
  injection Her as <-. done.
Qed.

(** X10: saving the data as it is stored validates no cell and keeps the
    conflicts of the job as they are, with the status that goes with
    their number. *)
Theorem saving_stored_data_keeps_conflicts job imp headers cfgs :
  let hs := effective_headers (stored_data job) headers in
  let es := default [] (errors job) in
  field_configs_by_name (fields imp) = Ok cfgs ->
  Forall (fun e => c_row e <> Some RowHeader) es ->
  exists job',
    optimized_save_and_validate validate_field job (Some imp)
      (stored_rows hs (stored_data job)) headers
    = Ok (job', mkSummary 0 (length es) 0 (length es)) /\
    errors job' = Some es /\
    error_count job' = Z.of_nat (length es) /\
    status job' = status_for es.
Proof.
  intros hs es Hcfgs Hrows. unfold optimized_save_and_validate.
  rewrite Hcfgs. simpl. fold hs. rewrite stored_rows_unchanged. simpl.
  destruct (unchanged_errors_total
              (changed_positions
                 (csv_column_to_field (default [] (column_mapping job))) [])
              es) as (u & Hu).
  { intros e He. pose proof (proj1 (Forall_forall _ _) Hrows e He) as Hr.
    simpl in Hr. unfold error_row_index.
    destruct (c_row e) as [[|n]|]; [done|eauto..]. }
  fold es. rewrite Hu. simpl.
  assert (u = es) as ->.
  { clear Hrows. revert u Hu. induction es as [|e es' IH]; simpl; intros u Hu.
    - by injection Hu.
    - apply bind_Ok in Hu as (r & _ & Hu).
      apply bind_Ok in Hu as (kept & Hk & Hu).
      rewrite decide_False in Hu by set_solver.
      injection Hu as <-. f_equal. by apply IH. }
  rewrite app_nil_r. eexists. split; [reflexivity|]. done.
Qed.

(** X28: the conflicts after a diff-based save are the earlier conflicts
    whose row and field are not those of a changed cell, and, for each
    changed cell whose column is mapped to a configured field and whose new
    value the validator returns a message for, the conflict of that cell. *)
Theorem diff_save_conflicts job importer R headers job' s e :
  let c2f := csv_column_to_field (default [] (column_mapping job)) in
  let cells :=
    find_changed_cells (effective_headers (stored_data job) headers) c2f
      (stored_data job) R in
  optimized_save_and_validate validate_field job importer R headers
    = Ok (job', s) ->
  exists imp cfgs,
    importer = Some imp /\ field_configs_by_name (fields imp) = Ok cfgs /\
    (e ∈ default [] (errors job') <->
     (e ∈ default [] (errors job) /\
      ~ exists c, c ∈ cells /\ cell_key c2f c = conflict_key e) \/
     (exists c, c ∈ cells /\
                Properties.cell_error validate_field c2f cfgs c e)).
Proof.
  intros c2f cells H.
  destruct (optimized_save_inv validate_field _ _ _ _ _ _ H)
    as (imp & cfgs & new & n & unchanged & -> & Hcfgs & Hnew & Hun & Herr & _).
  fold c2f cells in Hnew, Hun.
  exists imp, cfgs. split; [done|]. split; [done|].
  rewrite Herr. simpl. rewrite elem_of_app.
  rewrite (validate_changed_elem validate_field _ _ _ _ _ e Hnew).
  destruct (unchanged_errors_spec _ _ _ Hun) as (_ & Hmem & _).
  rewrite Hmem.
  assert (e ∈ default [] (errors job) ->
          ((exists r, error_row_index e = Ok r /\
                      (r, err_field e) ∉ changed_positions c2f cells) <->
           ~ exists c, c ∈ cells /\ cell_key c2f c = conflict_key e)) as Hpos.
  { intros He.
    destruct (unchanged_errors_spec _ _ _ Hun) as (_ & _ & Hok).
    destruct (Hok e He) as (r & Hr). split.
    - intros (r' & Hr' & Hnot) (c & Hc & Hkey). apply Hnot.
      apply (changed_positions_elem c2f cells). exists c. split; [done|].
      rewrite Hkey. unfold conflict_key. f_equal.
      unfold error_row_index in Hr'.
      destruct c as [[[i j] h] v]. simpl in Hkey. unfold conflict_key in Hkey.
      injection Hkey as Hrow _. rewrite <- Hrow in Hr'.
      injection Hr' as <-. rewrite <- Hrow. do 2 f_equal. lia.
    - intros Hnone. exists r. split; [done|]. intros Hin. apply Hnone.
      apply (changed_positions_elem c2f cells) in Hin as (c & Hc & Hkey).
      exists c. split; [done|]. rewrite Hkey. unfold conflict_key.
      f_equal. unfold error_row_index in Hr.
      destruct c as [[[i j] h] v]. simpl in Hkey.
      injection Hkey as Hrow _.
      destruct (c_row e) as [[|m]|]; [done| |].
      + injection Hr as <-. do 2 f_equal. lia.
      + injection Hr as <-. exfalso. lia. }
  split.
  - intros [[He Hr]|Hc]; [left|by right]. split; [done|]. by apply Hpos.
  - intros [[He Hr]|Hc]; [left|by right]. split; [done|]. by apply Hpos.
Qed.

(** X29: the legacy bulk save that does not fail leaves the job
    UNCOMPLETED with the submitted rows stored, and its conflicts are
    exactly the conflicts of the cells of the submitted rows: one for each
    cell under a header mapped to a configured field whose value the
    validator returns a message for.  Whatever conflicts the job had before
    are dropped. *)
Theorem legacy_save_conflicts job imp R headers job' e :
  let hs := legacy_headers job R headers in
  let c2f := csv_column_to_field (default [] (column_mapping job)) in
  revalidate_and_save_job validate_field (Some job) (Some imp) R headers
    = Some job' ->
  status job' <> FAILED ->
  exists cfgs,
    field_configs_by_name (fields imp) = Ok cfgs /\
    status job' = UNCOMPLETED /\
    error_count job' = Z.of_nat (length (default [] (errors job'))) /\
    stored_data job' = row_to_dict hs <$> R /\
    (e ∈ default [] (errors job') <->
     exists (i j : nat) row h v,
       R !! i = Some row /\ hs !! j = Some h /\ row !! j = Some v /\
       Properties.cell_error validate_field c2f cfgs (i, j, h, v) e).
Proof.
  intros hs c2f H Hst. unfold revalidate_and_save_job in H.
  destruct (revalidate_body _ _ _ _ _) as [j|] eqn:Hbody;
    injection H as <-; [|done].
  unfold revalidate_body in Hbody. fold hs in Hbody.
  destruct hs as [|h0 hs'] eqn:Eh; [by injection Hbody as <-|].
  rewrite <- Eh in *. clear Eh h0 hs'.
  apply bind_Ok in Hbody as (cfgs & Hcfgs & Hbody).
  apply bind_Ok in Hbody as (es & Hes & Hbody).
  fold c2f in Hes. injection Hbody as <-.
  exists cfgs. split; [done|]. split; [done|]. split; [done|].
  split.
  - unfold stored_data. simpl. by destruct (processed_data job).
  - simpl. rewrite (validate_all_elem validate_field _ _ _ _ _ e Hes).
    split.
    + intros (i & row & j & h & v & ?). by exists i, j, row, h, v.
    + intros (i & j & row & h & v & ?). by exists i, row, j, h, v.
Qed.

End Tracker.

Lemma edit_sets_one_cell_witness :
  let h := apply_edit Reference.validate_field Examples.two_rows
             (Some Examples.contacts) (mkCellRequest 1 "name" "Bob") in
  cell_at (job_after h) 1 "name" = Some (CStr "Bob") /\
  (forall row column, (row, column) <> (1, "name") ->
     cell_at (job_after h) row column = cell_at Examples.two_rows row column) /\
  length (stored_data (job_after h)) = length (stored_data Examples.two_rows).
Proof.
  apply (edit_sets_one_cell Reference.validate_field Examples.two_rows
           (Some Examples.contacts) (mkCellRequest 1 "name" "Bob")).
  vm_compute. reflexivity.
Defined.

Lemma edit_replaces_cell_conflicts_witness :
  let req := mkCellRequest 1 "name" "Bob" in
  let h := apply_edit Reference.validate_field Examples.two_rows
             (Some Examples.contacts) req in
  let e := Examples.name_required 1 in
  e ∈ default [] (errors (job_after h)) <->
  (e ∈ default [] (errors Examples.two_rows) /\ ~ on_cell 1 "name" e) \/
  (exists cfg m,
     find_field_config (fields Examples.contacts) "name" = Some cfg /\
     Reference.validate_field (CStr "Bob") cfg = Ok (Some m) /\
     truthy_str m = true /\
     e = edited_conflict req "name" m).
Proof.
  apply (edit_replaces_cell_conflicts Reference.validate_field
           Examples.two_rows Examples.contacts (mkCellRequest 1 "name" "Bob")
           (Examples.name_required 1)).
  vm_compute. reflexivity.
Defined.

Lemma save_stores_submitted_rows_witness :
  exists job' s,
    optimized_save_and_validate Reference.validate_field Examples.two_rows
      (Some Examples.contacts) [[CStr "Ann"]; [CStr "Bob"]] (Some ["name"])
    = Ok (job', s) /\
    length (stored_data job') = 2%nat /\
    forall (i j : nat) row h,
      [[CStr "Ann"]; [CStr "Bob"]] !! i = Some row -> ["name"] !! j = Some h ->
      cell_at job' (Z.of_nat i) h = Some (default (CStr "") (row !! j)).
Proof.
  eexists _, _. split; [vm_compute; reflexivity|].
  eapply (save_stores_submitted_rows Reference.validate_field Examples.two_rows
            (Some Examples.contacts) [[CStr "Ann"]; [CStr "Bob"]]
            (Some ["name"])).
  - vm_compute. reflexivity.
  - apply (bool_decide_unpack (NoDup ["name"])). vm_compute. exact I.
Defined.

Lemma saving_stored_data_keeps_conflicts_witness :
  exists job',
    optimized_save_and_validate Reference.validate_field Examples.two_rows
      (Some Examples.contacts) [[CStr "Ann"]; [CStr ""]] (Some ["name"])
    = Ok (job', mkSummary 0 1 0 1) /\
    errors job' = Some [Examples.name_required 1] /\
    error_count job' = 1 /\
    status job' = UNCOMPLETED.
Proof.
  apply (saving_stored_data_keeps_conflicts Reference.validate_field
           Examples.two_rows Examples.contacts (Some ["name"])
           (<["name" := Examples.name_field]> ∅)).
  - reflexivity.
  - repeat constructor; simpl; discriminate.
Defined.

Lemma diff_save_conflicts_witness :
  let data := [[CStr ""]; [CStr "Bob"]] in
  let e := Examples.name_required 0 in
  let c2f := csv_column_to_field (default [] (column_mapping Examples.two_rows)) in
  let cells :=
    find_changed_cells
      (effective_headers (stored_data Examples.two_rows) (Some ["name"])) c2f
      (stored_data Examples.two_rows) data in
  exists job' s,
    optimized_save_and_validate Reference.validate_field Examples.two_rows
      (Some Examples.contacts) data (Some ["name"]) = Ok (job', s) /\
    exists imp cfgs,
      Some Examples.contacts = Some imp /\
      field_configs_by_name (fields imp) = Ok cfgs /\
      (e ∈ default [] (errors job') <->
       (e ∈ default [] (errors Examples.two_rows) /\
        ~ exists c, c ∈ cells /\ cell_key c2f c = conflict_key e) \/
       (exists c, c ∈ cells /\
                  Properties.cell_error Reference.validate_field c2f cfgs c e)).
Proof.
  eexists _, _. split; [vm_compute; reflexivity|].
  eapply (diff_save_conflicts Reference.validate_field Examples.two_rows
            (Some Examples.contacts) [[CStr ""]; [CStr "Bob"]] (Some ["name"])).
  vm_compute. reflexivity.
Defined.

Lemma legacy_save_conflicts_witness :
  let data := [[CStr "Ann"]; [CStr ""]] in
  let e := Examples.name_required 1 in
  let job' := Examples.two_rows in
  let hs := legacy_headers Examples.two_rows data (Some ["name"]) in
  let c2f := csv_column_to_field (default [] (column_mapping Examples.two_rows)) in
  exists cfgs,
    field_configs_by_name (fields Examples.contacts) = Ok cfgs /\
    status job' = UNCOMPLETED /\
    error_count job' = Z.of_nat (length (default [] (errors job'))) /\
    stored_data job' = row_to_dict hs <$> data /\
    (e ∈ default [] (errors job') <->
     exists (i j : nat) row h v,
       data !! i = Some row /\ hs !! j = Some h /\ row !! j = Some v /\
       Properties.cell_error Reference.validate_field c2f cfgs (i, j, h, v) e).
Proof.
  apply (legacy_save_conflicts Reference.validate_field Examples.two_rows
           Examples.contacts [[CStr "Ann"]; [CStr ""]] (Some ["name"])
           Examples.two_rows (Examples.name_required 1)).
  - vm_compute. reflexivity.
  - vm_compute. discriminate.
Defined.

End EditFacts.

(** ** Facts about the outcome of a promotion and the first edit *)

Module FirstEditFacts.
Import PyFacts LibFacts Imports Promotion Stored.

Section Storage.

Variable lib : pylib.
Variable load_file : string -> option ApiWorker.dataframe.

(** A failed load leaves a FAILED job without data. *)
Lemma load_records_failed job importer failed :
  pd_truthy (processed_data job) = false ->
  load_records lib load_file job importer = inl failed ->
  status failed = FAILED /\ processed_data failed = processed_data job.
Proof.
  intros Hno Hl. unfold load_records in Hl.
  destruct (load_file (file_path job)) as [frame|]; [|by inversion Hl].
  destruct (ApiWorker.mapping_given job && meaningful _); [done|].
  destruct (ApiWorker.mapping_given job); [done|].
  destruct importer as [imp|]; [|done].
  destruct (check_headers lib job imp frame) as [[fj|]|] eqn:Hc;
    inversion Hl; subst; [|done].
  unfold check_headers in Hc.
  destruct (names_of _); simpl in Hc; [|done].
  destruct (names_of _); simpl in Hc; [|done].
  destruct (_ || _); inversion Hc; subst. done.
Qed.

(** The job a promotion leaves. *)
Lemma promote_outcome t job job' evs :
  pd_truthy (processed_data job) = false ->
  promote lib load_file t job = (job', evs) ->
  (status job' = FAILED /\ pd_truthy (processed_data job') = false) \/
  (pd_truthy (processed_data job') = true /\
   status job' = (if decide (status job = COMPLETED)
                  then match t with
                       | ForEditing _ _ => COMPLETED
                       | ToPortalManaged => UNCOMPLETED
                       end
                  else UNCOMPLETED) /\
   errors job' = errors job /\ error_count job' = error_count job).
Proof.
  intros Hno Hp. destruct t as [importer edit|]; simpl in Hp.
  - unfold promote_api_job_for_editing in Hp. rewrite Hno in Hp.
    destruct (negb (truthy_str (file_path job))).
    { inversion Hp; subst. by left. }
    destruct (load_records lib load_file job importer) as [failed|rows] eqn:Hl.
    { inversion Hp; subst.
      destruct (load_records_failed _ _ _ Hno Hl) as [? Hpd].
      left. by rewrite Hpd. }
    assert (forall rows',
               (if decide (status job = COMPLETED)
                then set_processed_data
                       (mkPdata (Some rows')
                          match edit with Some _ => ["first_edit"] | None => [] end)
                       job
                else set_status UNCOMPLETED
                       (set_processed_data
                          (mkPdata (Some rows')
                             match edit with
                             | Some _ => ["first_edit"] | None => []
                             end) job)) = job' ->
               pd_truthy (processed_data job') = true /\
               status job' = (if decide (status job = COMPLETED)
                              then COMPLETED else UNCOMPLETED) /\
               errors job' = errors job /\ error_count job' = error_count job)
      as Hdone.
    { intros rows' <-. by destruct (decide (status job = COMPLETED)). }
    destruct edit as [e|].
    + destruct (apply_pending rows e) as [rows'|].
      * injection Hp as Hp _. right. by apply (Hdone rows').
      * inversion Hp; subst. by left.
    + injection Hp as Hp _. right. by apply (Hdone rows).
  - unfold promote_api_job_to_portal_managed in Hp. rewrite Hno in Hp.
    destruct (load_file (file_path job)); inversion Hp; subst.
    + right. simpl. by destruct (decide (status job = COMPLETED)).
    + by left.
Qed.

(** X11: a promotion of a job without data never leaves the job in the
    state PROMOTING: either it fails, and the job is FAILED and still
    without data, or it gives the job its data, and the job is UNCOMPLETED
    (COMPLETED when the promotion for editing found it COMPLETED) with the
    conflicts and the error count it had; the rows are not validated
    again. *)
Theorem promotion_releases_lock t job job' evs :
  pd_truthy (processed_data job) = false ->
  promote lib load_file t job = (job', evs) ->
  status job' <> PROMOTING /\
  (status job' = FAILED <-> pd_truthy (processed_data job') = false) /\
  (status job' <> FAILED ->
   (status job' = UNCOMPLETED \/
    status job' = COMPLETED /\ status job = COMPLETED) /\
   errors job' = errors job /\ error_count job' = error_count job).
Proof.
  intros Hno Hp.
  destruct (promote_outcome t job job' evs Hno Hp)
    as [[Hst Hpd]|(Hpd & Hst & He & Hn)].
  - rewrite Hst, Hpd. repeat split; try done.
  - rewrite Hpd. destruct (decide (status job = COMPLETED)) as [Hc|Hc].
    + destruct t; rewrite Hst; repeat split; try done; auto.
    + rewrite Hst. repeat split; try done; auto.
Qed.

(** The records made of a frame: one per row, the values under the
    columns. *)
Lemma records_cell frame (i j : nat) row h :
  NoDup (ApiWorker.df_columns frame) ->
  ApiWorker.df_rows frame !! i = Some row ->
  ApiWorker.df_columns frame !! j = Some h ->
  (records frame !! i ≫= fun record => dict_get record h)
  = Some (CStr (default "" (row !! j))).
Proof.
  intros Hnd Hi Hj. unfold records. rewrite list_lookup_fmap, Hi. simpl.
  rewrite (EditFacts.row_to_dict_get _ _ j) by done.
  rewrite list_lookup_fmap. by destruct (row !! j).
Qed.

(** The rows a promotion without a pending edit stores. *)
Lemma promote_rows t job job' evs :
  pd_truthy (processed_data job) = false ->
  promote lib load_file t job = (job', evs) ->
  status job' <> FAILED ->
  match t with ForEditing _ (Some _) => False | _ => True end ->
  exists frame frame',
    load_file (file_path job) = Some frame /\
    (frame' = frame \/
     frame' = rename_by (default [] (column_mapping job)) frame) /\
    stored_data job' = records frame' /\
    evs = [FileLoad (file_path job); DataWrite (records frame')].
Proof.
  intros Hno Hp Hst Ht. destruct t as [importer [e|]|]; [done| |].
  - simpl in Hp. unfold promote_api_job_for_editing in Hp. rewrite Hno in Hp.
    destruct (negb (truthy_str (file_path job))).
    { injection Hp as <- _. done. }
    destruct (load_records lib load_file job importer) as [failed|rows] eqn:Hl.
    { injection Hp as <- _.
      by destruct (load_records_failed _ _ _ Hno Hl) as [? _]. }
    assert (exists frame frame',
               load_file (file_path job) = Some frame /\
               (frame' = frame \/
                frame' = rename_by (default [] (column_mapping job)) frame) /\
               rows = records frame') as (frame & frame' & Hf & Hc & ->).
    { unfold load_records in Hl.
      destruct (load_file (file_path job)) as [frame|]; [|done].
      destruct (ApiWorker.mapping_given job && meaningful _).
      { injection Hl as <-. eauto 10. }
      destruct (ApiWorker.mapping_given job).
      { injection Hl as <-. eauto 10. }
      destruct importer as [imp|]; [|injection Hl as <-; eauto 10].
      destruct (check_headers lib job imp frame) as [[fj|]|]; [done| |done].
      injection Hl as <-. eauto 10. }
    exists frame, frame'. split; [done|]. split; [done|].
    injection Hp as <- <-. split; [|done].
    unfold stored_data. by destruct (decide (status job = COMPLETED)).
  - simpl in Hp. unfold promote_api_job_to_portal_managed in Hp.
    rewrite Hno in Hp.
    destruct (load_file (file_path job)) as [frame|]; [|by injection Hp as <- _].
    injection Hp as <- <-.
    exists frame,
      (if ApiWorker.mapping_given job
       then rename_by (default [] (column_mapping job)) frame else frame).
    split; [done|]. split; [by destruct (ApiWorker.mapping_given job); auto|].
    done.
Qed.

(** X26: a promotion without a pending edit that does not fail stores the
    rows of the file: one record per row, and under each column of the file
    (renamed through the column mapping where the promotion renames) the
    value of the row at the position of the column, or the empty string for
    a row that is shorter; it loads the file once and writes these records
    once. *)
Theorem promotion_stores_file_rows t job job' evs :
  pd_truthy (processed_data job) = false ->
  promote lib load_file t job = (job', evs) ->
  status job' <> FAILED ->
  match t with ForEditing _ (Some _) => False | _ => True end ->
  exists frame frame',
    load_file (file_path job) = Some frame /\
    (frame' = frame \/
     frame' = rename_by (default [] (column_mapping job)) frame) /\
    evs = [FileLoad (file_path job); DataWrite (stored_data job')] /\
    length (stored_data job') = length (ApiWorker.df_rows frame) /\
    (NoDup (ApiWorker.df_columns frame') ->
     forall (i j : nat) row h,
       ApiWorker.df_rows frame !! i = Some row ->
       ApiWorker.df_columns frame' !! j = Some h ->
       cell_at job' (Z.of_nat i) h = Some (CStr (default "" (row !! j)))).
Proof.
  intros Hno Hp Hst Ht.
  destruct (promote_rows t job job' evs Hno Hp Hst Ht)
    as (frame & frame' & Hf & Hc & Hdata & Hevs).
  exists frame, frame'. split; [done|]. split; [done|].
  rewrite Hdata. split; [done|].
  assert (ApiWorker.df_rows frame' = ApiWorker.df_rows frame) as Hrows.
  { by destruct Hc as [->| ->]. }
  split; [unfold records; by rewrite length_fmap, Hrows|].
  intros Hnd i j row h Hi Hj. unfold cell_at.
  rewrite bool_decide_eq_true_2 by lia. rewrite Nat2Z.id, Hdata.
  apply records_cell; [done| |done]. by rewrite Hrows.
Qed.

Lemma names_of_named (fs : list jobj) names :
  names_of fs = Ok names ->
  names = ApiWorker.field_name <$> fs /\
  forall P `{!forall f, Decision (P f)},
    names_of (filter P fs) = Ok (ApiWorker.field_name <$> filter P fs).
Proof.
  revert names. induction fs as [|f fs IH]; simpl; intros names H.
  - injection H as <-. done.
  - apply bind_Ok in H as (n & Hn & H). apply bind_Ok in H as (r & Hr & H).
    injection H as <-. destruct (IH r Hr) as [-> Hfilter].
    assert (ApiWorker.field_name f = n) as Hname.
    { unfold Imports.field_name_of in Hn. unfold ApiWorker.field_name.
      destruct (dict_get f "name") as [[]|]; try done. by injection Hn. }
    split; [by rewrite Hname|].
    intros P Hdec. rewrite filter_cons. destruct (decide (P f)); [|apply Hfilter].
    simpl. rewrite Hn. simpl. rewrite Hfilter. simpl. by rewrite Hname.
Qed.

(** X27: the header rule of the promotion for editing, for a job without
    column mapping: the promotion fails when a required field is not a
    column of the file or when fewer than half of the fields are columns of
    the file.  The failed job is FAILED with the header-mismatch message and
    one Header conflict per missing required field, in the order in which
    the loop draws the fields from their set: none at all when only the
    second condition fails.  Otherwise the job gets its rows. *)
Theorem promotion_header_rule job imp frame names :
  let missing :=
    ApiWorker.set_minus (Properties.required_names imp)
      (ApiWorker.set_of (ApiWorker.df_columns frame)) in
  let overlap :=
    ApiWorker.set_inter (Properties.all_names imp)
      (ApiWorker.set_of (ApiWorker.df_columns frame)) in
  let p := promote_api_job_for_editing lib load_file job (Some imp) None in
  pd_truthy (processed_data job) = false ->
  truthy_str (file_path job) = true ->
  ApiWorker.mapping_given job = false ->
  load_file (file_path job) = Some frame ->
  names_of (fields imp) = Ok names ->
  if decide (missing <> [] \/
             2 * Z.of_nat (length overlap)
             < Z.of_nat (length (Properties.all_names imp)))
  then
    status p.1 = FAILED /\
    error_message p.1 = Some header_mismatch_message /\
    errors p.1
    = Some ((fun f => ApiWorker.header_conflict f
                        ("Required field '" +:+ f
                         +:+ "' is missing from the CSV file."))
              <$> set_iter lib missing) /\
    error_count p.1 = Z.of_nat (length missing) /\
    processed_data p.1 = processed_data job
  else
    status p.1 = (if decide (status job = COMPLETED) then COMPLETED
                  else UNCOMPLETED) /\
    stored_data p.1 = records frame.
Proof.
  intros missing overlap p Hno Hpath Hmap Hload Hnames.
  destruct (names_of_named _ _ Hnames) as [-> Hreq].
  unfold p, promote_api_job_for_editing, load_records.
  rewrite Hno, Hpath, Hload, Hmap. simpl.
  unfold check_headers. rewrite Hnames, Hreq. simpl.
  fold (Properties.required_names imp) (Properties.all_names imp).
  fold missing overlap.
  destruct (decide _) as [Hfail|Hok].
  - assert ((0 <? length missing)%nat
            || (2 * Z.of_nat (length overlap)
                <? Z.of_nat (length (Properties.all_names imp))) = true) as ->.
    { apply orb_true_iff. destruct Hfail as [Hm|Ho].
      - left. apply Nat.ltb_lt. destruct missing; [done|simpl; lia].
      - right. by apply Z.ltb_lt. }
    simpl. by rewrite length_fmap, set_iter_length.
  - assert ((0 <? length missing)%nat
            || (2 * Z.of_nat (length overlap)
                <? Z.of_nat (length (Properties.all_names imp))) = false) as ->.
    { apply orb_false_iff. split.
      - apply Nat.ltb_ge. destruct missing; [done|]. exfalso. apply Hok. by left.
      - apply Z.ltb_ge. lia. }
    simpl. unfold stored_data.
    by destruct (decide (status job = COMPLETED)).
Qed.

Section Tracker.

Variable validate_field : cell -> jobj -> outcome (option string).

Lemma poll_ready observe i n k :
  (k < n)%nat ->
  (forall j, (j < k)%nat -> ready (observe (i + j)%nat) = false) ->
  ready (observe (i + k)%nat) = true ->
  poll observe i n = Some (observe (i + k)%nat).
Proof.
  revert i k. induction n as [|n IH]; intros i k Hk Hbefore Hready; [lia|].
  simpl. destruct k as [|k].
  - rewrite Nat.add_0_r in Hready. unfold ready in Hready. rewrite Hready.
    by rewrite Nat.add_0_r.
  - pose proof (Hbefore 0%nat ltac:(lia)) as H0. rewrite Nat.add_0_r in H0.
    unfold ready in H0. rewrite H0.
    replace (i + S k)%nat with (S i + k)%nat by lia. apply IH; [lia| |].
    + intros j Hj. replace (S i + j)%nat with (i + S j)%nat by lia.
      apply Hbefore. lia.
    + by replace (S i + k)%nat with (i + S k)%nat by lia.
Qed.

Lemma poll_never observe i n :
  (forall j, (j < n)%nat -> ready (observe (i + j)%nat) = false) ->
  poll observe i n = None.
Proof.
  revert i. induction n as [|n IH]; intros i Hnever; [done|].
  simpl. pose proof (Hnever 0%nat ltac:(lia)) as H0.
  rewrite Nat.add_0_r in H0. unfold ready in H0. rewrite H0.
  apply IH. intros j Hj. replace (S i + j)%nat with (i + S j)%nat by lia.
  apply Hnever. lia.
Qed.

(** X12: the first edit of a job whose rows are still in its file locks
    the job, starts the promotion and waits for it.  When the promoted job
    shows up within the thirty refreshes, the edit is applied to it; when
    the promotion failed, the request answers 425 and the job is left
    FAILED. *)
Theorem first_edit_waits_for_promotion observe job importer req (k : nat) :
  let locked := set_status PROMOTING job in
  let promoted :=
    (promote_api_job_for_editing lib load_file locked importer None).1 in
  pd_truthy (processed_data job) = false ->
  truthy_str (file_path job) = true ->
  status job <> PROMOTING ->
  (k < 30)%nat ->
  (forall i, (i < k)%nat -> observe i = locked) ->
  (forall i, (k <= i)%nat -> observe i = promoted) ->
  update_cell validate_field observe job importer req
  = if decide (status promoted = FAILED)
    then mkHandled 425 promoted true
    else
      let h := apply_edit validate_field promoted importer req in
      mkHandled (http_status h) (job_after h) true.
Proof.
  intros locked promoted Hno Hpath Hst Hk Hbefore Hafter.
  unfold update_cell. rewrite Hno, Hpath. cbn [negb andb].
  destruct (decide (status job = PROMOTING)); [done|].
  assert (ready locked = false) as Hlocked.
  { unfold ready, locked. simpl. by rewrite Hno. }
  assert (promote lib load_file (ForEditing importer None) locked
          = (promoted,
             (promote_api_job_for_editing lib load_file locked importer None).2))
    as Hp.
  { unfold promoted. simpl.
    by destruct (promote_api_job_for_editing lib load_file locked importer None). }
  assert (pd_truthy (processed_data locked) = false) as Hno' by done.
  destruct (promote_outcome _ _ _ _ Hno' Hp) as [[Hf Hpd]|(Hpd & Hs & _)].
  - rewrite decide_True by done.
    rewrite poll_never.
    + by rewrite (Hafter 29%nat) by lia.
    + intros j Hj. simpl. destruct (decide (j < k)%nat).
      * by rewrite Hbefore.
      * rewrite Hafter by lia. unfold ready. by rewrite Hpd.
  - assert (status promoted = UNCOMPLETED) as Hu.
    { rewrite Hs. by destruct (decide (status locked = COMPLETED)). }
    rewrite decide_False by (by rewrite Hu).
    rewrite (poll_ready observe 0 30 k Hk).
    + simpl. by rewrite Hafter by lia.
    + intros j Hj. simpl. by rewrite Hbefore.
    + simpl. rewrite Hafter by lia. unfold ready. by rewrite Hpd, Hu.
Qed.

End Tracker.

End Storage.

Lemma promotion_releases_lock_witness :
  let job := Examples.file_backed [Examples.missing_name] FAILED in
  exists job' evs,
    promote Reference.basic_lib Examples.contacts_file ToPortalManaged job = (job', evs) /\
    status job' <> PROMOTING /\
    (status job' = FAILED <-> pd_truthy (processed_data job') = false) /\
    (status job' <> FAILED ->
     (status job' = UNCOMPLETED \/
      status job' = COMPLETED /\ status job = COMPLETED) /\
     errors job' = errors job /\ error_count job' = error_count job).
Proof.
  eexists _, _. split; [vm_compute; reflexivity|].
  eapply (promotion_releases_lock Reference.basic_lib Examples.contacts_file
            ToPortalManaged
            (Examples.file_backed [Examples.missing_name] FAILED)).
  - reflexivity.
  - vm_compute. reflexivity.
Defined.

Lemma promotion_stores_file_rows_witness :
  let job := Examples.file_backed [] UNCOMPLETED in
  exists job' evs,
    promote Reference.basic_lib Examples.contacts_file ToPortalManaged job = (job', evs) /\
    exists frame frame',
      Examples.contacts_file (file_path job) = Some frame /\
      (frame' = frame \/
       frame' = rename_by (default [] (column_mapping job)) frame) /\
      evs = [FileLoad (file_path job); DataWrite (stored_data job')] /\
      length (stored_data job') = length (ApiWorker.df_rows frame) /\
      (NoDup (ApiWorker.df_columns frame') ->
       forall (i j : nat) row h,
         ApiWorker.df_rows frame !! i = Some row ->
         ApiWorker.df_columns frame' !! j = Some h ->
         cell_at job' (Z.of_nat i) h = Some (CStr (default "" (row !! j)))).
Proof.
  eexists _, _. split; [vm_compute; reflexivity|].
  eapply (promotion_stores_file_rows Reference.basic_lib
            Examples.contacts_file ToPortalManaged
            (Examples.file_backed [] UNCOMPLETED)).
  - reflexivity.
  - vm_compute. reflexivity.
  - vm_compute. discriminate.
  - exact I.
Defined.

Lemma promotion_header_rule_witness :
  let job := Samples.fresh_contacts in
  let imp := Examples.accounts in
  let frame := ApiWorker.mkDf ["name"] [["Ann"]; [""]] in
  let missing :=
    ApiWorker.set_minus (Properties.required_names imp)
      (ApiWorker.set_of (ApiWorker.df_columns frame)) in
  let overlap :=
    ApiWorker.set_inter (Properties.all_names imp)
      (ApiWorker.set_of (ApiWorker.df_columns frame)) in
  let p := promote_api_job_for_editing Reference.basic_lib Examples.contacts_file job (Some imp)
             None in
  if decide (missing <> [] \/
             2 * Z.of_nat (length overlap)
             < Z.of_nat (length (Properties.all_names imp)))
  then
    status p.1 = FAILED /\
    error_message p.1 = Some header_mismatch_message /\
    errors p.1
    = Some ((fun f => ApiWorker.header_conflict f
                        ("Required field '" +:+ f
                         +:+ "' is missing from the CSV file."))
              <$> set_iter Reference.basic_lib missing) /\
    error_count p.1 = Z.of_nat (length missing) /\
    processed_data p.1 = processed_data job
  else
    status p.1 = (if decide (status job = COMPLETED) then COMPLETED
                  else UNCOMPLETED) /\
    stored_data p.1 = records frame.
Proof.
  apply (promotion_header_rule Reference.basic_lib Examples.contacts_file
           Samples.fresh_contacts
           Examples.accounts (ApiWorker.mkDf ["name"] [["Ann"]; [""]])
           ["account"; "email"; "phone"; "city"]).
  - reflexivity.
  - vm_compute. reflexivity.
  - reflexivity.
  - vm_compute. reflexivity.
  - vm_compute. reflexivity.
Defined.

Lemma first_edit_waits_for_promotion_witness :
  let job := Examples.file_backed [] UNCOMPLETED in
  let req := mkCellRequest 1 "name" "Bob" in
  let promoted :=
    (promote_api_job_for_editing Reference.basic_lib Examples.contacts_file
       (set_status PROMOTING job) (Some Examples.contacts) None).1 in
  update_cell Reference.validate_field (fun _ => promoted) job
    (Some Examples.contacts) req
  = if decide (status promoted = FAILED)
    then mkHandled 425 promoted true
    else
      let h := apply_edit Reference.validate_field promoted
                 (Some Examples.contacts) req in
      mkHandled (http_status h) (job_after h) true.
Proof.
  apply (first_edit_waits_for_promotion Reference.basic_lib
           Examples.contacts_file Reference.validate_field _
           (Examples.file_backed [] UNCOMPLETED) (Some Examples.contacts)
           (mkCellRequest 1 "name" "Bob") 0).
  - reflexivity.
  - vm_compute. reflexivity.
  - vm_compute. discriminate.
  - lia.
  - intros i Hi. lia.
  - intros i _. reflexivity.
Defined.

End FirstEditFacts.

(** ** Facts about the e-mail pattern *)

Module EmailFacts.
Import Stdlib.Strings.Ascii PyFacts PyStr Shapes.

Lemma newline_is_space c : is_char "010" c = true -> is_email_char c = false.
Proof.
  unfold is_char. intros H. apply Ascii.eqb_eq in H. by subst c.
Qed.

Lemma has_inner_dot_split l :
  has_inner_dot l = true ->
  exists a b, l = a ++ "."%char :: b /\ a <> [] /\ b <> [].
Proof.
  induction l as [|x l IH]; [done|].
  destruct l as [|y [|z r]]; [done..|].
  change (has_inner_dot (x :: y :: z :: r))
    with (is_char "." y || has_inner_dot (y :: z :: r)).
  intros H. apply orb_true_iff in H as [H|H].
  - unfold is_char in H. apply Ascii.eqb_eq in H. subst y.
    by exists [x], (z :: r).
  - destruct (IH H) as (a & b & Hab & Ha & Hb).
    exists (x :: a), b. rewrite Hab. done.
Qed.

Lemma has_inner_dot_app a b :
  a <> [] -> b <> [] -> has_inner_dot (a ++ "."%char :: b) = true.
Proof.
  intros Ha Hb. induction a as [|x a IH]; [done|].
  destruct b as [|z r]; [done|].
  destruct a as [|y a']; [done|].
  specialize (IH ltac:(done)).
  change ((x :: y :: a') ++ "."%char :: z :: r)
    with (x :: y :: (a' ++ "."%char :: z :: r)).
  change ((y :: a') ++ "."%char :: z :: r)
    with (y :: (a' ++ "."%char :: z :: r)) in IH.
  destruct (a' ++ "."%char :: z :: r) as [|u w] eqn:Heq;
    [by destruct a'|].
  change (has_inner_dot (x :: y :: u :: w))
    with (is_char "." y || has_inner_dot (y :: u :: w)).
  rewrite IH. apply orb_true_r.
Qed.

Lemma forallb_Forall {A} (f : A -> bool) (l : list A) :
  forallb f l = true <-> Forall (fun x => f x = true) l.
Proof.
  induction l as [|x l IH]; simpl; [done|].
  rewrite andb_true_iff, Forall_cons, IH. done.
Qed.

(** The part of a value the pattern reads after the [@], without the
    newline [$] allows at the end. *)
Lemma domain_body l :
  exists tail,
    l = match rev l with
        | nl :: l' => if is_char "010" nl then rev l' else l
        | [] => l
        end ++ tail /\
    at_end tail = true /\
    (tail = [] ->
     match rev l with
     | nl :: l' => if is_char "010" nl then rev l' else l
     | [] => l
     end = l).
Proof.
  destruct (rev l) as [|nl l'] eqn:Hrev.
  - exists []. by rewrite app_nil_r.
  - destruct (is_char "010" nl) eqn:Hnl.
    + exists [nl]. split; [|done].
      rewrite <- (rev_involutive l) at 1. rewrite Hrev. done.
    + exists []. by rewrite app_nil_r.
Qed.

Lemma domain_shape body :
  forallb is_email_char body && has_inner_dot body = true <->
  exists a b, body = a ++ "."%char :: b /\ plain a /\ plain b.
Proof.
  rewrite andb_true_iff, forallb_Forall. split.
  - intros [Hall Hdot].
    apply has_inner_dot_split in Hdot as (a & b & -> & Ha & Hb).
    apply Forall_app in Hall as [Hfa Hfb].
    apply Forall_cons in Hfb as [_ Hfb]. by exists a, b.
  - intros (a & b & -> & [Ha Hfa] & [Hb Hfb]). split.
    + apply Forall_app. split; [done|]. by constructor.
    + by apply has_inner_dot_app.
Qed.

Lemma match_domain_shape l :
  match_domain l = true <->
  exists a b tail, l = a ++ "."%char :: b ++ tail /\ plain a /\ plain b /\
                   at_end tail = true.
Proof.
  unfold match_domain. cbv zeta. split.
  - intros H. destruct (domain_body l) as (tail & Hl & Ht & _).
    apply domain_shape in H as (a & b & Hab & Ha & Hb).
    exists a, b, tail. rewrite Hl at 1. rewrite Hab.
    by rewrite <- app_assoc.
  - intros (a & b & tail & -> & Ha & Hb & Htail).
    apply domain_shape. exists a, b. split; [|done].
    destruct tail as [|nl [|]]; [| |done].
    + rewrite app_nil_r.
      destruct (rev (a ++ "."%char :: b)) as [|c l'] eqn:Hrev; [done|].
      destruct (is_char "010" c) eqn:Hc; [|done]. exfalso.
      apply newline_is_space in Hc.
      assert (c ∈ a ++ "."%char :: b) as Hin.
      { rewrite <- (rev_involutive (a ++ "."%char :: b)), Hrev. simpl.
        apply elem_of_app. right. left. }
      destruct Ha as [_ Hfa]. destruct Hb as [_ Hfb].
      apply elem_of_app in Hin as [Hin|Hin].
      * pose proof (proj1 (Forall_forall _ _) Hfa c Hin) as Hc'.
        simpl in Hc'. congruence.
      * apply elem_of_cons in Hin as [->|Hin]; [done|].
        pose proof (proj1 (Forall_forall _ _) Hfb c Hin) as Hc'.
        simpl in Hc'. congruence.
    + simpl in Htail.
      replace (a ++ "."%char :: b ++ [nl]) with ((a ++ "."%char :: b) ++ [nl])
        by (by rewrite <- app_assoc).
      rewrite rev_app_distr. simpl. rewrite Htail. apply rev_involutive.
Qed.

Lemma match_email_chars_shape l seen :
  match_email_chars l seen = true <->
  exists local rest,
    l = local ++ "@"%char :: rest /\
    Forall (fun c => is_email_char c = true) local /\
    (seen = true \/ local <> []) /\ match_domain rest = true.
Proof.
  revert seen. induction l as [|c l IH]; intros seen; cbn [match_email_chars].
  - split; [done|]. intros (local & rest & H & _). by destruct local.
  - destruct (is_char "@" c) eqn:Hat.
    + unfold is_char in Hat. apply Ascii.eqb_eq in Hat. subst c.
      rewrite andb_true_iff. split.
      * intros [-> Hd]. exists [], l. auto.
      * intros (local & rest & Heq & Hf & Hs & Hd).
        destruct local as [|c local].
        -- injection Heq as ->. by destruct Hs.
        -- injection Heq as <- _. by apply Forall_cons in Hf as [? _].
    + destruct (is_space c) eqn:Hsp.
      * split; [done|]. intros (local & rest & Heq & Hf & _).
        destruct local as [|c' local].
        -- injection Heq as -> _. done.
        -- injection Heq as <- _. apply Forall_cons in Hf as [Hc _].
           unfold is_email_char in Hc. by rewrite Hsp in Hc.
      * rewrite IH. split.
        -- intros (local & rest & -> & Hf & _ & Hd).
           exists (c :: local), rest. split; [done|]. split; [|auto].
           constructor; [|done]. unfold is_email_char. by rewrite Hsp, Hat.
        -- intros (local & rest & Heq & Hf & _ & Hd).
           destruct local as [|c' local].
           ++ injection Heq as -> _. done.
           ++ injection Heq as <- ->. apply Forall_cons in Hf as [_ Hf].
              exists local, rest. auto.
Qed.

(** The e-mail pattern matches exactly the values of the form
    [local@a.b]. *)
Lemma match_email_shape value : match_email value = true <-> email_shape value.
Proof.
  unfold match_email, email_shape. rewrite match_email_chars_shape. split.
  - intros (local & rest & Heq & Hf & [?|Hne] & Hd); [done|].
    apply match_domain_shape in Hd as (a & b & tail & -> & Ha & Hb & Ht).
    exists local, a, b, tail. done.
  - intros (local & a & b & tail & Heq & [Hne Hf] & Ha & Hb & Ht).
    exists local, (a ++ "."%char :: b ++ tail). split; [done|]. split; [done|].
    split; [by right|]. apply match_domain_shape. by exists a, b, tail.
Qed.

End EmailFacts.

(** ** Facts about what the two field validators take *)

Module AcceptanceFacts.
Import Stdlib.Strings.Ascii PyFacts LibFacts DictFacts PyStr Shapes Properties
  EmailFacts Samples.

Lemma strip_empty : strip "" = "".
Proof. reflexivity. Qed.

Lemma py_strip_empty lib : py_strip lib "" = "".
Proof. by rewrite (py_strip_ascii lib "" eq_refl). Qed.

(** A value with something left once trimmed is neither blank for the
    worker nor empty for the portal. *)
Lemma not_blank lib v :
  py_strip lib v <> "" ->
  Validator.is_blank lib (CStr v) = false /\
  ValidationService.is_empty (CStr v) = false /\
  String.eqb (py_strip lib v) "" = false.
Proof.
  intros Hv.
  assert (v <> "") as Hne by (intros ->; apply Hv, py_strip_empty).
  apply String.eqb_neq in Hv, Hne. simpl. by rewrite Hv, Hne.
Qed.

(** The required check of the portal passes a value that is not blank. *)
Lemma portal_required_passes lib v name (required : bool) :
  py_strip lib v <> "" ->
  (if required then ValidationService.validate_required lib (CStr v) name
   else None) = None.
Proof.
  intros Hv. destruct required; [|done].
  unfold ValidationService.validate_required. simpl.
  by rewrite (proj2 (proj2 (not_blank lib v Hv))).
Qed.

(** The portal lowers the type of the field; the names of the types are
    ASCII text. *)
Ltac lower_type lib t :=
  rewrite (py_lower_ascii lib t eq_refl);
  change (lower t) with t;
  cbn [mem_string existsb String.eqb Ascii.eqb Bool.eqb orb].

(** X13: for an e-mail field and a value that is not blank, the validator
    of the worker and the validator of the portal return, and both take the
    value exactly when the e-mail pattern matches it once trimmed; otherwise
    each returns its message.  For a value of ASCII characters this is: the
    value, trimmed of surrounding white space, has the form [local@a.b],
    where [local], [a] and [b] are not empty and hold no white space and no
    [@]. *)
Theorem email_acceptance lib field_config v :
  dict_get field_config "type" = Some (PStr "email") ->
  py_strip lib v <> "" ->
  let name := py_format (default (PStr "Field") (dict_get field_config "name")) in
  ((re_email lib (py_strip lib v) = true /\
    Validator.validate_field lib (CStr v) field_config = Ok None /\
    ValidationService.validate_field lib (CStr v) field_config = Ok None) \/
   (re_email lib (py_strip lib v) = false /\
    Validator.validate_field lib (CStr v) field_config
    = Ok (Some "Must be a valid email address") /\
    ValidationService.validate_field lib (CStr v) field_config
    = Ok (Some (name +:+ " must be a valid email address")))) /\
  (isascii v = true ->
   (re_email lib (py_strip lib v) = true <-> email_shape (strip v))).
Proof.
  intros Htype Hv name.
  destruct (not_blank lib v Hv) as (Hblank & Hempty & Hstrip).
  assert (Validator.validate_field lib (CStr v) field_config
          = if re_email lib (py_strip lib v) then Ok None
            else Ok (Some "Must be a valid email address")) as Hworker.
  { unfold Validator.validate_field, Validator.validate_checked. cbv zeta.
    cbn [Validator.blank Validator.text_of].
    rewrite Hblank, andb_false_r. unfold dget. rewrite Htype. simpl.
    unfold Validator.validate_email. by destruct (re_email lib _). }
  assert (ValidationService.validate_field lib (CStr v) field_config
          = if re_email lib (py_strip lib v) then Ok None
            else Ok (Some (name +:+ " must be a valid email address")))
    as Hportal.
  { unfold ValidationService.validate_field. cbv zeta.
    rewrite Htype. cbn [default from_option id str_lower bind].
    rewrite (portal_required_passes lib v _ _ Hv).
    rewrite Hempty, andb_false_r.
    lower_type lib "email".
    unfold ValidationService.validate_email. rewrite Hempty. simpl.
    by destruct (re_email lib _). }
  rewrite Hworker, Hportal. split.
  - destruct (re_email lib _); [by left|by right].
  - intros Ha. rewrite (py_strip_ascii lib v Ha).
    rewrite (re_email_ascii lib (strip v)) by by apply isascii_strip.
    apply match_email_shape.
Qed.


Lemma dict_update_get (r d : jobj) k :
  wf_dict d ->
  dict_get (Validator.dict_update r d) k
  = match dict_get d k with
    | Some v => Some v
    | None => dict_get r k
    end.
Proof.
  unfold Validator.dict_update, wf_dict. revert r.
  induction d as [|[k0 v0] d IH]; intros r Hwf; simpl; [done|].
  simpl in Hwf. apply NoDup_cons in Hwf as [Hk0 Hwf].
  rewrite IH by done. destruct (decide (k0 = k)) as [->|Hne].
  - rewrite dict_get_None by done. apply dict_get_set_eq.
  - by rewrite dict_get_set_ne.
Qed.

Lemma legacy_keys_get (r legacy : jobj) k :
  dict_get
    (foldl (fun (r : jobj) (p : string * pyval) =>
              if String.eqb p.1 "extra_rules" then r
              else match dict_get r p.1 with
                   | Some _ => r
                   | None => dict_set r p.1 p.2
                   end) r legacy) k
  = match dict_get r k with
    | Some v => Some v
    | None => if decide (k = "extra_rules") then None else dict_get legacy k
    end.
Proof.
  revert r. induction legacy as [|[k0 v0] l IH]; intros r; simpl.
  - destruct (dict_get r k); [done|]. by destruct (decide _).
  - rewrite IH. clear IH. destruct (String.eqb k0 "extra_rules") eqn:Hex.
    + apply String.eqb_eq in Hex. subst k0.
      destruct (dict_get r k); [done|].
      destruct (decide (k = "extra_rules")) as [->|Hne]; [done|].
      by destruct (decide ("extra_rules" = k)).
    + apply String.eqb_neq in Hex.
      destruct (decide (k0 = k)) as [->|Hne].
      * destruct (dict_get r k) as [w|] eqn:Hr; [by rewrite Hr|].
        rewrite dict_get_set_eq.
        by destruct (decide (k = "extra_rules")).
      * destruct (dict_get r k0); [done|].
        by rewrite dict_get_set_ne.
Qed.

Lemma merged_rules_lookup field_config k :
  let top := as_dict (dget field_config "extra_rules") in
  let legacy := as_dict (dget field_config "validation") in
  let nested := as_dict (dget legacy "extra_rules") in
  wf_dict top -> wf_dict nested ->
  dict_get (Validator.merged_rules field_config) k
  = match dict_get nested k with
    | Some v => Some v
    | None =>
        match dict_get top k with
        | Some v => Some v
        | None =>
            if decide (k = "extra_rules") then None else dict_get legacy k
        end
    end.
Proof.
  intros top legacy nested Htop Hnested. unfold Validator.merged_rules.
  cbv zeta.
  assert (match dget field_config "extra_rules" with
          | PDict d => Validator.dict_update [] d
          | _ => []
          end = Validator.dict_update [] top) as ->.
  { unfold top. by destruct (dget field_config "extra_rules"). }
  assert (forall x, dict_get (Validator.dict_update [] top) x = dict_get top x)
    as Hrules1.
  { intros x. rewrite dict_update_get by done. by destruct (dict_get top x). }
  assert (py_or (dget field_config "validation") (PDict []) = PDict legacy
          \/ (legacy = [] /\
              forall d, py_or (dget field_config "validation") (PDict [])
                        <> PDict d)) as [Hl|[Hl Hn]].
  { unfold legacy, py_or.
    destruct (dget field_config "validation") as [|b|z|s|l|d]; simpl;
      [|destruct b|destruct (Z.eqb z 0)|destruct (String.eqb s "")
       |destruct l|destruct d]; simpl;
      first [by left|by right]. }
  - rewrite Hl. rewrite legacy_keys_get.
    assert (match dict_get legacy "extra_rules" with
            | Some (PDict nested0) =>
                Validator.dict_update (Validator.dict_update [] top) nested0
            | _ => Validator.dict_update [] top
            end
            = Validator.dict_update (Validator.dict_update [] top) nested)
      as ->.
    { unfold nested, dget.
      by destruct (dict_get legacy "extra_rules") as [[]|]. }
    rewrite dict_update_get by done. rewrite Hrules1.
    by destruct (dict_get nested k).
  - assert (nested = []) as -> by (unfold nested; by rewrite Hl).
    rewrite Hl. simpl.
    destruct (py_or _ _) as [| | | | |d]; try (rewrite Hrules1;
      destruct (dict_get top k); [done|by destruct (decide _)]).
    by destruct (Hn d).
Qed.


(** X14: the rules the worker validates a field with: a key is read from
    the [extra_rules] nested in the legacy [validation] object first, then
    from the top-level [extra_rules], then from the other keys of the
    legacy [validation] object. *)
Theorem merged_rules_precedence field_config k :
  let top := as_dict (dget field_config "extra_rules") in
  let legacy := as_dict (dget field_config "validation") in
  let nested := as_dict (dget legacy "extra_rules") in
  wf_dict top -> wf_dict nested ->
  dict_get (Validator.merged_rules field_config) k
  = match dict_get nested k with
    | Some v => Some v
    | None =>
        match dict_get top k with
        | Some v => Some v
        | None =>
            if decide (k = "extra_rules") then None else dict_get legacy k
        end
    end.
Proof. apply merged_rules_lookup. Qed.

(** The worker reads the rules of a stored field from its [extra_rules]. *)
Lemma stored_rules field_config type rules k :
  stored_field field_config type rules ->
  dict_get (Validator.merged_rules field_config) k = dict_get rules k.
Proof.
  intros (_ & Hextra & Hval & Hwf).
  rewrite merged_rules_lookup; unfold dget; rewrite ?Hextra, ?Hval; simpl;
    [|done|constructor].
  destruct (dict_get rules k); [done|]. by destruct (decide _).
Qed.

Lemma mem_string_elem s (l : list string) : mem_string s l = true <-> s ∈ l.
Proof.
  unfold mem_string. induction l as [|x l IH]; simpl.
  - split; [done|]. by intros ?%elem_of_nil.
  - rewrite orb_true_iff, IH, elem_of_cons, String.eqb_eq. done.
Qed.

(** The worker's dispatch on a value that is not blank, for a type with a
    validator. *)
Lemma worker_dispatch lib field_config v t fn :
  dict_get field_config "type" = Some (PStr t) ->
  py_strip lib v <> "" ->
  Validator.validators lib t = Some fn ->
  Validator.validate_field lib (CStr v) field_config
  = match fn (py_strip lib v) (Validator.merged_rules field_config) t with
    | Ok result => Ok result
    | Raise _ => Ok (Some "Validation failed due to internal error")
    end.
Proof.
  intros Htype Hv Hfn. destruct (not_blank lib v Hv) as (Hblank & _ & _).
  unfold Validator.validate_field, Validator.validate_checked. cbv zeta.
    cbn [Validator.blank Validator.text_of].
  rewrite Hblank, andb_false_r. unfold dget. rewrite Htype. simpl.
  by rewrite Hfn.
Qed.

(** The templates, once normalized, are the keys of the table of the
    portal, and none of them has an empty list of values. *)
Lemma normalized_template s :
  let template := normalize_template s in
  ValidationService.boolean_values_of template = boolean_values template /\
  boolean_values template <> [].
Proof.
  unfold normalize_template.
  repeat (destruct (_ || _); [done|]). done.
Qed.

(** X15: for a boolean field stored with a template, and a value that is
    not blank, the validator of the worker and the validator of the portal
    return, and both take the value exactly when, trimmed and lowered by the
    library, it is one of the values of the template. *)
Theorem boolean_acceptance lib field_config rules t v :
  stored_field field_config "boolean" rules ->
  dict_get rules "template" = Some (PStr t) -> t <> "" ->
  py_strip lib v <> "" ->
  let allowed := boolean_values (normalize_template (py_lower lib t)) in
  (py_lower lib (py_strip lib v) ∈ allowed /\
   Validator.validate_field lib (CStr v) field_config = Ok None /\
   ValidationService.validate_field lib (CStr v) field_config = Ok None) \/
  ((py_lower lib (py_strip lib v) ∉ allowed) /\
   (exists m, Validator.validate_field lib (CStr v) field_config = Ok (Some m)) /\
   (exists m, ValidationService.validate_field lib (CStr v) field_config
              = Ok (Some m))).
Proof.
  intros Hstored Htpl Ht Hv allowed.
  pose proof Hstored as (Htype & Hextra & _ & _).
  destruct (not_blank lib v Hv) as (_ & Hempty & _).
  apply String.eqb_neq in Ht.
  destruct (normalized_template (py_lower lib t)) as [Hof Hne].
  fold allowed in Hof, Hne.
  assert (Validator.validate_field lib (CStr v) field_config
          = if mem_string (py_lower lib (py_strip lib v)) allowed then Ok None
            else Ok (Some ("Must be a valid boolean value ("
                           +:+ display_template
                                 (normalize_template (py_lower lib t))
                           +:+ ")"))) as Hworker.
  { rewrite (worker_dispatch lib field_config v "boolean"
               (fun v r _ => Validator.validate_boolean lib v r)) by done.
    unfold Validator.validate_boolean, dget.
    rewrite !(stored_rules _ _ _ _ Hstored), Htpl. simpl.
    unfold py_or at 2. simpl. rewrite Ht. simpl.
    unfold py_or. simpl. rewrite Ht. simpl. fold allowed.
    by destruct (mem_string _ _). }
  assert (exists m,
            ValidationService.validate_field lib (CStr v) field_config
            = if mem_string (py_lower lib (py_strip lib v)) allowed then Ok None
              else Ok (Some m)) as (m & Hportal).
  { unfold ValidationService.validate_field. cbv zeta.
    rewrite Htype, Hextra. cbn [default from_option id str_lower bind].
    rewrite (portal_required_passes lib v _ _ Hv).
    rewrite Hempty, andb_false_r.
    lower_type lib "boolean".
    assert (truthy (PDict rules) = true) as ->.
    { destruct rules; [done|done]. }
    cbn [obj_get bind]. rewrite Htpl. cbn [default from_option id str_lower bind].
    unfold ValidationService.validate_boolean. rewrite Hempty. cbv zeta.
    rewrite Hof. fold allowed.
    assert (forall l d : list string,
               l <> [] -> match l with [] => d | x :: r => x :: r end = l) as Hmatch.
    { by intros [|? ?] d. }
    rewrite Hmatch by done.
    change (py_str (CStr v)) with v.
    exists (py_format (default (PStr "Field") (dict_get field_config "name"))
            +:+ " must be a valid boolean value ("
            +:+ display_template (normalize_template (py_lower lib t)) +:+ ")").
    by destruct (mem_string _ _). }
  rewrite Hworker, Hportal.
  destruct (mem_string (py_lower lib (py_strip lib v)) allowed) eqn:Hm.
  - left. split; [by apply mem_string_elem|done].
  - right. split; [|eauto]. intros Hin. apply mem_string_elem in Hin. congruence.
Qed.


Lemma lower_all_strings lib (opts : list string) :
  lower_all lib (PStr <$> opts) = Ok (py_lower lib <$> opts).
Proof.
  induction opts as [|o opts IH]; [done|].
  rewrite !fmap_cons. cbn [lower_all str_lower bind]. by rewrite IH.
Qed.

Lemma strings_of_strings (opts : list string) :
  strings_of (PStr <$> opts) = Ok opts.
Proof.
  induction opts as [|o opts IH]; [done|].
  rewrite !fmap_cons. cbn [strings_of bind]. by rewrite IH.
Qed.

(** The select check of both validators on a list of string options. *)
Lemma worker_enum lib field_config rules (opts : list string) v :
  stored_field field_config "select" rules ->
  dict_get rules "options" = Some (PList (PStr <$> opts)) -> opts <> [] ->
  py_strip lib v <> "" ->
  Validator.validate_field lib (CStr v) field_config
  = if mem_string (py_lower lib (py_strip lib v)) (py_lower lib <$> opts)
    then Ok None
    else Ok (Some ("Must be one of: " +:+ join ", " opts)).
Proof.
  intros Hstored Hopts Hne Hv. pose proof Hstored as (Htype & _).
  rewrite (worker_dispatch lib field_config v "select"
             (fun v r _ => Validator.validate_enum lib v r)) by done.
  unfold Validator.validate_enum.
  rewrite (stored_rules _ _ _ _ Hstored), Hopts.
  cbn [default from_option id].
  assert (truthy (PList (PStr <$> opts)) = true) as -> by (by destruct opts).
  cbn [iterate bind]. rewrite lower_all_strings. cbn [bind].
  destruct (mem_string _ _); [reflexivity|].
  rewrite strings_of_strings. reflexivity.
Qed.

Lemma portal_select lib field_config rules (options : pyval)
    (opts : list string) v :
  stored_field field_config "select" rules ->
  dict_get rules "options" = Some options ->
  ValidationService.select_options lib options = PList (PStr <$> opts) ->
  opts <> [] ->
  py_strip lib v <> "" ->
  ValidationService.validate_field lib (CStr v) field_config
  = if mem_string (py_lower lib (py_strip lib v)) (py_lower lib <$> opts)
    then Ok None
    else Ok (Some (py_format (default (PStr "Field")
                                (dict_get field_config "name"))
                   +:+ " must be one of: " +:+ join ", " opts)).
Proof.
  intros (Htype & Hextra & _ & _) Hopts Hsel Hne Hv.
  destruct (not_blank lib v Hv) as (_ & Hempty & _).
  unfold ValidationService.validate_field. cbv zeta.
  rewrite Htype, Hextra. cbn [default from_option id str_lower bind].
  rewrite (portal_required_passes lib v _ _ Hv).
  rewrite Hempty, andb_false_r.
  lower_type lib "select".
  assert (truthy (PDict rules) = true) as -> by (by destruct rules).
  cbn [obj_get bind]. rewrite Hopts. cbn [default from_option id].
  rewrite Hsel.
  assert (truthy (PList (PStr <$> opts)) = true) as Htr by (by destruct opts).
  rewrite Htr. cbv iota. rewrite Htr.
  unfold ValidationService.validate_select. rewrite Hempty.
  cbn [iterate bind]. rewrite lower_all_strings. cbn [bind].
  change (py_str (CStr v)) with v.
  destruct (mem_string _ _); [reflexivity|].
  rewrite strings_of_strings. reflexivity.
Qed.

(** X16: for a select field stored with a list of options, and a value
    that is not blank, the validator of the worker and the validator of the
    portal return, and both take the value exactly when, trimmed and
    lowered by the library, it is one of the options lowered alike. *)
Theorem select_acceptance lib field_config rules (opts : list string) v :
  stored_field field_config "select" rules ->
  dict_get rules "options" = Some (PList (PStr <$> opts)) -> opts <> [] ->
  py_strip lib v <> "" ->
  (py_lower lib (py_strip lib v) ∈ py_lower lib <$> opts /\
   Validator.validate_field lib (CStr v) field_config = Ok None /\
   ValidationService.validate_field lib (CStr v) field_config = Ok None) \/
  ((py_lower lib (py_strip lib v) ∉ py_lower lib <$> opts) /\
   (exists m, Validator.validate_field lib (CStr v) field_config = Ok (Some m)) /\
   (exists m, ValidationService.validate_field lib (CStr v) field_config
              = Ok (Some m))).
Proof.
  intros Hstored Hopts Hne Hv.
  rewrite (worker_enum lib _ _ _ _ Hstored Hopts Hne Hv).
  rewrite (portal_select lib _ _ _ opts _ Hstored Hopts eq_refl Hne Hv).
  destruct (mem_string _ _) eqn:Hm.
  - left. split; [by apply mem_string_elem|done].
  - right. split; [|eauto]. intros Hin. apply mem_string_elem in Hin. congruence.
Qed.

(** X17: for a select field stored with its options in one
    comma-separated string, the two validators differ: the portal takes the
    values that are one of the listed options, case aside, while the worker
    loops over the string and takes only a value that is a single character
    of it, case aside. *)
Theorem select_string_options lib field_config rules s v :
  stored_field field_config "select" rules ->
  dict_get rules "options" = Some (PStr s) -> listed lib s <> [] ->
  py_strip lib v <> "" ->
  (Validator.validate_field lib (CStr v) field_config = Ok None <->
   exists c, c ∈ py_chars lib s /\
             py_lower lib (py_strip lib v) = py_lower lib c) /\
  (ValidationService.validate_field lib (CStr v) field_config = Ok None <->
   py_lower lib (py_strip lib v) ∈ py_lower lib <$> listed lib s).
Proof.
  intros Hstored Hopts Hne Hv. split.
  - pose proof Hstored as (Htype & _).
    rewrite (worker_dispatch lib field_config v "select"
               (fun v r _ => Validator.validate_enum lib v r)) by done.
    unfold Validator.validate_enum.
    rewrite (stored_rules _ _ _ _ Hstored), Hopts.
    cbn [default from_option id].
    assert (truthy (PStr s) = true) as ->.
    { simpl. destruct (String.eqb s "") eqn:Hs; [|done].
      apply String.eqb_eq in Hs. subst s. exfalso. apply Hne.
      unfold listed. change (split "," "") with [""]. simpl.
      rewrite py_strip_empty. done. }
    cbn [iterate bind].
    rewrite lower_all_strings. cbn [bind].
    destruct (mem_string _ _) eqn:Hm.
    + split; [|done]. intros _. apply mem_string_elem in Hm.
      apply list_elem_of_fmap in Hm as (c & Hc & Hin). eauto.
    + split.
      * rewrite strings_of_strings. done.
      * intros (c & Hin & Hc). exfalso.
        assert (mem_string (py_lower lib (py_strip lib v))
                  (py_lower lib <$> py_chars lib s) = true) as Hm'.
        { apply mem_string_elem, list_elem_of_fmap. by exists c. }
        congruence.
  - rewrite (portal_select lib _ _ _ (listed lib s) _ Hstored Hopts eq_refl Hne Hv).
    destruct (mem_string _ _) eqn:Hm.
    + split; [|done]. intros _. by apply mem_string_elem.
    + split; [done|]. intros Hin. apply mem_string_elem in Hin. congruence.
Qed.

(** X18: the worker takes no value of a phone field: the pattern of its
    phone validator does not compile, and every value that is not blank gets
    the message of an internal error. *)
Theorem phone_fails_in_worker lib field_config v :
  dict_get field_config "type" = Some (PStr "phone") ->
  py_strip lib v <> "" ->
  Validator.validate_field lib (CStr v) field_config = Ok (Some internal_error).
Proof.
  intros Htype Hv.
  by rewrite (worker_dispatch lib field_config v "phone"
                (fun v r _ => Validator.validate_phone v r)).
Qed.

(** X19: a value that is not empty and that trimming leaves empty, in a
    field that is not required: the worker takes it whatever the type of
    the field, the portal returns a message for it when the field is an
    e-mail, a phone or a number. *)
Theorem white_space_value lib field_config v :
  truthy (dget field_config "required") = false ->
  v <> "" -> py_strip lib v = "" ->
  Validator.validate_field lib (CStr v) field_config = Ok None /\
  (forall t,
     dict_get field_config "type" = Some (PStr t) ->
     t ∈ ["email"; "phone"; "number"] ->
     exists m, ValidationService.validate_field lib (CStr v) field_config
               = Ok (Some m)).
Proof.
  intros Hreq Hv Hstrip. split.
  - unfold Validator.validate_field, Validator.validate_checked. cbv zeta.
    cbn [Validator.blank Validator.text_of]. rewrite Hreq. simpl.
    rewrite Hstrip. by rewrite orb_true_r.
  - intros t Htype Ht.
    assert (truthy (default (PBool false) (dict_get field_config "required"))
            = false) as Hreq'.
    { unfold dget in Hreq. by destruct (dict_get field_config "required"). }
    apply String.eqb_neq in Hv.
    unfold ValidationService.validate_field. cbv zeta.
    rewrite Htype, Hreq'. cbn [default from_option id str_lower bind negb andb].
    cbn [ValidationService.is_empty]. rewrite Hv.
    repeat (apply elem_of_cons in Ht as [->|Ht]); [| | |by apply elem_of_nil in Ht].
    + lower_type lib "email".
      unfold ValidationService.validate_email.
      cbn [ValidationService.is_empty py_str]. rewrite Hv, Hstrip.
      rewrite (re_email_ascii lib "" eq_refl). eauto.
    + lower_type lib "phone".
      unfold ValidationService.validate_phone.
      cbn [ValidationService.is_empty py_str]. rewrite Hv, Hstrip.
      rewrite (re_phone_ascii lib "" eq_refl). eauto.
    + lower_type lib "number".
      unfold ValidationService.validate_number.
      cbn [ValidationService.is_empty py_str]. rewrite Hv, Hstrip.
      rewrite (py_float_ascii lib "" eq_refl). eauto.
Qed.


Lemma email_acceptance_witness :
  let lib := Reference.basic_lib in
  let v := " ann@example.com " in
  let name := py_format (default (PStr "Field") (dict_get email_field "name")) in
  ((re_email lib (py_strip lib v) = true /\
    Validator.validate_field lib (CStr v) email_field = Ok None /\
    ValidationService.validate_field lib (CStr v) email_field = Ok None) \/
   (re_email lib (py_strip lib v) = false /\
    Validator.validate_field lib (CStr v) email_field
    = Ok (Some "Must be a valid email address") /\
    ValidationService.validate_field lib (CStr v) email_field
    = Ok (Some (name +:+ " must be a valid email address")))) /\
  (isascii v = true ->
   (re_email lib (py_strip lib v) = true <-> email_shape (strip v))).
Proof.
  apply (email_acceptance Reference.basic_lib email_field " ann@example.com ").
  - reflexivity.
  - vm_compute. discriminate.
Defined.

Lemma merged_rules_precedence_witness :
  dict_get (Validator.merged_rules layered_field) "sign"
  = Some (PStr "negative").
Proof.
  apply (merged_rules_precedence layered_field "sign").
  - apply (bool_decide_unpack (NoDup ["sign"])). vm_compute. exact I.
  - apply (bool_decide_unpack (NoDup ["sign"])). vm_compute. exact I.
Defined.

Lemma boolean_acceptance_witness :
  let lib := Reference.basic_lib in
  let v := "Yes" in
  let allowed := boolean_values (normalize_template (py_lower lib "yes/no")) in
  (py_lower lib (py_strip lib v) ∈ allowed /\
   Validator.validate_field lib (CStr v) active_field = Ok None /\
   ValidationService.validate_field lib (CStr v) active_field = Ok None) \/
  ((py_lower lib (py_strip lib v) ∉ allowed) /\
   (exists m, Validator.validate_field lib (CStr v) active_field = Ok (Some m)) /\
   (exists m, ValidationService.validate_field lib (CStr v) active_field
              = Ok (Some m))).
Proof.
  apply (boolean_acceptance Reference.basic_lib active_field
           [("template", PStr "yes/no")] "yes/no" "Yes").
  - repeat split; try reflexivity.
    apply (bool_decide_unpack (NoDup ["template"])). vm_compute. exact I.
  - reflexivity.
  - discriminate.
  - vm_compute. discriminate.
Defined.

Lemma select_acceptance_witness :
  let lib := Reference.basic_lib in
  let v := "green" in
  let opts := ["Red"; "Green"] in
  (py_lower lib (py_strip lib v) ∈ py_lower lib <$> opts /\
   Validator.validate_field lib (CStr v) colour_field = Ok None /\
   ValidationService.validate_field lib (CStr v) colour_field = Ok None) \/
  ((py_lower lib (py_strip lib v) ∉ py_lower lib <$> opts) /\
   (exists m, Validator.validate_field lib (CStr v) colour_field = Ok (Some m)) /\
   (exists m, ValidationService.validate_field lib (CStr v) colour_field
              = Ok (Some m))).
Proof.
  apply (select_acceptance Reference.basic_lib colour_field
           [("options", PList [PStr "Red"; PStr "Green"])] ["Red"; "Green"]
           "green").
  - repeat split; try reflexivity.
    apply (bool_decide_unpack (NoDup ["options"])). vm_compute. exact I.
  - reflexivity.
  - discriminate.
  - vm_compute. discriminate.
Defined.

Lemma select_string_options_witness :
  let lib := Reference.basic_lib in
  let v := "large" in
  (Validator.validate_field lib (CStr v) size_field = Ok None <->
   exists c, c ∈ py_chars lib "small, large" /\
             py_lower lib (py_strip lib v) = py_lower lib c) /\
  (ValidationService.validate_field lib (CStr v) size_field = Ok None <->
   py_lower lib (py_strip lib v) ∈ py_lower lib <$> listed lib "small, large").
Proof.
  apply (select_string_options Reference.basic_lib size_field
           [("options", PStr "small, large")] "small, large" "large").
  - repeat split; try reflexivity.
    apply (bool_decide_unpack (NoDup ["options"])). vm_compute. exact I.
  - reflexivity.
  - vm_compute. discriminate.
  - vm_compute. discriminate.
Defined.

Lemma phone_fails_in_worker_witness :
  Validator.validate_field Reference.basic_lib (CStr "+1 (555) 010-9999")
    Examples.phone_field
  = Ok (Some internal_error).
Proof.
  apply (phone_fails_in_worker Reference.basic_lib Examples.phone_field
           "+1 (555) 010-9999").
  - reflexivity.
  - vm_compute. discriminate.
Defined.

Lemma white_space_value_witness :
  Validator.validate_field Reference.basic_lib (CStr "  ") email_field = Ok None /\
  (forall t,
     dict_get email_field "type" = Some (PStr t) ->
     t ∈ ["email"; "phone"; "number"] ->
     exists m, ValidationService.validate_field Reference.basic_lib (CStr "  ")
                 email_field = Ok (Some m)).
Proof.
  apply (white_space_value Reference.basic_lib email_field "  ").
  - reflexivity.
  - discriminate.
  - reflexivity.
Defined.

End AcceptanceFacts.

(** ** Facts about the conversion of legacy fields *)

Module SchemaFacts.
Import PyFacts DictFacts PyStr Shapes Schema Samples.

Lemma dict_pop_get {V} (d : list (string * V)) k k' :
  dict_get (dict_pop d k) k' = if decide (k = k') then None else dict_get d k'.
Proof.
  unfold dict_pop. induction d as [|[k0 v0] d IH]; simpl.
  - by destruct (decide _).
  - rewrite filter_cons. simpl. destruct (decide (k0 <> k)) as [Hne|Heq].
    + simpl. rewrite IH. destruct (decide (k0 = k')) as [->|_]; [|done].
      by destruct (decide (k = k')).
    + apply dec_stable in Heq. subst k0. rewrite IH.
      destruct (decide (k = k')); done.
Qed.

Lemma dict_pop_absent {V} (d : list (string * V)) k :
  dict_get d k = None -> dict_pop d k = d.
Proof.
  unfold dict_pop. intros Hk. apply filter_all. intros [k0 v0] Hin Heq.
  simpl in Heq. subst k0. induction d as [|[k1 v1] d IH]; [by apply elem_of_nil in Hin|].
  simpl in Hk. destruct (decide (k1 = k)) as [->|Hne]; [done|].
  apply elem_of_cons in Hin as [Heq|Hin]; [congruence|auto].
Qed.

Lemma dict_set_same {V} (d : list (string * V)) k v :
  dict_get d k = Some v -> dict_set d k v = d.
Proof.
  induction d as [|[k0 v0] d IH]; simpl; [done|].
  destruct (decide (k0 = k)) as [->|Hne]; [by intros [= ->]|].
  intros H. by rewrite IH.
Qed.

Lemma has_key_false {V} (d : list (string * V)) k :
  has_key d k = false <-> dict_get d k = None.
Proof.
  unfold has_key. rewrite bool_decide_eq_false. split; intros H.
  - destruct (dict_get d k); [|done]. exfalso. apply H. eauto.
  - rewrite H. by intros [? ?].
Qed.

Lemma has_key_true {V} (d : list (string * V)) k :
  has_key d k = true <-> is_Some (dict_get d k).
Proof. unfold has_key. by rewrite bool_decide_eq_true. Qed.

Lemma dict_set_absent_get (d : jobj) key (v : pyval) k :
  dict_get (if negb (has_key d key) then dict_set d key v else d) k
  = match dict_get d k with
    | Some w => Some w
    | None => if String.eqb k key then Some v else None
    end.
Proof.
  destruct (has_key d key) eqn:Hk; simpl.
  - apply has_key_true in Hk as [w Hw].
    destruct (dict_get d k) eqn:Hd; [done|].
    destruct (String.eqb k key) eqn:Heq; [|done].
    apply String.eqb_eq in Heq. congruence.
  - apply has_key_false in Hk.
    destruct (String.eqb k key) eqn:Heq.
    + apply String.eqb_eq in Heq. subst key.
      by rewrite dict_get_set_eq, Hk.
    + apply String.eqb_neq in Heq.
      rewrite dict_get_set_ne by done. by destruct (dict_get d k).
Qed.

(** The types the conversion looks for. *)
Lemma converted_type_cases (field_type : pyval) :
  field_type = PStr "number" \/ field_type = PStr "date" \/
  field_type = PStr "custom_regex" \/ field_type = PStr "boolean" \/
  field_type = PStr "select" \/
  (is_str field_type "number" = false /\
   is_str field_type "date" = false /\
   is_str field_type "custom_regex" = false /\
   is_str field_type "boolean" = false /\
   is_str field_type "select" = false).
Proof.
  destruct field_type as [| | |t| |]; try (by repeat right).
  simpl.
  destruct (String.eqb t "number") eqn:E1;
    [apply String.eqb_eq in E1; subst; auto|].
  destruct (String.eqb t "date") eqn:E2;
    [apply String.eqb_eq in E2; subst; auto|].
  destruct (String.eqb t "custom_regex") eqn:E3;
    [apply String.eqb_eq in E3; subst; auto 6|].
  destruct (String.eqb t "boolean") eqn:E4;
    [apply String.eqb_eq in E4; subst; auto 6|].
  destruct (String.eqb t "select") eqn:E5;
    [apply String.eqb_eq in E5; subst; auto 8|].
  by repeat right.
Qed.

Ltac decide_types :=
  repeat match goal with
         | |- context [is_str (PStr ?a) ?b] =>
             let r := eval vm_compute in (is_str (PStr a) b) in
             change (is_str (PStr a) b) with r
         end;
  cbn [andb orb].

(** The rules after the conversion, key by key. *)
Lemma converted_rules (e : jobj) (field_type vf tpl : pyval) k :
  let extra1 :=
    if truthy vf then
      if is_str field_type "number" && negb (has_key e "sign")
      then dict_set e "sign" vf
      else if is_str field_type "date" && negb (has_key e "format")
      then dict_set e "format" vf
      else if is_str field_type "custom_regex" && negb (has_key e "pattern")
      then dict_set e "pattern" vf
      else e
    else e in
  let extra2 :=
    if truthy tpl then
      if is_str field_type "boolean" && negb (has_key extra1 "template")
      then dict_set extra1 "template" tpl
      else if is_str field_type "select" && negb (has_key extra1 "options")
      then dict_set extra1 "options" tpl
      else extra1
    else extra1 in
  dict_get extra2 k
  = match dict_get e k with
    | Some v => Some v
    | None => legacy_rule field_type vf tpl k
    end.
Proof.
  intros extra1 extra2. unfold legacy_rule. subst extra2 extra1.
  destruct (converted_type_cases field_type)
    as [->|[->|[->|[->|[->|(H1 & H2 & H3 & H4 & H5)]]]]].
  - decide_types. destruct (truthy vf), (truthy tpl); cbn [andb orb];
      rewrite ?dict_set_absent_get; destruct (dict_get e k); try done;
      by rewrite ?orb_false_r.
  - decide_types. destruct (truthy vf), (truthy tpl); cbn [andb orb];
      rewrite ?dict_set_absent_get; destruct (dict_get e k); try done;
      by rewrite ?orb_false_r.
  - decide_types. destruct (truthy vf), (truthy tpl); cbn [andb orb];
      rewrite ?dict_set_absent_get; destruct (dict_get e k); try done;
      by rewrite ?orb_false_r.
  - decide_types. destruct (truthy vf), (truthy tpl); cbn [andb orb];
      rewrite ?dict_set_absent_get; destruct (dict_get e k); try done;
      by rewrite ?orb_false_r.
  - decide_types. destruct (truthy vf), (truthy tpl); cbn [andb orb];
      rewrite ?dict_set_absent_get; destruct (dict_get e k); try done;
      by rewrite ?orb_false_r.
  - rewrite H1, H2, H3, H4, H5. simpl. rewrite !andb_false_r.
    by destruct (truthy vf), (truthy tpl), (dict_get e k).
Qed.

(** The object the conversion returns: the input with [extra_rules] set
    and the two legacy keys removed. *)
Lemma converted_fields_shape data :
  exists e',
    converted_fields data
    = dict_pop
        (dict_pop (dict_set data "extra_rules" (PDict e')) "validation_format")
        "template" /\
    forall k,
      dict_get e' k
      = match dict_get (as_dict (dget data "extra_rules")) k with
        | Some v => Some v
        | None =>
            legacy_rule (default (PStr "") (dict_get data "type"))
              (dget data "validation_format") (dget data "template") k
        end.
Proof.
  unfold converted_fields. cbv zeta.
  assert (match py_or (dget data "extra_rules") (PDict []) with
          | PDict e => e
          | _ => []
          end = as_dict (dget data "extra_rules")) as ->.
  { unfold py_or. destruct (dget data "extra_rules") as [|b|z|s|l|d]; simpl;
      [|destruct b|destruct (Z.eqb z 0)|destruct (String.eqb s "")
       |destruct l|destruct d]; reflexivity. }
  eexists. split; [reflexivity|]. intros k. apply converted_rules.
Qed.

Lemma converted_fields_get data e' k :
  dict_get
    (dict_pop
       (dict_pop (dict_set data "extra_rules" (PDict e')) "validation_format")
       "template") k
  = if decide (k = "template") then None
    else if decide (k = "validation_format") then None
    else if decide (k = "extra_rules") then Some (PDict e')
    else dict_get data k.
Proof.
  rewrite !dict_pop_get.
  destruct (decide ("template" = k)) as [<-|Hne1]; [done|].
  rewrite (decide_False (P := k = "template")) by congruence.
  destruct (decide ("validation_format" = k)) as [<-|Hne2]; [done|].
  rewrite (decide_False (P := k = "validation_format")) by congruence.
  destruct (decide (k = "extra_rules")) as [->|Hne3].
  - apply dict_get_set_eq.
  - by rewrite dict_get_set_ne.
Qed.

(** X20: what [convert_legacy_fields] returns for the object of a field:
    [extra_rules] is an object that holds every rule it held before,
    unchanged, and in addition the rule the legacy keys stand for under the
    type of the field, where the rules did not have that key (sign for a
    number, format for a date, pattern for a custom_regex from
    [validation_format]; template for a boolean, options for a select from
    [template]); the keys [validation_format] and [template] are gone, and
    every other key is as it was.  An [extra_rules] that is not an object
    counts as empty. *)
Theorem conversion_moves_legacy_keys data :
  let rules := as_dict (dget data "extra_rules") in
  let data' := converted_fields data in
  convert_legacy_fields (PDict data) = PDict data' /\
  exists rules',
    dict_get data' "extra_rules" = Some (PDict rules') /\
    (forall k,
       dict_get rules' k
       = match dict_get rules k with
         | Some v => Some v
         | None =>
             legacy_rule (default (PStr "") (dict_get data "type"))
               (dget data "validation_format") (dget data "template") k
         end) /\
    dict_get data' "validation_format" = None /\
    dict_get data' "template" = None /\
    (forall k, k ∉ ["extra_rules"; "validation_format"; "template"] ->
       dict_get data' k = dict_get data k).
Proof.
  intros rules data'. split; [done|].
  destruct (converted_fields_shape data) as (e' & Hshape & Hrules).
  exists e'. unfold data'. rewrite Hshape.
  split; [by rewrite converted_fields_get|]. split; [exact Hrules|].
  split; [by rewrite converted_fields_get|].
  split; [by rewrite converted_fields_get|].
  intros k Hk. rewrite converted_fields_get.
  rewrite !decide_False; [done|..]; intros ->; apply Hk;
    repeat first [by left|right].
Qed.

(** X21: [convert_legacy_fields] is idempotent: converting a converted
    field changes nothing. *)
Theorem conversion_idempotent data :
  convert_legacy_fields (convert_legacy_fields data)
  = convert_legacy_fields data.
Proof.
  destruct data as [| | | | |d]; try done. simpl. f_equal.
  destruct (converted_fields_shape d) as (e' & Hshape & _).
  set (d' := converted_fields d) in *.
  assert (forall k, dict_get d' k
                    = if decide (k = "template") then None
                      else if decide (k = "validation_format") then None
                      else if decide (k = "extra_rules") then Some (PDict e')
                      else dict_get d k) as Hget.
  { intros k. rewrite Hshape. apply converted_fields_get. }
  unfold converted_fields. cbv zeta. unfold dget.
  rewrite !Hget. simpl.
  assert (match py_or (PDict e') (PDict []) with
          | PDict e => e
          | _ => []
          end = e') as ->.
  { unfold py_or. by destruct e'. }
  rewrite dict_set_same by (by rewrite Hget).
  rewrite (dict_pop_absent d' "validation_format") by (by rewrite Hget).
  by rewrite (dict_pop_absent d' "template") by (by rewrite Hget).
Qed.

(** With no rules of its own, a field of a type other than select gets
    from the conversion the rules the portal would build from its legacy
    keys. *)
Lemma converted_like_legacy data t :
  dict_get data "type" = Some (PStr t) ->
  t ∈ allowed_types -> t <> "select" ->
  truthy (dget data "extra_rules") = false ->
  converted_fields data
  = dict_pop
      (dict_pop
         (dict_set data "extra_rules"
            (PDict (ValidationService.legacy_rules t data)))
         "validation_format")
      "template".
Proof.
  intros Htype Ht Hsel Hfalsy. unfold converted_fields. cbv zeta.
  assert (match py_or (dget data "extra_rules") (PDict []) with
          | PDict e => e
          | _ => []
          end = []) as ->.
  { unfold py_or. by rewrite Hfalsy. }
  rewrite Htype. cbn [default from_option id].
  unfold ValidationService.legacy_rules.
  repeat (apply elem_of_cons in Ht as [->|Ht]);
    try (by apply elem_of_nil in Ht); try done;
    decide_types;
    destruct (truthy (dget data "validation_format")),
             (truthy (dget data "template")); reflexivity.
Qed.

(** The legacy keys are gone after the conversion: the portal builds no
    rule from them. *)
Lemma legacy_rules_converted t data :
  dict_get data "validation_format" = None ->
  dict_get data "template" = None ->
  ValidationService.legacy_rules t data = [].
Proof.
  intros Hvf Htpl. unfold ValidationService.legacy_rules, dget.
  by rewrite Hvf, Htpl.
Qed.

(** The date check reads a format that is not set as the empty format. *)
Lemma validate_date_unset lib value name (fmt : pyval) :
  truthy fmt = false ->
  ValidationService.validate_date lib value name fmt
  = ValidationService.validate_date lib value name PNone.
Proof.
  intros Hf. unfold ValidationService.validate_date, py_or. by rewrite Hf.
Qed.

Ltac absent :=
  let H := fresh in
  intros H; repeat (apply elem_of_cons in H as [H|H]; [discriminate|]);
  by apply elem_of_nil in H.

(** The portal's validator on a converted field of a given type, set
    against the same validator on the legacy field. *)
Lemma conversion_keeps_validation_at lib data t value :
  dict_get data "type" = Some (PStr t) ->
  t ∈ allowed_types -> t <> "select" -> py_lower lib t = t ->
  truthy (dget data "extra_rules") = false ->
  let L := ValidationService.legacy_rules t data in
  (forall name fmt,
     mem_string t ["date"; "datetime"] = true ->
     obj_get (PDict L) "format" = Ok fmt ->
     ValidationService.validate_date lib value name
       (py_or (default PNone fmt) PNone)
     = ValidationService.validate_date lib value name
         (py_or (default PNone fmt) (dget data "validation_format"))) ->
  ValidationService.validate_field lib value (converted_fields data)
  = ValidationService.validate_field lib value data.
Proof.
  intros Htype Ht Hsel Hlower Hfalsy L Hdate.
  rewrite (converted_like_legacy data t Htype Ht Hsel Hfalsy). fold L.
  set (data' := dict_pop (dict_pop (dict_set data "extra_rules" (PDict L)) _) _).
  assert (forall k, dict_get data' k
                    = if decide (k = "template") then None
                      else if decide (k = "validation_format") then None
                      else if decide (k = "extra_rules") then Some (PDict L)
                      else dict_get data k) as Hget.
  { intros k. apply converted_fields_get. }
  assert (truthy (default (PDict []) (dict_get data "extra_rules")) = false)
    as Hfalsy'.
  { unfold dget in Hfalsy. by destruct (dict_get data "extra_rules"). }
  assert ((if truthy (PDict L) then PDict L
           else PDict (ValidationService.legacy_rules t data')) = PDict L)
    as Hleft.
  { rewrite legacy_rules_converted by (by rewrite Hget). by destruct L. }
  assert (forall k, k ∉ ["template"; "validation_format"; "extra_rules"] ->
                    dict_get data' k = dict_get data k) as Hsame.
  { intros k Hk. rewrite Hget.
    rewrite !decide_False; [done|..]; intros ->; apply Hk;
      repeat first [by left|right]. }
  assert (dict_get data' "extra_rules" = Some (PDict L)) as Hextra
      by (by rewrite Hget).
  assert (dict_get data' "validation_format" = None) as Hvf
      by (by rewrite Hget).
  pose proof (Hsame "name" ltac:(absent)) as Hname.
  pose proof (Hsame "type" ltac:(absent)) as Htype'.
  pose proof (Hsame "required" ltac:(absent)) as Hreq.
  pose proof (Hsame "min_value" ltac:(absent)) as Hmin.
  pose proof (Hsame "max_value" ltac:(absent)) as Hmax.
  pose proof (Hsame "options" ltac:(absent)) as Hopt.
  pose proof (Hsame "min_length" ltac:(absent)) as Hminl.
  pose proof (Hsame "max_length" ltac:(absent)) as Hmaxl.
  pose proof (Hsame "pattern" ltac:(absent)) as Hpat.
  unfold ValidationService.validate_field. cbv zeta. unfold dget.
  rewrite Hname, Htype', Hreq, Hmin, Hmax, Hopt, Hminl, Hmaxl, Hpat, Hextra, Hvf.
  rewrite Htype. cbn [default from_option id str_lower bind].
  rewrite Hfalsy', Hlower, Hleft. fold L.
  destruct (if truthy _ then ValidationService.validate_required _ _ _
            else None); [reflexivity|].
  destruct (negb _ && ValidationService.is_empty value); [reflexivity|].
  destruct (mem_string t ["number"; "numeric"; "integer"]); [reflexivity|].
  destruct (String.eqb t "email"); [reflexivity|].
  destruct (String.eqb t "phone"); [reflexivity|].
  destruct (String.eqb t "url"); [reflexivity|].
  destruct (mem_string t ["date"; "datetime"]) eqn:Hd; [|reflexivity].
  destruct (obj_get (PDict L) "format") as [fmt|] eqn:Hfmt; [|reflexivity].
  cbn [bind]. unfold dget in Hdate. by rewrite <- (Hdate _ fmt eq_refl eq_refl).
Qed.

(** X22: for a field of one of the allowed types other than select, with
    no rules of its own, the conversion does not change what the portal's
    validator returns: the converted field is validated as the legacy
    field was. *)
Theorem conversion_keeps_validation lib data t value :
  dict_get data "type" = Some (PStr t) ->
  validate_field_type t = Ok t ->
  t <> "select" ->
  truthy (dget data "extra_rules") = false ->
  ValidationService.validate_field lib value (converted_fields data)
  = ValidationService.validate_field lib value data.
Proof.
  intros Htype Hallowed Hsel Hfalsy.
  assert (t ∈ allowed_types) as Ht.
  { unfold validate_field_type in Hallowed.
    destruct (bool_decide (t ∈ allowed_types)) eqn:Hb; [|done].
    by apply bool_decide_eq_true in Hb. }
  apply (conversion_keeps_validation_at lib data t value Htype Ht Hsel);
    [|done|].
  - repeat (apply elem_of_cons in Ht as [->|Ht]);
      [match goal with
       | |- py_lower lib ?t = _ => by rewrite (py_lower_ascii lib t eq_refl)
       end..|by apply elem_of_nil in Ht].
  - intros name fmt Hd Hfmt.
    assert (t = "date") as ->.
    { repeat (apply elem_of_cons in Ht as [->|Ht]);
        try done; by apply elem_of_nil in Ht. }
    unfold ValidationService.legacy_rules in Hfmt. revert Hfmt.
    cbn [mem_string existsb String.eqb Ascii.eqb Bool.eqb orb andb].
    destruct (truthy (dget data "validation_format")) eqn:Hvf.
    + assert ((if truthy (dget data "template") && false
               then dict_set [("format", dget data "validation_format")]
                      "template" (dget data "template")
               else [("format", dget data "validation_format")])
              = [("format", dget data "validation_format")]) as ->.
      { by rewrite andb_false_r. }
      intros [= <-]. cbn [default from_option id]. unfold py_or. by rewrite Hvf.
    + assert ((if truthy (dget data "template") && false
               then dict_set [] "template" (dget data "template")
               else []) = @nil (string * pyval)) as ->.
      { by rewrite andb_false_r. }
      intros [= <-]. cbn [default from_option id]. unfold py_or.
      cbn [truthy]. symmetry. by apply validate_date_unset.
Qed.

Lemma conversion_keeps_validation_witness :
  ValidationService.validate_field Reference.basic_lib (CStr "-3")
    (converted_fields legacy_amount)
  = ValidationService.validate_field Reference.basic_lib (CStr "-3")
      legacy_amount.
Proof.
  apply (conversion_keeps_validation Reference.basic_lib legacy_amount
           "number" (CStr "-3")).
  - reflexivity.
  - vm_compute. reflexivity.
  - discriminate.
  - reflexivity.
Defined.

End SchemaFacts.

(** ** Facts about the status of an import and the re-validation of its
    conflicts *)

Module EndpointFacts.
Import PyFacts Imports ApiWorker Endpoints Finished WorkerRunFacts Samples.

(** X23: the status endpoint after the worker: for a job that
    [process_api_import] does not mark FAILED, it reports results only when
    no row is in conflict, and then all rows as valid, no error and no
    [status_details]; when a row is in conflict the job is UNCOMPLETED and
    the answer carries no results, only the status and an error text. *)
Theorem status_of_finished_import lib job imp frame :
  let p := process_api_import lib job (Some imp) (Some frame) in
  let total := Z.of_nat (length (df_rows frame)) in
  status (job_done p) <> FAILED ->
  (errors (job_done p) = Some [] /\
   get_import_status (job_done p) = Results total total 0 [] false) \/
  (exists es msg warning,
     errors (job_done p) = Some es /\ es <> [] /\
     get_import_status (job_done p) = Failure UNCOMPLETED msg warning).
Proof.
  intros p total Hp.
  destruct (process_finished lib job imp frame (or_introl Hp))
    as (job1 & columns & es & Hes & _ & Hjob & _).
  fold p in Hjob.
  pose proof (finalize_rows job1 es _ (ApiWorker.df_columns frame) Hes) as (H1 & H2 & _ & H4 & _ & H6 & H7).
  rewrite <- Hjob in H1, H2, H4, H6, H7.
  unfold get_import_status. destruct es as [|e es].
  - left. split; [done|].
    assert (status (job_done p) = COMPLETED) as Hc by (by apply H6).
    rewrite Hc, H1, H2, H4. simpl. by rewrite Z.sub_0_r.
  - right. assert (status (job_done p) = UNCOMPLETED) as Hu by (by apply H7).
    rewrite Hu. simpl. eauto 10.
Qed.

Section Revalidation.

Variable validate_field : cell -> jobj -> outcome (option string).

(** An error without a field key is skipped. *)
Lemma remaining_conflicts_no_field job cfgs data es :
  Forall (fun e => c_field e = None) es ->
  remaining_conflicts validate_field job cfgs data es = Some [].
Proof.
  induction 1 as [|e es He _ IH]; [done|].
  simpl. unfold revalidate_conflict. rewrite He.
  destruct (c_row e); by rewrite IH.
Qed.

(** X24: the re-validation of the conflicts looks only at conflicts that
    carry the key [field].  The conflicts the worker writes carry [column]
    instead: for a job that [process_api_import] leaves with conflicts, the
    endpoint reports every conflict as resolved, whatever data it is sent. *)
Theorem worker_conflicts_count_as_resolved lib job imp frame cfgs data :
  let p := process_api_import lib job (Some imp) (Some frame) in
  let es := default [] (errors (job_done p)) in
  status (job_done p) = UNCOMPLETED ->
  field_configs_by_name (fields imp) = Ok cfgs ->
  validate_conflicts validate_field (Some (job_done p)) (Some imp) data
  = Answer (mkRemaining [] (Some (Z.of_nat (length es)))).
Proof.
  intros p es Hst Hcfgs.
  destruct (process_finished lib job imp frame)
    as (job1 & columns & es' & Hes & Hnofield & Hjob & _).
  { left. fold p. by rewrite Hst. }
  fold p in Hjob.
  pose proof (finalize_rows job1 es' _ (ApiWorker.df_columns frame) Hes) as (H1 & _ & _ & _ & _ & _ & H7).
  rewrite <- Hjob in H1, H7.
  assert (es = es') as <- by (unfold es; by rewrite H1).
  unfold validate_conflicts. fold es.
  destruct es as [|e es0] eqn:Hes0; [by apply H7 in Hst|].
  rewrite Hcfgs, remaining_conflicts_no_field by done.
  cbn [length]. rewrite Z.sub_0_r. reflexivity.
Qed.

(** A conflict that remains is an original one with a field, a
    configuration for it and a message of the validator. *)
Lemma revalidate_conflict_remains job cfgs data e e' :
  revalidate_conflict validate_field job cfgs data e = Some (Some e') ->
  exists f cfg v m,
    c_field e = Some f /\ cfgs !! f = Some cfg /\
    validate_field v cfg = Ok (Some m) /\ truthy_str m = true /\
    e' = revalidated e v m.
Proof.
  unfold revalidate_conflict. intros H.
  destruct (c_row e) as [[|n]|]; [by destruct (c_field e)| |done].
  destruct (c_field e) as [f|]; [|done].
  destruct (file_metadata job) as [hs|]; [|done].
  cbv zeta in H. destruct (fst <$> find _ _) as [h|]; [|done].
  destruct (truthy_str h && bool_decide (h ∈ hs)); [|done].
  destruct (bool_decide (n - 1 < Z.of_nat (length data))); [|done].
  destruct (py_index data (n - 1)) as [row|]; [|done].
  destruct (row !! index_of h hs) as [v|]; [|done].
  destruct (cfgs !! f) as [[|c cfg]|] eqn:Hcfg; [done| |done].
  destruct (validate_field v (c :: cfg)) as [[m|]|] eqn:Hv; [|done..].
  destruct (truthy_str m) eqn:Hm; [|done].
  injection H as <-. by exists f, (c :: cfg), v, m.
Qed.

Lemma remaining_conflicts_spec job cfgs data es r :
  remaining_conflicts validate_field job cfgs data es = Some r ->
  (conflict_key <$> r) `sublist_of` (conflict_key <$> es) /\
  Forall (fun e' =>
            exists e f cfg v m,
              e ∈ es /\ c_field e = Some f /\ cfgs !! f = Some cfg /\
              validate_field v cfg = Ok (Some m) /\ truthy_str m = true /\
              e' = revalidated e v m) r.
Proof.
  revert r. induction es as [|e es IH]; simpl; intros r H.
  - injection H as <-. split; [done|constructor].
  - destruct (revalidate_conflict validate_field job cfgs data e)
      as [o|] eqn:He; [|done].
    destruct (remaining_conflicts validate_field job cfgs data es)
      as [later|]; [|done].
    injection H as <-. destruct (IH later eq_refl) as [Hsub Hall].
    assert (Forall (fun e' =>
                      exists e0 f cfg v m,
                        e0 ∈ e :: es /\ c_field e0 = Some f /\
                        cfgs !! f = Some cfg /\
                        validate_field v cfg = Ok (Some m) /\
                        truthy_str m = true /\ e' = revalidated e0 v m) later)
      as Hlater.
    { eapply Forall_impl; [exact Hall|].
      intros e' (e0 & f & cfg & v & m & Hin & Hrest).
      exists e0, f, cfg, v, m. split; [by right|done]. }
    destruct o as [e'|].
    + apply revalidate_conflict_remains in He
        as (f & cfg & v & m & Hf & Hcfg & Hv & Hm & ->).
      split.
      * simpl. by apply sublist_skip.
      * constructor; [|done]. exists e, f, cfg, v, m. split; [left|done].
    + split; [|done]. simpl. by apply sublist_cons.
Qed.

(** X25: the conflicts the re-validation reports as remaining are
    original conflicts, in their order, each with the value it was sent and
    the message the validator returns for that value under the
    configuration of the conflict's field; no row and field occurs more
    often than before, and [resolved_count] is the number of original
    conflicts that are not reported, which is not negative. *)
Theorem remaining_conflicts_are_original job imp data r n :
  let es := default [] (errors job) in
  validate_conflicts validate_field (Some job) (Some imp) data
    = Answer (mkRemaining r (Some n)) ->
  n = Z.of_nat (length es) - Z.of_nat (length r) /\ 0 <= n /\
  (conflict_key <$> r) `sublist_of` (conflict_key <$> es) /\
  (conflicts_unique es -> conflicts_unique r) /\
  exists cfgs,
    field_configs_by_name (fields imp) = Ok cfgs /\
    Forall (fun e' =>
              exists e f cfg v m,
                e ∈ es /\ c_field e = Some f /\ cfgs !! f = Some cfg /\
                validate_field v cfg = Ok (Some m) /\ truthy_str m = true /\
                e' = revalidated e v m) r.
Proof.
  intros es H. unfold validate_conflicts in H. fold es in H.
  destruct es as [|e0 es0] eqn:Hes; [by injection H|]. rewrite <- Hes in *.
  destruct (field_configs_by_name (fields imp)) as [cfgs|]; [|done].
  destruct (remaining_conflicts validate_field job cfgs data es)
    as [r'|] eqn:Hr; [|done].
  injection H as <- <-.
  destruct (remaining_conflicts_spec _ _ _ _ _ Hr) as [Hsub Hall].
  pose proof (sublist_length _ _ Hsub) as Hlen. rewrite !length_fmap in Hlen.
  split; [done|]. split; [lia|]. split; [done|].
  split; [intros Hu; by eapply sublist_NoDup|].
  by exists cfgs.
Qed.

End Revalidation.

Lemma status_of_finished_import_witness :
  let p := process_api_import Reference.basic_lib Examples.unmapped
             (Some Examples.notifying) (Some contacts_frame) in
  (errors (job_done p) = Some [] /\
   get_import_status (job_done p) = Results 2 2 0 [] false) \/
  (exists es msg warning,
     errors (job_done p) = Some es /\ es <> [] /\
     get_import_status (job_done p) = Failure UNCOMPLETED msg warning).
Proof.
  apply (status_of_finished_import Reference.basic_lib Examples.unmapped
           Examples.notifying contacts_frame).
  vm_compute. discriminate.
Defined.

Lemma worker_conflicts_count_as_resolved_witness :
  let p := process_api_import Reference.basic_lib Examples.unmapped
             (Some Examples.notifying) (Some contacts_frame) in
  validate_conflicts Reference.validate_field (Some (job_done p))
    (Some Examples.notifying) [[CStr "Ann"]; [CStr ""]]
  = Answer (mkRemaining [] (Some 1)).
Proof.
  apply (worker_conflicts_count_as_resolved Reference.validate_field
           Reference.basic_lib Examples.unmapped Examples.notifying
           contacts_frame (<["name" := Examples.name_field]> ∅)
           [[CStr "Ann"]; [CStr ""]]).
  - vm_compute. reflexivity.
  - reflexivity.
Defined.

Lemma remaining_conflicts_are_original_witness :
  let es := default [] (errors Examples.two_rows) in
  let r := [revalidated (Examples.name_required 1) (CStr "")
              "name is required"] in
  0 = Z.of_nat (length es) - Z.of_nat (length r) /\ 0 <= 0 /\
  (conflict_key <$> r) `sublist_of` (conflict_key <$> es) /\
  (conflicts_unique es -> conflicts_unique r) /\
  exists cfgs,
    field_configs_by_name (fields Examples.contacts) = Ok cfgs /\
    Forall (fun e' =>
              exists e f cfg v m,
                e ∈ es /\ c_field e = Some f /\ cfgs !! f = Some cfg /\
                Reference.validate_field v cfg = Ok (Some m) /\
                truthy_str m = true /\
                e' = revalidated e v m) r.
Proof.
  apply (remaining_conflicts_are_original Reference.validate_field
           Examples.two_rows Examples.contacts [[CStr "Ann"]; [CStr ""]]).
  vm_compute. reflexivity.
Defined.

End EndpointFacts.
